(** * FedChecker: the check / result / score aggregation model

    A shallow embedding of the core of the FedChecker sources
    ([fedchecker/ui/colors.py], [fedchecker/ui/menu.py],
    [fedchecker/checks/*.py], [fedchecker/fixes/*.py],
    [fedchecker/reports/*.py], [fedchecker/main.py]) together with the
    properties its specification states about them.

    Conventions of the embedding:
    - Python [int] counts are [nat]; a Python [float] is the rational it
      denotes ([Q]), so [==] on floats is [Qeq]: the floats the probes read
      from the machine are compared as they are, and where the program
      computes with floats every operation rounds as binary64 does
      ([Double]);
    - Python [str] is [string]; a dataclass is a [Record];
    - an [Enum] is an inductive type. *)

From Stdlib Require Import String Ascii List Bool Arith ZArith QArith Qabs Qround
  Qpower Lia Lqa Permutation.
From Stdlib Require DecimalString OctalString Floats Uint63.
Import ListNotations.

Local Open Scope string_scope.

(** ** [fedchecker/ui/colors.py] *)

(** [class CheckStatus(Enum)] *)
Inductive CheckStatus : Type :=
| PASS
| FAIL
| WARN
| SKIP
| ERROR.

Definition CheckStatus_eq_dec (a b : CheckStatus) : {a = b} + {a <> b}.
Proof. decide equality. Defined.

(** [==] on two members of the enumeration. *)
Definition status_eqb (a b : CheckStatus) : bool :=
  if CheckStatus_eq_dec a b then true else false.

(** [@dataclass class CheckResult]; the last three fields have the defaults
    [""], [False] and [""]. *)
Record CheckResult : Type := mkCheckResult {
  name : string;
  status : CheckStatus;
  message : string;
  details : string;
  fix_available : bool;
  fix_command : string
}.

(** [CheckResult(name=..., status=..., message=...)]: every optional field
    takes its default. *)
Definition CheckResult3 (n : string) (s : CheckStatus) (m : string) : CheckResult :=
  mkCheckResult n s m "" false "".

(** [CheckResult(name=..., status=..., message=..., details=...)]. *)
Definition CheckResult4 (n : string) (s : CheckStatus) (m d : string) : CheckResult :=
  mkCheckResult n s m d false "".

(** [@dataclass class CheckCategory]. *)
Record CheckCategory : Type := mkCheckCategory {
  cat_name : string;
  icon : string;
  results : list CheckResult
}.

(** [sum(1 for r in self.results if r.status == s)]. *)
Definition count_status (s : CheckStatus) (rs : list CheckResult) : nat :=
  list_sum (map (fun _ => 1%nat) (filter (fun r => status_eqb (status r) s) rs)).

Definition passed (c : CheckCategory) : nat := count_status PASS (results c).
Definition failed (c : CheckCategory) : nat := count_status FAIL (results c).
Definition warnings (c : CheckCategory) : nat := count_status WARN (results c).
Definition total (c : CheckCategory) : nat := length (results c).

(** *** Python floats

    A Python [float] is an IEEE 754 binary64 number.  It is read here as the
    rational it denotes, and every operation on floats rounds its exact
    result to the nearest number with a significand of 53 bits, ties going
    to the even significand, as the hardware does.  The range of the
    exponent is not written out: the floats of this program are made from
    counts of list entries and the constants 0.5, 1.0 and 100, and lie far
    inside it. *)
Module Double.

Definition pow2 (e : Z) : Q := 2 ^ e.

(** The [e] with [2 ^ e <= q < 2 ^ (e + 1)], for [0 < q]. *)
Definition binade (q : Q) : Z :=
  let k := (Z.log2 (Qnum q) - Z.log2 (Zpos (Qden q)))%Z in
  if Qle_bool (pow2 k) q then k else (k - 1)%Z.

(** The integer nearest to [q], the even one of two that are equally
    near. *)
Definition nearest_even (q : Q) : Z :=
  let f := Qfloor q in
  match Qcompare (q - inject_Z f) (1 # 2) with
  | Lt => f
  | Gt => (f + 1)%Z
  | Eq => if Z.even f then f else (f + 1)%Z
  end.

(** The float nearest to [q], for [0 < q]: [q] lies in the binade of [e], in
    which the floats are the multiples of [2 ^ (e - 52)]. *)
Definition nearest (q : Q) : Q :=
  let ulp := pow2 (binade q - 52) in
  inject_Z (nearest_even (q / ulp)) * ulp.

(** Rounding to binary64. *)
Definition round (q : Q) : Q :=
  let q := Qred q in
  match Qnum q with
  | Z0 => 0
  | Zpos _ => nearest q
  | Zneg _ => - nearest (- q)
  end.

(** [float(n)] for an [int], and the operations of the program.  [div] is
    never reached with a divisor 0 here. *)
Definition of_int (n : nat) : Q := round (inject_Z (Z.of_nat n)).
Definition add (x y : Q) : Q := round (x + y).
Definition mul (x y : Q) : Q := round (x * y).
Definition div (x y : Q) : Q := round (x / y).
End Double.

(** The rational a Python [int] denotes. *)
Definition float_of_int (n : nat) : Q := inject_Z (Z.of_nat n).

(** [CheckCategory.score]: [self.total == 0] gives [100.0]; otherwise the
    counts are converted to floats and each operation rounds. *)
Definition score (c : CheckCategory) : Q :=
  if Nat.eqb (total c) 0 then 100
  else
    let passed_weight := Double.mul (Double.of_int (passed c)) 1 in
    let warn_weight := Double.mul (Double.of_int (warnings c)) (1 # 2) in
    Double.mul
      (Double.div (Double.add passed_weight warn_weight)
         (Double.of_int (total c)))
      100.

(** [CheckCategory.overall_status]. *)
Definition overall_status (c : CheckCategory) : CheckStatus :=
  if Nat.ltb 0 (failed c) then FAIL
  else if Nat.ltb 0 (warnings c) then WARN
  else PASS.

(** *** The score on the hardware

    [score] computes with the rounding of binary64 written out.
    [Binary64.score] is the same expression on the floats of the machine
    that runs the proof checker, which are IEEE 754 binary64 as those of
    the interpreter are: an [int] operand of a float operation is
    converted first, and [value] is the rational a finite float denotes. *)
Module Binary64.
Import Floats.

(** [float(n)] for a count [n]. *)
Definition of_int (n : nat) : float :=
  PrimFloat.of_uint63 (Uint63.of_Z (Z.of_nat n)).

(** The arithmetic of [CheckCategory.score] on the three counts. *)
Definition score3 (n_passed n_warnings n_total : nat) : float :=
  if Nat.eqb n_total 0 then 100%float
  else
    let passed_weight := (of_int n_passed * 1)%float in
    let warn_weight := (of_int n_warnings * 0.5)%float in
    ((passed_weight + warn_weight) / of_int n_total * 100)%float.

(** [CheckCategory.score]. *)
Definition score (c : CheckCategory) : float :=
  score3 (passed c) (warnings c) (total c).

Definition value (x : float) : option Q :=
  match Prim2SF x with
  | S754_zero _ => Some 0
  | S754_finite negative m e =>
      let v := inject_Z (Zpos m)
               * (if (0 <=? e)%Z then inject_Z (2 ^ e) else / inject_Z (2 ^ (- e))) in
      Some (if negative then - v else v)
  | S754_infinity _ | S754_nan => None
  end.

(** [x <= y] and [x == y] on floats, and the floats [0.0] and [100.0]. *)
Definition leb (x y : float) : bool := PrimFloat.leb x y.
Definition eqb (x y : float) : bool := PrimFloat.eqb x y.
Definition zero : float := 0%float.
Definition hundred : float := 100%float.

End Binary64.

(** *** The specification's reading of the score

    The glossary describes the score as a weighted pass rate: every result
    weighs 1 when it passed, one half when it warned and nothing otherwise. *)
Definition weight (s : CheckStatus) : Q :=
  match s with
  | PASS => 1
  | WARN => 1 # 2
  | FAIL | SKIP | ERROR => 0
  end.

Fixpoint weight_sum (rs : list CheckResult) : Q :=
  match rs with
  | [] => 0
  | r :: rs' => weight (status r) + weight_sum rs'
  end.

(** The number of results of a category that carry a given status. *)
Definition occurrences (s : CheckStatus) (c : CheckCategory) : nat :=
  count_occ CheckStatus_eq_dec (map status (results c)) s.

(** A category whose results carry the given statuses, in order. *)
Definition category_of (ss : list CheckStatus) : CheckCategory :=
  mkCheckCategory "Health Check" "[bold green]H[/]"
    (map (fun s => CheckResult3 "probe" s "message") ss).

(** ** Python strings

    The string methods the sources use, on byte strings. *)
Module PyStr.

Definition LF : string := String (ascii_of_nat 10) "".
Definition TAB : string := String (ascii_of_nat 9) "".

(** [bool(s)]. *)
Definition truthy (s : string) : bool := negb (String.eqb s "").

(** [s.startswith(p)]. *)
Definition startswith (p s : string) : bool := String.prefix p s.

(** [sub in s]. *)
Fixpoint contains (sub s : string) : bool :=
  if String.prefix sub s then true
  else match s with
       | EmptyString => false
       | String _ s' => contains sub s'
       end.

Definition lower_ascii (c : ascii) : ascii :=
  let n := nat_of_ascii c in
  if (65 <=? n)%nat && (n <=? 90)%nat then ascii_of_nat (n + 32) else c.

Definition upper_ascii (c : ascii) : ascii :=
  let n := nat_of_ascii c in
  if (97 <=? n)%nat && (n <=? 122)%nat then ascii_of_nat (n - 32) else c.

Fixpoint map_chars (f : ascii -> ascii) (s : string) : string :=
  match s with
  | EmptyString => EmptyString
  | String c s' => String (f c) (map_chars f s')
  end.

(** [s.lower()] and [s.upper()]. *)
Definition lower : string -> string := map_chars lower_ascii.
Definition upper : string -> string := map_chars upper_ascii.

(** [c.isspace()]. *)
Definition is_space (c : ascii) : bool :=
  let n := nat_of_ascii c in
  ((9 <=? n)%nat && (n <=? 13)%nat)
  || ((28 <=? n)%nat && (n <=? 32)%nat).

(** [s.lstrip()], [s.rstrip()] and [s.strip()]. *)
Fixpoint lstrip (s : string) : string :=
  match s with
  | String c s' => if is_space c then lstrip s' else s
  | EmptyString => EmptyString
  end.

Fixpoint rstrip (s : string) : string :=
  match s with
  | EmptyString => EmptyString
  | String c s' =>
      match rstrip s' with
      | EmptyString => if is_space c then EmptyString else String c EmptyString
      | t => String c t
      end
  end.

Definition strip (s : string) : string := rstrip (lstrip s).

(** [s.split(sep)] for a separator of one character: the pieces between the
    separators, the empty ones included. *)
Fixpoint split_on (sep : ascii) (s : string) : list string :=
  match s with
  | EmptyString => [EmptyString]
  | String c s' =>
      if Ascii.eqb c sep then EmptyString :: split_on sep s'
      else match split_on sep s' with
           | [] => [String c EmptyString]
           | w :: ws => String c w :: ws
           end
  end.

(** [s.split('\n')]. *)
Definition lines (s : string) : list string := split_on (ascii_of_nat 10) s.

(** [s.split()]: the maximal runs of characters that are not white space. *)
Fixpoint words_from (cur : string) (s : string) : list string :=
  match s with
  | EmptyString => if truthy cur then [cur] else []
  | String c s' =>
      if is_space c
      then if truthy cur then cur :: words_from EmptyString s'
           else words_from EmptyString s'
      else words_from (cur ++ String c EmptyString) s'
  end.

Definition split (s : string) : list string := words_from EmptyString s.

(** [sep.join(xs)]. *)
Definition join (sep : string) (xs : list string) : string := String.concat sep xs.

(** [s[:n]]. *)
Definition take (n : nat) (s : string) : string := String.substring 0 n s.

(** [str(n)] for a natural number. *)
Definition str_int (n : nat) : string :=
  DecimalString.NilEmpty.string_of_uint (Nat.to_uint n).

(** [s.count(sub)] for a non-empty [sub]: the occurrences found from left
    to right without overlap ([skip] characters of the last one remain). *)
Fixpoint count_skip (sub : string) (skip : nat) (s : string) : nat :=
  match s with
  | EmptyString => 0
  | String _ s' =>
      match skip with
      | S k => count_skip sub k s'
      | O =>
          if String.prefix sub s
          then S (count_skip sub (String.length sub - 1) s')
          else count_skip sub 0 s'
      end
  end.

Definition count (sub s : string) : nat := count_skip sub 0 s.

(** [s.replace(old, new)] for a non-empty [old]. *)
Fixpoint replace_skip (old new : string) (skip : nat) (s : string) : string :=
  match s with
  | EmptyString => EmptyString
  | String c s' =>
      match skip with
      | S k => replace_skip old new k s'
      | O =>
          if String.prefix old s
          then new ++ replace_skip old new (String.length old - 1) s'
          else String c (replace_skip old new 0 s')
      end
  end.

Definition replace (old new s : string) : string := replace_skip old new 0 s.

(** [s.strip(chars)] for the one character [c]. *)
Fixpoint lstrip_char (c : ascii) (s : string) : string :=
  match s with
  | String d s' => if Ascii.eqb d c then lstrip_char c s' else s
  | EmptyString => EmptyString
  end.

Fixpoint rstrip_char (c : ascii) (s : string) : string :=
  match s with
  | EmptyString => EmptyString
  | String d s' =>
      match rstrip_char c s' with
      | EmptyString => if Ascii.eqb d c then EmptyString else String d EmptyString
      | t => String d t
      end
  end.

Definition strip_char (c : ascii) (s : string) : string :=
  rstrip_char c (lstrip_char c s).

(** [s.rsplit(sep, 1)[-1]]: what follows the last separator. *)
Definition after_last (sep : ascii) (s : string) : string :=
  List.last (split_on sep s) EmptyString.

(** [os.path.basename(p)]. *)
Definition basename (p : string) : string := after_last "/"%char p.

(** [int(s)] for a string of decimal digits. *)
Definition digit_value (c : ascii) : nat := nat_of_ascii c - 48.

Fixpoint int_from (acc : nat) (s : string) : nat :=
  match s with
  | EmptyString => acc
  | String c s' => int_from (10 * acc + digit_value c) s'
  end.

Definition int (s : string) : nat := int_from 0 s.

(** [oct(n)]. *)
Definition oct (n : Z) : string := OctalString.of_Z n.

End PyStr.

(** ** Python exceptions *)

(** The exception classes that occur in the sources.  [KeyboardInterrupt],
    [SystemExit] and [GeneratorExit] derive from [BaseException] only; every
    other class derives from [Exception]. *)
Inductive ExcClass : Type :=
| KeyboardInterrupt
| SystemExit
| GeneratorExit
| PermissionError
| FileNotFoundError
| TimeoutExpired
| NoSuchProcess
| AccessDenied
| IndexError
| OtherException.

(** A raised exception: its class and [str(e)]. *)
Record PyExc : Type := mkExc {
  exc_class : ExcClass;
  exc_str : string
}.

Definition ExcClass_eq_dec (a b : ExcClass) : {a = b} + {a <> b}.
Proof. decide equality. Defined.

(** [isinstance(e, cls)] for one of the leaf classes above. *)
Definition is_class (cls : ExcClass) (e : PyExc) : bool :=
  if ExcClass_eq_dec (exc_class e) cls then true else false.

(** [isinstance(e, Exception)]. *)
Definition is_Exception (e : PyExc) : bool :=
  match exc_class e with
  | KeyboardInterrupt | SystemExit | GeneratorExit => false
  | _ => true
  end.

(** What evaluating a Python expression yields: a value, or an exception on
    its way up. *)
Inductive Outcome (A : Type) : Type :=
| Returned (a : A)
| Raised (e : PyExc).

Arguments Returned {A} a.
Arguments Raised {A} e.

Definition bind {A B : Type} (m : Outcome A) (k : A -> Outcome B) : Outcome B :=
  match m with
  | Returned a => k a
  | Raised e => Raised e
  end.

(** [try: body  except ...]: [handlers e] is the body of the first [except]
    clause that matches [e], if one does. *)
Definition try_except {A : Type} (body : Outcome A)
    (handlers : PyExc -> option (Outcome A)) : Outcome A :=
  match body with
  | Returned a => Returned a
  | Raised e =>
      match handlers e with
      | Some h => h
      | None => Raised e
      end
  end.

(** One [except cls as e: h e] clause. *)
Definition except {A : Type} (cls : PyExc -> bool) (h : PyExc -> Outcome A)
    : PyExc -> option (Outcome A) :=
  fun e => if cls e then Some (h e) else None.

(** Two lists of [except] clauses, one after the other. *)
Definition or_except {A : Type} (h1 h2 : PyExc -> option (Outcome A))
    : PyExc -> option (Outcome A) :=
  fun e => match h1 e with
           | Some h => Some h
           | None => h2 e
           end.

(** [[f(x) for x in xs]] where [f] may raise. *)
Fixpoint map_raising {A B : Type} (f : A -> Outcome B) (xs : list A)
    : Outcome (list B) :=
  match xs with
  | [] => Returned []
  | x :: xs' =>
      match f x with
      | Returned y =>
          match map_raising f xs' with
          | Returned ys => Returned (y :: ys)
          | Raised e => Raised e
          end
      | Raised e => Raised e
      end
  end.

Declare Scope py_scope.
Delimit Scope py_scope with py.
Notation "x <- m ;; k" := (bind m (fun x => k))
  (at level 61, m at next level, right associativity) : py_scope.
Notation "' p <- m ;; k" := (bind m (fun x => match x with p => k end))
  (at level 61, p pattern, m at next level, right associativity) : py_scope.


(** [bool(xs)] for a list. *)
Definition nonempty {A : Type} (xs : list A) : bool :=
  match xs with
  | [] => false
  | _ :: _ => true
  end.

(** [StatusIcon]: the icons of the categories, of the menu and of the
    statuses. *)
Module StatusIcon.
Definition HEALTH : string := "[bold green]🏥[/]".
Definition DRIVER : string := "[bold yellow]🔧[/]".
Definition SECURITY : string := "[bold red]🛡️[/]".
Definition DESKTOP : string := "[bold blue]🖥️[/]".
Definition ROCKET : string := "[bold magenta]🚀[/]".
Definition FIX : string := "[bold cyan]🔄[/]".
Definition REPORT : string := "[bold white]📊[/]".
Definition SETTINGS : string := "[dim]⚙️[/]".
Definition EXIT : string := "[dim]🚪[/]".
Definition PASS : string := "[bold green]✓[/]".
Definition FAIL : string := "[bold red]✗[/]".
Definition WARN : string := "[bold yellow]⚠[/]".
Definition INFO : string := "[bold blue]ℹ[/]".
Definition SKIP : string := "[dim]○[/]".
End StatusIcon.

(** ** The machine as the probes see it *)

(** The values [psutil] hands out, with the fields the probes read. *)
Module psutil.
Record sdiskpart : Type := { fstype : string; mountpoint : string }.
Record svmem : Type := { vm_percent : Q; available : Z }.
Record shwtemp : Type := { current : Q }.
Record sswap : Type := { swap_total : Z; swap_percent : Q }.
Record pinfo : Type := { pid : nat; pname : string; pstatus : string }.
Definition STATUS_ZOMBIE : string := "zombie".
End psutil.

(** [subprocess.CompletedProcess] with captured text output. *)
Record CompletedProcess : Type := {
  returncode : Z;
  stdout : string;
  stderr : string
}.

(** The flags of [re]. *)
Inductive ReFlag : Type :=
| MULTILINE
| IGNORECASE.

(** What the probes read from the machine.  A call that may raise yields an
    [Outcome].
    - [psutil_disk_usage p] is [psutil.disk_usage(p).percent];
    - [psutil_process_iter] lists, for every process, what reading
      [proc.info] yields;
    - [subprocess_run cmd timeout] is
      [subprocess.run(cmd, capture_output=True, text=True, timeout=timeout)]
      and [subprocess_run_C] the same call with
      [env={**os.environ, "LC_ALL": "C"}];
    - [Path_exists p], [Path_is_file p], [Path_read_text p], [Path_iterdir p],
      [Path_glob p pat] and [Path_stat_mode p] are the methods of [Path(p)]
      ([Path(p).stat().st_mode] for the last), [open_lines p] the lines read
      from [open(p)];
    - [os_access_R p] is [os.access(p, os.R_OK)];
    - [re_search pat flags s] and [re_match pat flags s] are the groups of the
      match object, if there is one, and [re_findall pat flags s] the list
      [re.findall] returns (the patterns used have at most one group);
    - [str_float x] is how an f-string renders the float [x] and
      [format_f n x] how it renders it under [:.nf]. *)
Record System : Type := {
  psutil_disk_partitions : Outcome (list psutil.sdiskpart);
  psutil_disk_usage : string -> Outcome Q;
  psutil_virtual_memory : Outcome psutil.svmem;
  psutil_sensors_temperatures : Outcome (list (string * list psutil.shwtemp));
  psutil_swap_memory : Outcome psutil.sswap;
  psutil_process_iter : Outcome (list (Outcome psutil.pinfo));
  os_getloadavg : Outcome (Q * Q * Q);
  os_cpu_count : option nat;
  subprocess_run : list string -> nat -> Outcome CompletedProcess;
  subprocess_run_C : list string -> nat -> Outcome CompletedProcess;
  os_environ_get : string -> option string;
  os_path_exists : string -> bool;
  os_readlink : string -> Outcome string;
  os_access_R : string -> bool;
  Path_exists : string -> Outcome bool;
  Path_is_file : string -> Outcome bool;
  Path_read_text : string -> Outcome string;
  Path_iterdir : string -> Outcome (list string);
  Path_glob : string -> string -> Outcome (list string);
  Path_stat_mode : string -> Outcome Z;
  open_lines : string -> Outcome (list string);
  re_search : string -> list ReFlag -> string -> option (list string);
  re_match : string -> list ReFlag -> string -> option (list string);
  re_findall : string -> list ReFlag -> string -> list string;
  str_float : Q -> string;
  format_f : nat -> Q -> string
}.

(** [m.group(1)]. *)
Definition group1 (groups : list string) : string := nth 0 groups "".

(** [x >= y] on floats. *)
Definition Qge_bool (x y : Q) : bool := Qle_bool y x.

(** [x > y] on floats. *)
Definition Qgt_bool (x y : Q) : bool := negb (Qle_bool x y).

(** [n / (1024 ** 3)]. *)
Definition to_gb (n : Z) : Q := inject_Z n / inject_Z (1024 ^ 3).


(** ** The category aggregators

    The loop of every [run_all_checks]:
    [[
        for name, check_func in checks:
            try:
                result = check_func()
                self.results.append(result)
            except Exception as e:
                self.results.append(CheckResult(
                    name=name,
                    status=CheckStatus.ERROR,
                    message=f"Check failed: {str(e)}",
                ))
    ]]
    It is run on [self.results] and yields the list afterwards, together with
    the exception that left the loop, if one did (an exception that is not an
    [Exception] is not caught). *)
Definition Probe (S : Type) : Type := S -> Outcome CheckResult.

Fixpoint run_checks {S : Type} (checks : list (string * Probe S)) (sys : S)
    (self_results : list CheckResult) : list CheckResult * option PyExc :=
  match checks with
  | [] => (self_results, None)
  | (name, check_func) :: rest =>
      match check_func sys with
      | Returned result => run_checks rest sys (self_results ++ [result])
      | Raised e =>
          if is_Exception e
          then run_checks rest sys
                 (self_results
                  ++ [CheckResult3 name ERROR ("Check failed: " ++ exc_str e)])
          else (self_results, Some e)
      end
  end.

(** The end of every [run_all_checks]: the category is built from
    [self.results] when the loop was left normally.  The second component is
    [self.results] afterwards. *)
Definition finish_checks (name icon : string)
    (loop : list CheckResult * option PyExc)
    : Outcome CheckCategory * list CheckResult :=
  match loop with
  | (rs, None) => (Returned (mkCheckCategory name icon rs), rs)
  | (rs, Some e) => (Raised e, rs)
  end.

(** ** [fedchecker/checks/health.py] *)
Module HealthChecker.
Import PyStr.
Local Open Scope py_scope.

(** The loop of [check_disk_space] over the partitions. *)
Fixpoint scan_partitions (sys : System) (partitions : list psutil.sdiskpart)
    (critical warnings : list string) : Outcome (list string * list string) :=
  match partitions with
  | [] => Returned (critical, warnings)
  | partition :: rest =>
      if truthy (psutil.fstype partition)
         && negb (startswith "/snap" (psutil.mountpoint partition))
      then
        match psutil_disk_usage sys (psutil.mountpoint partition) with
        | Returned percent_used =>
            let line := psutil.mountpoint partition ++ ": "
                        ++ str_float sys percent_used ++ "% used" in
            if Qge_bool percent_used 95
            then scan_partitions sys rest (critical ++ [line]) warnings
            else if Qge_bool percent_used 85
            then scan_partitions sys rest critical (warnings ++ [line])
            else scan_partitions sys rest critical warnings
        | Raised e =>
            if is_class PermissionError e
            then scan_partitions sys rest critical warnings
            else Raised e
        end
      else scan_partitions sys rest critical warnings
  end.

Definition check_disk_space (sys : System) : Outcome CheckResult :=
  partitions <- psutil_disk_partitions sys ;;
  ' (critical, warnings) <- scan_partitions sys partitions [] [] ;;
  if nonempty critical then
    Returned (mkCheckResult "Disk Space" FAIL
      ("Critical: " ++ str_int (length critical) ++ " partition(s) nearly full")
      (join LF (critical ++ warnings))
      true "dnf autoremove && dnf clean all")
  else if nonempty warnings then
    Returned (mkCheckResult "Disk Space" WARN
      ("Warning: " ++ str_int (length warnings) ++ " partition(s) above 85%")
      (join LF warnings)
      true "dnf autoremove && dnf clean all")
  else
    root_usage <- psutil_disk_usage sys "/" ;;
    Returned (CheckResult3 "Disk Space" PASS
      ("Root partition: " ++ str_float sys root_usage ++ "% used")).

Definition check_memory (sys : System) : Outcome CheckResult :=
  memory <- psutil_virtual_memory sys ;;
  let percent_used := psutil.vm_percent memory in
  let available_gb := to_gb (psutil.available memory) in
  if Qge_bool percent_used 95 then
    Returned (mkCheckResult "Memory Usage" FAIL
      ("Critical: " ++ str_float sys percent_used ++ "% RAM used")
      ("Only " ++ format_f sys 1 available_gb ++ " GB available")
      false "")
  else if Qge_bool percent_used 85 then
    Returned (CheckResult4 "Memory Usage" WARN
      ("Warning: " ++ str_float sys percent_used ++ "% RAM used")
      (format_f sys 1 available_gb ++ " GB available"))
  else
    Returned (CheckResult3 "Memory Usage" PASS
      (str_float sys percent_used ++ "% used ("
       ++ format_f sys 1 available_gb ++ " GB free)")).

(** [max_temp] starts as the integer [0] ([None]) and becomes the largest
    reading above it. *)
Definition temp_value (max_temp : option Q) : Q :=
  match max_temp with
  | None => 0
  | Some t => t
  end.

Definition max_over (max_temp : option Q) (entries : list psutil.shwtemp)
    : option Q :=
  fold_left
    (fun m entry =>
       if Qgt_bool (psutil.current entry) (temp_value m)
       then Some (psutil.current entry) else m)
    entries max_temp.

Definition str_temp (sys : System) (max_temp : option Q) : string :=
  match max_temp with
  | None => "0"
  | Some t => str_float sys t
  end.

Definition check_cpu_temperature (sys : System) : Outcome CheckResult :=
  try_except
    (temps <- psutil_sensors_temperatures sys ;;
     if negb (nonempty temps) then
       Returned (CheckResult3 "CPU Temperature" SKIP
                   "Temperature sensors not available")
     else
       let max_temp :=
         fold_left (fun m item => max_over m (snd item)) temps None in
       if Qge_bool (temp_value max_temp) 90 then
         Returned (mkCheckResult "CPU Temperature" FAIL
           ("Critical: " ++ str_temp sys max_temp ++ "°C")
           "CPU is overheating!" false "")
       else if Qge_bool (temp_value max_temp) 75 then
         Returned (CheckResult4 "CPU Temperature" WARN
           ("Warning: " ++ str_temp sys max_temp ++ "°C")
           "CPU temperature is high")
       else
         Returned (CheckResult3 "CPU Temperature" PASS
           (str_temp sys max_temp ++ "°C")))
    (except is_Exception (fun _ =>
       Returned (CheckResult3 "CPU Temperature" SKIP
                   "Unable to read temperature"))).

Definition check_swap (sys : System) : Outcome CheckResult :=
  swap <- psutil_swap_memory sys ;;
  if Z.eqb (psutil.swap_total swap) 0 then
    Returned (mkCheckResult "Swap Space" WARN
      "No swap configured"
      "Consider adding swap for stability"
      true
      "fallocate -l 4G /swapfile && chmod 600 /swapfile && mkswap /swapfile && swapon /swapfile")
  else
    let swap_gb := to_gb (psutil.swap_total swap) in
    let percent_used := psutil.swap_percent swap in
    if Qge_bool percent_used 80 then
      Returned (CheckResult4 "Swap Space" WARN
        ("Swap " ++ str_float sys percent_used ++ "% used")
        (format_f sys 1 swap_gb ++ " GB total swap"))
    else
      Returned (CheckResult3 "Swap Space" PASS
        (format_f sys 1 swap_gb ++ " GB configured, "
         ++ str_float sys percent_used ++ "% used")).

(** [line.split()[0]]. *)
Definition first_word (line : string) : Outcome string :=
  match split line with
  | [] => Raised (mkExc IndexError "list index out of range")
  | w :: _ => Returned w
  end.

Definition check_failed_units (sys : System) : Outcome CheckResult :=
  try_except
    (result <- subprocess_run sys
                 ["systemctl"; "--failed"; "--no-legend"; "--no-pager"] 10 ;;
     failed_units <- map_raising first_word
                       (filter truthy (lines (strip (stdout result)))) ;;
     if nonempty failed_units then
       Returned (mkCheckResult "Failed Systemd Units" FAIL
         (str_int (length failed_units) ++ " failed unit(s)")
         (join LF (firstn 5 failed_units))
         true "systemctl reset-failed")
     else
       Returned (CheckResult3 "Failed Systemd Units" PASS "No failed units"))
    (except (is_class TimeoutExpired) (fun _ =>
       Returned (CheckResult3 "Failed Systemd Units" SKIP "Check timed out"))).

(** [os.cpu_count() or 1]. *)
Definition cpu_count_or_1 (sys : System) : nat :=
  match os_cpu_count sys with
  | Some (S n) => S n
  | Some O | None => 1
  end.

Definition check_system_load (sys : System) : Outcome CheckResult :=
  ' (load1, load5, load15) <- os_getloadavg sys ;;
  let cpu_count := cpu_count_or_1 sys in
  let load_per_cpu := load1 / float_of_int cpu_count in
  if Qge_bool load_per_cpu 2 then
    Returned (CheckResult4 "System Load" FAIL
      ("High load: " ++ format_f sys 2 load1)
      ("Load avg: " ++ format_f sys 2 load1 ++ ", " ++ format_f sys 2 load5
       ++ ", " ++ format_f sys 2 load15 ++ " (" ++ str_int cpu_count ++ " CPUs)"))
  else if Qge_bool load_per_cpu 1 then
    Returned (CheckResult4 "System Load" WARN
      ("Elevated load: " ++ format_f sys 2 load1)
      ("Load avg: " ++ format_f sys 2 load1 ++ ", " ++ format_f sys 2 load5
       ++ ", " ++ format_f sys 2 load15))
  else
    Returned (CheckResult3 "System Load" PASS
      ("Load: " ++ format_f sys 2 load1 ++ " (" ++ str_int cpu_count ++ " CPUs)")).

(** The loop of [check_zombie_processes] over the processes. *)
Fixpoint scan_processes (procs : list (Outcome psutil.pinfo))
    (zombies : list string) : Outcome (list string) :=
  match procs with
  | [] => Returned zombies
  | proc :: rest =>
      match proc with
      | Returned info =>
          if String.eqb (psutil.pstatus info) psutil.STATUS_ZOMBIE
          then scan_processes rest
                 (zombies ++ ["PID " ++ str_int (psutil.pid info) ++ ": "
                              ++ psutil.pname info])
          else scan_processes rest zombies
      | Raised e =>
          if is_class NoSuchProcess e || is_class AccessDenied e
          then scan_processes rest zombies
          else Raised e
      end
  end.

Definition check_zombie_processes (sys : System) : Outcome CheckResult :=
  procs <- psutil_process_iter sys ;;
  zombies <- scan_processes procs [] ;;
  if nonempty zombies then
    Returned (CheckResult4 "Zombie Processes" WARN
      (str_int (length zombies) ++ " zombie process(es)")
      (join LF (firstn 5 zombies)))
  else
    Returned (CheckResult3 "Zombie Processes" PASS "No zombie processes").

Definition check_dnf_status (sys : System) : Outcome CheckResult :=
  try_except
    (result <- subprocess_run sys ["dnf"; "check"; "--quiet"] 30 ;;
     if negb (Z.eqb (returncode result) 0) then
       Returned (mkCheckResult "Package Manager" FAIL
         "DNF reports issues"
         (if truthy (stderr result) then take 200 (stderr result)
          else "Package database may be corrupted")
         true "dnf check && dnf distro-sync")
     else
       Returned (CheckResult3 "Package Manager" PASS "DNF is healthy"))
    (or_except
       (except (is_class FileNotFoundError) (fun _ =>
          Returned (CheckResult3 "Package Manager" ERROR "DNF not found")))
       (except (is_class TimeoutExpired) (fun _ =>
          Returned (CheckResult3 "Package Manager" SKIP "Check timed out")))).

Definition check_journal_errors (sys : System) : Outcome CheckResult :=
  try_except
    (result <- subprocess_run sys
                 ["journalctl"; "-p"; "err"; "-b"; "--no-pager"; "-q"] 15 ;;
     let errors := lines (strip (stdout result)) in
     let error_count := length (filter truthy errors) in
     if (100 <? error_count)%nat then
       Returned (CheckResult4 "Journal Errors" WARN
         (str_int error_count ++ " errors since boot")
         "Many errors in journal. Check 'journalctl -p err -b'")
     else if (0 <? error_count)%nat then
       Returned (CheckResult3 "Journal Errors" PASS
         (str_int error_count ++ " error(s) since boot"))
     else
       Returned (CheckResult3 "Journal Errors" PASS "No errors since boot"))
    (except is_Exception (fun _ =>
       Returned (CheckResult3 "Journal Errors" SKIP "Unable to read journal"))).

Definition check_orphaned_packages (sys : System) : Outcome CheckResult :=
  try_except
    (result <- subprocess_run sys
                 ["dnf"; "repoquery"; "--extras"; "--quiet"] 60 ;;
     let packages := filter truthy (lines (strip (stdout result))) in
     if (10 <? length packages)%nat then
       Returned (mkCheckResult "Orphaned Packages" WARN
         (str_int (length packages) ++ " orphaned package(s)")
         "Run 'dnf autoremove' to clean up"
         true "dnf autoremove")
     else
       Returned (CheckResult3 "Orphaned Packages" PASS
         (if nonempty packages
          then str_int (length packages) ++ " orphaned package(s)"
          else "No orphaned packages")))
    (except is_Exception (fun _ =>
       Returned (CheckResult3 "Orphaned Packages" SKIP "Unable to check"))).

(** The table [checks] of [run_all_checks]. *)
Definition checks : list (string * Probe System) :=
  [ ("Disk Space", check_disk_space);
    ("Memory Usage", check_memory);
    ("CPU Temperature", check_cpu_temperature);
    ("Swap Space", check_swap);
    ("Failed Systemd Units", check_failed_units);
    ("System Load", check_system_load);
    ("Zombie Processes", check_zombie_processes);
    ("Package Manager", check_dnf_status);
    ("Journal Errors", check_journal_errors);
    ("Orphaned Packages", check_orphaned_packages) ].

(** [HealthChecker.run_all_checks].  A checker is its field [self.results];
    the call first rebinds it to a fresh empty list, so the value it held
    before does not matter, and yields the category (or the exception that
    escaped) and the field afterwards. *)
Definition run_all_checks (self_results : list CheckResult) (sys : System)
    : Outcome CheckCategory * list CheckResult :=
  let self_results := @nil CheckResult in
  finish_checks "Health Check" StatusIcon.HEALTH
    (run_checks checks sys self_results).

(** [HealthChecker()]: [self.results = []]. *)
Definition init : list CheckResult := [].
End HealthChecker.


(** The [_run_command] of the driver and security checkers:
    [(returncode == 0, stdout + stderr)], or [(False, str(e))] when the call
    timed out or the program was not found. *)
Definition run_command_with
    (run : list string -> nat -> Outcome CompletedProcess)
    (cmd : list string) (timeout : nat) : Outcome (bool * string) :=
  try_except
    (bind (run cmd timeout) (fun result =>
       Returned (Z.eqb (returncode result) 0, stdout result ++ stderr result)))
    (except (fun e => is_class TimeoutExpired e || is_class FileNotFoundError e)
       (fun e => Returned (false, exc_str e))).

(** [[f(x) for x in xs if f(x) is not None]]. *)
Definition filter_map {A B : Type} (f : A -> option B) (xs : list A) : list B :=
  flat_map (fun x => match f x with
                     | Some y => [y]
                     | None => []
                     end) xs.

(** ** [fedchecker/checks/drivers.py] *)
Module DriverChecker.
Import PyStr.
Local Open Scope py_scope.

Definition _run_command (sys : System) (cmd : list string) (timeout : nat)
    : Outcome (bool * string) :=
  run_command_with (subprocess_run sys) cmd timeout.

(** One step of the loop of [check_gpu_driver] over the lines of [lspci]:
    the state is [(vga_lines, capturing)]. *)
Definition gpu_scan (st : list string * bool) (line : string)
    : list string * bool :=
  let (vga_lines, capturing) := st in
  if contains "VGA" line || contains "3D controller" line
     || contains "Display controller" line
  then ((vga_lines ++ [line])%list, true)
  else if capturing then
    if startswith TAB line then ((vga_lines ++ [line])%list, capturing)
    else (vga_lines, false)
  else (vga_lines, capturing).

(** The vendor branches of [check_gpu_driver]: either they return a result
    at once, or they leave [(vendor, driver)] in [gpu_info]. *)
Definition gpu_vendor (gpu_text : string) : CheckResult + (string * string) :=
  if contains "NVIDIA" (upper gpu_text) then
    if contains "nvidia" (lower gpu_text)
       && contains "Kernel driver in use: nvidia" gpu_text
    then inr ("NVIDIA", "nvidia (proprietary)")
    else if contains "nouveau" (lower gpu_text) then
      inl (mkCheckResult "GPU Driver" WARN
             "NVIDIA using nouveau driver"
             "Consider installing nvidia-driver for better performance"
             true "dnf install akmod-nvidia xorg-x11-drv-nvidia-cuda")
    else
      inl (mkCheckResult "GPU Driver" FAIL
             "NVIDIA GPU without proper driver" ""
             true "dnf install akmod-nvidia")
  else if contains "AMD" (upper gpu_text) || contains "ATI" (upper gpu_text)
          || contains "Radeon" gpu_text then
    inr ("AMD",
         if contains "amdgpu" (lower gpu_text) then "amdgpu"
         else if contains "radeon" (lower gpu_text) then "radeon"
         else "Unknown")
  else if contains "Intel" gpu_text then
    inr ("Intel", if contains "i915" (lower gpu_text) then "i915" else "Unknown")
  else inr ("Unknown", "Unknown").

Definition check_gpu_driver (sys : System) : Outcome CheckResult :=
  ' (success, output) <- _run_command sys ["lspci"; "-nnk"] 10 ;;
  if negb success then
    Returned (CheckResult3 "GPU Driver" SKIP "Unable to detect GPU")
  else
    let vga_lines := fst (fold_left gpu_scan (lines output) ([], false)) in
    if negb (nonempty vga_lines) then
      Returned (CheckResult3 "GPU Driver" WARN "No GPU detected")
    else
      let gpu_text := join LF vga_lines in
      match gpu_vendor gpu_text with
      | inl result => Returned result
      | inr (vendor, driver) =>
          let driver :=
            match re_search sys "Kernel driver in use: (\w+)" [] gpu_text with
            | Some groups => group1 groups
            | None => driver
            end in
          Returned (CheckResult4 "GPU Driver" PASS
            (vendor ++ ": " ++ driver)
            (match vga_lines with
             | first :: _ => first
             | [] => ""
             end))
      end.

(** The interface names of the lines of [ip link show] that [wanted]
    selects. *)
Definition interface_names (sys : System) (wanted : string -> bool)
    (output : string) : list string :=
  filter_map
    (fun line =>
       if wanted line then
         match re_match sys "\d+: (\w+):" [] line with
         | Some groups => Some (group1 groups)
         | None => None
         end
       else None)
    (lines output).

(** The driver of a network interface, as both network probes read it. *)
Definition driver_of (sys : System) (interface : string) : Outcome string :=
  let driver_path := "/sys/class/net/" ++ interface ++ "/device/driver" in
  if os_path_exists sys driver_path then
    target <- os_readlink sys driver_path ;;
    Returned (basename target)
  else Returned "unknown".

Definition check_wifi_driver (sys : System) : Outcome CheckResult :=
  ' (success, output) <- _run_command sys ["ip"; "link"; "show"] 10 ;;
  let wireless_interfaces :=
    if success then
      interface_names sys
        (fun line => contains "wl" (lower line) || contains "wlan" (lower line))
        output
    else [] in
  match wireless_interfaces with
  | [] =>
      ' (success, lspci) <- _run_command sys ["lspci"; "-nnk"] 10 ;;
      if contains "Wireless" lspci || contains "Wi-Fi" lspci
         || contains "WLAN" lspci then
        Returned (mkCheckResult "WiFi Driver" FAIL
          "WiFi hardware found but no driver loaded" ""
          true "dnf install linux-firmware iwlwifi-firmware")
      else
        Returned (CheckResult3 "WiFi Driver" SKIP "No WiFi hardware detected")
  | interface :: _ =>
      driver <- driver_of sys interface ;;
      ' (success, rfkill) <- _run_command sys ["rfkill"; "list"; "wifi"] 10 ;;
      if contains "Soft blocked: yes" rfkill
         || contains "Hard blocked: yes" rfkill then
        Returned (mkCheckResult "WiFi Driver" WARN
          (driver ++ " driver loaded, WiFi blocked")
          ("Interface: " ++ interface)
          true "rfkill unblock wifi")
      else
        Returned (CheckResult3 "WiFi Driver" PASS
          (driver ++ " (" ++ interface ++ ")"))
  end.

Definition check_audio_driver (sys : System) : Outcome CheckResult :=
  let sound_cards_path := "/proc/asound/cards" in
  present <- Path_exists sys sound_cards_path ;;
  if negb present then
    Returned (mkCheckResult "Audio Driver" FAIL
      "No sound subsystem detected" ""
      true "dnf install alsa-plugins-pulseaudio pipewire-alsa")
  else
    cards <- Path_read_text sys sound_cards_path ;;
    if contains "no soundcards" (lower cards) || negb (truthy (strip cards)) then
      Returned (mkCheckResult "Audio Driver" FAIL
        "No sound cards found" ""
        true "dnf install alsa-firmware sof-firmware")
    else
      ' (success, pw) <- _run_command sys
                           ["systemctl"; "--user"; "is-active"; "pipewire"] 10 ;;
      audio_server <-
        (if success && contains "active" pw then Returned "PipeWire"
         else
           ' (success, pa) <- _run_command sys
                                ["systemctl"; "--user"; "is-active"; "pulseaudio"] 10 ;;
           if success && contains "active" pa then Returned "PulseAudio"
           else Returned "Unknown") ;;
      let card_count :=
        length (re_findall sys "^\s*\d+\s+\[" [MULTILINE] cards) in
      Returned (CheckResult3 "Audio Driver" PASS
        (str_int card_count ++ " card(s), " ++ audio_server)).

Definition check_bluetooth (sys : System) : Outcome CheckResult :=
  ' (success, lsusb) <- _run_command sys ["lsusb"] 10 ;;
  ' (success2, lspci) <- _run_command sys ["lspci"] 10 ;;
  let has_bt_hardware := contains "Bluetooth" lsusb || contains "Bluetooth" lspci in
  absent <-
    (if negb has_bt_hardware then
       let hci_path := "/sys/class/bluetooth" in
       present <- Path_exists sys hci_path ;;
       if negb present then Returned true
       else
         entries <- Path_iterdir sys hci_path ;;
         Returned (negb (nonempty entries))
     else Returned false) ;;
  if absent then
    Returned (CheckResult3 "Bluetooth" SKIP "No Bluetooth hardware detected")
  else
    ' (success, bt_status) <- _run_command sys
                                ["systemctl"; "is-active"; "bluetooth"] 10 ;;
    if negb success || contains "inactive" bt_status then
      Returned (mkCheckResult "Bluetooth" WARN
        "Bluetooth service not running" ""
        true "systemctl enable --now bluetooth")
    else
      ' (success, rfkill) <- _run_command sys ["rfkill"; "list"; "bluetooth"] 10 ;;
      if contains "Soft blocked: yes" rfkill
         || contains "Hard blocked: yes" rfkill then
        Returned (mkCheckResult "Bluetooth" WARN
          "Bluetooth is blocked" ""
          true "rfkill unblock bluetooth")
      else
        Returned (CheckResult3 "Bluetooth" PASS "Bluetooth active").

Definition check_usb (sys : System) : Outcome CheckResult :=
  ' (success, output) <- _run_command sys ["lsusb"] 10 ;;
  if negb success then
    Returned (CheckResult3 "USB Controllers" SKIP "Unable to query USB devices")
  else
    let device_count :=
      length (filter (fun l => truthy (strip l)) (lines output)) in
    ' (success, lspci) <- _run_command sys ["lspci"; "-v"] 10 ;;
    let has_usb3 := contains "xHCI" lspci || contains "USB 3" lspci in
    Returned (CheckResult3 "USB Controllers" PASS
      (str_int device_count ++ " device(s)"
       ++ (if has_usb3 then ", USB 3.0" else ""))).

Definition check_ethernet (sys : System) : Outcome CheckResult :=
  ' (success, output) <- _run_command sys ["ip"; "link"; "show"] 10 ;;
  let eth_interfaces :=
    if success then
      interface_names sys
        (fun line => contains "eth" (lower line) || contains "enp" (lower line)
                     || contains "eno" (lower line))
        output
    else [] in
  match eth_interfaces with
  | [] =>
      Returned (CheckResult3 "Network (Ethernet)" SKIP
                  "No ethernet interface detected")
  | interface :: _ =>
      driver <- driver_of sys interface ;;
      ' (success, carrier) <- _run_command sys
                                ["cat"; "/sys/class/net/" ++ interface ++ "/carrier"] 10 ;;
      let is_connected := success && String.eqb (strip carrier) "1" in
      let status_msg := if is_connected then "connected" else "no link" in
      Returned (CheckResult3 "Network (Ethernet)" PASS
        (driver ++ " (" ++ interface ++ "): " ++ status_msg))
  end.

Definition check_webcam (sys : System) : Outcome CheckResult :=
  video_devices <- Path_glob sys "/dev" "video*" ;;
  if negb (nonempty video_devices) then
    Returned (CheckResult3 "Webcam" SKIP "No video devices found")
  else
    ' (success, output) <- _run_command sys ["v4l2-ctl"; "--list-devices"] 10 ;;
    if success && truthy (strip output) then
      let cameras := length (re_findall sys "/dev/video\d+" [] output) in
      Returned (CheckResult3 "Webcam" PASS
        (str_int cameras ++ " video device(s) found"))
    else
      Returned (CheckResult3 "Webcam" PASS
        (str_int (length video_devices) ++ " video device(s)")).

Definition check_firmware (sys : System) : Outcome CheckResult :=
  ' (success, _) <- _run_command sys ["which"; "fwupdmgr"] 10 ;;
  if negb success then
    Returned (mkCheckResult "Firmware Updates" WARN
      "fwupd not installed" ""
      true "dnf install fwupd")
  else
    ' (success, output) <- _run_command sys
                             ["fwupdmgr"; "get-updates"; "--json"] 30 ;;
    if contains "No upgrades" output || contains "No updates" output then
      Returned (CheckResult3 "Firmware Updates" PASS "Firmware up to date")
    else if success then
      Returned (mkCheckResult "Firmware Updates" WARN
        "Firmware updates available" ""
        true "fwupdmgr update")
    else
      Returned (CheckResult3 "Firmware Updates" PASS "Unable to check updates").

(** [len(set(xs))]. *)
Definition distinct (xs : list string) : nat :=
  length (nodup string_dec xs).

Definition check_kernel_modules (sys : System) : Outcome CheckResult :=
  ' (success, output) <- _run_command sys ["dmesg"] 10 ;;
  if negb success then
    Returned (CheckResult3 "Kernel Modules" SKIP "Unable to read dmesg")
  else
    let missing_firmware :=
      re_findall sys "firmware: failed to load (\S+)" [] output in
    let failed_modules := re_findall sys "(\w+): probe of .* failed" [] output in
    let issues := (distinct missing_firmware + distinct failed_modules)%nat in
    if (5 <? issues)%nat then
      Returned (mkCheckResult "Kernel Modules" WARN
        (str_int issues ++ " firmware/module issue(s)")
        "Check dmesg for details"
        true "dnf install linux-firmware")
    else if (0 <? issues)%nat then
      Returned (CheckResult3 "Kernel Modules" PASS
        (str_int issues ++ " minor issue(s)"))
    else
      Returned (CheckResult3 "Kernel Modules" PASS "No module issues detected").

Definition check_hw_acceleration (sys : System) : Outcome CheckResult :=
  ' (success, vainfo) <- _run_command sys ["vainfo"] 10 ;;
  let has_vaapi := success && contains "VAProfile" vainfo in
  ' (success, vdpau) <- _run_command sys ["vdpauinfo"] 10 ;;
  let has_vdpau := success && contains "VDPAU" vdpau in
  if has_vaapi && has_vdpau then
    Returned (CheckResult3 "Hardware Acceleration" PASS
                "VA-API and VDPAU available")
  else if has_vaapi then
    Returned (CheckResult3 "Hardware Acceleration" PASS "VA-API available")
  else if has_vdpau then
    Returned (CheckResult3 "Hardware Acceleration" PASS "VDPAU available")
  else
    Returned (mkCheckResult "Hardware Acceleration" WARN
      "No hardware acceleration detected" ""
      true "dnf install libva-utils vdpauinfo mesa-va-drivers").

(** The table [checks] of [run_all_checks]. *)
Definition checks : list (string * Probe System) :=
  [ ("GPU Driver", check_gpu_driver);
    ("WiFi Driver", check_wifi_driver);
    ("Audio Driver", check_audio_driver);
    ("Bluetooth", check_bluetooth);
    ("USB Controllers", check_usb);
    ("Network (Ethernet)", check_ethernet);
    ("Webcam", check_webcam);
    ("Firmware Updates", check_firmware);
    ("Kernel Modules", check_kernel_modules);
    ("Hardware Acceleration", check_hw_acceleration) ].

(** [DriverChecker.run_all_checks]. *)
Definition run_all_checks (self_results : list CheckResult) (sys : System)
    : Outcome CheckCategory * list CheckResult :=
  let self_results := @nil CheckResult in
  finish_checks "Driver Check" StatusIcon.DRIVER
    (run_checks checks sys self_results).

(** [DriverChecker()]: [self.results = []]. *)
Definition init : list CheckResult := [].
End DriverChecker.


(** [x in xs] for strings. *)
Definition in_list (x : string) (xs : list string) : bool :=
  existsb (String.eqb x) xs.

(** ** [fedchecker/checks/security.py] *)
Module SecurityChecker.
Import PyStr.
Local Open Scope py_scope.

Definition _run_command (sys : System) (cmd : list string) (timeout : nat)
    : Outcome (bool * string) :=
  run_command_with (subprocess_run sys) cmd timeout.

Definition check_firewall (sys : System) : Outcome CheckResult :=
  ' (success, output) <- _run_command sys ["systemctl"; "is-active"; "firewalld"] 10 ;;
  if negb success || contains "inactive" output then
    Returned (mkCheckResult "Firewall (firewalld)" FAIL
      "Firewall is not running"
      "Your system is not protected by a firewall"
      true "systemctl enable --now firewalld")
  else
    ' (success, zone) <- _run_command sys ["firewall-cmd"; "--get-default-zone"] 10 ;;
    let zone := if success then strip zone else "unknown" in
    ' (success, services) <- _run_command sys ["firewall-cmd"; "--list-services"] 10 ;;
    let service_count := if success then length (split services) else 0%nat in
    Returned (CheckResult4 "Firewall (firewalld)" PASS
      ("Active (zone: " ++ zone ++ ")")
      (str_int service_count ++ " allowed services")).

Definition check_selinux (sys : System) : Outcome CheckResult :=
  ' (success, output) <- _run_command sys ["getenforce"] 10 ;;
  if negb success then
    Returned (CheckResult3 "SELinux Status" WARN "Unable to check SELinux")
  else
    let mode := lower (strip output) in
    if String.eqb mode "enforcing" then
      Returned (CheckResult3 "SELinux Status" PASS "SELinux is enforcing")
    else if String.eqb mode "permissive" then
      Returned (mkCheckResult "SELinux Status" WARN
        "SELinux is permissive"
        "Consider setting to enforcing mode"
        true
        "setenforce 1 && sed -i 's/SELINUX=permissive/SELINUX=enforcing/' /etc/selinux/config")
    else
      Returned (mkCheckResult "SELinux Status" FAIL
        "SELinux is disabled"
        "Highly recommended to enable SELinux"
        true
        "sed -i 's/SELINUX=disabled/SELINUX=enforcing/' /etc/selinux/config && reboot").

(** [re.search(pat, config, re.MULTILINE | re.IGNORECASE)] as a condition. *)
Definition found (sys : System) (pat config : string) : bool :=
  match re_search sys pat [MULTILINE; IGNORECASE] config with
  | Some _ => true
  | None => false
  end.

(** The searches for [PasswordAuthentication] and [X11Forwarding] of the
    source only guard a [pass] and are left out. *)
Definition check_ssh_config (sys : System) : Outcome CheckResult :=
  let sshd_config := "/etc/ssh/sshd_config" in
  present <- Path_exists sys sshd_config ;;
  if negb present then
    Returned (CheckResult3 "SSH Configuration" SKIP "SSH server not installed")
  else
    config <- Path_read_text sys sshd_config ;;
    let issues :=
      ((if found sys "^\s*PermitRootLogin\s+yes" config
        then ["Root login enabled"] else [])
       ++ (if found sys "^\s*PermitEmptyPasswords\s+yes" config
           then ["Empty passwords allowed"] else []))%list in
    ' (success, _) <- _run_command sys ["systemctl"; "is-active"; "sshd"] 10 ;;
    if nonempty issues then
      Returned (mkCheckResult "SSH Configuration" WARN
        (str_int (length issues) ++ " security issue(s)")
        (join LF issues)
        true
        "sed -i 's/PermitRootLogin yes/PermitRootLogin no/' /etc/ssh/sshd_config && systemctl restart sshd")
    else if success then
      Returned (CheckResult3 "SSH Configuration" PASS "SSH configured securely")
    else
      Returned (CheckResult3 "SSH Configuration" PASS "SSH not running (secure)").

(** The port a line of [ss -tuln] contributes to [listening], if any. *)
Definition listening_port (line : string) : option string :=
  if contains "LISTEN" line then
    let parts := split line in
    if (5 <=? length parts)%nat then
      let addr := nth 4 parts "" in
      if contains ":" addr then Some (after_last ":"%char addr) else None
    else None
  else None.

Definition check_open_ports (sys : System) : Outcome CheckResult :=
  ' (success, output) <- _run_command sys ["ss"; "-tuln"] 10 ;;
  if negb success then
    Returned (CheckResult3 "Open Ports" SKIP "Unable to check ports")
  else
    let listening := filter_map listening_port (lines output) in
    let safe_ports := ["22"; "631"; "5353"] in
    let external_ports :=
      filter (fun p => negb (in_list p safe_ports)) listening in
    if (5 <? length external_ports)%nat then
      Returned (CheckResult4 "Open Ports" WARN
        (str_int (length listening) ++ " ports listening")
        ("External: " ++ join ", " (firstn 5 external_ports) ++ "..."))
    else
      Returned (CheckResult3 "Open Ports" PASS
        (str_int (length listening) ++ " ports listening")).

Definition check_failed_logins (sys : System) : Outcome CheckResult :=
  ' (success, output) <- _run_command sys
      ["journalctl"; "-u"; "sshd"; "--since"; "24 hours ago"; "--no-pager"; "-q"] 15 ;;
  ' (success, output) <-
      (if negb success then _run_command sys ["lastb"; "-n"; "100"] 10
       else Returned (success, output)) ;;
  if negb success then
    Returned (CheckResult3 "Failed Login Attempts" SKIP
                "Unable to check login attempts")
  else
    let failed_count :=
      (count "failed" (lower output)
       + count "authentication failure" (lower output))%nat in
    if (50 <? failed_count)%nat then
      Returned (mkCheckResult "Failed Login Attempts" WARN
        (str_int failed_count ++ "+ failed attempts (24h)")
        "Consider installing fail2ban"
        true "dnf install fail2ban && systemctl enable --now fail2ban")
    else if (0 <? failed_count)%nat then
      Returned (CheckResult3 "Failed Login Attempts" PASS
        (str_int failed_count ++ " failed attempt(s) (24h)"))
    else
      Returned (CheckResult3 "Failed Login Attempts" PASS
                  "No failed attempts (24h)").

Definition check_root_account (sys : System) : Outcome CheckResult :=
  let shadow := "/etc/shadow" in
  present <- Path_exists sys shadow ;;
  if negb present || negb (os_access_R sys shadow) then
    Returned (CheckResult3 "Root Account" SKIP "Cannot read shadow file")
  else
    try_except
      (file_lines <- open_lines sys shadow ;;
       match find (startswith "root:") file_lines with
       | Some line =>
           let parts := split_on ":"%char line in
           let password_hash :=
             if (1 <? length parts)%nat then nth 1 parts "" else "" in
           if in_list password_hash [""; "*"; "!!"; "!"] then
             Returned (CheckResult3 "Root Account" PASS "Root login disabled")
           else
             Returned (CheckResult4 "Root Account" WARN
               "Root has password set"
               "Consider using sudo instead of root login")
       | None =>
           Returned (CheckResult3 "Root Account" PASS "Root account secure")
       end)
      (except (is_class PermissionError) (fun _ =>
         Returned (CheckResult3 "Root Account" SKIP "Cannot check root account"))).

(** The loop of [check_sudo] over the entries of [/etc/sudoers.d]; whatever
    reading an entry raises is swallowed by the bare [except]. *)
Fixpoint scan_sudoers_d (sys : System) (entries : list string)
    (has_nopasswd : bool) : Outcome bool :=
  match entries with
  | [] => Returned has_nopasswd
  | f :: rest =>
      is_file <- Path_is_file sys f ;;
      if is_file && os_access_R sys f then
        match Path_read_text sys f with
        | Returned text =>
            if contains "NOPASSWD" text then scan_sudoers_d sys rest true
            else scan_sudoers_d sys rest has_nopasswd
        | Raised _ => scan_sudoers_d sys rest has_nopasswd
        end
      else scan_sudoers_d sys rest has_nopasswd
  end.

Definition check_sudo (sys : System) : Outcome CheckResult :=
  ' (success, groups) <- _run_command sys ["groups"] 10 ;;
  if negb (contains "wheel" groups) then
    Returned (CheckResult4 "Sudo Configuration" WARN
      "Current user not in wheel group"
      "May not have sudo access")
  else
    let sudoers := "/etc/sudoers" in
    let sudoers_d := "/etc/sudoers.d" in
    present <- Path_exists sys sudoers ;;
    has_nopasswd <-
      (if present && os_access_R sys sudoers then
         content <- Path_read_text sys sudoers ;;
         Returned (contains "NOPASSWD" content)
       else Returned false) ;;
    present_d <- Path_exists sys sudoers_d ;;
    has_nopasswd <-
      (if present_d then
         entries <- Path_iterdir sys sudoers_d ;;
         scan_sudoers_d sys entries has_nopasswd
       else Returned has_nopasswd) ;;
    if has_nopasswd then
      Returned (CheckResult4 "Sudo Configuration" WARN
        "NOPASSWD entries found"
        "Some commands don't require password")
    else
      Returned (CheckResult3 "Sudo Configuration" PASS "Sudo configured properly").

Definition check_auto_updates (sys : System) : Outcome CheckResult :=
  ' (success, output) <- _run_command sys
                           ["systemctl"; "is-enabled"; "dnf-automatic.timer"] 10 ;;
  if success && contains "enabled" output then
    Returned (CheckResult3 "Automatic Updates" PASS "dnf-automatic enabled")
  else
    ' (success, output) <- _run_command sys
                             ["systemctl"; "is-enabled"; "packagekit-offline-update"] 10 ;;
    if success && contains "enabled" output then
      Returned (CheckResult3 "Automatic Updates" PASS "PackageKit updates enabled")
    else
      Returned (mkCheckResult "Automatic Updates" WARN
        "Auto-updates not configured"
        "Consider enabling automatic security updates"
        true
        "dnf install dnf-automatic && systemctl enable --now dnf-automatic.timer").

Definition check_password_policy (sys : System) : Outcome CheckResult :=
  let pwquality := "/etc/security/pwquality.conf" in
  present <- Path_exists sys pwquality ;;
  if negb present then
    Returned (mkCheckResult "Password Policy" WARN
      "pwquality not configured" ""
      true "dnf install libpwquality")
  else
    config <- Path_read_text sys pwquality ;;
    let minlen :=
      match re_search sys "^\s*minlen\s*=\s*(\d+)" [MULTILINE] config with
      | Some groups => int (group1 groups)
      | None => 8%nat
      end in
    if (minlen <? 8)%nat then
      Returned (CheckResult4 "Password Policy" WARN
        ("Minimum password length: " ++ str_int minlen)
        "Recommended: at least 12 characters")
    else
      Returned (CheckResult3 "Password Policy" PASS
        ("Password policy OK (min: " ++ str_int minlen ++ ")")).

(** The loop of [check_sensitive_files]. *)
Fixpoint scan_modes (sys : System) (files_to_check : list (string * Z))
    (issues : list string) : Outcome (list string) :=
  match files_to_check with
  | [] => Returned issues
  | (filepath, expected_mode) :: rest =>
      present <- Path_exists sys filepath ;;
      if present then
        st_mode <- Path_stat_mode sys filepath ;;
        let mode := Z.land st_mode 511 in
        if (expected_mode <? mode)%Z
        then scan_modes sys rest (issues ++ [filepath ++ ": " ++ oct mode])
        else scan_modes sys rest issues
      else scan_modes sys rest issues
  end.

Definition check_sensitive_files (sys : System) : Outcome CheckResult :=
  let files_to_check :=
    [ ("/etc/passwd", 420%Z);
      ("/etc/shadow", 0%Z);
      ("/etc/gshadow", 0%Z);
      ("/etc/sudoers", 288%Z) ] in
  issues <- scan_modes sys files_to_check [] ;;
  if nonempty issues then
    Returned (CheckResult4 "File Permissions" WARN
      (str_int (length issues) ++ " permission issue(s)")
      (join LF issues))
  else
    Returned (CheckResult3 "File Permissions" PASS "Sensitive files secured").

(** The loop of [check_kernel_security]; whatever reading a file raises is
    swallowed by the bare [except]. *)
Fixpoint scan_sysctl (sys : System)
    (sysctl_checks : list (string * (string * string)))
    (issues : list string) : Outcome (list string) :=
  match sysctl_checks with
  | [] => Returned issues
  | (path, (expected, issue_msg)) :: rest =>
      present <- Path_exists sys path ;;
      if present then
        match Path_read_text sys path with
        | Returned text =>
            if negb (String.eqb (strip text) expected)
            then scan_sysctl sys rest (issues ++ [issue_msg])
            else scan_sysctl sys rest issues
        | Raised _ => scan_sysctl sys rest issues
        end
      else scan_sysctl sys rest issues
  end.

Definition check_kernel_security (sys : System) : Outcome CheckResult :=
  let sysctl_checks :=
    [ ("/proc/sys/net/ipv4/ip_forward", ("0", "IP forwarding enabled"));
      ("/proc/sys/net/ipv4/conf/all/rp_filter",
       ("1", "Reverse path filtering disabled"));
      ("/proc/sys/kernel/randomize_va_space", ("2", "ASLR not fully enabled")) ] in
  issues <- scan_sysctl sys sysctl_checks [] ;;
  if nonempty issues then
    Returned (CheckResult4 "Kernel Security" WARN
      (str_int (length issues) ++ " setting(s) suboptimal")
      (join LF issues))
  else
    Returned (CheckResult3 "Kernel Security" PASS "Kernel security OK").

Definition check_antivirus (sys : System) : Outcome CheckResult :=
  ' (success, _) <- _run_command sys ["which"; "clamscan"] 10 ;;
  if negb success then
    Returned (mkCheckResult "Antivirus (ClamAV)" SKIP
      "ClamAV not installed"
      "Optional: install for malware scanning"
      true "dnf install clamav clamav-update")
  else
    ' (success, output) <- _run_command sys
                             ["systemctl"; "is-active"; "clamav-freshclam"] 10 ;;
    if success && contains "active" output then
      Returned (CheckResult3 "Antivirus (ClamAV)" PASS
                  "ClamAV installed and updating")
    else
      Returned (mkCheckResult "Antivirus (ClamAV)" WARN
        "ClamAV installed, updates disabled" ""
        true "systemctl enable --now clamav-freshclam").

(** The table [checks] of [run_all_checks]. *)
Definition checks : list (string * Probe System) :=
  [ ("Firewall (firewalld)", check_firewall);
    ("SELinux Status", check_selinux);
    ("SSH Configuration", check_ssh_config);
    ("Open Ports", check_open_ports);
    ("Failed Login Attempts", check_failed_logins);
    ("Root Account", check_root_account);
    ("Sudo Configuration", check_sudo);
    ("Automatic Updates", check_auto_updates);
    ("Password Policy", check_password_policy);
    ("File Permissions", check_sensitive_files);
    ("Kernel Security", check_kernel_security);
    ("Antivirus (ClamAV)", check_antivirus) ].

(** [SecurityChecker.run_all_checks]. *)
Definition run_all_checks (self_results : list CheckResult) (sys : System)
    : Outcome CheckCategory * list CheckResult :=
  let self_results := @nil CheckResult in
  finish_checks "Security Check" StatusIcon.SECURITY
    (run_checks checks sys self_results).

(** [SecurityChecker()]: [self.results = []]. *)
Definition init : list CheckResult := [].
End SecurityChecker.


(** [os.environ.get(key, default)]. *)
Definition environ_get (sys : System) (key default : string) : string :=
  match os_environ_get sys key with
  | Some v => v
  | None => default
  end.

(** [bool(os.environ.get(key))]. *)
Definition environ_set (sys : System) (key : string) : bool :=
  match os_environ_get sys key with
  | Some v => PyStr.truthy v
  | None => false
  end.

(** ** [fedchecker/checks/desktop.py] *)
Module DesktopChecker.
Import PyStr.
Local Open Scope py_scope.

(** The fields of a [DesktopChecker]. *)
Record t : Type := {
  results : list CheckResult;
  desktop_session : string;
  session_type : string
}.

(** [DesktopChecker.__init__]. *)
Definition init (sys : System) : t :=
  {| results := [];
     desktop_session := lower (environ_get sys "XDG_CURRENT_DESKTOP" "");
     session_type := lower (environ_get sys "XDG_SESSION_TYPE" "") |}.

Definition _run_command (sys : System) (cmd : list string) (timeout : nat)
    : Outcome (bool * string) :=
  run_command_with (subprocess_run_C sys) cmd timeout.

Definition de_map : list (string * string) :=
  [ ("gnome", "GNOME");
    ("kde", "KDE Plasma");
    ("plasma", "KDE Plasma");
    ("xfce", "XFCE");
    ("cinnamon", "Cinnamon");
    ("mate", "MATE");
    ("lxde", "LXDE");
    ("lxqt", "LXQt");
    ("budgie", "Budgie");
    ("pantheon", "Pantheon");
    ("sway", "Sway");
    ("i3", "i3");
    ("hyprland", "Hyprland") ].

Definition check_desktop_environment (self : t) (sys : System)
    : Outcome CheckResult :=
  let desktop := desktop_session self in
  let de_name :=
    match find (fun item => contains (fst item) desktop) de_map with
    | Some item => snd item
    | None => "Unknown"
    end in
  let de_name :=
    if String.eqb de_name "Unknown" then
      if environ_set sys "GNOME_DESKTOP_SESSION_ID" then "GNOME"
      else if environ_set sys "KDE_FULL_SESSION" then "KDE Plasma"
      else de_name
    else de_name in
  if String.eqb de_name "Unknown" then
    Returned (CheckResult4 "Desktop Environment" WARN
      "Unable to detect DE"
      "Running in TTY or unknown DE")
  else
    version <-
      (if contains "gnome" (lower de_name) then
         ' (success, output) <- _run_command sys ["gnome-shell"; "--version"] 10 ;;
         if success then Returned (replace "GNOME Shell " "" (strip output))
         else Returned ""
       else if contains "kde" (lower de_name) || contains "plasma" (lower de_name) then
         ' (success, output) <- _run_command sys ["plasmashell"; "--version"] 10 ;;
         if success then
           match re_search sys "(\d+\.\d+)" [] output with
           | Some groups => Returned (group1 groups)
           | None => Returned ""
           end
         else Returned ""
       else Returned "") ;;
    let message := de_name ++ (if truthy version then " " ++ version else "") in
    Returned (CheckResult3 "Desktop Environment" PASS message).

Definition check_display_server (self : t) (sys : System) : Outcome CheckResult :=
  let session_type := session_type self in
  if String.eqb session_type "wayland" then
    let wayland_display := environ_get sys "WAYLAND_DISPLAY" "" in
    Returned (CheckResult3 "Display Server" PASS
      ("Wayland (" ++ wayland_display ++ ")"))
  else if String.eqb session_type "x11" then
    let display := environ_get sys "DISPLAY" ":0" in
    Returned (CheckResult3 "Display Server" PASS ("X11 (" ++ display ++ ")"))
  else if String.eqb session_type "tty" then
    Returned (CheckResult3 "Display Server" SKIP "TTY session (no GUI)")
  else
    Returned (CheckResult3 "Display Server" WARN "Unknown display server").

(** The loop of [check_compositor] over the known compositors: the first
    one whose [pgrep] succeeds is reported. *)
Fixpoint first_running (sys : System) (compositors : list (string * list string))
    : Outcome CheckResult :=
  match compositors with
  | [] =>
      Returned (CheckResult3 "Compositor" PASS "Composite extension enabled")
  | (name, cmd) :: rest =>
      ' (success, _) <- _run_command sys cmd 10 ;;
      if success then
        Returned (CheckResult3 "Compositor" PASS (name ++ " compositor active"))
      else first_running sys rest
  end.

Definition check_compositor (self : t) (sys : System) : Outcome CheckResult :=
  if String.eqb (session_type self) "wayland" then
    let compositor := environ_get sys "XDG_CURRENT_DESKTOP" "Unknown" in
    Returned (CheckResult3 "Compositor" PASS
      ("Wayland compositor (" ++ compositor ++ ")"))
  else
    ' (success, output) <- _run_command sys ["xdpyinfo"] 10 ;;
    if negb success then
      Returned (CheckResult3 "Compositor" SKIP "Cannot check compositor")
    else if contains "Composite" output then
      first_running sys
        [ ("picom", ["pgrep"; "picom"]);
          ("compton", ["pgrep"; "compton"]);
          ("compiz", ["pgrep"; "compiz"]);
          ("kwin", ["pgrep"; "kwin"]);
          ("mutter", ["pgrep"; "mutter"]) ]
    else
      Returned (CheckResult4 "Compositor" WARN
        "No compositor detected"
        "Desktop effects may not work properly").

(** The loop of [check_display_manager]. *)
Fixpoint first_active (sys : System) (display_managers : list (string * string))
    : Outcome CheckResult :=
  match display_managers with
  | [] =>
      Returned (CheckResult4 "Display Manager" WARN
        "No display manager detected"
        "Using TTY login or startx")
  | (service, name) :: rest =>
      ' (success, output) <- _run_command sys ["systemctl"; "is-active"; service] 10 ;;
      if success && contains "active" output then
        Returned (CheckResult3 "Display Manager" PASS name)
      else first_active sys rest
  end.

Definition check_display_manager (self : t) (sys : System) : Outcome CheckResult :=
  first_active sys
    [ ("gdm", "GDM (GNOME)");
      ("sddm", "SDDM (KDE)");
      ("lightdm", "LightDM");
      ("lxdm", "LXDM");
      ("xdm", "XDM") ].

Definition check_resolution (self : t) (sys : System) : Outcome CheckResult :=
  _ <- (if String.eqb (session_type self) "wayland" then
          ' (success, output) <- _run_command sys ["wlr-randr"] 10 ;;
          if negb success then
            _run_command sys
              ["gsettings"; "get"; "org.gnome.desktop.interface"; "scaling-factor"] 10
          else Returned (success, output)
        else Returned (false, "")) ;;
  ' (success, output) <- _run_command sys ["xrandr"; "--current"] 10 ;;
  if negb success then
    Returned (CheckResult3 "Screen Resolution" SKIP "Cannot detect resolution")
  else
    let resolutions := re_findall sys "(\d{3,4}x\d{3,4})\s+\d+\.\d+\*" [] output in
    if nonempty resolutions then
      Returned (CheckResult3 "Screen Resolution" PASS (join ", " resolutions))
    else
      let connected := re_findall sys "(\w+) connected" [] output in
      if nonempty connected then
        Returned (CheckResult3 "Screen Resolution" PASS
          (str_int (length connected) ++ " display(s) connected"))
      else
        Returned (CheckResult3 "Screen Resolution" WARN "No displays detected").

(** One [gsettings get org.gnome.desktop.interface <key>] of [check_themes]:
    the entry it adds to [themes], if the command succeeded. *)
Definition theme_entry (sys : System) (label key : string)
    : Outcome (list (string * string)) :=
  ' (success, output) <- _run_command sys
      ["gsettings"; "get"; "org.gnome.desktop.interface"; key] 10 ;;
  if success then Returned [(label, strip_char "'"%char (strip output))]
  else Returned [].

Definition check_themes (self : t) (sys : System) : Outcome CheckResult :=
  gtk <- theme_entry sys "GTK" "gtk-theme" ;;
  icons <- theme_entry sys "Icons" "icon-theme" ;;
  cursor <- theme_entry sys "Cursor" "cursor-theme" ;;
  let themes := (gtk ++ icons ++ cursor)%list in
  if nonempty themes then
    let theme_str :=
      join ", " (map (fun kv => fst kv ++ ": " ++ snd kv) (firstn 2 themes)) in
    Returned (CheckResult3 "Theme & Icons" PASS
      (take 50 theme_str
       ++ (if (50 <? String.length theme_str)%nat then "..." else "")))
  else
    Returned (CheckResult3 "Theme & Icons" SKIP "Unable to detect themes").

Definition check_fonts (self : t) (sys : System) : Outcome CheckResult :=
  ' (success, output) <- _run_command sys ["fc-list"] 10 ;;
  if negb success then
    Returned (CheckResult3 "Fonts" SKIP "fontconfig not available")
  else
    let font_count := length (lines (strip output)) in
    let common_fonts := ["DejaVu"; "Liberation"; "Noto"; "Roboto"; "Fira"] in
    let found_fonts :=
      filter (fun f => contains (lower f) (lower output)) common_fonts in
    if (font_count <? 50)%nat then
      Returned (mkCheckResult "Fonts" WARN
        ("Only " ++ str_int font_count ++ " fonts installed")
        "Consider installing more font packages"
        true
        "dnf install google-noto-fonts-common liberation-fonts dejavu-fonts-all")
    else
      Returned (CheckResult3 "Fonts" PASS
        (str_int font_count ++ " fonts (" ++ join ", " (firstn 3 found_fonts) ++ ")")).

Definition check_gnome_extensions (self : t) (sys : System) : Outcome CheckResult :=
  if negb (contains "gnome" (desktop_session self)) then
    Returned (CheckResult3 "GNOME Extensions" SKIP "Not using GNOME")
  else
    ' (success, output) <- _run_command sys ["gnome-extensions"; "list"; "--enabled"] 10 ;;
    if negb success then
      Returned (CheckResult3 "GNOME Extensions" SKIP "gnome-extensions not available")
    else
      let extensions := filter truthy (lines (strip output)) in
      if negb (nonempty extensions) then
        Returned (CheckResult3 "GNOME Extensions" PASS "No extensions enabled")
      else
        ' (success, disabled) <- _run_command sys
                                   ["gnome-extensions"; "list"; "--disabled"] 10 ;;
        let disabled_count := length (filter truthy (lines (strip disabled))) in
        Returned (CheckResult3 "GNOME Extensions" PASS
          (str_int (length extensions) ++ " enabled, "
           ++ str_int disabled_count ++ " disabled")).

Definition check_flatpak (self : t) (sys : System) : Outcome CheckResult :=
  ' (success, _) <- _run_command sys ["which"; "flatpak"] 10 ;;
  if negb success then
    Returned (mkCheckResult "Flatpak Apps" WARN
      "Flatpak not installed" ""
      true
      "dnf install flatpak && flatpak remote-add --if-not-exists flathub https://flathub.org/repo/flathub.flatpakrepo")
  else
    ' (success, output) <- _run_command sys ["flatpak"; "list"; "--app"] 10 ;;
    if success then
      let apps := filter truthy (lines (strip output)) in
      let app_count := length apps in
      ' (success, remotes) <- _run_command sys ["flatpak"; "remotes"] 10 ;;
      let has_flathub := contains "flathub" (lower remotes) in
      if negb has_flathub then
        Returned (mkCheckResult "Flatpak Apps" WARN
          (str_int app_count ++ " app(s), Flathub not configured") ""
          true
          "flatpak remote-add --if-not-exists flathub https://flathub.org/repo/flathub.flatpakrepo")
      else
        Returned (CheckResult3 "Flatpak Apps" PASS
          (str_int app_count ++ " app(s) installed"))
    else
      Returned (CheckResult3 "Flatpak Apps" PASS "Flatpak configured").

(** The loop of [check_portals] over the portal packages. *)
Fixpoint scan_portals (sys : System) (portal_packages : list string)
    (installed : list string) : Outcome (list string) :=
  match portal_packages with
  | [] => Returned installed
  | pkg :: rest =>
      ' (success, _) <- _run_command sys ["rpm"; "-q"; pkg] 10 ;;
      if success then
        scan_portals sys rest
          (installed
           ++ [replace "xdg-desktop-portal" "core"
                 (replace "xdg-desktop-portal-" "" pkg)])
      else scan_portals sys rest installed
  end.

Definition check_portals (self : t) (sys : System) : Outcome CheckResult :=
  let portal_packages :=
    [ "xdg-desktop-portal";
      "xdg-desktop-portal-gtk";
      "xdg-desktop-portal-gnome";
      "xdg-desktop-portal-kde" ] in
  installed <- scan_portals sys portal_packages [] ;;
  if negb (nonempty installed) then
    Returned (mkCheckResult "Desktop Portals" WARN
      "XDG portals not installed"
      "Flatpak apps may not work correctly"
      true "dnf install xdg-desktop-portal xdg-desktop-portal-gtk")
  else
    ' (success, output) <- _run_command sys
        ["systemctl"; "--user"; "is-active"; "xdg-desktop-portal"] 10 ;;
    if success && contains "active" output then
      Returned (CheckResult3 "Desktop Portals" PASS
        ("Active (" ++ join ", " (firstn 3 installed) ++ ")"))
    else
      Returned (mkCheckResult "Desktop Portals" WARN
        "Portal service not running" ""
        true "systemctl --user enable --now xdg-desktop-portal").

(** The table [checks] of [run_all_checks]: the bound methods of [self]. *)
Definition checks (self : t) : list (string * Probe System) :=
  [ ("Desktop Environment", check_desktop_environment self);
    ("Display Server", check_display_server self);
    ("Compositor", check_compositor self);
    ("Display Manager", check_display_manager self);
    ("Screen Resolution", check_resolution self);
    ("Theme & Icons", check_themes self);
    ("Fonts", check_fonts self);
    ("GNOME Extensions", check_gnome_extensions self);
    ("Flatpak Apps", check_flatpak self);
    ("Desktop Portals", check_portals self) ].

(** [DesktopChecker.run_all_checks]: the category, or the exception that
    escaped, and the checker afterwards. *)
Definition run_all_checks (self : t) (sys : System) : Outcome CheckCategory * t :=
  let self0 := {| results := [];
                  desktop_session := desktop_session self;
                  session_type := session_type self |} in
  let (outcome, rs) :=
    finish_checks "Desktop Check" StatusIcon.DESKTOP
      (run_checks (checks self0) sys (results self0)) in
  (outcome, {| results := rs;
               desktop_session := desktop_session self;
               session_type := session_type self |}).
End DesktopChecker.


(** ** Remediation: the machine being changed

    A fix runs commands on a machine of some state type [M] and asks the user
    for confirmation.  [Host M] gives the behaviour of that machine and of
    that user:
    - [exec cmd timeout m] is
      [subprocess.run(cmd, capture_output=True, text=True, timeout=timeout)]
      on the machine in state [m]: what the call yields, and the state it
      leaves;
    - [answer k prompt] is what the user answers to the [k]-th
      [Confirm.ask], which shows [prompt];
    - [exists_ p m] is [os.path.exists(p)];
    - [append p text m] is [open(p, "a")] followed by [write(text)];
    - [getenv key] is [os.environ.get(key)]. *)
Record Host (M : Type) : Type := {
  exec : list string -> nat -> M -> Outcome CompletedProcess * M;
  answer : nat -> string -> bool;
  exists_ : string -> M -> bool;
  append : string -> string -> M -> Outcome unit * M;
  getenv : string -> option string
}.

Arguments exec {M} h cmd timeout m.
Arguments answer {M} h k prompt.
Arguments exists_ {M} h p m.
Arguments append {M} h p text m.
Arguments getenv {M} h key.

(** One call of [subprocess.run] made by a fixer: the command line, and the
    success flag [_run_command] gave back for it ([false] also when the call
    raised). *)
Record Call : Type := mkCall {
  call_cmd : list string;
  call_ok : bool
}.

(** The world a fix runs in: the machine, the calls of [subprocess.run] made
    so far and the prompts shown so far, oldest first. *)
Record World (M : Type) : Type := mkWorld {
  machine : M;
  calls : list Call;
  asked : list string
}.

Arguments mkWorld {M} machine calls asked.
Arguments machine {M} w.
Arguments calls {M} w.
Arguments asked {M} w.

(** The command lines executed so far. *)
Definition executed {M : Type} (w : World M) : list (list string) :=
  map call_cmd (calls w).

(** A computation of the fixers: it may change the world and may raise. *)
Definition Fix (M A : Type) : Type := World M -> Outcome A * World M.

Definition ret {M A : Type} (a : A) : Fix M A := fun w => (Returned a, w).

Definition bindF {M A B : Type} (m : Fix M A) (k : A -> Fix M B) : Fix M B :=
  fun w =>
    match m w with
    | (Returned a, w') => k a w'
    | (Raised e, w') => (Raised e, w')
    end.

Declare Scope fix_scope.
Delimit Scope fix_scope with rem.
Notation "x <- m ;; k" := (bindF m (fun x => k))
  (at level 61, m at next level, right associativity) : fix_scope.
Notation "' p <- m ;; k" := (bindF m (fun x => match x with p => k end))
  (at level 61, p pattern, m at next level, right associativity) : fix_scope.
Notation "m ;; k" := (bindF m (fun _ => k))
  (at level 61, right associativity) : fix_scope.

(** [Confirm.ask(prompt)]. *)
Definition Confirm_ask {M : Type} (h : Host M) (prompt : string) : Fix M bool :=
  fun w =>
    (Returned (answer h (length (asked w)) prompt),
     mkWorld (machine w) (calls w) (asked w ++ [prompt])).

(** [os.path.exists(p)]. *)
Definition path_exists {M : Type} (h : Host M) (p : string) : Fix M bool :=
  fun w => (Returned (exists_ h p (machine w)), w).

(** The [_run_command] of the fixers: [sudo] is put in front when asked for,
    the command line is run, and the result is
    [(returncode == 0, stdout + stderr)], [(False, "Command timed out")] or
    [(False, str(e))] for a program that was not found. *)
Definition run_fix_command {M : Type} (h : Host M) (cmd : list string)
    (sudo : bool) (timeout : nat) : Fix M (bool * string) :=
  fun w =>
    let cmd := if sudo then "sudo" :: cmd else cmd in
    let (res, m') := exec h cmd timeout (machine w) in
    let after ok := mkWorld m' (calls w ++ [mkCall cmd ok]) (asked w) in
    match res with
    | Returned result =>
        let ok := Z.eqb (returncode result) 0 in
        (Returned (ok, stdout result ++ stderr result), after ok)
    | Raised e =>
        if is_class TimeoutExpired e
        then (Returned (false, "Command timed out"), after false)
        else if is_class FileNotFoundError e
        then (Returned (false, exc_str e), after false)
        else (Raised e, after false)
    end.

(** [@dataclass class FixResult], the same in the four fix modules. *)
Record FixResult : Type := mkFixResult {
  success : bool;
  fix_message : string;
  fix_details : string;
  requires_reboot : bool
}.

(** [fix_map.get(name)]. *)
Definition fix_map_get {H : Type} (fix_map : list (string * H)) (key : string)
    : option H :=
  match find (fun item => String.eqb (fst item) key) fix_map with
  | Some item => Some (snd item)
  | None => None
  end.

(** The end of every [apply_fix]:
    [[
        fix_func = fix_map.get(check_result.name)

        if fix_func:
            if Confirm.ask(f"Apply fix for [bold]{check_result.name}[/]?"):
                return fix_func()

        # Generic fix using the command
        if check_result.fix_command:
            if Confirm.ask(...):
                success, output = self._run_command(
                    ["bash", "-c", check_result.fix_command],
                    sudo=True,
                )
                return FixResult(...)

        return None
    ]]
    [run] is the fixer's [_run_command] with its default timeout. *)
Definition generic_fix {M : Type} (h : Host M)
    (run : list string -> bool -> Fix M (bool * string))
    (check_result : CheckResult) : Fix M (option FixResult) :=
  (if PyStr.truthy (fix_command check_result) then
     yes <- Confirm_ask h
              ("Run fix command for [bold]" ++ name check_result ++ "[/]?"
               ++ PyStr.LF ++ "[dim]" ++ fix_command check_result ++ "[/]") ;;
     if yes then
       ' (success, output) <- run ["bash"; "-c"; fix_command check_result] true ;;
       ret (Some (mkFixResult success
                    (if success then "Fix applied" else "Fix failed")
                    output false))
     else ret None
   else ret None)%rem.

Definition dispatch {M : Type} (h : Host M)
    (run : list string -> bool -> Fix M (bool * string))
    (fix_map : list (string * Fix M FixResult))
    (check_result : CheckResult) : Fix M (option FixResult) :=
  (match fix_map_get fix_map (name check_result) with
   | Some fix_func =>
       yes <- Confirm_ask h ("Apply fix for [bold]" ++ name check_result ++ "[/]?") ;;
       if yes then
         r <- fix_func ;;
         ret (Some r)
       else generic_fix h run check_result
   | None => generic_fix h run check_result
   end)%rem.

(** ** [fedchecker/fixes/health_fix.py]

    Console output and the progress display are left out. *)
Module HealthFixer.
Import PyStr.
Local Open Scope fix_scope.

Section WithHost.
Context {M : Type} (h : Host M).

Definition _run_command (cmd : list string) (sudo : bool) (timeout : nat)
    : Fix M (bool * string) :=
  run_fix_command h cmd sudo timeout.

(** The loop of [fix_disk_space]. *)
Fixpoint clean_steps (steps : list (string * list string))
    (cleaned failed : list string) : Fix M (list string * list string) :=
  match steps with
  | [] => ret (cleaned, failed)
  | (desc, cmd) :: rest =>
      ' (success, output) <- _run_command cmd true 300 ;;
      if success then clean_steps rest (cleaned ++ [desc]) failed
      else clean_steps rest cleaned (failed ++ [desc])
  end.

Definition disk_steps : list (string * list string) :=
  [ ("Cleaning DNF cache", ["dnf"; "clean"; "all"]);
    ("Removing orphaned packages", ["dnf"; "autoremove"; "-y"]);
    ("Cleaning old kernels", ["dnf"; "remove"; "--oldinstallonly"; "-y"]);
    ("Cleaning journal logs", ["journalctl"; "--vacuum-time=7d"]) ].

Definition fix_disk_space : Fix M FixResult :=
  let steps := disk_steps in
  ' (cleaned, failed) <- clean_steps steps [] [] ;;
  if nonempty failed then
    ret (mkFixResult false
           ("Partial cleanup: " ++ str_int (length cleaned) ++ "/"
            ++ str_int (length steps) ++ " steps completed")
           ("Failed: " ++ join ", " failed)
           false)
  else
    ret (mkFixResult true "Disk cleanup completed"
           ("Completed: " ++ join ", " cleaned) false).

Definition fix_failed_units : Fix M FixResult :=
  ' (success, output) <- _run_command ["systemctl"; "reset-failed"] true 300 ;;
  if success then ret (mkFixResult true "Failed units reset" "" false)
  else ret (mkFixResult false "Failed to reset units" output false).

(** The loop of [fix_dnf_issues]: [Some] is the result returned from
    inside the loop. *)
Fixpoint repair_steps (steps : list (string * list string))
    : Fix M (option FixResult) :=
  match steps with
  | [] => ret None
  | (desc, cmd) :: rest =>
      ' (success, output) <- _run_command cmd true 600 ;;
      if negb success then
        ret (Some (mkFixResult false ("Failed at: " ++ desc)
                     (take 500 output) false))
      else repair_steps rest
  end.

Definition dnf_steps : list (string * list string) :=
  [ ("Rebuilding RPM database", ["rpm"; "--rebuilddb"]);
    ("Cleaning DNF cache", ["dnf"; "clean"; "all"]);
    ("Checking for problems", ["dnf"; "check"]);
    ("Syncing distribution", ["dnf"; "distro-sync"; "-y"]) ].

Definition fix_dnf_issues : Fix M FixResult :=
  returned <- repair_steps dnf_steps ;;
  match returned with
  | Some r => ret r
  | None => ret (mkFixResult true "Package manager issues fixed" "" false)
  end.

(** [output[-500:] if len(output) > 500 else output]. *)
Definition tail_500 (output : string) : string :=
  if (500 <? String.length output)%nat
  then String.substring (String.length output - 500) 500 output
  else output.

Definition fix_orphaned_packages : Fix M FixResult :=
  ' (success, output) <- _run_command ["dnf"; "autoremove"; "-y"] true 300 ;;
  if success then
    ret (mkFixResult true "Removed orphaned packages" (tail_500 output) false)
  else
    ret (mkFixResult false "Failed to remove orphaned packages" output false).

(** The loop of [create_swap]: a failing step removes the swap file and
    returns from inside the loop. *)
Fixpoint swap_steps (swapfile : string) (steps : list (string * list string))
    : Fix M (option FixResult) :=
  match steps with
  | [] => ret None
  | (desc, cmd) :: rest =>
      ' (success, output) <- _run_command cmd true 300 ;;
      if negb success then
        _run_command ["rm"; "-f"; swapfile] true 300 ;;
        ret (Some (mkFixResult false ("Failed at: " ++ desc) output false))
      else swap_steps swapfile rest
  end.

(** [with open("/etc/fstab", "a") as f: f.write(fstab_entry)], with the
    [sudo] fallback of the [except PermissionError] clause. *)
Definition add_to_fstab (swapfile fstab_entry : string) : Fix M unit :=
  fun w =>
    let (res, m') := append h "/etc/fstab" fstab_entry (machine w) in
    let w' := mkWorld m' (calls w) (asked w) in
    match res with
    | Returned _ => (Returned tt, w')
    | Raised e =>
        if is_class PermissionError e then
          (_run_command
             ["bash"; "-c";
              "echo '" ++ swapfile ++ " none swap sw 0 0' >> /etc/fstab"]
             true 300 ;;
           ret tt) w'
        else (Raised e, w')
    end.

Definition create_swap_steps (size_gb : nat) (swapfile : string)
    : list (string * list string) :=
  [ ("Allocating space", ["fallocate"; "-l"; str_int size_gb ++ "G"; swapfile]);
    ("Setting permissions", ["chmod"; "600"; swapfile]);
    ("Formatting swap", ["mkswap"; swapfile]);
    ("Enabling swap", ["swapon"; swapfile]) ].

Definition create_swap (size_gb : nat) : Fix M FixResult :=
  let swapfile := "/swapfile" in
  present <- path_exists h swapfile ;;
  if present then
    ret (mkFixResult false "Swap file already exists"
           "Remove /swapfile first if you want to recreate it" false)
  else
    returned <- swap_steps swapfile (create_swap_steps size_gb swapfile) ;;
    match returned with
    | Some r => ret r
    | None =>
        let fstab_entry := swapfile ++ " none swap sw 0 0" ++ LF in
        add_to_fstab swapfile fstab_entry ;;
        ret (mkFixResult true
               ("Created " ++ str_int size_gb ++ "GB swap file")
               "Swap is now active and will persist across reboots" false)
    end.

Definition fix_map : list (string * Fix M FixResult) :=
  [ ("Disk Space", fix_disk_space);
    ("Failed Systemd Units", fix_failed_units);
    ("Package Manager", fix_dnf_issues);
    ("Orphaned Packages", fix_orphaned_packages);
    ("Swap Space", create_swap 4) ].

(** [HealthFixer.apply_fix]. *)
Definition apply_fix (check_result : CheckResult) : Fix M (option FixResult) :=
  if negb (fix_available check_result) then ret None
  else dispatch h (fun cmd sudo => _run_command cmd sudo 300)
         fix_map check_result.
End WithHost.
End HealthFixer.


(** ** [fedchecker/fixes/driver_fix.py] *)
Module DriverFixer.
Import PyStr.
Local Open Scope fix_scope.

Section WithHost.
Context {M : Type} (h : Host M).

Definition _run_command (cmd : list string) (sudo : bool) (timeout : nat)
    : Fix M (bool * string) :=
  run_fix_command h cmd sudo timeout.

(** The loop of [install_nvidia_driver]: a command with a [$] in it goes
    through [bash -c]; a failure of the RPM Fusion step is passed over. *)
Fixpoint nvidia_steps (steps : list (string * list string))
    : Fix M (option FixResult) :=
  match steps with
  | [] => ret None
  | (desc, cmd) :: rest =>
      ' (success, output) <-
          (if contains "$" (join " " cmd)
           then _run_command ["bash"; "-c"; join " " cmd] true 600
           else _run_command cmd true 600) ;;
      if negb success && negb (contains "RPM Fusion" desc) then
        ret (Some (mkFixResult false ("Failed at: " ++ desc)
                     (take 500 output) false))
      else nvidia_steps rest
  end.

Definition nvidia_driver_steps : list (string * list string) :=
  [ ("Enabling RPM Fusion",
     [ "dnf"; "install"; "-y";
       "https://download1.rpmfusion.org/free/fedora/rpmfusion-free-release-$(rpm -E %fedora).noarch.rpm";
       "https://download1.rpmfusion.org/nonfree/fedora/rpmfusion-nonfree-release-$(rpm -E %fedora).noarch.rpm" ]);
    ("Installing NVIDIA driver", ["dnf"; "install"; "-y"; "akmod-nvidia"]);
    ("Installing CUDA support",
     ["dnf"; "install"; "-y"; "xorg-x11-drv-nvidia-cuda"]) ].

Definition install_nvidia_driver : Fix M FixResult :=
  returned <- nvidia_steps nvidia_driver_steps ;;
  match returned with
  | Some r => ret r
  | None =>
      ret (mkFixResult true "NVIDIA driver installed"
             "Reboot required to load the new driver" true)
  end.

Definition install_wifi_firmware : Fix M FixResult :=
  let packages :=
    [ "linux-firmware"; "iwl*-firmware"; "atheros-firmware";
      "b43-openfwwf"; "brcmfmac-firmware" ] in
  ' (success, output) <-
      _run_command (["dnf"; "install"; "-y"] ++ packages) true 300 ;;
  if success then
    ret (mkFixResult true "WiFi firmware installed"
           "You may need to reboot or reload the WiFi module" true)
  else ret (mkFixResult false "Failed to install firmware" output false).

Definition unblock_wifi : Fix M FixResult :=
  ' (success, output) <- _run_command ["rfkill"; "unblock"; "wifi"] true 300 ;;
  if success then ret (mkFixResult true "WiFi unblocked" "" false)
  else ret (mkFixResult false "Failed to unblock WiFi" output false).

Definition install_audio_drivers : Fix M FixResult :=
  let packages :=
    [ "alsa-firmware"; "alsa-plugins-pulseaudio"; "pipewire-alsa";
      "sof-firmware" ] in
  ' (success, output) <-
      _run_command (["dnf"; "install"; "-y"] ++ packages) true 300 ;;
  if success then ret (mkFixResult true "Audio packages installed" "" true)
  else ret (mkFixResult false "Failed to install audio packages" output false).

(** The loop of [enable_bluetooth]. *)
Fixpoint bluetooth_steps (steps : list (string * list string))
    : Fix M (option FixResult) :=
  match steps with
  | [] => ret None
  | (desc, cmd) :: rest =>
      ' (success, output) <- _run_command cmd true 300 ;;
      if negb success then
        ret (Some (mkFixResult false ("Failed at: " ++ desc) output false))
      else bluetooth_steps rest
  end.

Definition enable_bluetooth_steps : list (string * list string) :=
  [ ("Unblocking Bluetooth", ["rfkill"; "unblock"; "bluetooth"]);
    ("Enabling service", ["systemctl"; "enable"; "--now"; "bluetooth"]) ].

Definition enable_bluetooth : Fix M FixResult :=
  returned <- bluetooth_steps enable_bluetooth_steps ;;
  match returned with
  | Some r => ret r
  | None => ret (mkFixResult true "Bluetooth enabled" "" false)
  end.

Definition install_fwupd : Fix M FixResult :=
  ' (success, output) <- _run_command ["dnf"; "install"; "-y"; "fwupd"] true 300 ;;
  if success then
    _run_command ["systemctl"; "enable"; "--now"; "fwupd"] true 300 ;;
    ret (mkFixResult true "fwupd installed and enabled" "" false)
  else ret (mkFixResult false "Failed to install fwupd" output false).

Definition install_hw_acceleration : Fix M FixResult :=
  let packages :=
    [ "libva-utils"; "vdpauinfo"; "mesa-va-drivers"; "mesa-vdpau-drivers";
      "libva-intel-driver"; "intel-media-driver" ] in
  ' (success, output) <-
      _run_command (["dnf"; "install"; "-y"] ++ packages) true 300 ;;
  if success then
    ret (mkFixResult true "Hardware acceleration installed" "" false)
  else ret (mkFixResult false "Failed to install packages" output false).

Definition update_firmware : Fix M FixResult :=
  _run_command ["fwupdmgr"; "refresh"; "--force"] true 60 ;;
  ' (success, output) <- _run_command ["fwupdmgr"; "update"; "-y"] true 600 ;;
  if success || contains "No upgrades" output then
    ret (mkFixResult true "Firmware updated" ""
           (contains "reboot" (lower output)))
  else ret (mkFixResult false "Failed to update firmware" output false).

Definition fix_map : list (string * Fix M FixResult) :=
  [ ("GPU Driver", install_nvidia_driver);
    ("WiFi Driver", install_wifi_firmware);
    ("Audio Driver", install_audio_drivers);
    ("Bluetooth", enable_bluetooth);
    ("Firmware Updates", update_firmware);
    ("Hardware Acceleration", install_hw_acceleration) ].

(** [DriverFixer.apply_fix]: the block [# Handle specific fixes] comes
    before the lookup in [fix_map]. *)
Definition apply_fix (check_result : CheckResult) : Fix M (option FixResult) :=
  if negb (fix_available check_result) then ret None
  else
    let rest :=
      dispatch h (fun cmd sudo => _run_command cmd sudo 300)
        fix_map check_result in
    if contains "blocked" (lower (message check_result)) then
      if contains "wifi" (lower (name check_result)) then
        r <- unblock_wifi ;; ret (Some r)
      else if contains "bluetooth" (lower (name check_result)) then
        r <- enable_bluetooth ;; ret (Some r)
      else rest
    else rest.
End WithHost.
End DriverFixer.

(** ** [fedchecker/fixes/security_fix.py] *)
Module SecurityFixer.
Import PyStr.
Local Open Scope fix_scope.

Section WithHost.
Context {M : Type} (h : Host M).

Definition _run_command (cmd : list string) (sudo : bool) (timeout : nat)
    : Fix M (bool * string) :=
  run_fix_command h cmd sudo timeout.

(** The loop of [enable_firewall]: a failure whose output says
    [already installed] is passed over. *)
Fixpoint firewall_steps (steps : list (string * list string))
    : Fix M (option FixResult) :=
  match steps with
  | [] => ret None
  | (desc, cmd) :: rest =>
      ' (success, output) <- _run_command cmd true 120 ;;
      if negb success && negb (contains "already installed" (lower output)) then
        ret (Some (mkFixResult false ("Failed at: " ++ desc) output false))
      else firewall_steps rest
  end.

Definition enable_firewall_steps : list (string * list string) :=
  [ ("Installing firewalld", ["dnf"; "install"; "-y"; "firewalld"]);
    ("Enabling service", ["systemctl"; "enable"; "--now"; "firewalld"]);
    ("Setting default zone",
     ["firewall-cmd"; "--set-default-zone=FedoraWorkstation"]) ].

Definition enable_firewall : Fix M FixResult :=
  returned <- firewall_steps enable_firewall_steps ;;
  match returned with
  | Some r => ret r
  | None => ret (mkFixResult true "Firewall enabled and configured" "" false)
  end.

Definition enforce_selinux : Fix M FixResult :=
  ' (success, output) <- _run_command ["setenforce"; "1"] true 120 ;;
  if negb success then
    ret (mkFixResult false "Failed to enable SELinux" output false)
  else
    _run_command
      ["sed"; "-i"; "s/SELINUX=permissive/SELINUX=enforcing/";
       "/etc/selinux/config"] true 120 ;;
    _run_command
      ["sed"; "-i"; "s/SELINUX=disabled/SELINUX=enforcing/";
       "/etc/selinux/config"] true 120 ;;
    ret (mkFixResult true "SELinux set to enforcing"
           "Configuration updated for persistence" false).

(** The loop of [harden_ssh] over the settings. *)
Fixpoint write_settings (ssh_config : string) (settings : list (string * string))
    : Fix M unit :=
  match settings with
  | [] => ret tt
  | (key, value) :: rest =>
      _run_command
        ["sed"; "-i"; "s/^#*" ++ key ++ ".*/" ++ key ++ " " ++ value ++ "/";
         ssh_config] true 120 ;;
      write_settings ssh_config rest
  end.

Definition harden_ssh : Fix M FixResult :=
  let ssh_config := "/etc/ssh/sshd_config" in
  write_settings ssh_config
    [ ("PermitRootLogin", "no");
      ("PermitEmptyPasswords", "no");
      ("MaxAuthTries", "3");
      ("ClientAliveInterval", "300");
      ("ClientAliveCountMax", "2") ] ;;
  ' (success, output) <- _run_command ["systemctl"; "restart"; "sshd"] true 120 ;;
  if success then
    ret (mkFixResult true "SSH hardened"
           "Root login disabled, auth limits set" false)
  else ret (mkFixResult false "Failed to restart SSH" output false).

Definition jail_config : string :=
  "[DEFAULT]" ++ LF ++ "bantime = 1h" ++ LF ++ "findtime = 10m" ++ LF
  ++ "maxretry = 5" ++ LF ++ LF ++ "[sshd]" ++ LF ++ "enabled = true" ++ LF.

Definition install_fail2ban : Fix M FixResult :=
  ' (success, output) <-
      _run_command ["dnf"; "install"; "-y"; "fail2ban"] true 120 ;;
  if negb success then
    ret (mkFixResult false "Failed to install fail2ban" output false)
  else
    _run_command
      ["bash"; "-c"; "echo '" ++ jail_config ++ "' > /etc/fail2ban/jail.local"]
      true 120 ;;
    ' (success, output) <-
        _run_command ["systemctl"; "enable"; "--now"; "fail2ban"] true 120 ;;
    if success then
      ret (mkFixResult true "fail2ban installed and configured" "" false)
    else ret (mkFixResult false "Failed to enable fail2ban" output false).

Definition config_cmd : string :=
  "sed -i 's/apply_updates = no/apply_updates = yes/' /etc/dnf/automatic.conf && "
  ++ "sed -i 's/upgrade_type = default/upgrade_type = security/' /etc/dnf/automatic.conf".

Definition enable_auto_updates : Fix M FixResult :=
  ' (success, output) <-
      _run_command ["dnf"; "install"; "-y"; "dnf-automatic"] true 120 ;;
  if negb success then
    ret (mkFixResult false "Failed to install dnf-automatic" output false)
  else
    _run_command ["bash"; "-c"; config_cmd] true 120 ;;
    ' (success, output) <-
        _run_command ["systemctl"; "enable"; "--now"; "dnf-automatic.timer"]
          true 120 ;;
    if success then
      ret (mkFixResult true "Automatic security updates enabled" "" false)
    else ret (mkFixResult false "Failed to enable auto-updates" output false).

Definition install_clamav : Fix M FixResult :=
  let packages := ["clamav"; "clamav-update"; "clamd"] in
  ' (success, output) <-
      _run_command (["dnf"; "install"; "-y"] ++ packages) true 120 ;;
  if negb success then
    ret (mkFixResult false "Failed to install ClamAV" output false)
  else
    _run_command ["freshclam"] true 300 ;;
    _run_command ["systemctl"; "enable"; "--now"; "clamav-freshclam"] true 120 ;;
    ret (mkFixResult true "ClamAV installed and updating" "" false).

(** The loop of [fix_file_permissions]. *)
Fixpoint chmod_files (files : list (string * string)) (fixed : list string)
    : Fix M (list string) :=
  match files with
  | [] => ret fixed
  | (filepath, mode) :: rest =>
      ' (success, _) <- _run_command ["chmod"; mode; filepath] true 120 ;;
      if success then chmod_files rest (fixed ++ [filepath])
      else chmod_files rest fixed
  end.

Definition sensitive_files : list (string * string) :=
  [ ("/etc/passwd", "644");
    ("/etc/shadow", "000");
    ("/etc/gshadow", "000");
    ("/etc/sudoers", "440") ].

Definition fix_file_permissions : Fix M FixResult :=
  let files := sensitive_files in
  fixed <- chmod_files files [] ;;
  ret (mkFixResult (Nat.eqb (length fixed) (length files))
         ("Fixed " ++ str_int (length fixed) ++ "/" ++ str_int (length files)
          ++ " file permissions")
         "" false).

Definition fix_map : list (string * Fix M FixResult) :=
  [ ("Firewall (firewalld)", enable_firewall);
    ("SELinux Status", enforce_selinux);
    ("SSH Configuration", harden_ssh);
    ("Failed Login Attempts", install_fail2ban);
    ("Automatic Updates", enable_auto_updates);
    ("Antivirus (ClamAV)", install_clamav);
    ("File Permissions", fix_file_permissions) ].

(** [SecurityFixer.apply_fix]. *)
Definition apply_fix (check_result : CheckResult) : Fix M (option FixResult) :=
  if negb (fix_available check_result) then ret None
  else dispatch h (fun cmd sudo => _run_command cmd sudo 120)
         fix_map check_result.
End WithHost.
End SecurityFixer.

(** ** [fedchecker/fixes/desktop_fix.py]

    The parameter [user] of [_run_command] chooses between [env=os.environ]
    and [env=None]; both run the command in the environment of the process,
    so it does not appear below. *)
Module DesktopFixer.
Import PyStr.
Local Open Scope fix_scope.

Section WithHost.
Context {M : Type} (h : Host M).

Definition _run_command (cmd : list string) (sudo : bool) (timeout : nat)
    : Fix M (bool * string) :=
  run_fix_command h cmd sudo timeout.

Definition install_fonts : Fix M FixResult :=
  let packages :=
    [ "google-noto-fonts-common"; "google-noto-sans-fonts";
      "google-noto-serif-fonts"; "liberation-fonts"; "dejavu-fonts-all";
      "fira-code-fonts"; "mozilla-fira-sans-fonts";
      "adobe-source-code-pro-fonts" ] in
  ' (success, output) <-
      _run_command (["dnf"; "install"; "-y"] ++ packages) true 180 ;;
  if success then
    _run_command ["fc-cache"; "-fv"] false 60 ;;
    ret (mkFixResult true "Fonts installed successfully" "" false)
  else ret (mkFixResult false "Failed to install fonts" output false).

(** The loop of [install_flatpak]. *)
Fixpoint flatpak_steps (steps : list (string * list string))
    : Fix M (option FixResult) :=
  match steps with
  | [] => ret None
  | (desc, cmd) :: rest =>
      let sudo := in_list "dnf" cmd in
      ' (success, output) <- _run_command cmd sudo 120 ;;
      if negb success then
        ret (Some (mkFixResult false ("Failed at: " ++ desc) output false))
      else flatpak_steps rest
  end.

Definition install_flatpak_steps : list (string * list string) :=
  [ ("Installing Flatpak", ["dnf"; "install"; "-y"; "flatpak"]);
    ("Adding Flathub",
     [ "flatpak"; "remote-add"; "--if-not-exists"; "flathub";
       "https://flathub.org/repo/flathub.flatpakrepo" ]) ].

Definition install_flatpak : Fix M FixResult :=
  returned <- flatpak_steps install_flatpak_steps ;;
  match returned with
  | Some r => ret r
  | None =>
      ret (mkFixResult true "Flatpak configured with Flathub"
             "You may need to log out and back in for apps to appear" false)
  end.

(** [os.environ.get("XDG_CURRENT_DESKTOP", "").lower()]. *)
Definition current_desktop : string :=
  lower (match getenv h "XDG_CURRENT_DESKTOP" with
         | Some v => v
         | None => ""
         end).

Definition install_portals : Fix M FixResult :=
  let de := current_desktop in
  let packages :=
    (["xdg-desktop-portal"]
     ++ [ if contains "gnome" de then "xdg-desktop-portal-gnome"
          else if contains "kde" de || contains "plasma" de
          then "xdg-desktop-portal-kde"
          else "xdg-desktop-portal-gtk" ])%list in
  ' (success, output) <-
      _run_command (["dnf"; "install"; "-y"] ++ packages) true 120 ;;
  if negb success then
    ret (mkFixResult false "Failed to install portals" output false)
  else
    _run_command
      ["systemctl"; "--user"; "enable"; "--now"; "xdg-desktop-portal"]
      false 120 ;;
    ret (mkFixResult true "Desktop portals installed" "" false).

(** The two loops of [fix_gnome_extensions]. *)
Fixpoint disable_all (extensions : list string) : Fix M unit :=
  match extensions with
  | [] => ret tt
  | ext :: rest =>
      _run_command ["gnome-extensions"; "disable"; ext] false 120 ;;
      disable_all rest
  end.

Fixpoint enable_all (extensions : list string) (enabled : nat) : Fix M nat :=
  match extensions with
  | [] => ret enabled
  | ext :: rest =>
      ' (success, _) <- _run_command ["gnome-extensions"; "enable"; ext] false 120 ;;
      if success then enable_all rest (enabled + 1) else enable_all rest enabled
  end.

Definition fix_gnome_extensions : Fix M FixResult :=
  ' (success, output) <-
      _run_command ["gnome-extensions"; "list"; "--enabled"] false 120 ;;
  if negb success then
    ret (mkFixResult false "Cannot access GNOME extensions" output false)
  else
    let extensions :=
      map strip (filter (fun e => truthy (strip e)) (lines output)) in
    if negb (nonempty extensions) then
      ret (mkFixResult true "No extensions to manage" "" false)
    else
      disable_all extensions ;;
      enabled <- enable_all extensions 0 ;;
      ret (mkFixResult true ("Reset " ++ str_int enabled ++ " extensions")
             "Extensions have been reloaded" false).

Definition configure_display_manager : Fix M FixResult :=
  let de := current_desktop in
  let dm := if contains "kde" de || contains "plasma" de then "sddm" else "gdm" in
  _run_command ["dnf"; "install"; "-y"; dm] true 120 ;;
  ' (success, output) <- _run_command ["systemctl"; "enable"; dm] true 120 ;;
  _run_command ["systemctl"; "set-default"; "graphical.target"] true 120 ;;
  if success then ret (mkFixResult true (upper dm ++ " enabled") "" false)
  else ret (mkFixResult false "Failed to configure display manager" output false).

Definition install_codecs_gui : Fix M FixResult :=
  let packages :=
    [ "gstreamer1-plugins-bad-free"; "gstreamer1-plugins-good";
      "gstreamer1-plugins-ugly-free"; "gstreamer1-plugin-openh264";
      "mozilla-openh264" ] in
  ' (success, output) <-
      _run_command (["dnf"; "install"; "-y"] ++ packages) true 180 ;;
  if success then ret (mkFixResult true "Multimedia codecs installed" "" false)
  else ret (mkFixResult false "Failed to install codecs" output false).

Definition reset_gnome_settings : Fix M FixResult :=
  yes <- Confirm_ask h
           "[yellow]This will reset all GNOME settings to defaults. Continue?[/]" ;;
  if negb yes then ret (mkFixResult false "Reset cancelled by user" "" false)
  else
    ' (success, output) <- _run_command ["dconf"; "reset"; "-f"; "/"] false 120 ;;
    if success then
      ret (mkFixResult true "GNOME settings reset"
             "Log out and back in for full effect" false)
    else ret (mkFixResult false "Failed to reset settings" output false).

Definition fix_map : list (string * Fix M FixResult) :=
  [ ("Fonts", install_fonts);
    ("Flatpak Apps", install_flatpak);
    ("Desktop Portals", install_portals);
    ("GNOME Extensions", fix_gnome_extensions);
    ("Display Manager", configure_display_manager) ].

(** [DesktopFixer.apply_fix]. *)
Definition apply_fix (check_result : CheckResult) : Fix M (option FixResult) :=
  if negb (fix_available check_result) then ret None
  else dispatch h (fun cmd sudo => _run_command cmd sudo 120)
         fix_map check_result.
End WithHost.
End DesktopFixer.


(** ** [fedchecker/main.py] *)
Module Main.

(** How a call of [main] ends: it returns, it calls [sys.exit(code)], or an
    exception that no clause catches leaves it. *)
Inductive Ending : Type :=
| Returns
| SysExit (code : Z)
| Escapes (e : PyExc).

(** [main].  [app] is what [app = FedChecker(); app.run()] yields: the menu
    loop returned, or an exception came out of it.  [console_print text] is
    [Console().print(text)] in a handler: Rich reads [text] as markup and
    raises when it cannot, and an exception raised inside a handler leaves
    [main].
    [[
        try:
            app = FedChecker()
            app.run()
        except KeyboardInterrupt:
            console = Console()
            console.print("\n[yellow]Interrupted by user[/]")
            sys.exit(0)
        except Exception as e:
            console = Console()
            console.print(f"\n[red]Error: {e}[/]")
            sys.exit(1)
    ]] *)
Definition main (app : Outcome unit) (console_print : string -> Outcome unit)
    : Ending :=
  match app with
  | Returned _ => Returns
  | Raised e =>
      if is_class KeyboardInterrupt e then
        match console_print (PyStr.LF ++ "[yellow]Interrupted by user[/]") with
        | Returned _ => SysExit 0
        | Raised e' => Escapes e'
        end
      else if is_Exception e then
        match console_print (PyStr.LF ++ "[red]Error: " ++ exc_str e ++ "[/]") with
        | Returned _ => SysExit 1
        | Raised e' => Escapes e'
        end
      else Escapes e
  end.

(** The exit code of the process when [main] is its entry point
    ([fedchecker=fedchecker.main:main], or [main()] at the end of
    [run.py]): 0 when [main] returns, the argument of [sys.exit], 1 when an
    [Exception] escapes (the interpreter prints the traceback and exits with
    1), and nothing this model fixes when another exception escapes. *)
Definition exit_code (e : Ending) : option Z :=
  match e with
  | Returns => Some 0%Z
  | SysExit code => Some code
  | Escapes e => if is_Exception e then Some 1%Z else None
  end.
End Main.

(** ** [fedchecker/ui/colors.py]: how a result is shown *)

(** [class Colors]: the colours of the check results. *)
Module Colors.
Definition ERROR : string := "#E74C3C".
Definition INFO : string := "#3498DB".
Definition PASS : string := "#2ECC71".
Definition FAIL : string := "#E74C3C".
Definition WARN : string := "#F39C12".
Definition SKIP : string := "#95A5A6".
End Colors.

(** [CheckResult.get_icon]: the dictionary has an entry for each of the five
    statuses, so the default [StatusIcon.INFO] of [icons.get] is never
    taken. *)
Definition get_icon (self : CheckResult) : string :=
  match status self with
  | PASS => StatusIcon.PASS
  | FAIL => StatusIcon.FAIL
  | WARN => StatusIcon.WARN
  | SKIP => StatusIcon.SKIP
  | ERROR => StatusIcon.FAIL
  end.

(** [CheckResult.get_color]. *)
Definition get_color (self : CheckResult) : string :=
  match status self with
  | PASS => Colors.PASS
  | FAIL => Colors.FAIL
  | WARN => Colors.WARN
  | SKIP => Colors.SKIP
  | ERROR => Colors.ERROR
  end.

(** ** [fedchecker/reports/charts.py]

    What the charts are drawn from; the drawing itself is left out. *)
Module ChartGenerator.

Definition COLORS_pass : string := "#2ECC71".
Definition COLORS_fail : string := "#E74C3C".
Definition COLORS_warn : string := "#F39C12".
Definition COLORS_skip : string := "#95A5A6".

(** [ChartGenerator._score_to_color]. *)
Definition _score_to_color (score : Q) : string :=
  if Qge_bool score 80 then COLORS_pass
  else if Qge_bool score 60 then COLORS_warn
  else COLORS_fail.

(** [ChartGenerator.create_category_pie]: the wedges [(size, label, colour)]
    handed to [ax.pie]. *)
Definition create_category_pie (category : CheckCategory)
    : list (nat * string * string) :=
  let passed := passed category in
  let failed := failed category in
  let warnings := warnings category in
  let skipped := (total category - passed - failed - warnings)%nat in
  let sizes := [passed; failed; warnings; skipped] in
  let labels := ["Passed"; "Failed"; "Warnings"; "Skipped"] in
  let colors := [COLORS_pass; COLORS_fail; COLORS_warn; COLORS_skip] in
  let filtered :=
    filter (fun slc => (0 <? fst (fst slc))%nat)
      (combine (combine sizes labels) colors) in
  if negb (nonempty filtered) then [(1%nat, "No Data", COLORS_skip)]
  else filtered.
End ChartGenerator.

(** ** [fedchecker/reports/generator.py]

    What the sections of the report are computed from; the layout is left
    out. *)
Module ReportGenerator.

Definition SUCCESS_GREEN : string := "#2ECC71".
Definition WARNING_YELLOW : string := "#F39C12".
Definition ERROR_RED : string := "#E74C3C".
Definition GRAY : string := "#7F8C8D".

(** [ReportGenerator._status_color]. *)
Definition _status_color (status : CheckStatus) : string :=
  match status with
  | PASS => SUCCESS_GREEN
  | FAIL => ERROR_RED
  | WARN => WARNING_YELLOW
  | SKIP => GRAY
  | ERROR => ERROR_RED
  end.

(** [ReportGenerator._status_symbol]. *)
Definition _status_symbol (status : CheckStatus) : string :=
  match status with
  | PASS => "✓"
  | FAIL => "✗"
  | WARN => "⚠"
  | SKIP => "○"
  | ERROR => "✗"
  end.

(** An entry of the list [recommendations]. *)
Record Recommendation : Type := mkRecommendation {
  rec_category : string;
  rec_check : string;
  rec_message : string;
  rec_details : string;
  rec_fix : option string;
  rec_severity : string
}.

(** The dictionary appended for a result. *)
Definition recommendation_of (category : CheckCategory) (result : CheckResult)
    : Recommendation :=
  mkRecommendation (cat_name category) (name result) (message result)
    (details result)
    (if fix_available result then Some (fix_command result) else None)
    (if status_eqb (status result) FAIL then "High" else "Medium").

(** The two loops of [_create_recommendations_section] that fill the list. *)
Definition collect (categories : list CheckCategory) : list Recommendation :=
  flat_map
    (fun category =>
       flat_map
         (fun result =>
            if status_eqb (status result) FAIL || status_eqb (status result) WARN
            then [recommendation_of category result]
            else [])
         (results category))
    categories.

(** [xs.sort(key=key, reverse=True)] for a key that is a [bool]: the sort is
    stable, so entries with equal keys keep their order, and [True] comes
    first.  [insert_reverse] puts an entry in front of a list sorted so. *)
Fixpoint insert_reverse {A : Type} (key : A -> bool) (x : A) (sorted : list A)
    : list A :=
  match sorted with
  | [] => [x]
  | y :: rest =>
      if key y && negb (key x) then y :: insert_reverse key x rest
      else x :: y :: rest
  end.

Definition sort_reverse {A : Type} (key : A -> bool) (xs : list A) : list A :=
  fold_right (insert_reverse key) [] xs.

(** The list [recommendations] after
    [recommendations.sort(key=lambda x: x['severity'] == 'High', reverse=True)],
    numbered as [enumerate(recommendations, 1)] does. *)
Definition recommendations (categories : list CheckCategory)
    : list (nat * Recommendation) :=
  let sorted :=
    sort_reverse (fun x => String.eqb (rec_severity x) "High")
      (collect categories) in
  combine (seq 1 (length sorted)) sorted.
End ReportGenerator.

(** ** [fedchecker/ui/menu.py]

    The menu the main loop runs.  Rendering is left out, and so are the fields
    [action] and [submenu] of an item and the method [select], which no caller
    uses.  The keys the user presses come as the list of the values
    [get_keypress] returns. *)

(** How a computation that may loop ends: with a value, with an exception, or
    never. *)
Inductive Run (A : Type) : Type :=
| Done (a : A)
| Throws (e : PyExc)
| Hangs.

Arguments Done {A} a.
Arguments Throws {A} e.
Arguments Hangs {A}.

(** [xs[i]] for a Python [int] index: a negative index counts from the end. *)
Definition py_index {A : Type} (xs : list A) (i : Z) : Outcome A :=
  let n := Z.of_nat (length xs) in
  let j := if (i <? 0)%Z then (i + n)%Z else i in
  if (0 <=? j)%Z && (j <? n)%Z then
    match nth_error xs (Z.to_nat j) with
    | Some x => Returned x
    | None => Raised (mkExc IndexError "list index out of range")
    end
  else Raised (mkExc IndexError "list index out of range").

(** [a % n] on Python [int]s: the result has the sign of [n]; [n = 0]
    raises [ZeroDivisionError]. *)
Definition py_mod (a n : Z) : Outcome Z :=
  if (n =? 0)%Z then Raised (mkExc OtherException "integer modulo by zero")
  else Returned (a mod n)%Z.

Module Menu.

(** [@dataclass class MenuItem]. *)
Record MenuItem : Type := mkMenuItem {
  key : string;
  label : string;
  item_icon : string;
  description : string;
  enabled : bool
}.

(** [@dataclass class Menu]. *)
Record t : Type := mkMenu {
  title : string;
  items : list MenuItem;
  subtitle : string;
  selected_index : Z
}.

(** [Menu(title=..., subtitle=...)]: no items, the selection at 0. *)
Definition new (title subtitle : string) : t :=
  mkMenu title [] subtitle 0.

(** [self.selected_index = i]. *)
Definition select_index (self : t) (i : Z) : t :=
  mkMenu (title self) (items self) (subtitle self) i.

(** [Menu.add_item]. *)
Definition add_item (self : t) (key label icon description : string)
    (enabled : bool) : t :=
  mkMenu (title self)
    (items self ++ [mkMenuItem key label icon description enabled])
    (subtitle self) (selected_index self).

(** The loop of [move_up] and [move_down], from the index [i]:
    [[
        while not self.items[self.selected_index].enabled:
            self.selected_index = (self.selected_index + step) % len(self.items)
    ]]
    [fuel] bounds the number of times the condition is evaluated; [None] says
    that this was not enough. *)
Fixpoint skip_disabled (fuel : nat) (step : Z) (items : list MenuItem) (i : Z)
    : option (Outcome Z) :=
  match fuel with
  | O => None
  | S fuel' =>
      match py_index items i with
      | Raised e => Some (Raised e)
      | Returned item =>
          if enabled item then Some (Returned i)
          else
            match py_mod (i + step) (Z.of_nat (length items)) with
            | Raised e => Some (Raised e)
            | Returned j => skip_disabled fuel' step items j
            end
      end
  end.

(** The two moves: one step, then the loop, which has looked at every item
    after [len(self.items)] rounds. *)
Definition move (step : Z) (self : t) : Run t :=
  match py_mod (selected_index self + step) (Z.of_nat (length (items self))) with
  | Raised e => Throws e
  | Returned i =>
      match skip_disabled (S (length (items self))) step (items self) i with
      | None => Hangs
      | Some (Raised e) => Throws e
      | Some (Returned j) => Done (select_index self j)
      end
  end.

(** [Menu.move_up]. *)
Definition move_up (self : t) : Run t := move (-1) self.

(** [Menu.move_down]. *)
Definition move_down (self : t) : Run t := move 1 self.

(** [Menu.get_key_action]. *)
Definition get_key_action (self : t) (k : string) : option MenuItem :=
  find (fun item => String.eqb (PyStr.lower (key item)) (PyStr.lower k)
                    && enabled item)
    (items self).

(** The index of the first item whose key is [k]. *)
Fixpoint index_of_key (items : list MenuItem) (k : string) (i : Z) : option Z :=
  match items with
  | [] => None
  | m :: rest =>
      if String.eqb (key m) k then Some i else index_of_key rest k (i + 1)
  end.
End Menu.

(** [create_main_menu]. *)
Definition create_main_menu : Menu.t :=
  let menu :=
    Menu.new "FedChecker - Main Menu"
      "Use arrow keys to navigate, Enter to select, or press the key shortcut" in
  let menu := Menu.add_item menu "1" "Health Check" StatusIcon.HEALTH
                "System health analysis" true in
  let menu := Menu.add_item menu "2" "Drivers Check" StatusIcon.DRIVER
                "Hardware driver status" true in
  let menu := Menu.add_item menu "3" "Security Check" StatusIcon.SECURITY
                "Security audit" true in
  let menu := Menu.add_item menu "4" "Desktop Check" StatusIcon.DESKTOP
                "Desktop environment" true in
  let menu := Menu.add_item menu "5" "Post-Install Setup" StatusIcon.ROCKET
                "Configure new system" true in
  let menu := Menu.add_item menu "6" "Auto-Fix Issues" StatusIcon.FIX
                "Fix detected problems" true in
  let menu := Menu.add_item menu "7" "Generate Report" StatusIcon.REPORT
                "Create PDF report" true in
  let menu := Menu.add_item menu "8" "Settings" StatusIcon.SETTINGS
                "Configure FedChecker" true in
  Menu.add_item menu "0" "Exit" StatusIcon.EXIT "Quit FedChecker" true.

(** How a call of [run_menu] on the keys pressed ends: with the choice, the
    menu as it is then and the keys not yet read; waiting for a key; with an
    exception; or never, inside a move. *)
Inductive MenuRun : Type :=
| Chosen (choice : string) (menu : Menu.t) (rest : list string)
| Waiting (menu : Menu.t)
| Failed (e : PyExc)
| Stuck.

(** [run_menu]. *)
Fixpoint run_menu (menu : Menu.t) (keys : list string) : MenuRun :=
  match keys with
  | [] => Waiting menu
  | key :: rest =>
      if String.eqb key "up" then
        match Menu.move_up menu with
        | Done menu' => run_menu menu' rest
        | Throws e => Failed e
        | Hangs => Stuck
        end
      else if String.eqb key "down" then
        match Menu.move_down menu with
        | Done menu' => run_menu menu' rest
        | Throws e => Failed e
        | Hangs => Stuck
        end
      else if String.eqb key "enter" then
        match py_index (Menu.items menu) (Menu.selected_index menu) with
        | Returned item => Chosen (Menu.key item) menu rest
        | Raised e => Failed e
        end
      else if String.eqb key "escape" || String.eqb key "q"
              || String.eqb key "ctrl+c" then
        Chosen "0" menu rest
      else
        match Menu.get_key_action menu key with
        | Some item =>
            match Menu.index_of_key (Menu.items menu) (Menu.key item) 0 with
            | Some i => Chosen (Menu.key item) (Menu.select_index menu i) rest
            | None => run_menu menu rest
            end
        | None => run_menu menu rest
        end
  end.

(** ** [fedchecker/main.py]: the application

    [class FedChecker] keeps the categories of the checks run so far in the
    dictionary [self.check_results].  A Python dictionary keeps its keys in
    the order of their first insertion, and that order is the order of the
    report, so it is a list of pairs here.  The banner, the headers and the
    progress display are left out; what a method prints is what it returns. *)
Module FedChecker.

Definition Store : Type := list (string * CheckCategory).

(** [d[key] = value]. *)
Fixpoint dict_set (d : Store) (key : string) (value : CheckCategory) : Store :=
  match d with
  | [] => [(key, value)]
  | (k, v) :: rest =>
      if String.eqb k key then (k, value) :: rest
      else (k, v) :: dict_set rest key value
  end.

(** [d.get(key)]. *)
Definition dict_get (d : Store) (key : string) : option CheckCategory :=
  fix_map_get d key.

(** [list(d.values())] and [list(d)]. *)
Definition dict_values (d : Store) : list CheckCategory := map snd d.
Definition dict_keys (d : Store) : list string := map fst d.

(** [FedChecker()]: [self.check_results = {}]. *)
Definition init : Store := [].

(** A method of the application: it reads and writes [self.check_results],
    changes the world as the fixers do, and may raise. *)
Definition App (M A : Type) : Type :=
  Store -> World M -> Outcome A * Store * World M.

Definition pure {M A : Type} (a : A) : App M A :=
  fun self w => (Returned a, self, w).

Definition bindA {M A B : Type} (m : App M A) (k : A -> App M B) : App M B :=
  fun self w =>
    match m self w with
    | (Returned a, self', w') => k a self' w'
    | (Raised e, self', w') => (Raised e, self', w')
    end.

Declare Scope app_scope.
Delimit Scope app_scope with app.
Notation "x <- m ;; k" := (bindA m (fun x => k))
  (at level 61, m at next level, right associativity) : app_scope.
Notation "m ;; k" := (bindA m (fun _ => k))
  (at level 61, right associativity) : app_scope.
Local Open Scope app_scope.

(** A step of a fixer, the outcome of a checker, and the two accesses to
    [self.check_results]. *)
Definition lift {M A : Type} (m : Fix M A) : App M A :=
  fun self w => let (r, w') := m w in (r, self, w').

Definition checked {M A : Type} (o : Outcome A) : App M A :=
  fun self w => (o, self, w).

Definition check_results {M : Type} : App M Store :=
  fun self w => (Returned self, self, w).

Definition store {M : Type} (key : string) (value : CheckCategory) : App M unit :=
  fun self w => (Returned tt, dict_set self key value, w).

(** What [_display_category_results] hands to [console.print]: the table of
    the results with its title and rows, and the panel around the summary
    with the score, its colour and the three counts. *)
Inductive Renderable : Type :=
| Table (title : string) (rows : list (string * string * string * string))
| Panel (score : Q) (score_color : string) (counts : nat * nat * nat).

Definition score_color (category : CheckCategory) : string :=
  if Qge_bool (score category) 80 then "green"
  else if Qge_bool (score category) 60 then "yellow"
  else "red".

(** The [table] and the [Panel(summary, ...)] of
    [_display_category_results]. *)
Definition results_table (category : CheckCategory) : Renderable :=
  Table (icon category ++ " " ++ cat_name category ++ " Results")
    (map (fun result =>
            (get_icon result, name result, message result,
             if fix_available result then "[green]✓[/]" else "[dim]-[/]"))
       (results category)).

Definition summary_panel (category : CheckCategory) : Renderable :=
  Panel (score category) (score_color category)
    (passed category, failed category, warnings category).

(** [FedChecker._display_category_results].  The category is stored first;
    [console_print] is [self.console.print], which reads the cells of the
    table as markup and raises when it cannot. *)
Definition _display_category_results {M : Type}
    (console_print : Renderable -> Outcome unit) (category : CheckCategory)
    : App M unit :=
  store (cat_name category) category ;;
  checked (console_print (results_table category)) ;;
  checked (console_print (summary_panel category)).

Section Checks.
Context {M : Type}.
Variable console_print : Renderable -> Outcome unit.
Variable sys : System.

(** [FedChecker._run_health_check] and its three siblings: a new checker
    each time.  The header, printed before, is a constant. *)
Definition _run_health_check : App M unit :=
  category <- checked (fst (HealthChecker.run_all_checks HealthChecker.init sys)) ;;
  _display_category_results console_print category.

Definition _run_driver_check : App M unit :=
  category <- checked (fst (DriverChecker.run_all_checks DriverChecker.init sys)) ;;
  _display_category_results console_print category.

Definition _run_security_check : App M unit :=
  category <- checked (fst (SecurityChecker.run_all_checks SecurityChecker.init sys)) ;;
  _display_category_results console_print category.

Definition _run_desktop_check : App M unit :=
  category <- checked (fst (DesktopChecker.run_all_checks (DesktopChecker.init sys) sys)) ;;
  _display_category_results console_print category.
End Checks.

(** The loops of [_run_auto_fix] that collect the issues: *)
Definition fixable (self : Store) : list (string * CheckResult) :=
  flat_map
    (fun category =>
       flat_map
         (fun result =>
            if fix_available result
               && (status_eqb (status result) FAIL
                   || status_eqb (status result) WARN)
            then [(cat_name category, result)]
            else [])
         (results category))
    (dict_values self).

(** the rows of the table of issues, numbered from 1: *)
Definition issue_rows (fixable : list (string * CheckResult))
    : list (string * string * string * string) :=
  map (fun ir =>
         (PyStr.str_int (fst ir),
          PyStr.replace " Check" "" (fst (snd ir)),
          name (snd (snd ir)),
          get_icon (snd (snd ir))))
    (combine (seq 1 (length fixable)) fixable).

(** How [_run_auto_fix] ends. *)
Inductive AutoFixed : Type :=
| NoChecksYet
| NothingToFix
| NotAttempted (rows : list (string * string * string * string))
| Attempted (rows : list (string * string * string * string))
    (fixed failed : nat).

Definition attempt_prompt : string := PyStr.LF ++ "Attempt to fix all issues?".

Section AutoFix.
Context {M : Type} (h : Host M).

(** [fixer_map], with [fixer_class(self.console).apply_fix] for the class. *)
Definition fixer_map : list (string * (CheckResult -> Fix M (option FixResult))) :=
  [ ("Health Check", HealthFixer.apply_fix h);
    ("Driver Check", DriverFixer.apply_fix h);
    ("Security Check", SecurityFixer.apply_fix h);
    ("Desktop Check", DesktopFixer.apply_fix h) ].

(** The loop [for cat_name, result in fixable]. *)
Fixpoint fix_each (fixable : list (string * CheckResult)) (fixed failed : nat)
    : Fix M (nat * nat) :=
  match fixable with
  | [] => ret (fixed, failed)
  | (cat_name, result) :: rest =>
      match fix_map_get fixer_map cat_name with
      | Some apply_fix =>
          (fix_result <- apply_fix result ;;
           if match fix_result with
              | Some fix_result => success fix_result
              | None => false
              end
           then fix_each rest (fixed + 1)%nat failed
           else fix_each rest fixed (failed + 1)%nat)%rem
      | None => fix_each rest fixed failed
      end
  end.

(** [FedChecker._run_auto_fix]. *)
Definition _run_auto_fix : App M AutoFixed :=
  self <- check_results ;;
  if negb (nonempty self) then pure NoChecksYet
  else
    let fixable := fixable self in
    if negb (nonempty fixable) then pure NothingToFix
    else
      yes <- lift (Confirm_ask h attempt_prompt) ;;
      if negb yes then pure (NotAttempted (issue_rows fixable))
      else
        counts <- lift (fix_each fixable 0 0) ;;
        pure (Attempted (issue_rows fixable) (fst counts) (snd counts)).
End AutoFix.

(** How [_generate_report] ends: without data, or with a report written to
    [output_path] from [categories]. *)
Inductive Reported : Type :=
| NoData
| Generated (categories : list CheckCategory) (output_path : string).

Section Report.
Context {M : Type} (h : Host M).

(** The machine as the probes see it when the checks are run for the
    report. *)
Variable sys : System.

(** [ReportGenerator().generate(categories)]: the path of the file written,
    or the exception that came out. *)
Variable generate : list CheckCategory -> M -> Outcome string * M.

(** [subprocess.run(["xdg-open", output_path], check=True)]; whatever comes
    out of it is caught by the bare [except]. *)
Variable xdg_open : string -> M -> M.

Definition generator_generate (categories : list CheckCategory) : App M string :=
  fun self w =>
    let (r, m') := generate categories (machine w) in
    (r, self, mkWorld m' (calls w) (asked w)).

Definition open_report (output_path : string) : App M unit :=
  fun self w =>
    (Returned tt, self,
     mkWorld (xdg_open output_path (machine w)) (calls w) (asked w)).

(** The four checks run for the report. *)
Definition run_all_for_report : App M unit :=
  category <- checked (fst (HealthChecker.run_all_checks HealthChecker.init sys)) ;;
  store "Health Check" category ;;
  category <- checked (fst (DriverChecker.run_all_checks DriverChecker.init sys)) ;;
  store "Driver Check" category ;;
  category <- checked (fst (SecurityChecker.run_all_checks SecurityChecker.init sys)) ;;
  store "Security Check" category ;;
  category <- checked (fst (DesktopChecker.run_all_checks (DesktopChecker.init sys) sys)) ;;
  store "Desktop Check" category.

(** [FedChecker._generate_report]. *)
Definition _generate_report : App M Reported :=
  self <- check_results ;;
  (if negb (nonempty self) || (length self <? 4)%nat then
     yes <- lift (Confirm_ask h "Run all checks to generate complete report?") ;;
     if yes then run_all_for_report else pure tt
   else pure tt) ;;
  self <- check_results ;;
  let categories := dict_values self in
  if negb (nonempty categories) then pure NoData
  else
    output_path <- generator_generate categories ;;
    yes <- lift (Confirm_ask h "Open the report now?") ;;
    (if yes then open_report output_path else pure tt) ;;
    pure (Generated categories output_path).
End Report.
End FedChecker.

(** ** Vocabulary: categories and aggregators *)

(** A result that is neither a finding nor a pass: Skip or Error. *)
Definition is_neutral (r : CheckResult) : bool :=
  match status r with
  | SKIP | ERROR => true
  | _ => false
  end.

(** A category a machine can hold: fewer than [2 ^ 52] results.  (A list of
    [2 ^ 52] entries takes 32 PiB.)  Up to this size the counts and the
    numerator of the score are floats as they are. *)
Definition holdable (c : CheckCategory) : Prop :=
  (Z.of_nat (total c) < 2 ^ 52)%Z.

(** The weighted number of passes, [count(Pass) + 0.5 * count(Warn)], and the
    formula of the score in exact arithmetic. *)
Definition weighted (c : CheckCategory) : Q :=
  float_of_int (passed c) + float_of_int (warnings c) * (1 # 2).

Definition exact_score (c : CheckCategory) : Q :=
  weighted c / float_of_int (total c) * 100.

(** The formula evaluated on floats: the numerator [x] and the total [t] are
    floats as they are, the quotient is rounded, and so is the product. *)
Definition rounded_score (x t : Q) : Q :=
  Double.round (Double.round (x / t) * 100).

(** [score] on the three counts. *)
Definition score_of_counts (n_passed n_warnings n_total : nat) : Q :=
  if Nat.eqb n_total 0 then 100
  else
    Double.mul
      (Double.div
         (Double.add (Double.mul (Double.of_int n_passed) 1)
            (Double.mul (Double.of_int n_warnings) (1 # 2)))
         (Double.of_int n_total))
      100.

(** On the counts [p], [w] and [t] the float the hardware computes denotes
    the rational [score_of_counts] gives. *)
Definition agrees3 (p w t : nat) : bool :=
  match Binary64.value (Binary64.score3 p w t) with
  | Some v => Qeq_bool v (score_of_counts p w t)
  | None => false
  end.

(** [agrees3] on all counts with [p + w <= t <= n]. *)
Definition all_agree (n : nat) : bool :=
  forallb
    (fun t =>
       forallb
         (fun p => forallb (fun w => agrees3 p w t) (seq 0 (S t - p)))
         (seq 0 (S t)))
    (seq 0 (S n)).

(** The result the loop records for one entry of the table: the probe's own
    result, or the Error result made from the exception it raised. *)
Definition recorded {S : Type} (sys : S) (c : string * Probe S) : CheckResult :=
  match snd c sys with
  | Returned r => r
  | Raised e => CheckResult3 (fst c) ERROR ("Check failed: " ++ exc_str e)
  end.

(** Every exception a probe of the table raises on [sys] is an [Exception]. *)
Definition raises_only_Exception {S : Type} (checks : list (string * Probe S))
    (sys : S) : bool :=
  forallb (fun c => match snd c sys with
                    | Returned _ => true
                    | Raised e => is_Exception e
                    end) checks.

(** [fix_available] is set exactly when [fix_command] is not empty. *)
Definition fix_consistent (r : CheckResult) : Prop :=
  fix_available r = true <-> fix_command r <> "".

Definition fix_consistentb (r : CheckResult) : bool :=
  Bool.eqb (fix_available r) (PyStr.truthy (fix_command r)).

(** A probe builds only results with consistent fix fields. *)
Definition builds_consistent (probe : Probe System) : Prop :=
  forall (sys : System) (r : CheckResult),
    probe sys = Returned r -> fix_consistent r.

(** Every probe of the four tables, together with the Error result the
    aggregator may record in its place. *)
Definition all_checks (self : DesktopChecker.t) : list (string * Probe System) :=
  HealthChecker.checks ++ DriverChecker.checks ++ SecurityChecker.checks
  ++ DesktopChecker.checks self.

(** The field [self.results] of a health checker after it ran once on each
    machine of [history], in order. *)
Definition health_after (history : list System) : list CheckResult :=
  fold_left (fun self sys => snd (HealthChecker.run_all_checks self sys))
    history HealthChecker.init.

Definition driver_after (history : list System) : list CheckResult :=
  fold_left (fun self sys => snd (DriverChecker.run_all_checks self sys))
    history DriverChecker.init.

Definition security_after (history : list System) : list CheckResult :=
  fold_left (fun self sys => snd (SecurityChecker.run_all_checks self sys))
    history SecurityChecker.init.

Definition desktop_after (first : System) (history : list System) : DesktopChecker.t :=
  fold_left (fun self sys => snd (DesktopChecker.run_all_checks self sys))
    history (DesktopChecker.init first).

(** What a run of an aggregator over the table [checks] on [sys] is to give:
    the category named [cname] with icon [cicon] whose results, which are
    also the field [self.results] afterwards, are one per entry of the table,
    in table order; the result at position [i] is the very result of probe
    [i] when that probe returned, and when it raised it is a result with the
    probe's table name, status Error and the non-empty message
    ["Check failed: " ++ str(e)]. *)
Definition isolates {S : Type} (cname cicon : string)
    (checks : list (string * Probe S)) (sys : S)
    (run : Outcome CheckCategory * list CheckResult) : Prop :=
  exists rs : list CheckResult,
    run = (Returned (mkCheckCategory cname cicon rs), rs)
    /\ length rs = length checks
    /\ forall (i : nat) (n : string) (probe : Probe S),
         nth_error checks i = Some (n, probe) ->
         (forall r, probe sys = Returned r -> nth_error rs i = Some r)
         /\ (forall e, probe sys = Raised e ->
             exists r, nth_error rs i = Some r
                       /\ name r = n /\ status r = ERROR
                       /\ message r = "Check failed: " ++ exc_str e
                       /\ message r <> ""
                       /\ fix_available r = false /\ fix_command r = "").

(** A desktop checker with the same session as [self] and the results list
    [stale]. *)
Definition with_results (self : DesktopChecker.t) (stale : list CheckResult)
    : DesktopChecker.t :=
  {| DesktopChecker.results := stale;
     DesktopChecker.desktop_session := DesktopChecker.desktop_session self;
     DesktopChecker.session_type := DesktopChecker.session_type self |}.

(** ** Vocabulary: remediation *)

(** A user who declines every prompt. *)
Definition declines_all {M : Type} (h : Host M) : Prop :=
  forall (k : nat) (prompt : string), answer h k prompt = false.

(** [w'] differs from [w] at most by the prompts shown. *)
Definition only_asked {M : Type} (w w' : World M) : Prop :=
  machine w' = machine w /\ calls w' = calls w.

(** The prompt for a named handler and the prompt for the literal command. *)
Definition handler_prompt (r : CheckResult) : string :=
  "Apply fix for [bold]" ++ name r ++ "[/]?".

Definition command_prompt (r : CheckResult) : string :=
  "Run fix command for [bold]" ++ name r ++ "[/]?" ++ PyStr.LF
  ++ "[dim]" ++ fix_command r ++ "[/]".

(** The command line that executes the literal [fix_command]. *)
Definition literal_call (r : CheckResult) : list string :=
  ["sudo"; "bash"; "-c"; fix_command r].

(** The world after [prompt] was shown, and the answer it gets in [w]. *)
Definition shown {M : Type} (w : World M) (prompt : string) : World M :=
  mkWorld (machine w) (calls w) (asked w ++ [prompt]).

Definition next_answer {M : Type} (h : Host M) (w : World M) (prompt : string) : bool :=
  answer h (length (asked w)) prompt.

(** The outcome of a handler, handed on by the dispatcher. *)
Definition handed_on {M : Type} (res : Outcome FixResult * World M)
    : Outcome (option FixResult) * World M :=
  match res with
  | (Returned r, w') => (Returned (Some r), w')
  | (Raised e, w') => (Raised e, w')
  end.

(** From [w], [res] is the stage that offers the literal command: nothing
    happens for an empty [fix_command]; otherwise the command prompt is
    shown, a declining user ends the stage with [None], and a confirming user
    makes exactly one call, the literal command, whose success the returned
    [FixResult] reports. *)
Definition literal_stage {M : Type} (h : Host M) (r : CheckResult) (w : World M)
    (res : Outcome (option FixResult) * World M) : Prop :=
  if PyStr.truthy (fix_command r) then
    if next_answer h w (command_prompt r) then
      exists ok : bool,
        calls (snd res) = (calls w ++ [mkCall (literal_call r) ok])%list
        /\ asked (snd res) = (asked w ++ [command_prompt r])%list
        /\ fst res <> Returned None
        /\ forall fr, fst res = Returned (Some fr) ->
                      success fr = ok
                      /\ fix_message fr = (if ok then "Fix applied" else "Fix failed")
    else res = (Returned None, shown w (command_prompt r))
  else res = (Returned None, w).

(** [apply_fix], with the handlers [fix_map], resolves [r] in [w] this way:
    a handler whose name matches is offered first and, once confirmed, is what
    runs; the literal command is offered when no handler matches or the
    matching one was declined. *)
Definition resolves {M : Type} (h : Host M)
    (fix_map : list (string * Fix M FixResult))
    (apply_fix : CheckResult -> Fix M (option FixResult))
    (r : CheckResult) (w : World M) : Prop :=
  match fix_map_get fix_map (name r) with
  | Some handler =>
      if next_answer h w (handler_prompt r)
      then apply_fix r w = handed_on (handler (shown w (handler_prompt r)))
      else literal_stage h r (shown w (handler_prompt r)) (apply_fix r w)
  | None => literal_stage h r w (apply_fix r w)
  end.

(** [sudo] in front of a command line. *)
Definition sudo (cmd : list string) : list string := "sudo" :: cmd.

















(** ** Machines, users and results for worked runs *)

Definition completed (ok : bool) (out : string) : CompletedProcess :=
  {| returncode := if ok then 0%Z else 1%Z; stdout := out; stderr := "" |}.

(** Equality of command lines. *)
Definition cmd_eqb (a b : list string) : bool :=
  if list_eq_dec string_dec a b then true else false.

(** A machine whose state counts the commands run on it, where the command
    line [cmd] succeeds when [ok cmd], no path exists and appending to a file
    works; and a user who answers [yes k] to the [k]-th prompt. *)
Definition scripted_host (ok : list string -> bool) (yes : nat -> bool) : Host nat :=
  {| exec := fun cmd _ m => (Returned (completed (ok cmd) "out"), S m);
     answer := fun k _ => yes k;
     exists_ := fun _ _ => false;
     append := fun _ _ m => (Returned tt, m);
     getenv := fun _ => None |}.

(** The world before anything was run or asked. *)
Definition fresh : World nat := mkWorld 0%nat [] [].


(** A machine on which every command fails with the output [out]. *)
Definition failing_host (out : string) : Host nat :=
  {| exec := fun cmd _ m => (Returned (completed false out), S m);
     answer := fun _ _ => true;
     exists_ := fun _ _ => false;
     append := fun _ _ m => (Returned tt, m);
     getenv := fun _ => None |}.

(** A machine on which every command raises [e]. *)
Definition raising_host (e : PyExc) : Host nat :=
  {| exec := fun cmd _ m => (Raised e, S m);
     answer := fun _ _ => true;
     exists_ := fun _ _ => false;
     append := fun _ _ m => (Returned tt, m);
     getenv := fun _ => None |}.

(** A machine on which only the command lines that mention [rpmfusion]
    fail. *)
Definition no_rpmfusion : Host nat :=
  scripted_host
    (fun cmd => negb (PyStr.contains "rpmfusion" (PyStr.join " " cmd)))
    (fun _ => true).

(** A user who declines the first prompt and confirms the second. *)
Definition second_thoughts (k : nat) : bool := Nat.eqb k 1.

(** The result [check_wifi_driver] builds for a blocked interface [wlan0]
    driven by [iwlwifi]. *)
Definition wifi_blocked : CheckResult :=
  mkCheckResult "WiFi Driver" WARN "iwlwifi driver loaded, WiFi blocked"
    "Interface: wlan0" true "rfkill unblock wifi".

(** The result [check_disk_space] builds for a nearly full partition. *)
Definition disk_full : CheckResult :=
  mkCheckResult "Disk Space" FAIL "Critical: 1 partition(s) nearly full"
    "/: 97.0% used" true "dnf autoremove && dnf clean all".

Definition boom : PyExc := mkExc OtherException "boom".

(** A machine on which every call the probes make raises [e], no path exists
    and no variable is set. *)
Definition broken_system (e : PyExc) : System :=
  {| psutil_disk_partitions := Raised e;
     psutil_disk_usage := fun _ => Raised e;
     psutil_virtual_memory := Raised e;
     psutil_sensors_temperatures := Raised e;
     psutil_swap_memory := Raised e;
     psutil_process_iter := Raised e;
     os_getloadavg := Raised e;
     os_cpu_count := None;
     subprocess_run := fun _ _ => Raised e;
     subprocess_run_C := fun _ _ => Raised e;
     os_environ_get := fun _ => None;
     os_path_exists := fun _ => false;
     os_readlink := fun _ => Raised e;
     os_access_R := fun _ => false;
     Path_exists := fun _ => Raised e;
     Path_is_file := fun _ => Raised e;
     Path_read_text := fun _ => Raised e;
     Path_iterdir := fun _ => Raised e;
     Path_glob := fun _ _ => Raised e;
     Path_stat_mode := fun _ => Raised e;
     open_lines := fun _ => Raised e;
     re_search := fun _ _ _ => None;
     re_match := fun _ _ _ => None;
     re_findall := fun _ _ _ => [];
     str_float := fun _ => "0.0";
     format_f := fun _ _ => "0.0" |}.

(** A machine with a blocked WiFi interface [wlan0] driven by [iwlwifi]. *)
Definition blocked_wifi_system : System :=
  {| psutil_disk_partitions := Returned [];
     psutil_disk_usage := fun _ => Returned 40;
     psutil_virtual_memory := Returned {| psutil.vm_percent := 40; psutil.available := 0 |};
     psutil_sensors_temperatures := Returned [];
     psutil_swap_memory := Returned {| psutil.swap_total := 1; psutil.swap_percent := 0 |};
     psutil_process_iter := Returned [];
     os_getloadavg := Returned (0, 0, 0);
     os_cpu_count := Some 4%nat;
     subprocess_run := fun cmd _ =>
       if cmd_eqb cmd ["ip"; "link"; "show"]
       then Returned (completed true "3: wlan0: <BROADCAST,MULTICAST,UP>")
       else if cmd_eqb cmd ["rfkill"; "list"; "wifi"]
       then Returned (completed true
                        ("0: phy0: Wireless LAN" ++ PyStr.LF ++ PyStr.TAB
                         ++ "Soft blocked: yes"))
       else Returned (completed true "");
     subprocess_run_C := fun _ _ => Returned (completed true "");
     os_environ_get := fun _ => None;
     os_path_exists := fun _ => true;
     os_readlink := fun _ => Returned "../../../../bus/pci/drivers/iwlwifi";
     os_access_R := fun _ => false;
     Path_exists := fun _ => Returned false;
     Path_is_file := fun _ => Returned false;
     Path_read_text := fun _ => Returned "";
     Path_iterdir := fun _ => Returned [];
     Path_glob := fun _ _ => Returned [];
     Path_stat_mode := fun _ => Returned 0%Z;
     open_lines := fun _ => Returned [];
     re_search := fun _ _ _ => None;
     re_match := fun _ _ _ => Some ["wlan0"];
     re_findall := fun _ _ _ => [];
     str_float := fun _ => "40.0";
     format_f := fun _ _ => "0.0" |}.

(** The worse of two overall statuses. *)
Definition worse (a b : CheckStatus) : CheckStatus :=
  match a, b with
  | FAIL, _ | _, FAIL => FAIL
  | WARN, _ | _, WARN => WARN
  | _, _ => PASS
  end.

(** ** Vocabulary: what the probes build *)

(** Every result the probe returns satisfies [P]. *)
Definition builds (P : CheckResult -> bool) (probe : Probe System) : Prop :=
  forall (sys : System) (r : CheckResult), probe sys = Returned r -> P r = true.

(** [status in (CheckStatus.FAIL, CheckStatus.WARN)]. *)
Definition is_finding (s : CheckStatus) : bool :=
  match s with
  | FAIL | WARN => true
  | _ => false
  end.

(** The names under which a fixer has a handler that no result of the
    checkers reaches. *)
Definition unreached_handlers : list string :=
  ["File Permissions"; "Display Manager"; "GNOME Extensions"].

(** The shape of a result of the probe entered in a table under [n]: it
    carries the name [n]; when it offers a fix it is a Fail or a Warn, or the
    Skip of the antivirus probe; and under the names of [unreached_handlers]
    it offers none. *)
Definition shape (n : string) (r : CheckResult) : bool :=
  String.eqb (name r) n
  && implb (fix_available r)
       (is_finding (status r)
        || (status_eqb (status r) SKIP && String.eqb n "Antivirus (ClamAV)"))
  && implb (in_list n unreached_handlers) (negb (fix_available r)).

(** The probe lets no [Exception] escape. *)
Definition never_fails (probe : Probe System) : Prop :=
  forall (sys : System) (e : PyExc), probe sys = Raised e -> is_Exception e = false.

(** On [sys] a command can only complete, time out or be missing: the two
    exceptions the [_run_command] of the checkers catches. *)
Definition commands_fail_softly (sys : System) : Prop :=
  forall (cmd : list string) (t : nat) (e : PyExc),
    subprocess_run sys cmd t = Raised e \/ subprocess_run_C sys cmd t = Raised e ->
    is_class TimeoutExpired e || is_class FileNotFoundError e = true.

(** The probe returns a result on [sys]. *)
Definition returns_a_result (sys : System) (probe : Probe System) : Prop :=
  exists r : CheckResult, probe sys = Returned r.

(** The probes that consult nothing but commands and the environment. *)
Definition command_probes (self : DesktopChecker.t) : list (Probe System) :=
  [ HealthChecker.check_dnf_status;
    DriverChecker.check_gpu_driver;
    DriverChecker.check_usb;
    DriverChecker.check_firmware;
    DriverChecker.check_kernel_modules;
    DriverChecker.check_hw_acceleration;
    SecurityChecker.check_firewall;
    SecurityChecker.check_selinux;
    SecurityChecker.check_open_ports;
    SecurityChecker.check_failed_logins;
    SecurityChecker.check_auto_updates;
    SecurityChecker.check_antivirus;
    DesktopChecker.check_desktop_environment self;
    DesktopChecker.check_display_server self;
    DesktopChecker.check_compositor self;
    DesktopChecker.check_display_manager self;
    DesktopChecker.check_resolution self;
    DesktopChecker.check_themes self;
    DesktopChecker.check_fonts self;
    DesktopChecker.check_gnome_extensions self;
    DesktopChecker.check_flatpak self;
    DesktopChecker.check_portals self ].

(** A machine without any of the tools: every command is missing, every other
    call raises the same error. *)
Definition missing : PyExc := mkExc FileNotFoundError "[Errno 2] No such file or directory".

Definition bare_system : System := broken_system missing.

(** The partitions [check_disk_space] looks at: those with a file system
    type that are not mounted under [/snap]. *)
Definition looked_at (partition : psutil.sdiskpart) : bool :=
  PyStr.truthy (psutil.fstype partition)
  && negb (PyStr.startswith "/snap" (psutil.mountpoint partition)).

(** The usage of the partition can be read and is at least [q] percent. *)
Definition usage_reaches (sys : System) (q : Q) (partition : psutil.sdiskpart)
    : bool :=
  match psutil_disk_usage sys (psutil.mountpoint partition) with
  | Returned percent_used => Qge_bool percent_used q
  | Raised _ => false
  end.

Definition critical_partitions (sys : System) (ps : list psutil.sdiskpart)
    : list psutil.sdiskpart :=
  filter (fun p => looked_at p && usage_reaches sys 95 p) ps.

Definition warning_partitions (sys : System) (ps : list psutil.sdiskpart)
    : list psutil.sdiskpart :=
  filter (fun p => looked_at p && negb (usage_reaches sys 95 p)
                   && usage_reaches sys 85 p) ps.

(** The line of the details for a partition. *)
Definition disk_line (sys : System) (partition : psutil.sdiskpart) : string :=
  match psutil_disk_usage sys (psutil.mountpoint partition) with
  | Returned percent_used =>
      psutil.mountpoint partition ++ ": " ++ str_float sys percent_used ++ "% used"
  | Raised _ => ""
  end.

(** All the readings of all the sensors. *)
Definition readings (temps : list (string * list psutil.shwtemp)) : list Q :=
  flat_map (fun item => map psutil.current (snd item)) temps.

(** [sys] with other partitions and sensors, and floats rendered by
    [render]. *)
Definition with_hardware (sys : System) (partitions : list psutil.sdiskpart)
    (usage : string -> Q) (temps : list (string * list psutil.shwtemp))
    (render : Q -> string) : System :=
  {| psutil_disk_partitions := Returned partitions;
     psutil_disk_usage := fun p => Returned (usage p);
     psutil_virtual_memory := psutil_virtual_memory sys;
     psutil_sensors_temperatures := Returned temps;
     psutil_swap_memory := psutil_swap_memory sys;
     psutil_process_iter := psutil_process_iter sys;
     os_getloadavg := os_getloadavg sys;
     os_cpu_count := os_cpu_count sys;
     subprocess_run := subprocess_run sys;
     subprocess_run_C := subprocess_run_C sys;
     os_environ_get := os_environ_get sys;
     os_path_exists := os_path_exists sys;
     os_readlink := os_readlink sys;
     os_access_R := os_access_R sys;
     Path_exists := Path_exists sys;
     Path_is_file := Path_is_file sys;
     Path_read_text := Path_read_text sys;
     Path_iterdir := Path_iterdir sys;
     Path_glob := Path_glob sys;
     Path_stat_mode := Path_stat_mode sys;
     open_lines := open_lines sys;
     re_search := re_search sys;
     re_match := re_match sys;
     re_findall := re_findall sys;
     str_float := render;
     format_f := format_f sys |}.

(** A machine with a nearly full root partition, a crowded [/home], a snap
    mount, and a hot processor. *)
Definition crowded_system : System :=
  with_hardware blocked_wifi_system
    [ {| psutil.fstype := "ext4"; psutil.mountpoint := "/" |};
      {| psutil.fstype := "ext4"; psutil.mountpoint := "/home" |};
      {| psutil.fstype := "squashfs"; psutil.mountpoint := "/snap/core/1" |};
      {| psutil.fstype := ""; psutil.mountpoint := "/proc" |} ]
    (fun p => if String.eqb p "/" then 97
              else if String.eqb p "/home" then 88 else 100)
    [ ("coretemp", [ {| psutil.current := 61 |}; {| psutil.current := 78 |} ]);
      ("acpitz", [ {| psutil.current := 45 |} ]) ]
    (fun x => if Qeq_bool x 97 then "97.0"
              else if Qeq_bool x 88 then "88.0"
              else if Qeq_bool x 78 then "78.0" else "0.0").

(** A computation of the fixers that asks nothing: it leaves the prompts as
    they are and only adds to the calls made. *)
Definition quiet {M A : Type} (f : Fix M A) : Prop :=
  forall w : World M,
    asked (snd (f w)) = asked w
    /\ exists L : list Call, calls (snd (f w)) = (calls w ++ L)%list.

(** The prompts a dispatcher may show for [r], in order. *)
Definition dispatcher_prompts (r : CheckResult) : list (list string) :=
  [ []; [handler_prompt r]; [command_prompt r];
    [handler_prompt r; command_prompt r] ].

(** From [w], the computation [f] shows some of the two prompts of the
    dispatcher, in their order, and only adds to the calls made. *)
Definition asks_as_dispatcher {M A : Type} (r : CheckResult) (f : Fix M A)
    (w : World M) : Prop :=
  (exists P : list string,
      In P (dispatcher_prompts r) /\ asked (snd (f w)) = (asked w ++ P)%list)
  /\ exists L : list Call, calls (snd (f w)) = (calls w ++ L)%list.

(** ** Vocabulary: menus *)

(** The item at position [i] exists and is enabled. *)
Definition enabled_at (items : list Menu.MenuItem) (i : Z) : bool :=
  match py_index items i with
  | Returned item => Menu.enabled item
  | Raised _ => false
  end.

(** [j] is the first enabled position met on the way from [i], [i] itself
    left out, in steps of [step] and around the ends of the list. *)
Definition next_enabled (items : list Menu.MenuItem) (step i j : Z) : Prop :=
  exists k : nat,
    (1 <= k <= length items)%nat
    /\ j = ((i + step * Z.of_nat k) mod Z.of_nat (length items))%Z
    /\ enabled_at items j = true
    /\ forall k' : nat,
         (1 <= k' < k)%nat ->
         enabled_at items
           ((i + step * Z.of_nat k') mod Z.of_nat (length items))%Z = false.

(** One move after the other. *)
Definition and_then {A B : Type} (r : Run A) (f : A -> Run B) : Run B :=
  match r with
  | Done a => f a
  | Throws e => Throws e
  | Hangs => Hangs
  end.

(** A menu of three items of which the middle one is disabled. *)
Definition gapped_menu : Menu.t :=
  Menu.add_item
    (Menu.add_item
       (Menu.add_item (Menu.new "Options" "") "1" "First" "" "" true)
       "2" "Second" "" "" false)
    "0" "Back" "" "" true.

(** The choices the main loop handles. *)
Definition main_choices : list string :=
  ["1"; "2"; "3"; "4"; "5"; "6"; "7"; "8"; "0"].

(** A call of [run_menu] that started on [menu] with [keys] ended well: it
    waits for a key, or it has chosen ["0"] or the key of an item, after
    reading at least one key; the items are those of [menu]. *)
Definition ended_well (menu : Menu.t) (keys : list string) (r : MenuRun) : Prop :=
  match r with
  | Chosen choice menu' rest =>
      (choice = "0"
       \/ exists item, In item (Menu.items menu) /\ Menu.key item = choice)
      /\ Menu.items menu' = Menu.items menu
      /\ exists used, used <> [] /\ keys = (used ++ rest)%list
  | Waiting menu' => Menu.items menu' = Menu.items menu
  | Failed _ | Stuck => True
  end.

(** ** Vocabulary: display and report *)

(** The status a result is displayed with. *)
Definition shown_as (s : CheckStatus) : CheckStatus :=
  match s with
  | ERROR => FAIL
  | _ => s
  end.

(** The recommendations for the results of status [s], in the order of the
    run. *)
Definition findings (s : CheckStatus) (categories : list CheckCategory)
    : list ReportGenerator.Recommendation :=
  flat_map
    (fun c =>
       map (ReportGenerator.recommendation_of c)
         (filter (fun r => status_eqb (status r) s) (results c)))
    categories.

(** The size of a wedge of a pie. *)
Definition wedge_size (w : nat * string * string) : nat := fst (fst w).

(** ** Vocabulary: the application *)

(** A console that prints whatever it is given, and one that raises [e] on
    whatever it is given. *)
Definition quiet_console {A : Type} (text : A) : Outcome unit := Returned tt.

Definition rejecting_console {A : Type} (e : PyExc) (text : A) : Outcome unit :=
  Raised e.

(** A [MarkupError], as Rich raises it on a closing tag that matches no open
    tag. *)
Definition markup_error : PyExc :=
  mkExc OtherException
    "closing tag '[/x]' at position 13 doesn't match any open tag".

(** The names of the four categories, which are the keys of [fixer_map]. *)
Definition category_names : list string :=
  ["Health Check"; "Driver Check"; "Security Check"; "Desktop Check"].

Definition known_category (n : string) : bool :=
  existsb (String.eqb n) category_names.

(** A store as the application fills it: one entry for a key, each category
    stored under its own name, and that name one of the four. *)
Definition well_keyed (self : FedChecker.Store) : Prop :=
  NoDup (FedChecker.dict_keys self)
  /\ Forall (fun kv => fst kv = cat_name (snd kv)
                       /\ In (fst kv) category_names) self.

(** A user who declines the two prompts of the dispatchers, for whatever
    result. *)
Definition declines_fixes {M : Type} (h : Host M) : Prop :=
  forall (k : nat) (r : CheckResult),
    answer h k (handler_prompt r) = false
    /\ answer h k (command_prompt r) = false.

(** The message of a result mentions a blocked device. *)
Definition says_blocked (r : CheckResult) : bool :=
  PyStr.contains "blocked" (PyStr.lower (message r)).

(** A user who confirms the question of [_run_auto_fix] and nothing else, on
    a machine where every command succeeds. *)
Definition consents_in_bulk : Host nat :=
  {| exec := fun cmd _ m => (Returned (completed true "out"), S m);
     answer := fun _ prompt => String.eqb prompt FedChecker.attempt_prompt;
     exists_ := fun _ _ => false;
     append := fun _ _ m => (Returned tt, m);
     getenv := fun _ => None |}.

(** The store after a health check that found the disk nearly full. *)
Definition disk_full_store : FedChecker.Store :=
  [("Health Check",
    mkCheckCategory "Health Check" StatusIcon.HEALTH
      [mkCheckResult "Memory Usage" PASS "Memory OK" "" false ""; disk_full])].

(** What a new checker of each category yields on the machine [sys]. *)
Definition run_named (sys : System) : list (string * Outcome CheckCategory) :=
  [ ("Health Check", fst (HealthChecker.run_all_checks HealthChecker.init sys));
    ("Driver Check", fst (DriverChecker.run_all_checks DriverChecker.init sys));
    ("Security Check",
     fst (SecurityChecker.run_all_checks SecurityChecker.init sys));
    ("Desktop Check",
     fst (DesktopChecker.run_all_checks (DesktopChecker.init sys) sys)) ].

(** The four check actions of the menu, with the category each one runs. *)
Definition check_actions {M : Type}
    (console_print : FedChecker.Renderable -> Outcome unit) (sys : System)
    : list (string * FedChecker.App M unit) :=
  [ ("Health Check", FedChecker._run_health_check console_print sys);
    ("Driver Check", FedChecker._run_driver_check console_print sys);
    ("Security Check", FedChecker._run_security_check console_print sys);
    ("Desktop Check", FedChecker._run_desktop_check console_print sys) ].

(** The rows of a table. *)
Definition table_rows (t : FedChecker.Renderable)
    : list (string * string * string * string) :=
  match t with
  | FedChecker.Table _ rows => rows
  | FedChecker.Panel _ _ _ => []
  end.

(** Whether [_generate_report] runs the four checks: fewer than four
    categories are stored and the user confirms. *)
Definition reruns {M : Type} (h : Host M) (self : FedChecker.Store)
    (w : World M) : bool :=
  (length self <? 4)%nat
  && answer h (length (asked w)) "Run all checks to generate complete report?".

(** The tail of [_generate_report], from the second reading of the store. *)
Definition report_tail {M : Type} (h : Host M)
    (generate : list CheckCategory -> M -> Outcome string * M)
    (xdg_open : string -> M -> M)
    : FedChecker.App M FedChecker.Reported :=
  FedChecker.bindA FedChecker.check_results
    (fun self =>
       let categories := FedChecker.dict_values self in
       if negb (nonempty categories) then FedChecker.pure FedChecker.NoData
       else
         FedChecker.bindA (FedChecker.generator_generate generate categories)
           (fun output_path =>
              FedChecker.bindA
                (FedChecker.lift (Confirm_ask h "Open the report now?"))
                (fun yes =>
                   FedChecker.bindA
                     (if yes then FedChecker.open_report xdg_open output_path
                      else FedChecker.pure tt)
                     (fun _ =>
                        FedChecker.pure
                          (FedChecker.Generated categories output_path))))).

(** A report generator that writes to a fixed path, and an opener without
    effect. *)
Definition writes_to (path : string) (categories : list CheckCategory) (m : nat)
    : Outcome string * nat :=
  (Returned path, S m).

Definition opens_nothing (path : string) (m : nat) : nat := m.

(** * Part II: properties *)

(** ** Counting results by status *)

Lemma count_status_cons (s : CheckStatus) (r : CheckResult) (rs : list CheckResult) :
  count_status s (r :: rs) =
  ((if status_eqb (status r) s then 1 else 0) + count_status s rs)%nat.
Proof.
  unfold count_status. simpl.
  destruct (status_eqb (status r) s); reflexivity.
Qed.

Lemma count_status_count_occ (s : CheckStatus) (rs : list CheckResult) :
  count_status s rs = count_occ CheckStatus_eq_dec (map status rs) s.
Proof.
  induction rs as [| r rs IH]; [reflexivity |].
  rewrite count_status_cons, IH. simpl. unfold status_eqb.
  destruct (CheckStatus_eq_dec (status r) s); reflexivity.
Qed.

Lemma count_status_app (s : CheckStatus) (xs ys : list CheckResult) :
  count_status s (xs ++ ys) = (count_status s xs + count_status s ys)%nat.
Proof.
  induction xs as [| x xs IH]; [reflexivity |].
  simpl app. rewrite !count_status_cons, IH. lia.
Qed.

(** The five statuses partition the results. *)
Lemma length_by_status (rs : list CheckResult) :
  length rs =
  (count_status PASS rs + count_status FAIL rs + count_status WARN rs
   + count_status SKIP rs + count_status ERROR rs)%nat.
Proof.
  induction rs as [| r rs IH]; [reflexivity |].
  rewrite !count_status_cons. simpl length.
  destruct (status r); unfold status_eqb; simpl; lia.
Qed.

Lemma count_status_pos_iff (s : CheckStatus) (rs : list CheckResult) :
  (0 < count_status s rs)%nat <-> Exists (fun r => status r = s) rs.
Proof.
  induction rs as [| r rs IH].
  - split; [cbn; lia | intros H; inversion H].
  - rewrite count_status_cons, Exists_cons. unfold status_eqb.
    destruct (CheckStatus_eq_dec (status r) s) as [E | N].
    + split; [now left | lia].
    + rewrite <- IH. simpl. tauto.
Qed.

Lemma count_status_all_iff (s : CheckStatus) (rs : list CheckResult) :
  count_status s rs = length rs <-> Forall (fun r => status r = s) rs.
Proof.
  induction rs as [| r rs IH].
  - split; [constructor | reflexivity].
  - rewrite count_status_cons, Forall_cons_iff. unfold status_eqb. simpl length.
    assert (B : (count_status s rs <= length rs)%nat).
    { rewrite (length_by_status rs). destruct s; lia. }
    destruct (CheckStatus_eq_dec (status r) s) as [E | N].
    + rewrite <- IH. split; [intros H; split; [exact E | lia] | intros [_ H]; lia].
    + split; [intros H; lia | intros [H _]; contradiction].
Qed.

(** ** Counts as rationals *)

Lemma float_of_int_S (n : nat) : float_of_int (S n) == float_of_int n + 1.
Proof.
  unfold float_of_int. rewrite Nat2Z.inj_succ, <- Z.add_1_r, inject_Z_plus.
  reflexivity.
Qed.

Lemma float_of_int_nonneg (n : nat) : 0 <= float_of_int n.
Proof.
  unfold float_of_int. change 0 with (inject_Z 0). rewrite <- Zle_Qle. lia.
Qed.

Lemma float_of_int_le (n m : nat) : (n <= m)%nat <-> float_of_int n <= float_of_int m.
Proof. unfold float_of_int. rewrite <- Zle_Qle. lia. Qed.

Lemma float_of_int_eq (n m : nat) : n = m <-> float_of_int n == float_of_int m.
Proof. unfold float_of_int. rewrite inject_Z_injective. lia. Qed.

Lemma float_of_int_add (n m : nat) :
  float_of_int (n + m) == float_of_int n + float_of_int m.
Proof. unfold float_of_int. now rewrite Nat2Z.inj_add, inject_Z_plus. Qed.

Lemma float_of_int_pos (n : nat) : n <> 0%nat -> 0 < float_of_int n.
Proof.
  intros H. unfold float_of_int. change 0 with (inject_Z 0).
  rewrite <- Zlt_Qlt. lia.
Qed.

(** The code's numerator is the weighted sum of the glossary. *)
Lemma weight_sum_counts (rs : list CheckResult) :
  weight_sum rs ==
  float_of_int (count_status PASS rs) * 1
  + float_of_int (count_status WARN rs) * (1 # 2).
Proof.
  induction rs as [| r rs IH]; [reflexivity |].
  simpl weight_sum. rewrite IH, !count_status_cons.
  destruct (status r); cbn [weight status_eqb CheckStatus_eq_dec Nat.add];
    cbn; rewrite ?float_of_int_S; ring.
Qed.

(** ** Rounding to binary64 *)

Lemma pow2_pos (e : Z) : 0 < Double.pow2 e.
Proof. unfold Double.pow2. apply Qpower_0_lt. reflexivity. Qed.

Lemma pow2_add (a b : Z) : Double.pow2 (a + b) == Double.pow2 a * Double.pow2 b.
Proof. unfold Double.pow2. apply Qpower_plus. discriminate. Qed.

Lemma pow2_le (a b : Z) : (a <= b)%Z -> Double.pow2 a <= Double.pow2 b.
Proof.
  intros H. unfold Double.pow2. apply Qpower_le_compat_l; [exact H | discriminate].
Qed.

Lemma pow2_lt (a b : Z) : (a < b)%Z -> Double.pow2 a < Double.pow2 b.
Proof.
  intros H. unfold Double.pow2. apply Qpower_lt_compat_l; [exact H | reflexivity].
Qed.

Lemma pow2_Z (n : Z) : (0 <= n)%Z -> Double.pow2 n == inject_Z (2 ^ n).
Proof.
  intros H. unfold Double.pow2. rewrite Zpower_Qpower by exact H. reflexivity.
Qed.

Lemma pow2_S (e : Z) : Double.pow2 (e + 1) == 2 * Double.pow2 e.
Proof. rewrite pow2_add. change (Double.pow2 1) with 2. ring. Qed.

(** [binade q] is the exponent of the binade of [q]. *)
Lemma binade_spec (q : Q) :
  0 < q ->
  Double.pow2 (Double.binade q) <= q /\ q < Double.pow2 (Double.binade q + 1).
Proof.
  intros Hq. destruct q as [a b].
  assert (Ha : (0 < a)%Z).
  { unfold Qlt in Hq. cbn in Hq. lia. }
  unfold Double.binade. cbn [Qnum Qden].
  set (la := Z.log2 a). set (lb := Z.log2 (Z.pos b)).
  destruct (Z.log2_spec a Ha) as [A1 A2].
  destruct (Z.log2_spec (Z.pos b) ltac:(lia)) as [B1 B2].
  fold la in A1, A2. fold lb in B1, B2.
  assert (La : (0 <= la)%Z) by apply Z.log2_nonneg.
  assert (Lb : (0 <= lb)%Z) by apply Z.log2_nonneg.
  rewrite Zle_Qle in A1, B1. rewrite Zlt_Qlt in A2, B2.
  rewrite <- pow2_Z in A1, A2, B1, B2 by lia.
  replace (Z.succ la) with (la + 1)%Z in A2 by lia.
  replace (Z.succ lb) with (lb + 1)%Z in B2 by lia.
  rewrite pow2_S in A2, B2.
  assert (E : a # b == inject_Z a / inject_Z (Z.pos b)) by apply Qmake_Qdiv.
  assert (Pb : 0 < inject_Z (Z.pos b)) by reflexivity.
  pose proof (pow2_pos la) as Pla. pose proof (pow2_pos lb) as Plb.
  assert (K : Double.pow2 (la - lb) * Double.pow2 lb == Double.pow2 la).
  { rewrite <- pow2_add. replace (la - lb + lb)%Z with la by lia. reflexivity. }
  pose proof (pow2_pos (la - lb)) as Pk.
  assert (K1 : Double.pow2 (la - lb - 1 + 1) == Double.pow2 (la - lb)).
  { replace (la - lb - 1 + 1)%Z with (la - lb)%Z by lia. reflexivity. }
  assert (K2 : 2 * Double.pow2 (la - lb - 1) == Double.pow2 (la - lb)).
  { rewrite <- pow2_S. exact K1. }
  destruct (Qle_bool (Double.pow2 (la - lb)) (a # b)) eqn:C.
  - apply Qle_bool_iff in C. split; [exact C |].
    rewrite pow2_S, E. apply Qlt_shift_div_r; [exact Pb |].
    set (x := Double.pow2 (la - lb)) in *. set (y := Double.pow2 lb) in *.
    set (z := Double.pow2 la) in *. nra.
  - assert (C' : a # b < Double.pow2 (la - lb)).
    { apply Qnot_le_lt. intros N. apply Qle_bool_iff in N. congruence. }
    split; [| rewrite K1; exact C'].
    rewrite E. apply Qle_shift_div_l; [exact Pb |].
    set (x := Double.pow2 (la - lb)) in *. set (y := Double.pow2 lb) in *.
    set (z := Double.pow2 la) in *. set (v := Double.pow2 (la - lb - 1)) in *.
    nra.
Qed.

Lemma binade_unique (q : Q) (e : Z) :
  Double.pow2 e <= q -> q < Double.pow2 (e + 1) -> Double.binade q = e.
Proof.
  intros L U.
  assert (Hq : 0 < q) by (pose proof (pow2_pos e); lra).
  destruct (binade_spec q Hq) as [L' U'].
  destruct (Z.lt_trichotomy (Double.binade q) e) as [C | [C | C]]; [| exact C |].
  - assert (X : Double.pow2 (Double.binade q + 1) <= Double.pow2 e)
      by (apply pow2_le; lia).
    lra.
  - assert (X : Double.pow2 (e + 1) <= Double.pow2 (Double.binade q))
      by (apply pow2_le; lia).
    lra.
Qed.

Lemma binade_le (x y : Q) :
  0 < x -> x <= y -> (Double.binade x <= Double.binade y)%Z.
Proof.
  intros Hx Hxy.
  destruct (binade_spec x Hx) as [Lx Ux].
  destruct (binade_spec y ltac:(lra)) as [Ly Uy].
  destruct (Z_le_gt_dec (Double.binade x) (Double.binade y)) as [C | C];
    [exact C |].
  assert (X : Double.pow2 (Double.binade y + 1) <= Double.pow2 (Double.binade x))
    by (apply pow2_le; lia).
  lra.
Qed.

(** Rounding to the nearest integer. *)
Lemma nearest_even_cases (q : Q) :
  (Double.nearest_even q = Qfloor q /\ q - inject_Z (Qfloor q) <= 1 # 2)
  \/ (Double.nearest_even q = (Qfloor q + 1)%Z
      /\ (1 # 2) <= q - inject_Z (Qfloor q)).
Proof.
  unfold Double.nearest_even.
  destruct (Qcompare_spec (q - inject_Z (Qfloor q)) (1 # 2)) as [E | L | G].
  - destruct (Z.even (Qfloor q)); [left | right]; split; try reflexivity; lra.
  - left. split; [reflexivity | lra].
  - right. split; [reflexivity | lra].
Qed.

Lemma nearest_even_near (q : Q) :
  q - (1 # 2) <= inject_Z (Double.nearest_even q)
  /\ inject_Z (Double.nearest_even q) <= q + (1 # 2).
Proof.
  pose proof (Qfloor_le q) as F1. pose proof (Qlt_floor q) as F2.
  rewrite inject_Z_plus in F2. change (inject_Z 1) with 1 in F2.
  destruct (nearest_even_cases q) as [[-> H] | [-> H]].
  - split; lra.
  - rewrite inject_Z_plus. change (inject_Z 1) with 1. split; lra.
Qed.

Lemma nearest_even_Z (q : Q) (z : Z) :
  q == inject_Z z -> Double.nearest_even q = z.
Proof.
  intros E. unfold Double.nearest_even.
  rewrite (Qfloor_comp _ _ E), Qfloor_Z.
  destruct (Qcompare_spec (q - inject_Z z) (1 # 2)) as [H | H | H];
    [lra | reflexivity | lra].
Qed.

Lemma nearest_even_mono (x y : Q) :
  x <= y -> (Double.nearest_even x <= Double.nearest_even y)%Z.
Proof.
  intros H. pose proof (Qfloor_resp_le _ _ H) as F.
  destruct (Z.eq_dec (Qfloor x) (Qfloor y)) as [E | N].
  - unfold Double.nearest_even. rewrite E.
    destruct (Qcompare_spec (x - inject_Z (Qfloor y)) (1 # 2)) as [X | X | X];
      destruct (Qcompare_spec (y - inject_Z (Qfloor y)) (1 # 2)) as [Y | Y | Y];
      try lra; try lia; destruct (Z.even (Qfloor y)); lia.
  - destruct (nearest_even_cases x) as [[-> _] | [-> _]];
      destruct (nearest_even_cases y) as [[-> _] | [-> _]]; lia.
Qed.

(** The scaled value lies between [2 ^ 52] and [2 ^ 53]. *)
Lemma scaled_range (q : Q) :
  0 < q ->
  let ulp := Double.pow2 (Double.binade q - 52) in
  inject_Z (2 ^ 52) <= q / ulp /\ q / ulp < inject_Z (2 ^ 53)
  /\ Double.pow2 (Double.binade q) == inject_Z (2 ^ 52) * ulp
  /\ Double.pow2 (Double.binade q + 1) == inject_Z (2 ^ 53) * ulp.
Proof.
  intros Hq ulp. destruct (binade_spec q Hq) as [L U].
  pose proof (pow2_pos (Double.binade q - 52)) as P. fold ulp in P.
  assert (E1 : Double.pow2 (Double.binade q) == inject_Z (2 ^ 52) * ulp).
  { rewrite <- pow2_Z by lia. unfold ulp. rewrite <- pow2_add.
    replace (52 + (Double.binade q - 52))%Z with (Double.binade q) by lia.
    reflexivity. }
  assert (E2 : Double.pow2 (Double.binade q + 1) == inject_Z (2 ^ 53) * ulp).
  { rewrite <- pow2_Z by lia. unfold ulp. rewrite <- pow2_add.
    replace (53 + (Double.binade q - 52))%Z with (Double.binade q + 1)%Z by lia.
    reflexivity. }
  split; [apply Qle_shift_div_l; [exact P | lra] |].
  split; [apply Qlt_shift_div_r; [exact P | lra] |].
  split; assumption.
Qed.

Lemma nearest_in_binade (q : Q) :
  0 < q ->
  Double.pow2 (Double.binade q) <= Double.nearest q
  /\ Double.nearest q <= Double.pow2 (Double.binade q + 1).
Proof.
  intros Hq. destruct (scaled_range q Hq) as [L [U [E1 E2]]].
  unfold Double.nearest.
  set (ulp := Double.pow2 (Double.binade q - 52)) in *.
  pose proof (pow2_pos (Double.binade q - 52)) as P. fold ulp in P.
  assert (A : (Double.nearest_even (inject_Z (2 ^ 52))
               <= Double.nearest_even (q / ulp))%Z)
    by now apply nearest_even_mono.
  rewrite (nearest_even_Z _ (2 ^ 52)) in A by reflexivity.
  assert (B : (Double.nearest_even (q / ulp)
               <= Double.nearest_even (inject_Z (2 ^ 53)))%Z)
    by (apply nearest_even_mono; lra).
  rewrite (nearest_even_Z (inject_Z (2 ^ 53)) (2 ^ 53)) in B by reflexivity.
  rewrite Zle_Qle in A, B. rewrite E1, E2.
  split; apply Qmult_le_compat_r; lra.
Qed.

Lemma nearest_mono (x y : Q) :
  0 < x -> x <= y -> Double.nearest x <= Double.nearest y.
Proof.
  intros Hx Hxy. assert (Hy : 0 < y) by lra.
  pose proof (binade_le x y Hx Hxy) as B.
  destruct (Z.eq_dec (Double.binade x) (Double.binade y)) as [E | N].
  - unfold Double.nearest. rewrite E.
    pose proof (pow2_pos (Double.binade y - 52)) as P.
    apply Qmult_le_compat_r; [| lra].
    rewrite <- Zle_Qle. apply nearest_even_mono.
    apply Qle_shift_div_l; [exact P |].
    assert (X : x / Double.pow2 (Double.binade y - 52)
                * Double.pow2 (Double.binade y - 52) == x) by (field; lra).
    lra.
  - destruct (nearest_in_binade x Hx) as [_ U].
    destruct (nearest_in_binade y Hy) as [L _].
    assert (X : Double.pow2 (Double.binade x + 1) <= Double.pow2 (Double.binade y))
      by (apply pow2_le; lia).
    lra.
Qed.

(** A number with a significand below [2 ^ 53] is a float. *)
Lemma nearest_exact (q : Q) (k s : Z) :
  (0 < k < 2 ^ 53)%Z -> q == inject_Z k * Double.pow2 s -> Double.nearest q == q.
Proof.
  intros Hk E.
  pose proof (pow2_pos s) as Ps.
  assert (Kp : 0 < inject_Z k) by (change 0 with (inject_Z 0); rewrite <- Zlt_Qlt; lia).
  assert (Kb : inject_Z k < inject_Z (2 ^ 53)) by (rewrite <- Zlt_Qlt; lia).
  assert (Hq : 0 < q) by (rewrite E; nra).
  destruct (binade_spec q Hq) as [L U].
  set (e := Double.binade q) in *.
  assert (S : (e - 52 <= s)%Z).
  { destruct (Z_le_gt_dec (e - 52) s) as [C | C]; [exact C | exfalso].
    assert (X : Double.pow2 (53 + s) <= Double.pow2 e) by (apply pow2_le; lia).
    rewrite pow2_add, pow2_Z in X by lia. nra. }
  unfold Double.nearest. fold e.
  pose proof (pow2_pos (e - 52)) as P.
  assert (D : Double.pow2 s == inject_Z (2 ^ (s - (e - 52))) * Double.pow2 (e - 52)).
  { rewrite <- pow2_Z by lia. rewrite <- pow2_add.
    replace (s - (e - 52) + (e - 52))%Z with s by lia. reflexivity. }
  assert (I : q / Double.pow2 (e - 52) == inject_Z (k * 2 ^ (s - (e - 52)))).
  { rewrite inject_Z_mult, E, D. field. lra. }
  rewrite (nearest_even_Z _ _ I), inject_Z_mult, E, D. ring.
Qed.

(** The rounding error is at most half a unit in the last place. *)
Lemma nearest_error (q : Q) :
  0 < q -> Qabs (Double.nearest q - q) <= q * (1 # 2 ^ 53).
Proof.
  intros Hq. destruct (scaled_range q Hq) as [L [U [E1 E2]]].
  destruct (binade_spec q Hq) as [B _].
  unfold Double.nearest.
  set (ulp := Double.pow2 (Double.binade q - 52)) in *.
  pose proof (pow2_pos (Double.binade q - 52)) as P. fold ulp in P.
  destruct (nearest_even_near (q / ulp)) as [N1 N2].
  assert (X : q / ulp * ulp == q) by (field; lra).
  set (n := inject_Z (Double.nearest_even (q / ulp))) in *.
  set (r := q / ulp) in *.
  assert (H52 : inject_Z (2 ^ 52) == 4503599627370496) by reflexivity.
  apply Qabs_Qle_condition.
  assert (Y : ulp * (1 # 2) <= q * (1 # 2 ^ 53)).
  { assert (Z1 : (1 # 2 ^ 53) == (1 # 2) * / inject_Z (2 ^ 52)) by reflexivity.
    rewrite Z1. rewrite E1 in B.
    assert (Z2 : ulp == inject_Z (2 ^ 52) * ulp * / inject_Z (2 ^ 52))
      by (field; rewrite H52; lra).
    assert (Z3 : 0 < / inject_Z (2 ^ 52)) by reflexivity.
    set (c := / inject_Z (2 ^ 52)) in *.
    set (m := inject_Z (2 ^ 52) * ulp) in *. nra. }
  split; nra.
Qed.

(** *** What rounding keeps *)

Lemma round_comp (x y : Q) : x == y -> Double.round x = Double.round y.
Proof. intros E. unfold Double.round. now rewrite (Qred_complete _ _ E). Qed.

Lemma Qnum_pos (q : Q) : 0 < q -> exists p, Qnum q = Zpos p.
Proof.
  destruct q as [[| p | p] d]; unfold Qlt; cbn; intros H; try lia. now exists p.
Qed.

Lemma round_positive (q : Q) : 0 < q -> Double.round q = Double.nearest (Qred q).
Proof.
  intros H. unfold Double.round.
  destruct (Qnum_pos (Qred q)) as [p E]; [now rewrite Qred_correct |].
  now rewrite E.
Qed.

Lemma round_zero (q : Q) : q == 0 -> Double.round q = 0.
Proof. intros E. now rewrite (round_comp _ _ E). Qed.

Lemma round_pos_pos (q : Q) : 0 < q -> 0 < Double.round q.
Proof.
  intros H. rewrite (round_positive q H).
  assert (R : 0 < Qred q) by now rewrite Qred_correct.
  destruct (nearest_in_binade _ R) as [L _].
  pose proof (pow2_pos (Double.binade (Qred q))). lra.
Qed.

(** Rounding is monotone. *)
Lemma round_mono (x y : Q) : 0 <= x -> x <= y -> Double.round x <= Double.round y.
Proof.
  intros Hx Hxy.
  destruct (Qlt_le_dec 0 x) as [Px | Zx].
  - rewrite (round_positive x Px), (round_positive y) by lra.
    apply nearest_mono; rewrite !Qred_correct; assumption.
  - rewrite (round_zero x) by lra.
    destruct (Qlt_le_dec 0 y) as [Py | Zy].
    + pose proof (round_pos_pos y Py). lra.
    + rewrite (round_zero y) by lra. lra.
Qed.

(** Rounding leaves a float as it is. *)
Lemma round_exact (q : Q) (k s : Z) :
  (0 <= k < 2 ^ 53)%Z -> q == inject_Z k * Double.pow2 s -> Double.round q == q.
Proof.
  intros Hk E. destruct (Z.eq_dec k 0) as [-> | N].
  - assert (Z0 : q == 0) by (rewrite E; ring). rewrite (round_zero q Z0).
    now symmetry.
  - assert (Kp : 0 < inject_Z k)
      by (change 0 with (inject_Z 0); rewrite <- Zlt_Qlt; lia).
    pose proof (pow2_pos s) as Ps.
    assert (Hq : 0 < q) by (rewrite E; nra).
    rewrite (round_positive q Hq).
    rewrite (nearest_exact (Qred q) k s); [apply Qred_correct | lia |].
    now rewrite Qred_correct.
Qed.

Lemma round_nat (n : nat) :
  (Z.of_nat n < 2 ^ 53)%Z ->
  Double.round (inject_Z (Z.of_nat n)) == inject_Z (Z.of_nat n).
Proof.
  intros H. apply (round_exact _ (Z.of_nat n) 0); [lia |].
  change (Double.pow2 0) with 1. ring.
Qed.

Lemma round_half (k : Z) :
  (0 <= k < 2 ^ 53)%Z -> Double.round (inject_Z k * (1 # 2)) == inject_Z k * (1 # 2).
Proof.
  intros H. apply (round_exact _ k (-1)); [exact H | reflexivity].
Qed.

(** The relative error of one rounding. *)
Lemma round_error (q : Q) :
  0 <= q -> Qabs (Double.round q - q) <= q * (1 # 2 ^ 53).
Proof.
  intros H. destruct (Qlt_le_dec 0 q) as [P | Z0].
  - rewrite (round_positive q P).
    assert (R : 0 < Qred q) by now rewrite Qred_correct.
    pose proof (nearest_error _ R) as X. pose proof (Qred_correct q) as E.
    apply Qabs_Qle_condition in X. apply Qabs_Qle_condition.
    destruct X as [X1 X2].
    assert (Pr : Qred q * (1 # 2 ^ 53) == q * (1 # 2 ^ 53)) by now rewrite E.
    set (c := 1 # 2 ^ 53) in *. set (n := Double.nearest (Qred q)) in *.
    set (a := Qred q * c) in *. set (b := q * c) in *.
    split; lra.
  - assert (E : q == 0) by lra. rewrite (round_zero q E).
    assert (Z1 : q * (1 # 2 ^ 53) == 0) by (rewrite E; reflexivity).
    apply Qabs_Qle_condition. set (b := q * (1 # 2 ^ 53)) in *. split; lra.
Qed.

(** ** The score of a category *)

Lemma counts_within_total (c : CheckCategory) :
  (passed c + warnings c <= total c)%nat.
Proof.
  unfold passed, warnings, total. rewrite (length_by_status (results c)). lia.
Qed.

(** The numerator of the score is exact. *)
Lemma exact_numerator (p w : nat) :
  (Z.of_nat (p + w) < 2 ^ 52)%Z ->
  Double.add (Double.mul (Double.of_int p) 1)
    (Double.mul (Double.of_int w) (1 # 2))
  == float_of_int p + float_of_int w * (1 # 2).
Proof.
  intros H. unfold Double.add, Double.mul, Double.of_int.
  assert (Ep : Double.round (inject_Z (Z.of_nat p)) == inject_Z (Z.of_nat p))
    by (apply round_nat; lia).
  assert (Ew : Double.round (inject_Z (Z.of_nat w)) == inject_Z (Z.of_nat w))
    by (apply round_nat; lia).
  assert (E1 : Double.round (Double.round (inject_Z (Z.of_nat p)) * 1)
               == inject_Z (Z.of_nat p)).
  { rewrite (round_comp _ (inject_Z (Z.of_nat p))) by (rewrite Ep; ring).
    exact Ep. }
  assert (E2 : Double.round (Double.round (inject_Z (Z.of_nat w)) * (1 # 2))
               == inject_Z (Z.of_nat w) * (1 # 2)).
  { rewrite (round_comp _ (inject_Z (Z.of_nat w) * (1 # 2))) by (now rewrite Ew).
    apply round_half. lia. }
  rewrite (round_comp _ (inject_Z (2 * Z.of_nat p + Z.of_nat w) * (1 # 2))).
  - rewrite round_half by lia. unfold float_of_int.
    rewrite inject_Z_plus, inject_Z_mult. change (inject_Z 2) with 2. ring.
  - rewrite E1, E2, inject_Z_plus, inject_Z_mult. change (inject_Z 2) with 2. ring.
Qed.

(** The score of a category that is not empty: two roundings. *)
Lemma score_nonempty (c : CheckCategory) :
  holdable c -> total c <> 0%nat ->
  score c = rounded_score (weighted c) (float_of_int (total c)).
Proof.
  intros H N. unfold score, rounded_score, weighted.
  destruct (Nat.eqb_spec (total c) 0) as [E | _]; [contradiction |].
  pose proof (counts_within_total c) as B. unfold holdable in H.
  cbv zeta. unfold Double.mul at 1. unfold Double.div.
  apply round_comp.
  rewrite (round_comp _ ((float_of_int (passed c)
                          + float_of_int (warnings c) * (1 # 2))
                         / float_of_int (total c))); [reflexivity |].
  rewrite exact_numerator by lia.
  unfold Double.of_int. rewrite round_nat by lia. reflexivity.
Qed.

Lemma rounded_score_mono (x t x' t' : Q) :
  0 <= x / t -> x / t <= x' / t' -> rounded_score x t <= rounded_score x' t'.
Proof.
  intros P H. unfold rounded_score.
  assert (R0 : 0 <= Double.round (x / t)).
  { rewrite <- (round_zero 0) by reflexivity. apply round_mono; [lra | exact P]. }
  pose proof (round_mono _ _ P H) as R.
  apply round_mono; lra.
Qed.

Lemma rounded_score_one (x t : Q) : x / t == 1 -> rounded_score x t == 100.
Proof.
  intros E. unfold rounded_score. rewrite (round_comp _ 1 E).
  vm_compute. reflexivity.
Qed.

Lemma rounded_score_zero (x t : Q) : x / t == 0 -> rounded_score x t == 0.
Proof.
  intros E. unfold rounded_score. rewrite (round_comp _ 0 E).
  vm_compute. reflexivity.
Qed.

(** Below one the rounded quotient, and with it the score, stays below. *)
Lemma rounded_score_below (x t : Q) :
  0 <= x / t -> x / t <= 1 - (1 # 2 ^ 53) ->
  rounded_score x t <= 100 - (1 # 2 ^ 46).
Proof.
  intros P H.
  assert (E : rounded_score (1 - (1 # 2 ^ 53)) 1 == 100 - (1 # 2 ^ 46))
    by (vm_compute; reflexivity).
  rewrite <- E. apply rounded_score_mono; [exact P |].
  assert (X : (1 - (1 # 2 ^ 53)) / 1 == 1 - (1 # 2 ^ 53)) by (vm_compute; reflexivity).
  rewrite X. exact H.
Qed.

Lemma weighted_bounds (c : CheckCategory) :
  0 <= weighted c /\ weighted c <= float_of_int (total c).
Proof.
  unfold weighted.
  pose proof (float_of_int_nonneg (passed c)) as P0.
  pose proof (float_of_int_nonneg (warnings c)) as W0.
  pose proof (counts_within_total c) as B.
  apply float_of_int_le in B. rewrite float_of_int_add in B.
  split; lra.
Qed.

Lemma pass_rate_bounds (c : CheckCategory) :
  total c <> 0%nat ->
  0 <= weighted c / float_of_int (total c)
  /\ weighted c / float_of_int (total c) <= 1.
Proof.
  intros N. pose proof (float_of_int_pos _ N) as T.
  destruct (weighted_bounds c) as [L U].
  split.
  - apply Qle_shift_div_l; [exact T | lra].
  - apply Qle_shift_div_r; [exact T | lra].
Qed.

Lemma weighted_full (c : CheckCategory) :
  weighted c == float_of_int (total c)
  <-> Forall (fun r => status r = PASS) (results c).
Proof.
  rewrite <- count_status_all_iff.
  change (count_status PASS (results c)) with (passed c).
  change (length (results c)) with (total c).
  unfold weighted.
  pose proof (float_of_int_nonneg (warnings c)) as W0.
  pose proof (counts_within_total c) as B.
  pose proof B as B'. apply float_of_int_le in B'. rewrite float_of_int_add in B'.
  split; intros H.
  - apply float_of_int_eq. lra.
  - assert (W : warnings c = 0%nat) by lia.
    rewrite W, H. change (float_of_int 0) with 0. ring.
Qed.

(** A category short of a full score is short by half a result at least. *)
Lemma weighted_short (c : CheckCategory) :
  ~ weighted c == float_of_int (total c) ->
  weighted c <= float_of_int (total c) - (1 # 2).
Proof.
  intros N. unfold weighted in *.
  pose proof (counts_within_total c) as B.
  assert (Z2 : (2 * Z.of_nat (passed c) + Z.of_nat (warnings c)
                <> 2 * Z.of_nat (total c))%Z).
  { intros E. apply N. unfold float_of_int.
    assert (X : inject_Z (2 * Z.of_nat (passed c) + Z.of_nat (warnings c))
                == inject_Z (2 * Z.of_nat (total c))) by now rewrite E.
    rewrite inject_Z_plus, !inject_Z_mult in X. change (inject_Z 2) with 2 in X.
    lra. }
  assert (Z3 : (2 * Z.of_nat (passed c) + Z.of_nat (warnings c) + 1
                <= 2 * Z.of_nat (total c))%Z) by lia.
  rewrite Zle_Qle in Z3.
  rewrite !inject_Z_plus, !inject_Z_mult in Z3.
  change (inject_Z 2) with 2 in Z3. change (inject_Z 1) with 1 in Z3.
  unfold float_of_int. lra.
Qed.

Lemma pass_rate_short (c : CheckCategory) :
  holdable c -> total c <> 0%nat ->
  ~ weighted c == float_of_int (total c) ->
  weighted c / float_of_int (total c) <= 1 - (1 # 2 ^ 53).
Proof.
  intros H N S. pose proof (float_of_int_pos _ N) as T.
  pose proof (weighted_short c S) as W.
  apply Qle_shift_div_r; [exact T |].
  assert (B : float_of_int (total c) <= inject_Z (2 ^ 52)).
  { unfold float_of_int. rewrite <- Zle_Qle. unfold holdable in H. lia. }
  assert (C : (1 # 2 ^ 53) == (1 # 2) * / inject_Z (2 ^ 52)) by reflexivity.
  assert (D : inject_Z (2 ^ 52) * / inject_Z (2 ^ 52) == 1) by reflexivity.
  assert (I : 0 < / inject_Z (2 ^ 52)) by reflexivity.
  rewrite C. set (k := / inject_Z (2 ^ 52)) in *.
  set (m := inject_Z (2 ^ 52)) in *. set (t := float_of_int (total c)) in *.
  nra.
Qed.

Lemma score_bounds (c : CheckCategory) :
  holdable c -> 0 <= score c /\ score c <= 100.
Proof.
  intros H. destruct (Nat.eq_dec (total c) 0) as [E | N].
  - unfold score. rewrite E. cbn. split; lra.
  - rewrite (score_nonempty c H N).
    destruct (pass_rate_bounds c N) as [L U].
    split.
    + rewrite <- (rounded_score_zero 0 1) by reflexivity.
      apply rounded_score_mono; [now vm_compute | exact L].
    + rewrite <- (rounded_score_one 1 1) by reflexivity.
      apply rounded_score_mono; [exact L | exact U].
Qed.

Lemma score_full (c : CheckCategory) :
  holdable c ->
  (score c == 100 <-> Forall (fun r => status r = PASS) (results c)).
Proof.
  intros H. rewrite <- weighted_full.
  destruct (Nat.eq_dec (total c) 0) as [E | N].
  - unfold score. rewrite E. cbn [Nat.eqb].
    split; [intros _ | reflexivity].
    unfold weighted. pose proof (counts_within_total c) as B.
    assert (P : passed c = 0%nat) by lia. assert (W : warnings c = 0%nat) by lia.
    rewrite P, W. reflexivity.
  - rewrite (score_nonempty c H N). pose proof (float_of_int_pos _ N) as T.
    destruct (pass_rate_bounds c N) as [L U].
    split; intros S.
    + destruct (Qeq_dec (weighted c) (float_of_int (total c))) as [Y | Y];
        [exact Y | exfalso].
      pose proof (rounded_score_below _ _ L (pass_rate_short c H N Y)) as X.
      assert (K : 0 < (1 # 2 ^ 46)) by reflexivity.
      set (k := 1 # 2 ^ 46) in *. lra.
    + apply rounded_score_one. rewrite S. field. lra.
Qed.

(** One rounding after the other keeps the score within [2 ^ -51] of the
    exact formula, relatively. *)
Lemma rounded_score_error (x t : Q) :
  0 <= x / t ->
  Qabs (rounded_score x t - x / t * 100) <= x / t * 100 * (1 # 2 ^ 51).
Proof.
  intros P. unfold rounded_score.
  set (q := x / t) in *.
  pose proof (round_error q P) as E1.
  assert (R0 : 0 <= Double.round q).
  { rewrite <- (round_zero 0) by reflexivity. apply round_mono; [lra | exact P]. }
  assert (R1 : 0 <= Double.round q * 100) by lra.
  pose proof (round_error _ R1) as E2.
  apply Qabs_Qle_condition in E1. apply Qabs_Qle_condition in E2.
  apply Qabs_Qle_condition.
  assert (U : (1 # 2 ^ 51) == 4 * (1 # 2 ^ 53)) by reflexivity.
  assert (U0 : 0 < (1 # 2 ^ 53)) by reflexivity.
  assert (U1 : (1 # 2 ^ 53) <= 1) by (vm_compute; discriminate).
  rewrite U. set (u := 1 # 2 ^ 53) in *.
  set (r := Double.round q) in *. set (s := Double.round (r * 100)) in *.
  destruct E1 as [A1 A2]. destruct E2 as [B1 B2].
  split; nra.
Qed.

(** C1. The score of a category is the formula
    [((count(Pass) + 0.5 * count(Warn)) / total) * 100] evaluated on floats,
    where [total] is the number of results: the numerator is exact, the
    quotient is rounded to a float and so is its product with 100, which
    leaves the score within [2 ^ -51] of the formula's exact value,
    relatively.  An empty category scores 100.  Results with status Skip or
    Error are part of [total] (the five statuses partition it) and add
    nothing to the numerator, which is the weighted sum with Pass = 1,
    Warn = 1/2 and every other status 0; nine Pass and one Skip score 90. *)
Theorem score_formula (c : CheckCategory) :
  holdable c ->
  (total c = 0%nat -> score c == 100)
  /\ (total c <> 0%nat ->
      score c ==
      Double.round
        (Double.round
           ((float_of_int (occurrences PASS c)
             + (1 # 2) * float_of_int (occurrences WARN c))
            / float_of_int (length (results c)))
         * 100))
  /\ (total c <> 0%nat ->
      score c ==
      Double.round
        (Double.round (weight_sum (results c) / float_of_int (length (results c)))
         * 100))
  /\ (total c <> 0%nat ->
      Qabs (score c
            - ((float_of_int (occurrences PASS c)
                + (1 # 2) * float_of_int (occurrences WARN c))
               / float_of_int (length (results c))) * 100)
      <= ((float_of_int (occurrences PASS c)
           + (1 # 2) * float_of_int (occurrences WARN c))
          / float_of_int (length (results c))) * 100 * (1 # 2 ^ 51))
  /\ total c =
     (occurrences PASS c + occurrences WARN c + occurrences FAIL c
      + occurrences SKIP c + occurrences ERROR c)%nat
  /\ score (category_of [PASS; PASS; PASS; PASS; PASS; PASS; PASS; PASS; PASS; SKIP])
     == 90.
Proof.
  intros H.
  assert (O : (float_of_int (occurrences PASS c)
               + (1 # 2) * float_of_int (occurrences WARN c))
              / float_of_int (length (results c))
              == weighted c / float_of_int (total c)).
  { unfold occurrences, weighted, passed, warnings, total.
    rewrite <- !count_status_count_occ.
    apply Qmult_comp; [ring | reflexivity]. }
  split; [intros E; unfold score; now rewrite E |].
  split.
  { intros N. rewrite (score_nonempty c H N). unfold rounded_score.
    now rewrite (round_comp _ _ O). }
  split.
  { intros N. rewrite (score_nonempty c H N). unfold rounded_score.
    rewrite (round_comp (weight_sum (results c) / float_of_int (length (results c)))
               (weighted c / float_of_int (total c))); [reflexivity |].
    rewrite weight_sum_counts. unfold weighted, passed, warnings, total.
    apply Qmult_comp; [ring | reflexivity]. }
  split.
  { intros N. rewrite O, (score_nonempty c H N).
    apply rounded_score_error. apply (pass_rate_bounds c N). }
  split.
  { unfold occurrences, total. rewrite <- !count_status_count_occ.
    rewrite (length_by_status (results c)). lia. }
  vm_compute. reflexivity.
Qed.

Lemma score_formula_mixed :
  holdable (category_of [PASS; FAIL; FAIL])
  /\ score (category_of [PASS; FAIL; FAIL])
     == Double.round (Double.round (1 # 3) * 100)
  /\ score (category_of [PASS; FAIL; FAIL]) == 4691249611844266 # 2 ^ 47
  /\ Qabs (score (category_of [PASS; FAIL; FAIL]) - (100 # 3))
     <= (100 # 3) * (1 # 2 ^ 51).
Proof.
  assert (H : holdable (category_of [PASS; FAIL; FAIL])) by (vm_compute; reflexivity).
  split; [exact H |].
  destruct (score_formula (category_of [PASS; FAIL; FAIL]) H)
    as [_ [F [_ [E _]]]].
  split; [exact (F ltac:(discriminate)) |].
  split; [vm_compute; reflexivity |].
  exact (E ltac:(discriminate)).
Defined.

(** C2. The score lies between 0 and 100, and it is 100 exactly when every
    result of the category has status Pass (in particular for an empty
    category). *)
Theorem score_range_and_full (c : CheckCategory) :
  holdable c ->
  (0 <= score c /\ score c <= 100)
  /\ (score c == 100 <-> Forall (fun r => status r = PASS) (results c)).
Proof.
  intros H. split; [exact (score_bounds c H) | exact (score_full c H)].
Qed.

Lemma score_range_and_full_nine_of_ten :
  holdable
    (category_of [PASS; PASS; PASS; PASS; PASS; PASS; PASS; PASS; PASS; SKIP])
  /\ (0 <= score (category_of
                    [PASS; PASS; PASS; PASS; PASS; PASS; PASS; PASS; PASS; SKIP])
      /\ score (category_of
                  [PASS; PASS; PASS; PASS; PASS; PASS; PASS; PASS; PASS; SKIP])
         <= 100)
  /\ ~ score (category_of
                [PASS; PASS; PASS; PASS; PASS; PASS; PASS; PASS; PASS; SKIP])
       == 100.
Proof.
  assert (H : holdable
                (category_of
                   [PASS; PASS; PASS; PASS; PASS; PASS; PASS; PASS; PASS; SKIP]))
    by (vm_compute; reflexivity).
  split; [exact H |].
  destruct (score_range_and_full _ H) as [B F].
  split; [exact B |].
  intros E. apply F in E. apply Forall_forall with (x := CheckResult3 "probe" SKIP "message") in E.
  - discriminate E.
  - cbn. tauto.
Defined.

(** ** The score on the hardware *)

Lemma all_agree_32 : all_agree 32 = true.
Proof. vm_compute. reflexivity. Qed.

Lemma all_agree_at (n p w t : nat) :
  all_agree n = true -> (t <= n)%nat -> (p + w <= t)%nat -> agrees3 p w t = true.
Proof.
  unfold all_agree. intros H Ht Hpw.
  rewrite forallb_forall in H.
  assert (H1 := H t). rewrite in_seq in H1.
  assert (H2 := H1 ltac:(lia)). rewrite forallb_forall in H2.
  assert (H3 := H2 p). rewrite in_seq in H3.
  assert (H4 := H3 ltac:(lia)). rewrite forallb_forall in H4.
  apply H4. rewrite in_seq. lia.
Qed.

(** For a category of at most 32 results, the float that the binary64
    arithmetic of the hardware computes for [CheckCategory.score] denotes
    the very rational [score] gives: the rounding written out in [Double] is
    the rounding of the hardware on these 6545 cases. *)
Lemma binary64_score_agrees (c : CheckCategory) :
  (total c <= 32)%nat ->
  exists v, Binary64.value (Binary64.score c) = Some v /\ v == score c.
Proof.
  intros Ht.
  pose proof (all_agree_at 32 (passed c) (warnings c) (total c) all_agree_32 Ht
                (counts_within_total c)) as A.
  unfold agrees3 in A.
  change (score_of_counts (passed c) (warnings c) (total c)) with (score c) in A.
  change (Binary64.score3 (passed c) (warnings c) (total c))
    with (Binary64.score c) in A.
  destruct (Binary64.value (Binary64.score c)) as [v |]; [| discriminate].
  exists v. split; [reflexivity | now apply Qeq_bool_iff].
Qed.

Example binary64_score_nine_pass_one_skip :
  Binary64.eqb
    (Binary64.score
       (category_of [PASS; PASS; PASS; PASS; PASS; PASS; PASS; PASS; PASS; SKIP]))
    (Binary64.of_int 90) = true.
Proof. vm_compute. reflexivity. Qed.

(** The two scenarios of the specification. *)
Example scenario_mixed :
  let c := category_of [PASS; PASS; WARN; FAIL; SKIP] in
  passed c = 2%nat /\ failed c = 1%nat /\ warnings c = 1%nat /\ total c = 5%nat
  /\ score c == 50 /\ overall_status c = FAIL
  /\ Binary64.eqb (Binary64.score c) (Binary64.of_int 50) = true.
Proof. vm_compute. repeat split. Qed.

Example scenario_all_pass :
  let c := category_of [PASS; PASS; PASS; PASS] in
  score c == 100 /\ overall_status c = PASS
  /\ Binary64.eqb (Binary64.score c) Binary64.hundred = true.
Proof. vm_compute. repeat split. Qed.

(** One pass out of three: the float nearest to a third, times 100, rounded;
    not the rational [100 / 3]. *)
Example score_one_of_three :
  score (category_of [PASS; FAIL; FAIL]) == 4691249611844266 # 2 ^ 47
  /\ ~ score (category_of [PASS; FAIL; FAIL]) == 100 # 3
  /\ Binary64.value (Binary64.score (category_of [PASS; FAIL; FAIL]))
     = Some (Qmake 4691249611844266 (2 ^ 47)).
Proof.
  split; [vm_compute; reflexivity |].
  split; [vm_compute; discriminate |].
  vm_compute. reflexivity.
Qed.

(** ** The overall status of a category *)

Lemma count_status_drop_neutral (s : CheckStatus) (rs : list CheckResult) :
  s = FAIL \/ s = WARN ->
  count_status s (filter (fun r => negb (is_neutral r)) rs) = count_status s rs.
Proof.
  intros Hs. induction rs as [| r rs IH]; [reflexivity |].
  simpl filter. unfold is_neutral at 1.
  destruct (status r) eqn:E; simpl negb; cbv iota;
    rewrite ?count_status_cons, ?E, IH; try reflexivity;
    destruct Hs as [-> | ->]; reflexivity.
Qed.

(** C3. A category is Fail exactly when it holds a Fail result; otherwise it
    is Warn exactly when it holds a Warn result; otherwise it is Pass.  Skip
    and Error results never change the overall status: removing them leaves
    it as it was, and a category of only Skip and Error results is Pass. *)
Theorem overall_status_worst_of (c : CheckCategory) :
  (overall_status c = FAIL <-> Exists (fun r => status r = FAIL) (results c))
  /\ (~ Exists (fun r => status r = FAIL) (results c) ->
      (overall_status c = WARN <-> Exists (fun r => status r = WARN) (results c)))
  /\ (~ Exists (fun r => status r = FAIL) (results c) ->
      ~ Exists (fun r => status r = WARN) (results c) ->
      overall_status c = PASS)
  /\ overall_status
       (mkCheckCategory (cat_name c) (icon c)
          (filter (fun r => negb (is_neutral r)) (results c)))
     = overall_status c
  /\ (Forall (fun r => status r = SKIP \/ status r = ERROR) (results c) ->
      overall_status c = PASS).
Proof.
  unfold overall_status, failed, warnings.
  pose proof (count_status_pos_iff FAIL (results c)) as HF.
  pose proof (count_status_pos_iff WARN (results c)) as HW.
  assert (Neutral : forall s, s = FAIL \/ s = WARN ->
            Forall (fun r => status r = SKIP \/ status r = ERROR) (results c) ->
            ~ Exists (fun r => status r = s) (results c)).
  { intros s Hs A X. apply Exists_exists in X. destruct X as [r [I S]].
    rewrite Forall_forall in A. destruct (A r I), Hs; congruence. }
  split; [| split; [| split; [| split]]].
  - destruct (Nat.ltb_spec 0 (count_status FAIL (results c))) as [F | F].
    + split; [intros _; now apply HF | reflexivity].
    + destruct (Nat.ltb 0 (count_status WARN (results c)));
        (split; [congruence | intros X; apply HF in X; lia]).
  - intros NF.
    destruct (Nat.ltb_spec 0 (count_status FAIL (results c))) as [F | F];
      [exfalso; now apply NF, HF |].
    destruct (Nat.ltb_spec 0 (count_status WARN (results c))) as [W | W].
    + split; [intros _; now apply HW | reflexivity].
    + split; [congruence | intros X; apply HW in X; lia].
  - intros NF NW.
    destruct (Nat.ltb_spec 0 (count_status FAIL (results c))) as [F | F];
      [exfalso; now apply NF, HF |].
    destruct (Nat.ltb_spec 0 (count_status WARN (results c))) as [W | W];
      [exfalso; now apply NW, HW | reflexivity].
  - simpl results. rewrite !count_status_drop_neutral by tauto. reflexivity.
  - intros A.
    destruct (Nat.ltb_spec 0 (count_status FAIL (results c))) as [F | F];
      [exfalso; apply (Neutral FAIL); [now left | exact A | now apply HF] |].
    destruct (Nat.ltb_spec 0 (count_status WARN (results c))) as [W | W];
      [exfalso; apply (Neutral WARN); [now right | exact A | now apply HW] |].
    reflexivity.
Qed.

(** ** The aggregator loop *)

Lemma run_checks_app {S : Type} (xs ys : list (string * Probe S)) (sys : S)
    (acc : list CheckResult) :
  run_checks (xs ++ ys) sys acc =
  match run_checks xs sys acc with
  | (rs, None) => run_checks ys sys rs
  | (rs, Some e) => (rs, Some e)
  end.
Proof.
  revert acc. induction xs as [| [n f] xs IH]; intros acc; [reflexivity |].
  simpl. destruct (f sys) as [r | e]; [apply IH |].
  destruct (is_Exception e); [apply IH | reflexivity].
Qed.

Lemma run_checks_recorded {S : Type} (checks : list (string * Probe S)) (sys : S) :
  raises_only_Exception checks sys = true ->
  forall acc : list CheckResult,
    run_checks checks sys acc = ((acc ++ map (recorded sys) checks)%list, None).
Proof.
  unfold raises_only_Exception.
  induction checks as [| [n f] checks IH]; intros H acc; simpl.
  - now rewrite app_nil_r.
  - simpl in H. apply andb_true_iff in H. destruct H as [H1 H2].
    unfold recorded at 1. simpl.
    destruct (f sys) as [r | e].
    + rewrite (IH H2). now rewrite <- app_assoc.
    + rewrite H1, (IH H2). now rewrite <- app_assoc.
Qed.

(** Whatever happens, the loop only appends to [self.results], at most one
    result per probe. *)
Lemma run_checks_length {S : Type} (checks : list (string * Probe S)) (sys : S)
    (acc : list CheckResult) :
  (length (fst (run_checks checks sys acc)) <= length acc + length checks)%nat
  /\ (snd (run_checks checks sys acc) = None ->
      length (fst (run_checks checks sys acc)) = (length acc + length checks)%nat).
Proof.
  revert acc. induction checks as [| [n f] checks IH]; intros acc; simpl.
  - split; intros; lia.
  - destruct (f sys) as [r | e].
    + destruct (IH (acc ++ [r])%list) as [A B]. rewrite length_app in A, B. simpl in A, B.
      split; [lia | intros H; rewrite (B H); lia].
    + destruct (is_Exception e).
      * destruct (IH (acc ++ [CheckResult3 n ERROR ("Check failed: " ++ exc_str e)])%list)
          as [A B].
        rewrite length_app in A, B. simpl in A, B.
        split; [lia | intros H; rewrite (B H); lia].
      * simpl. split; [lia | discriminate].
Qed.

(** Each [run_all_checks] is that loop, run from an empty list on the
    checker's own table, followed by the construction of the category. *)
Lemma health_run_all_checks_eq (stale : list CheckResult) (sys : System) :
  HealthChecker.run_all_checks stale sys
  = finish_checks "Health Check" StatusIcon.HEALTH
      (run_checks HealthChecker.checks sys []).
Proof. reflexivity. Qed.

Lemma driver_run_all_checks_eq (stale : list CheckResult) (sys : System) :
  DriverChecker.run_all_checks stale sys
  = finish_checks "Driver Check" StatusIcon.DRIVER
      (run_checks DriverChecker.checks sys []).
Proof. reflexivity. Qed.

Lemma security_run_all_checks_eq (stale : list CheckResult) (sys : System) :
  SecurityChecker.run_all_checks stale sys
  = finish_checks "Security Check" StatusIcon.SECURITY
      (run_checks SecurityChecker.checks sys []).
Proof. reflexivity. Qed.

Lemma check_failed_message_nonempty (s : string) : "Check failed: " ++ s <> "".
Proof. discriminate. Qed.

Lemma isolated_loop {S : Type} (checks : list (string * Probe S))
    (sys : S) (cname cicon : string) :
  raises_only_Exception checks sys = true ->
  isolates cname cicon checks sys
    (finish_checks cname cicon (run_checks checks sys [])).
Proof.
  intros H. exists (map (recorded sys) checks).
  rewrite (run_checks_recorded checks sys H []). simpl.
  split; [reflexivity |]. split; [apply length_map |].
  intros i n probe Hi.
  assert (E : nth_error (map (recorded sys) checks) i = Some (recorded sys (n, probe))).
  { rewrite nth_error_map, Hi. reflexivity. }
  unfold recorded in E. simpl in E.
  split.
  - intros r Hr. now rewrite Hr in E.
  - intros e He. rewrite He in E. eexists. split; [exact E |].
    simpl. repeat split. discriminate.
Qed.

(** The probes of the desktop checker read the session of [self], not its
    results. *)
Lemma desktop_checks_session (self : DesktopChecker.t) (stale : list CheckResult) :
  DesktopChecker.checks (with_results self stale) = DesktopChecker.checks self.
Proof. destruct self as [rs ds st]. reflexivity. Qed.

Lemma desktop_run_all_checks_eq (self : DesktopChecker.t) (sys : System) :
  DesktopChecker.run_all_checks self sys
  = (fst (finish_checks "Desktop Check" StatusIcon.DESKTOP
            (run_checks (DesktopChecker.checks self) sys [])),
     with_results self
       (snd (finish_checks "Desktop Check" StatusIcon.DESKTOP
               (run_checks (DesktopChecker.checks self) sys [])))).
Proof.
  unfold DesktopChecker.run_all_checks. cbn [DesktopChecker.results].
  change {| DesktopChecker.results := [];
            DesktopChecker.desktop_session := DesktopChecker.desktop_session self;
            DesktopChecker.session_type := DesktopChecker.session_type self |}
    with (with_results self []).
  rewrite (desktop_checks_session self []).
  destruct (finish_checks "Desktop Check" StatusIcon.DESKTOP
              (run_checks (DesktopChecker.checks self) sys [])) as [o rs].
  reflexivity.
Qed.

Lemma desktop_run_stale (self : DesktopChecker.t) (stale : list CheckResult)
    (sys : System) :
  DesktopChecker.run_all_checks (with_results self stale) sys
  = DesktopChecker.run_all_checks self sys.
Proof.
  rewrite !desktop_run_all_checks_eq, desktop_checks_session.
  destruct self as [rs ds st]. reflexivity.
Qed.

Lemma desktop_after_session (first : System) (history : list System) :
  desktop_after first history
  = with_results (DesktopChecker.init first)
      (DesktopChecker.results (desktop_after first history)).
Proof.
  unfold desktop_after.
  assert (G : forall self : DesktopChecker.t,
             self = with_results (DesktopChecker.init first)
                      (DesktopChecker.results self) ->
             fold_left
               (fun self sys => snd (DesktopChecker.run_all_checks self sys))
               history self
             = with_results (DesktopChecker.init first)
                 (DesktopChecker.results
                    (fold_left
                       (fun self sys =>
                          snd (DesktopChecker.run_all_checks self sys))
                       history self))).
  { induction history as [| sys history IH]; intros self E; [exact E |].
    cbn [fold_left]. apply IH.
    rewrite desktop_run_all_checks_eq. cbn [snd].
    rewrite E at 1. reflexivity. }
  apply G. reflexivity.
Qed.

(** C4. A run of a category aggregator ([run_all_checks] of the health, the
    driver, the security and the desktop checker) over its table of N
    probes, none of which lets anything but an [Exception] escape, returns a
    category with exactly N results, whatever the probes do: the result at
    position [i] is the very result of probe [i] when that probe returned,
    and when it raised it is a result with the probe's table name, status
    Error and the non-empty message ["Check failed: " ++ str(e)].  No result
    depends on another probe, and this holds when every probe raises. *)
Theorem aggregator_isolation (sys : System) :
  (forall stale,
      raises_only_Exception HealthChecker.checks sys = true ->
      isolates "Health Check" StatusIcon.HEALTH HealthChecker.checks sys
        (HealthChecker.run_all_checks stale sys)
      /\ length HealthChecker.checks = 10%nat)
  /\ (forall stale,
        raises_only_Exception DriverChecker.checks sys = true ->
        isolates "Driver Check" StatusIcon.DRIVER DriverChecker.checks sys
          (DriverChecker.run_all_checks stale sys)
        /\ length DriverChecker.checks = 10%nat)
  /\ (forall stale,
        raises_only_Exception SecurityChecker.checks sys = true ->
        isolates "Security Check" StatusIcon.SECURITY SecurityChecker.checks sys
          (SecurityChecker.run_all_checks stale sys)
        /\ length SecurityChecker.checks = 12%nat)
  /\ (forall self,
        raises_only_Exception (DesktopChecker.checks self) sys = true ->
        isolates "Desktop Check" StatusIcon.DESKTOP (DesktopChecker.checks self)
          sys
          (fst (DesktopChecker.run_all_checks self sys),
           DesktopChecker.results (snd (DesktopChecker.run_all_checks self sys)))
        /\ length (DesktopChecker.checks self) = 10%nat).
Proof.
  split; [intros stale H; split; [| reflexivity] |].
  { rewrite health_run_all_checks_eq. apply isolated_loop, H. }
  split; [intros stale H; split; [| reflexivity] |].
  { rewrite driver_run_all_checks_eq. apply isolated_loop, H. }
  split; [intros stale H; split; [| reflexivity] |].
  { rewrite security_run_all_checks_eq. apply isolated_loop, H. }
  intros self H. split; [| reflexivity].
  rewrite desktop_run_all_checks_eq. cbn [fst snd].
  pose proof (isolated_loop (DesktopChecker.checks self) sys
                "Desktop Check" StatusIcon.DESKTOP H) as I.
  destruct (finish_checks "Desktop Check" StatusIcon.DESKTOP
              (run_checks (DesktopChecker.checks self) sys [])) as [o rs].
  exact I.
Qed.

(** ** The fix fields of the results the probes build *)

Lemma fix_consistentb_spec (r : CheckResult) :
  fix_consistentb r = true -> fix_consistent r.
Proof.
  unfold fix_consistentb, fix_consistent, PyStr.truthy.
  destruct (fix_available r), (String.eqb_spec (fix_command r) ""); simpl;
    intros H; try discriminate; split; congruence.
Qed.

Ltac no_match_inside x :=
  lazymatch x with
  | context [match _ with _ => _ end] => fail
  | _ => idtac
  end.

Ltac outcome_cases H :=
  repeat match type of H with
         | context [match ?x with _ => _ end] =>
             no_match_inside x; destruct x eqn:?; cbv beta iota in H
         | context [if ?b then _ else _] =>
             no_match_inside b; destruct b eqn:?; cbv beta iota in H
         end.

Ltac consistent_leaf H :=
  first [ discriminate H
        | injection H as <-; apply fix_consistentb_spec; reflexivity ].

Ltac probe_consistent f :=
  intros sys r H; unfold f in H;
  cbv beta delta [bind try_except except or_except run_command_with] in H;
  outcome_cases H; consistent_leaf H.

Lemma check_disk_space_consistent : builds_consistent HealthChecker.check_disk_space.
Proof. probe_consistent HealthChecker.check_disk_space. Qed.

Lemma check_memory_consistent : builds_consistent HealthChecker.check_memory.
Proof. probe_consistent HealthChecker.check_memory. Qed.

Lemma check_cpu_temperature_consistent :
  builds_consistent HealthChecker.check_cpu_temperature.
Proof. probe_consistent HealthChecker.check_cpu_temperature. Qed.

Lemma check_swap_consistent : builds_consistent HealthChecker.check_swap.
Proof. probe_consistent HealthChecker.check_swap. Qed.

Lemma check_failed_units_consistent :
  builds_consistent HealthChecker.check_failed_units.
Proof. probe_consistent HealthChecker.check_failed_units. Qed.

Lemma check_system_load_consistent :
  builds_consistent HealthChecker.check_system_load.
Proof. probe_consistent HealthChecker.check_system_load. Qed.

Lemma check_zombie_processes_consistent :
  builds_consistent HealthChecker.check_zombie_processes.
Proof. probe_consistent HealthChecker.check_zombie_processes. Qed.

Lemma check_dnf_status_consistent : builds_consistent HealthChecker.check_dnf_status.
Proof. probe_consistent HealthChecker.check_dnf_status. Qed.

Lemma check_journal_errors_consistent :
  builds_consistent HealthChecker.check_journal_errors.
Proof. probe_consistent HealthChecker.check_journal_errors. Qed.

Lemma check_orphaned_packages_consistent :
  builds_consistent HealthChecker.check_orphaned_packages.
Proof. probe_consistent HealthChecker.check_orphaned_packages. Qed.

(** The same for a probe of the other checkers, whose helpers [unfold_helpers]
    exposes first. *)
Ltac probe_consistent_after unfold_helpers :=
  intros sys r H; unfold_helpers H;
  cbv beta delta [bind try_except except or_except run_command_with] in H;
  outcome_cases H; consistent_leaf H.

Ltac driver_probe f :=
  probe_consistent_after
    ltac:(fun H => unfold f, DriverChecker.gpu_vendor, DriverChecker.driver_of,
                     DriverChecker._run_command in H).

Lemma check_gpu_driver_consistent : builds_consistent DriverChecker.check_gpu_driver.
Proof. driver_probe DriverChecker.check_gpu_driver. Qed.

Lemma check_wifi_driver_consistent : builds_consistent DriverChecker.check_wifi_driver.
Proof. driver_probe DriverChecker.check_wifi_driver. Qed.

Lemma check_audio_driver_consistent : builds_consistent DriverChecker.check_audio_driver.
Proof. driver_probe DriverChecker.check_audio_driver. Qed.

Lemma check_bluetooth_consistent : builds_consistent DriverChecker.check_bluetooth.
Proof. driver_probe DriverChecker.check_bluetooth. Qed.

Lemma check_usb_consistent : builds_consistent DriverChecker.check_usb.
Proof. driver_probe DriverChecker.check_usb. Qed.

Lemma check_ethernet_consistent : builds_consistent DriverChecker.check_ethernet.
Proof. driver_probe DriverChecker.check_ethernet. Qed.

Lemma check_webcam_consistent : builds_consistent DriverChecker.check_webcam.
Proof. driver_probe DriverChecker.check_webcam. Qed.

Lemma check_firmware_consistent : builds_consistent DriverChecker.check_firmware.
Proof. driver_probe DriverChecker.check_firmware. Qed.

Lemma check_kernel_modules_consistent :
  builds_consistent DriverChecker.check_kernel_modules.
Proof. driver_probe DriverChecker.check_kernel_modules. Qed.

Lemma check_hw_acceleration_consistent :
  builds_consistent DriverChecker.check_hw_acceleration.
Proof. driver_probe DriverChecker.check_hw_acceleration. Qed.

Ltac security_probe f :=
  probe_consistent_after
    ltac:(fun H => unfold f, SecurityChecker._run_command in H).

Lemma check_firewall_consistent : builds_consistent SecurityChecker.check_firewall.
Proof. security_probe SecurityChecker.check_firewall. Qed.

Lemma check_selinux_consistent : builds_consistent SecurityChecker.check_selinux.
Proof. security_probe SecurityChecker.check_selinux. Qed.

Lemma check_ssh_config_consistent : builds_consistent SecurityChecker.check_ssh_config.
Proof. security_probe SecurityChecker.check_ssh_config. Qed.

Lemma check_open_ports_consistent : builds_consistent SecurityChecker.check_open_ports.
Proof. security_probe SecurityChecker.check_open_ports. Qed.

Lemma check_failed_logins_consistent :
  builds_consistent SecurityChecker.check_failed_logins.
Proof. security_probe SecurityChecker.check_failed_logins. Qed.

Lemma check_root_account_consistent :
  builds_consistent SecurityChecker.check_root_account.
Proof. security_probe SecurityChecker.check_root_account. Qed.

Lemma check_sudo_consistent : builds_consistent SecurityChecker.check_sudo.
Proof. security_probe SecurityChecker.check_sudo. Qed.

Lemma check_auto_updates_consistent :
  builds_consistent SecurityChecker.check_auto_updates.
Proof. security_probe SecurityChecker.check_auto_updates. Qed.

Lemma check_password_policy_consistent :
  builds_consistent SecurityChecker.check_password_policy.
Proof. security_probe SecurityChecker.check_password_policy. Qed.

Lemma check_sensitive_files_consistent :
  builds_consistent SecurityChecker.check_sensitive_files.
Proof. security_probe SecurityChecker.check_sensitive_files. Qed.

Lemma check_kernel_security_consistent :
  builds_consistent SecurityChecker.check_kernel_security.
Proof. security_probe SecurityChecker.check_kernel_security. Qed.

Lemma check_antivirus_consistent : builds_consistent SecurityChecker.check_antivirus.
Proof. security_probe SecurityChecker.check_antivirus. Qed.

Lemma first_running_consistent (sys : System)
    (compositors : list (string * list string)) (r : CheckResult) :
  DesktopChecker.first_running sys compositors = Returned r -> fix_consistent r.
Proof.
  induction compositors as [| [n cmd] rest IH]; simpl; intros H.
  - consistent_leaf H.
  - unfold DesktopChecker._run_command in H.
    cbv beta delta [bind try_except except or_except run_command_with] in H.
    outcome_cases H; first [consistent_leaf H | exact (IH H)].
Qed.

Lemma first_active_consistent (sys : System)
    (display_managers : list (string * string)) (r : CheckResult) :
  DesktopChecker.first_active sys display_managers = Returned r -> fix_consistent r.
Proof.
  induction display_managers as [| [service n] rest IH]; simpl; intros H.
  - consistent_leaf H.
  - unfold DesktopChecker._run_command in H.
    cbv beta delta [bind try_except except or_except run_command_with] in H.
    outcome_cases H; first [consistent_leaf H | exact (IH H)].
Qed.

Ltac desktop_probe f :=
  probe_consistent_after
    ltac:(fun H => unfold f, DesktopChecker.theme_entry,
                     DesktopChecker._run_command in H).

Section DesktopProbes.
Variable self : DesktopChecker.t.

Lemma check_desktop_environment_consistent :
  builds_consistent (DesktopChecker.check_desktop_environment self).
Proof. desktop_probe DesktopChecker.check_desktop_environment. Qed.

Lemma check_display_server_consistent :
  builds_consistent (DesktopChecker.check_display_server self).
Proof. desktop_probe DesktopChecker.check_display_server. Qed.

Lemma check_compositor_consistent :
  builds_consistent (DesktopChecker.check_compositor self).
Proof.
  intros sys r H. unfold DesktopChecker.check_compositor in H.
  destruct (String.eqb (DesktopChecker.session_type self) "wayland");
    [consistent_leaf H |].
  unfold DesktopChecker._run_command at 1 in H.
  cbv beta delta [bind try_except except or_except run_command_with] in H.
  destruct (subprocess_run_C sys ["xdpyinfo"] 10) as [res | e];
    cbv beta iota in H.
  - destruct (Z.eqb (returncode res) 0); cbv beta iota in H;
      [| consistent_leaf H].
    destruct (PyStr.contains "Composite" (stdout res ++ stderr res));
      [exact (first_running_consistent _ _ _ H) | consistent_leaf H].
  - destruct (is_class TimeoutExpired e || is_class FileNotFoundError e);
      cbv beta iota in H; consistent_leaf H.
Qed.

Lemma check_display_manager_consistent :
  builds_consistent (DesktopChecker.check_display_manager self).
Proof.
  intros sys r H. exact (first_active_consistent _ _ _ H).
Qed.

Lemma check_resolution_consistent :
  builds_consistent (DesktopChecker.check_resolution self).
Proof. desktop_probe DesktopChecker.check_resolution. Qed.

Lemma check_themes_consistent :
  builds_consistent (DesktopChecker.check_themes self).
Proof. desktop_probe DesktopChecker.check_themes. Qed.

Lemma check_fonts_consistent :
  builds_consistent (DesktopChecker.check_fonts self).
Proof. desktop_probe DesktopChecker.check_fonts. Qed.

Lemma check_gnome_extensions_consistent :
  builds_consistent (DesktopChecker.check_gnome_extensions self).
Proof. desktop_probe DesktopChecker.check_gnome_extensions. Qed.

Lemma check_flatpak_consistent :
  builds_consistent (DesktopChecker.check_flatpak self).
Proof. desktop_probe DesktopChecker.check_flatpak. Qed.

Lemma check_portals_consistent :
  builds_consistent (DesktopChecker.check_portals self).
Proof. desktop_probe DesktopChecker.check_portals. Qed.
End DesktopProbes.

Lemma run_checks_consistent (checks : list (string * Probe System)) (sys : System) :
  Forall (fun c => builds_consistent (snd c)) checks ->
  forall acc : list CheckResult,
    Forall fix_consistent acc ->
    Forall fix_consistent (fst (run_checks checks sys acc)).
Proof.
  induction checks as [| [n f] checks IH]; intros Hc acc Hacc; simpl;
    [exact Hacc |].
  inversion Hc as [| ? ? Hf Hrest]; subst. simpl in Hf.
  destruct (f sys) as [r | e] eqn:E.
  - apply (IH Hrest). apply Forall_app. split; [exact Hacc |].
    constructor; [exact (Hf sys r E) | constructor].
  - destruct (is_Exception e); [| exact Hacc].
    apply (IH Hrest). apply Forall_app. split; [exact Hacc |].
    constructor; [| constructor].
    apply fix_consistentb_spec. reflexivity.
Qed.

Lemma health_checks_consistent :
  Forall (fun c => builds_consistent (snd c)) HealthChecker.checks.
Proof.
  repeat apply Forall_cons; try apply Forall_nil; simpl.
  - exact check_disk_space_consistent.
  - exact check_memory_consistent.
  - exact check_cpu_temperature_consistent.
  - exact check_swap_consistent.
  - exact check_failed_units_consistent.
  - exact check_system_load_consistent.
  - exact check_zombie_processes_consistent.
  - exact check_dnf_status_consistent.
  - exact check_journal_errors_consistent.
  - exact check_orphaned_packages_consistent.
Qed.

Lemma driver_checks_consistent :
  Forall (fun c => builds_consistent (snd c)) DriverChecker.checks.
Proof.
  repeat apply Forall_cons; try apply Forall_nil; simpl.
  - exact check_gpu_driver_consistent.
  - exact check_wifi_driver_consistent.
  - exact check_audio_driver_consistent.
  - exact check_bluetooth_consistent.
  - exact check_usb_consistent.
  - exact check_ethernet_consistent.
  - exact check_webcam_consistent.
  - exact check_firmware_consistent.
  - exact check_kernel_modules_consistent.
  - exact check_hw_acceleration_consistent.
Qed.

Lemma security_checks_consistent :
  Forall (fun c => builds_consistent (snd c)) SecurityChecker.checks.
Proof.
  repeat apply Forall_cons; try apply Forall_nil; simpl.
  - exact check_firewall_consistent.
  - exact check_selinux_consistent.
  - exact check_ssh_config_consistent.
  - exact check_open_ports_consistent.
  - exact check_failed_logins_consistent.
  - exact check_root_account_consistent.
  - exact check_sudo_consistent.
  - exact check_auto_updates_consistent.
  - exact check_password_policy_consistent.
  - exact check_sensitive_files_consistent.
  - exact check_kernel_security_consistent.
  - exact check_antivirus_consistent.
Qed.

Lemma desktop_checks_consistent (self : DesktopChecker.t) :
  Forall (fun c => builds_consistent (snd c)) (DesktopChecker.checks self).
Proof.
  repeat apply Forall_cons; try apply Forall_nil; simpl.
  - apply check_desktop_environment_consistent.
  - apply check_display_server_consistent.
  - apply check_compositor_consistent.
  - apply check_display_manager_consistent.
  - apply check_resolution_consistent.
  - apply check_themes_consistent.
  - apply check_fonts_consistent.
  - apply check_gnome_extensions_consistent.
  - apply check_flatpak_consistent.
  - apply check_portals_consistent.
Qed.

Lemma finish_checks_snd (n i : string) (loop : list CheckResult * option PyExc) :
  snd (finish_checks n i loop) = fst loop.
Proof. destruct loop as [rs [e |]]; reflexivity. Qed.

Lemma finish_checks_returned (n i : string) (loop : list CheckResult * option PyExc)
    (c : CheckCategory) :
  fst (finish_checks n i loop) = Returned c ->
  c = mkCheckCategory n i (fst loop) /\ snd loop = None.
Proof.
  destruct loop as [rs [e |]]; simpl; intros H; [discriminate |].
  injection H as <-. split; reflexivity.
Qed.

(** C5. Every result a probe of the four checkers builds, and every Error
    result an aggregator records for a probe that raised, has
    [fix_available] true exactly when [fix_command] is a non-empty string;
    so has every result of the category each [run_all_checks] assembles. *)
Theorem fix_available_iff_fix_command (sys : System) (self : DesktopChecker.t) :
  Forall
    (fun c =>
       (forall r, snd c sys = Returned r ->
                  (fix_available r = true <-> fix_command r <> ""))
       /\ (forall e,
             let r := CheckResult3 (fst c) ERROR ("Check failed: " ++ exc_str e) in
             fix_available r = true <-> fix_command r <> ""))
    (all_checks self)
  /\ (forall stale,
        Forall fix_consistent (snd (HealthChecker.run_all_checks stale sys)))
  /\ (forall stale,
        Forall fix_consistent (snd (DriverChecker.run_all_checks stale sys)))
  /\ (forall stale,
        Forall fix_consistent (snd (SecurityChecker.run_all_checks stale sys)))
  /\ Forall fix_consistent
       (DesktopChecker.results (snd (DesktopChecker.run_all_checks self sys))).
Proof.
  split; [| split; [| split; [| split]]].
  - assert (A : Forall (fun c => builds_consistent (snd c)) (all_checks self)).
    { unfold all_checks. repeat (apply Forall_app; split).
      - exact health_checks_consistent.
      - exact driver_checks_consistent.
      - exact security_checks_consistent.
      - exact (desktop_checks_consistent self). }
    revert A. apply Forall_impl. intros [n f] Hf. simpl in *. split.
    + intros r E. exact (Hf sys r E).
    + intros e. simpl. split; [discriminate | congruence].
  - intros stale. unfold HealthChecker.run_all_checks. rewrite finish_checks_snd.
    apply run_checks_consistent; [exact health_checks_consistent | constructor].
  - intros stale. unfold DriverChecker.run_all_checks. rewrite finish_checks_snd.
    apply run_checks_consistent; [exact driver_checks_consistent | constructor].
  - intros stale. unfold SecurityChecker.run_all_checks. rewrite finish_checks_snd.
    apply run_checks_consistent; [exact security_checks_consistent | constructor].
  - unfold DesktopChecker.run_all_checks.
    match goal with
    | |- context [finish_checks ?n ?i ?l] =>
        pose proof (finish_checks_snd n i l) as E;
        destruct (finish_checks n i l) as [o rs]
    end.
    cbn [snd DesktopChecker.results] in *. rewrite E.
    apply run_checks_consistent; [apply desktop_checks_consistent | constructor].
Qed.

(** ** Repeated runs on one checker *)

Lemma run_checks_completed {S : Type} (checks : list (string * Probe S)) (sys : S) :
  forall acc rs : list CheckResult,
    run_checks checks sys acc = (rs, None) ->
    rs = (acc ++ map (recorded sys) checks)%list.
Proof.
  induction checks as [| [n f] checks IH]; intros acc rs H; simpl in *.
  - injection H as <-. now rewrite app_nil_r.
  - unfold recorded at 1. simpl.
    destruct (f sys) as [r | e].
    + rewrite (IH _ _ H). now rewrite <- app_assoc.
    + destruct (is_Exception e); [| discriminate].
      rewrite (IH _ _ H). now rewrite <- app_assoc.
Qed.

Lemma finished_category {S : Type} (checks : list (string * Probe S)) (sys : S)
    (n i : string) (c : CheckCategory) :
  fst (finish_checks n i (run_checks checks sys [])) = Returned c ->
  results c = map (recorded sys) checks /\ length (results c) = length checks.
Proof.
  intros H. apply finish_checks_returned in H. destruct H as [-> H].
  destruct (run_checks checks sys []) as [rs o] eqn:E. simpl in *. subst o.
  apply run_checks_completed in E. subst rs. simpl.
  split; [reflexivity | apply length_map].
Qed.

Lemma desktop_run_fst (self : DesktopChecker.t) (sys : System) :
  fst (DesktopChecker.run_all_checks self sys) =
  fst (finish_checks "Desktop Check" StatusIcon.DESKTOP
         (run_checks
            (DesktopChecker.checks
               {| DesktopChecker.results := [];
                  DesktopChecker.desktop_session := DesktopChecker.desktop_session self;
                  DesktopChecker.session_type := DesktopChecker.session_type self |})
            sys [])).
Proof.
  unfold DesktopChecker.run_all_checks. cbn [DesktopChecker.results].
  match goal with
  | |- context [finish_checks ?n ?i ?l] => destruct (finish_checks n i l)
  end.
  reflexivity.
Qed.

(** When the probes let only [Exception]s escape, the loop run from an empty
    list ends normally. *)
Lemma finished_category_exists {S : Type} (checks : list (string * Probe S))
    (sys : S) (n i : string) :
  raises_only_Exception checks sys = true ->
  exists c, fst (finish_checks n i (run_checks checks sys [])) = Returned c.
Proof.
  intros H. rewrite (run_checks_recorded checks sys H []).
  eexists. reflexivity.
Qed.

(** C10. A call of [run_all_checks] starts from an empty results list
    whatever the checker held before: what it yields and leaves behind does
    not depend on the earlier contents of [self.results], and the category
    it returns holds exactly one result per entry of the checker's table, in
    table order (10 for the health, driver and desktop checkers, 12 for the
    security checker), also after any number of earlier runs on the same
    instance.  It does return a category whenever the probes let only
    [Exception]s escape. *)
Theorem run_all_checks_starts_afresh (sys : System) :
  (forall stale,
      HealthChecker.run_all_checks stale sys
      = HealthChecker.run_all_checks HealthChecker.init sys)
  /\ (forall stale,
        DriverChecker.run_all_checks stale sys
        = DriverChecker.run_all_checks DriverChecker.init sys)
  /\ (forall stale,
        SecurityChecker.run_all_checks stale sys
        = SecurityChecker.run_all_checks SecurityChecker.init sys)
  /\ (forall self stale,
        DesktopChecker.run_all_checks (with_results self stale) sys
        = DesktopChecker.run_all_checks self sys)
  /\ (forall first history,
        DesktopChecker.run_all_checks (desktop_after first history) sys
        = DesktopChecker.run_all_checks (DesktopChecker.init first) sys)
  /\ (forall history c,
        fst (HealthChecker.run_all_checks (health_after history) sys) = Returned c ->
        results c = map (recorded sys) HealthChecker.checks
        /\ length (results c) = 10%nat)
  /\ (forall history c,
        fst (DriverChecker.run_all_checks (driver_after history) sys) = Returned c ->
        results c = map (recorded sys) DriverChecker.checks
        /\ length (results c) = 10%nat)
  /\ (forall history c,
        fst (SecurityChecker.run_all_checks (security_after history) sys) = Returned c ->
        results c = map (recorded sys) SecurityChecker.checks
        /\ length (results c) = 12%nat)
  /\ (forall first history c,
        fst (DesktopChecker.run_all_checks (desktop_after first history) sys)
        = Returned c ->
        results c
        = map (recorded sys) (DesktopChecker.checks (DesktopChecker.init first))
        /\ length (results c) = 10%nat)
  /\ (forall history,
        raises_only_Exception HealthChecker.checks sys = true ->
        exists c,
          fst (HealthChecker.run_all_checks (health_after history) sys) = Returned c)
  /\ (forall history,
        raises_only_Exception DriverChecker.checks sys = true ->
        exists c,
          fst (DriverChecker.run_all_checks (driver_after history) sys) = Returned c)
  /\ (forall history,
        raises_only_Exception SecurityChecker.checks sys = true ->
        exists c,
          fst (SecurityChecker.run_all_checks (security_after history) sys)
          = Returned c)
  /\ (forall first history,
        raises_only_Exception
          (DesktopChecker.checks (DesktopChecker.init first)) sys = true ->
        exists c,
          fst (DesktopChecker.run_all_checks (desktop_after first history) sys)
          = Returned c).
Proof.
  assert (D : forall first history,
             DesktopChecker.run_all_checks (desktop_after first history) sys
             = DesktopChecker.run_all_checks (DesktopChecker.init first) sys).
  { intros first history. rewrite (desktop_after_session first history).
    apply desktop_run_stale. }
  split; [reflexivity |].
  split; [reflexivity |].
  split; [reflexivity |].
  split; [intros self stale; apply desktop_run_stale |].
  split; [exact D |].
  split; [intros history c H; exact (finished_category _ _ _ _ _ H) |].
  split; [intros history c H; exact (finished_category _ _ _ _ _ H) |].
  split; [intros history c H; exact (finished_category _ _ _ _ _ H) |].
  split.
  { intros first history c H.
    rewrite D, desktop_run_all_checks_eq in H. cbn [fst] in H.
    exact (finished_category _ _ _ _ _ H). }
  split; [intros history H; exact (finished_category_exists _ _ _ _ H) |].
  split; [intros history H; exact (finished_category_exists _ _ _ _ H) |].
  split; [intros history H; exact (finished_category_exists _ _ _ _ H) |].
  intros first history H.
  rewrite D, desktop_run_all_checks_eq. cbn [fst].
  exact (finished_category_exists _ _ _ _ H).
Qed.

(** ** Declining a fix *)

Lemma generic_fix_declined {M : Type} (h : Host M)
    (run : list string -> bool -> Fix M (bool * string)) (r : CheckResult)
    (w : World M) :
  declines_all h ->
  exists w', generic_fix h run r w = (Returned None, w') /\ only_asked w w'.
Proof.
  intros D. unfold generic_fix.
  destruct (PyStr.truthy (fix_command r)).
  - unfold bindF, Confirm_ask. rewrite D. unfold ret.
    eexists. split; [reflexivity | split; reflexivity].
  - exists w. split; [reflexivity | split; reflexivity].
Qed.

Lemma dispatch_declined {M : Type} (h : Host M)
    (run : list string -> bool -> Fix M (bool * string))
    (fix_map : list (string * Fix M FixResult)) (r : CheckResult) (w : World M) :
  declines_all h ->
  exists w', dispatch h run fix_map r w = (Returned None, w') /\ only_asked w w'.
Proof.
  intros D. unfold dispatch.
  destruct (fix_map_get fix_map (name r)) as [fix_func |].
  - unfold bindF at 1. unfold Confirm_ask at 1. rewrite D.
    destruct (generic_fix_declined h run r
                (mkWorld (machine w) (calls w)
                   (asked w ++ ["Apply fix for [bold]" ++ name r ++ "[/]?"])) D)
      as [w' [E [A B]]].
    exists w'. split; [exact E | split; [exact A | exact B]].
  - exact (generic_fix_declined h run r w D).
Qed.

(** The dispatchers of the health, security and desktop fixers run nothing
    for a user who declines every prompt; so does the dispatcher of the
    driver fixer on a result whose message does not say [blocked]. *)
Lemma health_apply_fix_declined {M : Type} (h : Host M) (r : CheckResult)
    (w : World M) :
  declines_all h ->
  exists w', HealthFixer.apply_fix h r w = (Returned None, w') /\ only_asked w w'.
Proof.
  intros D. unfold HealthFixer.apply_fix.
  destruct (fix_available r); simpl.
  - exact (dispatch_declined h _ _ r w D).
  - exists w. split; [reflexivity | split; reflexivity].
Qed.

Lemma security_apply_fix_declined {M : Type} (h : Host M) (r : CheckResult)
    (w : World M) :
  declines_all h ->
  exists w', SecurityFixer.apply_fix h r w = (Returned None, w') /\ only_asked w w'.
Proof.
  intros D. unfold SecurityFixer.apply_fix.
  destruct (fix_available r); simpl.
  - exact (dispatch_declined h _ _ r w D).
  - exists w. split; [reflexivity | split; reflexivity].
Qed.

Lemma desktop_apply_fix_declined {M : Type} (h : Host M) (r : CheckResult)
    (w : World M) :
  declines_all h ->
  exists w', DesktopFixer.apply_fix h r w = (Returned None, w') /\ only_asked w w'.
Proof.
  intros D. unfold DesktopFixer.apply_fix.
  destruct (fix_available r); simpl.
  - exact (dispatch_declined h _ _ r w D).
  - exists w. split; [reflexivity | split; reflexivity].
Qed.

Lemma driver_apply_fix_declined {M : Type} (h : Host M) (r : CheckResult)
    (w : World M) :
  declines_all h ->
  PyStr.contains "blocked" (PyStr.lower (message r)) = false ->
  exists w', DriverFixer.apply_fix h r w = (Returned None, w') /\ only_asked w w'.
Proof.
  intros D B. unfold DriverFixer.apply_fix. rewrite B.
  destruct (fix_available r); simpl.
  - exact (dispatch_declined h _ _ r w D).
  - exists w. split; [reflexivity | split; reflexivity].
Qed.

(** C6 (the code departs from the claim). The dispatcher of the driver fixer,
    given the fixable result of a blocked WiFi interface, shows no prompt at
    all and runs [sudo rfkill unblock wifi]: a user who would decline every
    prompt is never asked, one command is executed and the machine has
    changed. *)
Theorem driver_apply_fix_runs_unasked :
  declines_all (scripted_host (fun _ => true) (fun _ => false))
  /\ fix_available wifi_blocked = true
  /\ DriverFixer.apply_fix (scripted_host (fun _ => true) (fun _ => false))
       wifi_blocked fresh
     = (Returned (Some (mkFixResult true "WiFi unblocked" "" false)),
        mkWorld 1%nat [mkCall ["sudo"; "rfkill"; "unblock"; "wifi"] true] []).
Proof.
  split; [intros k p; reflexivity |]. split; reflexivity.
Qed.

(** ** How a dispatcher resolves a fixable result *)

Lemma generic_fix_literal_stage {M : Type} (h : Host M) (timeout : nat)
    (r : CheckResult) (w : World M) :
  literal_stage h r w
    (generic_fix h (fun cmd sudo => run_fix_command h cmd sudo timeout) r w).
Proof.
  unfold literal_stage, generic_fix, next_answer.
  destruct (PyStr.truthy (fix_command r)); [| reflexivity].
  fold (command_prompt r).
  cbv beta delta [bindF Confirm_ask ret] iota.
  destruct (answer h (length (asked w)) (command_prompt r)); [| reflexivity].
  unfold run_fix_command. cbn [machine calls asked].
  fold (literal_call r).
  destruct (exec h (literal_call r) timeout (machine w)) as [[res | e] m'].
  - exists (Z.eqb (returncode res) 0). cbn [fst snd calls asked].
    split; [reflexivity |]. split; [reflexivity |]. split; [discriminate |].
    intros fr E. injection E as <-. split; reflexivity.
  - exists false.
    destruct (is_class TimeoutExpired e); [| destruct (is_class FileNotFoundError e)];
      cbn [fst snd calls asked];
      (split; [reflexivity |]; split; [reflexivity |]; split; [discriminate |]);
      intros fr E; try discriminate E; injection E as <-; split; reflexivity.
Qed.

Lemma dispatch_resolves {M : Type} (h : Host M) (timeout : nat)
    (fix_map : list (string * Fix M FixResult)) (r : CheckResult) (w : World M) :
  resolves h fix_map
    (dispatch h (fun cmd sudo => run_fix_command h cmd sudo timeout) fix_map)
    r w.
Proof.
  unfold resolves, dispatch, next_answer.
  destruct (fix_map_get fix_map (name r)) as [handler |].
  - fold (handler_prompt r).
    cbv beta delta [bindF Confirm_ask] iota.
    fold (shown w (handler_prompt r)).
    destruct (answer h (length (asked w)) (handler_prompt r)).
    + unfold handed_on, ret.
      destruct (handler (shown w (handler_prompt r))) as [[fr | e] w']; reflexivity.
    + apply generic_fix_literal_stage.
  - apply generic_fix_literal_stage.
Qed.

(** C8, as the code has it. For a result with [fix_available] true, each
    dispatcher (the driver one on a result whose message does not say
    [blocked]) first offers the named handler when the result's name matches
    one: confirmed, that handler runs and its result is returned.  The literal
    [fix_command] is executed as [sudo bash -c fix_command] when it is not
    empty and the user confirms the prompt that shows it; that prompt comes
    when no named handler matches and also when the user declined the
    matching handler.  Otherwise nothing runs and the result is [None]. *)
Theorem apply_fix_resolution {M : Type} (h : Host M) (r : CheckResult) (w : World M) :
  fix_available r = true ->
  resolves h (HealthFixer.fix_map h) (HealthFixer.apply_fix h) r w
  /\ resolves h (SecurityFixer.fix_map h) (SecurityFixer.apply_fix h) r w
  /\ resolves h (DesktopFixer.fix_map h) (DesktopFixer.apply_fix h) r w
  /\ (PyStr.contains "blocked" (PyStr.lower (message r)) = false ->
      resolves h (DriverFixer.fix_map h) (DriverFixer.apply_fix h) r w).
Proof.
  intros F.
  assert (E1 : HealthFixer.apply_fix h r
               = dispatch h (fun cmd sudo => run_fix_command h cmd sudo 300)
                   (HealthFixer.fix_map h) r)
    by (unfold HealthFixer.apply_fix; now rewrite F).
  assert (E2 : SecurityFixer.apply_fix h r
               = dispatch h (fun cmd sudo => run_fix_command h cmd sudo 120)
                   (SecurityFixer.fix_map h) r)
    by (unfold SecurityFixer.apply_fix; now rewrite F).
  assert (E3 : DesktopFixer.apply_fix h r
               = dispatch h (fun cmd sudo => run_fix_command h cmd sudo 120)
                   (DesktopFixer.fix_map h) r)
    by (unfold DesktopFixer.apply_fix; now rewrite F).
  split; [| split; [| split]].
  - unfold resolves. rewrite E1. apply dispatch_resolves.
  - unfold resolves. rewrite E2. apply dispatch_resolves.
  - unfold resolves. rewrite E3. apply dispatch_resolves.
  - intros B.
    assert (E4 : DriverFixer.apply_fix h r
                 = dispatch h (fun cmd sudo => run_fix_command h cmd sudo 300)
                     (DriverFixer.fix_map h) r)
      by (unfold DriverFixer.apply_fix; now rewrite F, B).
    unfold resolves. rewrite E4. apply dispatch_resolves.
Qed.

Lemma apply_fix_resolution_disk_full :
  fix_available disk_full = true
  /\ resolves (scripted_host (fun _ => true) second_thoughts)
       (HealthFixer.fix_map (scripted_host (fun _ => true) second_thoughts))
       (HealthFixer.apply_fix (scripted_host (fun _ => true) second_thoughts))
       disk_full fresh.
Proof.
  split; [reflexivity |].
  exact (proj1 (apply_fix_resolution
                  (scripted_host (fun _ => true) second_thoughts)
                  disk_full fresh eq_refl)).
Defined.

(** C8 as stated fails: the name [Disk Space] matches the named handler
    [fix_disk_space], yet for a user who declines that handler and confirms
    the next prompt the dispatcher executes the literal [fix_command]. *)
Lemma literal_runs_though_handler_matches :
  fix_available disk_full = true
  /\ fix_map_get
       (HealthFixer.fix_map (scripted_host (fun _ => true) second_thoughts))
       (name disk_full) <> None
  /\ executed
       (snd (HealthFixer.apply_fix (scripted_host (fun _ => true) second_thoughts)
               disk_full fresh))
     = [["sudo"; "bash"; "-c"; "dnf autoremove && dnf clean all"]]
  /\ fst (HealthFixer.apply_fix (scripted_host (fun _ => true) second_thoughts)
            disk_full fresh)
     = Returned (Some (mkFixResult true "Fix applied" "out" false)).
Proof.
  split; [reflexivity |]. split; [discriminate |]. split; reflexivity.
Qed.

(** ** Remediations of several steps *)































(** When the first step of [create_swap] raises, nothing else is run: the
    swap file is not removed.  When it fails, the removal follows. *)
Example create_swap_step_raises :
  HealthFixer.create_swap (raising_host boom) 4 fresh
  = (Raised boom,
     mkWorld 1%nat
       [mkCall ["sudo"; "fallocate"; "-l"; "4G"; "/swapfile"] false] [])
  /\ HealthFixer.create_swap (failing_host "No space left on device") 4 fresh
     = (Returned (mkFixResult false "Failed at: Allocating space"
                    "No space left on device" false),
        mkWorld 2%nat
          [ mkCall ["sudo"; "fallocate"; "-l"; "4G"; "/swapfile"] false;
            mkCall ["sudo"; "rm"; "-f"; "/swapfile"] false ]
          []).
Proof. split; vm_compute; reflexivity. Qed.

(** When a step of [fix_disk_space] raises, the cleanup ends there. *)
Example disk_cleanup_step_raises :
  HealthFixer.fix_disk_space (raising_host boom) fresh
  = (Raised boom,
     mkWorld 1%nat [mkCall ["sudo"; "dnf"; "clean"; "all"] false] []).
Proof. vm_compute. reflexivity. Qed.

(** [install_nvidia_driver] passes over a failure of its first step. *)
Example nvidia_passes_over_rpm_fusion :
  map call_ok (calls (snd (DriverFixer.install_nvidia_driver no_rpmfusion fresh)))
  = [false; true; true]
  /\ fst (DriverFixer.install_nvidia_driver no_rpmfusion fresh)
     = Returned (mkFixResult true "NVIDIA driver installed"
                   "Reboot required to load the new driver" true).
Proof. split; vm_compute; reflexivity. Qed.

(** [enable_firewall] passes over the failures whose output says
    [already installed], and stops at the others. *)
Example firewall_passes_over_already_installed :
  map call_ok
    (calls (snd (SecurityFixer.enable_firewall
                   (failing_host "Package firewalld is already installed.") fresh)))
  = [false; false; false]
  /\ fst (SecurityFixer.enable_firewall
            (failing_host "Package firewalld is already installed.") fresh)
     = Returned (mkFixResult true "Firewall enabled and configured" "" false)
  /\ SecurityFixer.enable_firewall (failing_host "No route to host") fresh
     = (Returned (mkFixResult false "Failed at: Installing firewalld"
                    "No route to host" false),
        mkWorld 1%nat
          [mkCall ["sudo"; "dnf"; "install"; "-y"; "firewalld"] false] []).
Proof. split; [| split]; vm_compute; reflexivity. Qed.

(** ** The exit code of the program *)

(** C9. The process exits with code 0 when the application returns, with
    code 0 when a [KeyboardInterrupt] comes out of it and the handler has
    printed its notice, and with code 1 when any [Exception] comes out of
    it: after the handler has printed the error, by [sys.exit(1)], and also
    when printing the error raises an [Exception] in its turn, which then
    leaves [main]. *)
Theorem main_exit_codes (console_print : string -> Outcome unit) :
  Main.exit_code (Main.main (Returned tt) console_print) = Some 0%Z
  /\ (forall s : string,
        console_print (PyStr.LF ++ "[yellow]Interrupted by user[/]") = Returned tt ->
        Main.main (Raised (mkExc KeyboardInterrupt s)) console_print
        = Main.SysExit 0
        /\ Main.exit_code
             (Main.main (Raised (mkExc KeyboardInterrupt s)) console_print)
           = Some 0%Z)
  /\ (forall e : PyExc,
        is_Exception e = true ->
        console_print (PyStr.LF ++ "[red]Error: " ++ exc_str e ++ "[/]")
        = Returned tt ->
        Main.main (Raised e) console_print = Main.SysExit 1)
  /\ (forall e e' : PyExc,
        is_Exception e = true ->
        console_print (PyStr.LF ++ "[red]Error: " ++ exc_str e ++ "[/]")
        = Raised e' ->
        Main.main (Raised e) console_print = Main.Escapes e')
  /\ (forall e : PyExc,
        is_Exception e = true ->
        (forall e' : PyExc,
            console_print (PyStr.LF ++ "[red]Error: " ++ exc_str e ++ "[/]")
            = Raised e' ->
            is_Exception e' = true) ->
        Main.exit_code (Main.main (Raised e) console_print) = Some 1%Z).
Proof.
  assert (K : forall e, is_Exception e = true -> is_class KeyboardInterrupt e = false).
  { intros [cls s] H. unfold is_class. cbn [exc_class] in *.
    destruct cls; try discriminate; reflexivity. }
  split; [reflexivity |].
  split.
  { intros s P. unfold Main.main. cbn [is_class exc_class].
    destruct (ExcClass_eq_dec KeyboardInterrupt KeyboardInterrupt) as [_ | N];
      [| contradiction].
    rewrite P. split; reflexivity. }
  split.
  { intros e H P. unfold Main.main. rewrite (K e H), H, P. reflexivity. }
  split.
  { intros e e' H P. unfold Main.main. rewrite (K e H), H, P. reflexivity. }
  intros e H P. unfold Main.main. rewrite (K e H), H.
  destruct (console_print (PyStr.LF ++ "[red]Error: " ++ exc_str e ++ "[/]"))
    as [[] | e'] eqn:E; [reflexivity |].
  cbn [Main.exit_code]. now rewrite (P e' eq_refl).
Qed.

(** An error whose text Rich cannot read as markup: the handler's print
    raises, [sys.exit(1)] is not reached, and the process exits with 1 all
    the same. *)
Example main_exit_code_markup_error :
  Main.main (Raised (mkExc OtherException "[/x]")) (rejecting_console markup_error)
  = Main.Escapes markup_error
  /\ Main.exit_code
       (Main.main (Raised (mkExc OtherException "[/x]"))
          (rejecting_console markup_error))
     = Some 1%Z
  /\ Main.exit_code (Main.main (Raised boom) quiet_console) = Some 1%Z
  /\ Main.exit_code
       (Main.main (Raised (mkExc KeyboardInterrupt "")) quiet_console)
     = Some 0%Z.
Proof. repeat split. Qed.

(** ** Worked runs of the aggregator *)

(** The probe builds the result the driver dispatcher is run on above. *)
Example check_wifi_driver_blocked :
  DriverChecker.check_wifi_driver blocked_wifi_system = Returned wifi_blocked.
Proof. vm_compute. reflexivity. Qed.

(** On a machine where every call raises, the health aggregator still returns
    its ten results. *)
Lemma aggregator_isolation_all_raise :
  raises_only_Exception HealthChecker.checks (broken_system boom) = true
  /\ isolates "Health Check" StatusIcon.HEALTH HealthChecker.checks
       (broken_system boom)
       (HealthChecker.run_all_checks [] (broken_system boom)).
Proof.
  split; [vm_compute; reflexivity |].
  apply (proj1 (aggregator_isolation (broken_system boom)) []).
  vm_compute. reflexivity.
Defined.

Example health_run_all_raise :
  map (fun r => (name r, status r, message r))
    (snd (HealthChecker.run_all_checks [] (broken_system boom)))
  = [ ("Disk Space", ERROR, "Check failed: boom");
      ("Memory Usage", ERROR, "Check failed: boom");
      ("CPU Temperature", SKIP, "Unable to read temperature");
      ("Swap Space", ERROR, "Check failed: boom");
      ("Failed Systemd Units", ERROR, "Check failed: boom");
      ("System Load", ERROR, "Check failed: boom");
      ("Zombie Processes", ERROR, "Check failed: boom");
      ("Package Manager", ERROR, "Check failed: boom");
      ("Journal Errors", SKIP, "Unable to read journal");
      ("Orphaned Packages", SKIP, "Unable to check") ].
Proof. vm_compute. reflexivity. Qed.

(** ** Categories: order, growth, and score against status *)

Lemma count_status_permutation (s : CheckStatus) (xs ys : list CheckResult) :
  Permutation xs ys -> count_status s xs = count_status s ys.
Proof.
  intros P. induction P as [| x xs ys P IH | x y xs | xs ys zs P1 IH1 P2 IH2].
  - reflexivity.
  - rewrite !count_status_cons, IH. reflexivity.
  - rewrite !count_status_cons. lia.
  - congruence.
Qed.

(** The counts, the score and the overall status of a category do not depend
    on the order of its results. *)
Theorem category_order_independent (c c' : CheckCategory) :
  Permutation (results c) (results c') ->
  passed c = passed c' /\ failed c = failed c' /\ warnings c = warnings c'
  /\ total c = total c' /\ score c == score c'
  /\ overall_status c = overall_status c'.
Proof.
  intros P.
  assert (Ep : passed c = passed c') by (apply count_status_permutation, P).
  assert (Ef : failed c = failed c') by (apply count_status_permutation, P).
  assert (Ew : warnings c = warnings c') by (apply count_status_permutation, P).
  assert (Et : total c = total c') by (apply Permutation_length, P).
  repeat split; try assumption.
  - unfold score. rewrite Ep, Ew, Et. reflexivity.
  - unfold overall_status. rewrite Ef, Ew. reflexivity.
Qed.

Lemma category_order_independent_swapped :
  Permutation
    (results (category_of [PASS; FAIL; WARN]))
    (results (category_of [WARN; PASS; FAIL]))
  /\ score (category_of [PASS; FAIL; WARN]) == score (category_of [WARN; PASS; FAIL])
  /\ overall_status (category_of [PASS; FAIL; WARN])
     = overall_status (category_of [WARN; PASS; FAIL]).
Proof.
  assert (P : Permutation
                (results (category_of [PASS; FAIL; WARN]))
                (results (category_of [WARN; PASS; FAIL]))).
  { simpl. apply Permutation_sym. apply (Permutation_cons_app [_; _] []).
    reflexivity. }
  split; [exact P |].
  pose proof (category_order_independent _ _ P) as H.
  split; [exact (proj1 (proj2 (proj2 (proj2 (proj2 H)))))
         | exact (proj2 (proj2 (proj2 (proj2 (proj2 H)))))].
Defined.

(** The pass rate of two lists of results together lies between the pass
    rates of the two. *)
Lemma mediant_between (x1 t1 x2 t2 : Q) :
  0 < t1 -> 0 < t2 -> x1 / t1 <= x2 / t2 ->
  x1 / t1 <= (x1 + x2) / (t1 + t2) /\ (x1 + x2) / (t1 + t2) <= x2 / t2.
Proof.
  intros T1 T2 H.
  assert (E1 : x1 == x1 / t1 * t1) by (field; lra).
  assert (E2 : x2 == x2 / t2 * t2) by (field; lra).
  set (q1 := x1 / t1) in *. set (q2 := x2 / t2) in *.
  assert (P1 : q1 * t2 <= q2 * t2) by (apply Qmult_le_compat_r; lra).
  assert (P2 : q1 * t1 <= q2 * t1) by (apply Qmult_le_compat_r; lra).
  split.
  - apply Qle_shift_div_l; [lra | nra].
  - apply Qle_shift_div_r; [lra | nra].
Qed.

Lemma score_between (a b c : CheckCategory) :
  holdable c -> total a <> 0%nat -> total b <> 0%nat ->
  total c = (total a + total b)%nat ->
  weighted c == weighted a + weighted b ->
  weighted a / float_of_int (total a) <= weighted b / float_of_int (total b) ->
  score a <= score c /\ score c <= score b.
Proof.
  intros H Na Nb Et Ew L.
  assert (Ha : holdable a) by (unfold holdable in *; lia).
  assert (Hb : holdable b) by (unfold holdable in *; lia).
  assert (Nc : total c <> 0%nat) by lia.
  rewrite (score_nonempty a Ha Na), (score_nonempty b Hb Nb),
    (score_nonempty c H Nc).
  pose proof (float_of_int_pos _ Na) as Ta.
  pose proof (float_of_int_pos _ Nb) as Tb.
  destruct (mediant_between _ _ _ _ Ta Tb L) as [M1 M2].
  assert (E : weighted c / float_of_int (total c)
              == (weighted a + weighted b)
                 / (float_of_int (total a) + float_of_int (total b))).
  { rewrite Et, float_of_int_add, Ew. reflexivity. }
  destruct (pass_rate_bounds a Na) as [La _].
  destruct (pass_rate_bounds c Nc) as [Lc _].
  split; apply rounded_score_mono; try assumption; rewrite E; assumption.
Qed.

(** Growing a category, as the aggregator loop does: when the results [ys]
    come after the results [xs], the counts add up, the score lies between
    the two scores, and the overall status is the worse of the two. *)
Theorem category_of_appended_results (n i : string) (xs ys : list CheckResult) :
  let c := mkCheckCategory n i (xs ++ ys) in
  let a := mkCheckCategory n i xs in
  let b := mkCheckCategory n i ys in
  holdable c ->
  passed c = (passed a + passed b)%nat
  /\ failed c = (failed a + failed b)%nat
  /\ warnings c = (warnings a + warnings b)%nat
  /\ total c = (total a + total b)%nat
  /\ ((score a <= score c /\ score c <= score b)
      \/ (score b <= score c /\ score c <= score a))
  /\ overall_status c = worse (overall_status a) (overall_status b).
Proof.
  cbv zeta. intros H.
  assert (Ep : passed (mkCheckCategory n i (xs ++ ys))
               = (passed (mkCheckCategory n i xs)
                  + passed (mkCheckCategory n i ys))%nat)
    by apply count_status_app.
  assert (Ef : failed (mkCheckCategory n i (xs ++ ys))
               = (failed (mkCheckCategory n i xs)
                  + failed (mkCheckCategory n i ys))%nat)
    by apply count_status_app.
  assert (Ew : warnings (mkCheckCategory n i (xs ++ ys))
               = (warnings (mkCheckCategory n i xs)
                  + warnings (mkCheckCategory n i ys))%nat)
    by apply count_status_app.
  assert (Et : total (mkCheckCategory n i (xs ++ ys))
               = (total (mkCheckCategory n i xs)
                  + total (mkCheckCategory n i ys))%nat)
    by apply length_app.
  split; [exact Ep |]. split; [exact Ef |]. split; [exact Ew |].
  split; [exact Et |]. split.
  - destruct xs as [| x xs'].
    { right. cbn [app]. split; [apply Qle_refl |].
      change (score (mkCheckCategory n i [])) with 100.
      apply score_bounds. exact H. }
    destruct ys as [| y ys'].
    { left. rewrite app_nil_r in *. split; [apply Qle_refl |].
      change (score (mkCheckCategory n i [])) with 100.
      apply score_bounds. exact H. }
    set (a := mkCheckCategory n i (x :: xs')) in *.
    set (b := mkCheckCategory n i (y :: ys')) in *.
    set (c := mkCheckCategory n i ((x :: xs') ++ y :: ys')) in *.
    assert (Na : total a <> 0%nat) by discriminate.
    assert (Nb : total b <> 0%nat) by discriminate.
    assert (W : weighted c == weighted a + weighted b).
    { unfold weighted. rewrite Ep, Ew, !float_of_int_add. ring. }
    destruct (Qlt_le_dec (weighted b / float_of_int (total b))
                (weighted a / float_of_int (total a))) as [L | L].
    + right. apply (score_between b a c H Nb Na); [lia | | lra].
      rewrite W. ring.
    + left. apply (score_between a b c H Na Nb Et W L).
  - unfold overall_status. rewrite Ef, Ew.
    destruct (failed (mkCheckCategory n i xs)), (failed (mkCheckCategory n i ys)),
      (warnings (mkCheckCategory n i xs)), (warnings (mkCheckCategory n i ys));
      reflexivity.
Qed.

Lemma category_of_appended_results_mixed :
  holdable
    (mkCheckCategory "Health Check" "H"
       (results (category_of [PASS; FAIL; FAIL])
        ++ results (category_of [PASS; WARN])))
  /\ score (category_of [PASS; FAIL; FAIL])
     <= score (mkCheckCategory "Health Check" "H"
                 (results (category_of [PASS; FAIL; FAIL])
                  ++ results (category_of [PASS; WARN])))
  /\ score (mkCheckCategory "Health Check" "H"
              (results (category_of [PASS; FAIL; FAIL])
               ++ results (category_of [PASS; WARN])))
     <= score (category_of [PASS; WARN])
  /\ overall_status
       (mkCheckCategory "Health Check" "H"
          (results (category_of [PASS; FAIL; FAIL])
           ++ results (category_of [PASS; WARN])))
     = FAIL.
Proof.
  assert (H : holdable
                (mkCheckCategory "Health Check" "H"
                   (results (category_of [PASS; FAIL; FAIL])
                    ++ results (category_of [PASS; WARN]))))
    by (vm_compute; reflexivity).
  split; [exact H |].
  pose proof (category_of_appended_results "Health Check" "H"
                (results (category_of [PASS; FAIL; FAIL]))
                (results (category_of [PASS; WARN])) H) as X.
  cbv zeta in X. destruct X as [_ [_ [_ [_ [_ S]]]]].
  split; [vm_compute; discriminate |].
  split; [vm_compute; discriminate |].
  exact S.
Defined.

Lemma overall_pass_of_all_pass (c : CheckCategory) :
  Forall (fun r => status r = PASS) (results c) -> overall_status c = PASS.
Proof.
  intros H. unfold overall_status, failed, warnings.
  assert (F : count_status FAIL (results c) = 0%nat).
  { destruct (count_status FAIL (results c)) eqn:E; [reflexivity |].
    assert (X : (0 < count_status FAIL (results c))%nat) by lia.
    apply count_status_pos_iff, Exists_exists in X. destruct X as [r [I S]].
    rewrite Forall_forall in H. specialize (H r I). congruence. }
  assert (W : count_status WARN (results c) = 0%nat).
  { destruct (count_status WARN (results c)) eqn:E; [reflexivity |].
    assert (X : (0 < count_status WARN (results c))%nat) by lia.
    apply count_status_pos_iff, Exists_exists in X. destruct X as [r [I S]].
    rewrite Forall_forall in H. specialize (H r I). congruence. }
  rewrite F, W. reflexivity.
Qed.

(** A category that is [k] short of a full weighted count scores at most what
    the formula gives on floats for [total - k] out of [total]. *)
Lemma score_short_by (c : CheckCategory) (k : Q) :
  holdable c -> total c <> 0%nat -> 0 < k ->
  weighted c <= float_of_int (total c) - k ->
  score c
  <= Double.mul
       (Double.div (float_of_int (total c) - k) (float_of_int (total c))) 100
  /\ score c <= 100 - (1 # 2 ^ 46).
Proof.
  intros H N K S. pose proof (float_of_int_pos _ N) as T.
  destruct (pass_rate_bounds c N) as [L U].
  rewrite (score_nonempty c H N). split.
  - change (Double.mul
              (Double.div (float_of_int (total c) - k) (float_of_int (total c)))
              100)
      with (rounded_score (float_of_int (total c) - k) (float_of_int (total c))).
    apply rounded_score_mono; [exact L |].
    apply Qmult_le_compat_r; [exact S |].
    apply Qlt_le_weak, Qinv_lt_0_compat, T.
  - apply rounded_score_below; [exact L |].
    apply pass_rate_short; [exact H | exact N |].
    intros E. lra.
Qed.

(** The score against the overall status.  A score of 100 goes with the
    overall status Pass.  A category whose overall status is Fail scores at
    most what the formula gives on floats for [total - 1] out of [total], and
    one whose overall status is Warn at most what it gives for [total - 0.5]
    out of [total]; both stay below 100 by [2 ^ -46] at least.  The overall
    status Pass does not bound the score from below: a category of Skip
    results is Pass and scores 0. *)
Theorem score_against_overall_status (c : CheckCategory) :
  holdable c ->
  (score c == 100 -> overall_status c = PASS)
  /\ (overall_status c = FAIL ->
      score c
      <= Double.mul
           (Double.div (float_of_int (total c) - 1) (float_of_int (total c)))
           100
      /\ score c <= 100 - (1 # 2 ^ 46))
  /\ (overall_status c = WARN ->
      score c
      <= Double.mul
           (Double.div (float_of_int (total c) - (1 # 2))
              (float_of_int (total c)))
           100
      /\ score c <= 100 - (1 # 2 ^ 46))
  /\ overall_status (category_of [SKIP; SKIP]) = PASS
  /\ score (category_of [SKIP; SKIP]) == 0.
Proof.
  intros Hc.
  assert (B : (passed c + failed c + warnings c <= total c)%nat).
  { unfold passed, failed, warnings, total.
    rewrite (length_by_status (results c)). lia. }
  pose proof (float_of_int_nonneg (passed c)) as P0.
  pose proof (float_of_int_nonneg (warnings c)) as W0.
  split; [| split; [| split; [| split; [reflexivity | vm_compute; reflexivity]]]].
  - intros H. apply (score_full c Hc) in H.
    apply overall_pass_of_all_pass, H.
  - intros H. unfold overall_status in H.
    destruct (Nat.ltb_spec 0 (failed c)) as [F | F];
      [| destruct (Nat.ltb 0 (warnings c)); discriminate].
    assert (N : total c <> 0%nat) by lia.
    apply (score_short_by c 1 Hc N); [reflexivity |].
    assert (E : float_of_int (passed c) + float_of_int (warnings c) + 1
                <= float_of_int (total c)).
    { change 1 with (float_of_int 1). rewrite <- !float_of_int_add.
      apply float_of_int_le. lia. }
    unfold weighted. lra.
  - intros H. unfold overall_status in H.
    destruct (Nat.ltb_spec 0 (failed c)) as [F | F]; [discriminate |].
    destruct (Nat.ltb_spec 0 (warnings c)) as [W | W]; [| discriminate].
    assert (N : total c <> 0%nat) by lia.
    apply (score_short_by c (1 # 2) Hc N); [reflexivity |].
    assert (E : float_of_int (passed c) + float_of_int (warnings c)
                <= float_of_int (total c)).
    { rewrite <- !float_of_int_add. apply float_of_int_le. lia. }
    assert (W1 : 1 <= float_of_int (warnings c)).
    { change 1 with (float_of_int 1). apply float_of_int_le. lia. }
    unfold weighted. lra.
Qed.

Lemma score_against_overall_status_six_of_seven :
  holdable (category_of [PASS; PASS; PASS; PASS; PASS; PASS; WARN])
  /\ overall_status (category_of [PASS; PASS; PASS; PASS; PASS; PASS; WARN])
     = WARN
  /\ score (category_of [PASS; PASS; PASS; PASS; PASS; PASS; WARN])
     <= Double.mul (Double.div (7 - (1 # 2)) 7) 100
  /\ 100 - 50 / 7
     < score (category_of [PASS; PASS; PASS; PASS; PASS; PASS; WARN]).
Proof.
  assert (H : holdable (category_of [PASS; PASS; PASS; PASS; PASS; PASS; WARN]))
    by (vm_compute; reflexivity).
  split; [exact H |].
  split; [reflexivity |].
  destruct (score_against_overall_status _ H) as [_ [_ [W _]]].
  split; [exact (proj1 (W eq_refl)) | vm_compute; reflexivity].
Defined.

(** ** The shape of the results the probes build *)

Ltac shape_leaf H :=
  first [ discriminate H | injection H as <-; reflexivity ].

Ltac probe_shape unfold_helpers :=
  intros sys r H; unfold_helpers H;
  cbv beta delta [bind try_except except or_except run_command_with] in H;
  outcome_cases H; shape_leaf H.

Ltac health_shape f := probe_shape ltac:(fun H => unfold f in H).

Ltac driver_shape f :=
  probe_shape
    ltac:(fun H => unfold f, DriverChecker.gpu_vendor, DriverChecker.driver_of,
                     DriverChecker._run_command in H).

Ltac security_shape f :=
  probe_shape ltac:(fun H => unfold f, SecurityChecker._run_command in H).

Ltac desktop_shape f :=
  probe_shape
    ltac:(fun H => unfold f, DesktopChecker.theme_entry,
                     DesktopChecker._run_command in H).

Lemma check_disk_space_shape :
  builds (shape "Disk Space") (HealthChecker.check_disk_space).
Proof. health_shape HealthChecker.check_disk_space. Qed.

Lemma check_memory_shape : builds (shape "Memory Usage") (HealthChecker.check_memory).
Proof. health_shape HealthChecker.check_memory. Qed.

Lemma check_cpu_temperature_shape :
  builds (shape "CPU Temperature") (HealthChecker.check_cpu_temperature).
Proof. health_shape HealthChecker.check_cpu_temperature. Qed.

Lemma check_swap_shape : builds (shape "Swap Space") (HealthChecker.check_swap).
Proof. health_shape HealthChecker.check_swap. Qed.

Lemma check_failed_units_shape :
  builds (shape "Failed Systemd Units") (HealthChecker.check_failed_units).
Proof. health_shape HealthChecker.check_failed_units. Qed.

Lemma check_system_load_shape :
  builds (shape "System Load") (HealthChecker.check_system_load).
Proof. health_shape HealthChecker.check_system_load. Qed.

Lemma check_zombie_processes_shape :
  builds (shape "Zombie Processes") (HealthChecker.check_zombie_processes).
Proof. health_shape HealthChecker.check_zombie_processes. Qed.

Lemma check_dnf_status_shape :
  builds (shape "Package Manager") (HealthChecker.check_dnf_status).
Proof. health_shape HealthChecker.check_dnf_status. Qed.

Lemma check_journal_errors_shape :
  builds (shape "Journal Errors") (HealthChecker.check_journal_errors).
Proof. health_shape HealthChecker.check_journal_errors. Qed.

Lemma check_orphaned_packages_shape :
  builds (shape "Orphaned Packages") (HealthChecker.check_orphaned_packages).
Proof. health_shape HealthChecker.check_orphaned_packages. Qed.

Lemma check_gpu_driver_shape :
  builds (shape "GPU Driver") (DriverChecker.check_gpu_driver).
Proof. driver_shape DriverChecker.check_gpu_driver. Qed.

Lemma check_wifi_driver_shape :
  builds (shape "WiFi Driver") (DriverChecker.check_wifi_driver).
Proof. driver_shape DriverChecker.check_wifi_driver. Qed.

Lemma check_audio_driver_shape :
  builds (shape "Audio Driver") (DriverChecker.check_audio_driver).
Proof. driver_shape DriverChecker.check_audio_driver. Qed.

Lemma check_bluetooth_shape :
  builds (shape "Bluetooth") (DriverChecker.check_bluetooth).
Proof. driver_shape DriverChecker.check_bluetooth. Qed.

Lemma check_usb_shape : builds (shape "USB Controllers") (DriverChecker.check_usb).
Proof. driver_shape DriverChecker.check_usb. Qed.

Lemma check_ethernet_shape :
  builds (shape "Network (Ethernet)") (DriverChecker.check_ethernet).
Proof. driver_shape DriverChecker.check_ethernet. Qed.

Lemma check_webcam_shape : builds (shape "Webcam") (DriverChecker.check_webcam).
Proof. driver_shape DriverChecker.check_webcam. Qed.

Lemma check_firmware_shape :
  builds (shape "Firmware Updates") (DriverChecker.check_firmware).
Proof. driver_shape DriverChecker.check_firmware. Qed.

Lemma check_kernel_modules_shape :
  builds (shape "Kernel Modules") (DriverChecker.check_kernel_modules).
Proof. driver_shape DriverChecker.check_kernel_modules. Qed.

Lemma check_hw_acceleration_shape :
  builds (shape "Hardware Acceleration") (DriverChecker.check_hw_acceleration).
Proof. driver_shape DriverChecker.check_hw_acceleration. Qed.

Lemma check_firewall_shape :
  builds (shape "Firewall (firewalld)") (SecurityChecker.check_firewall).
Proof. security_shape SecurityChecker.check_firewall. Qed.

Lemma check_selinux_shape :
  builds (shape "SELinux Status") (SecurityChecker.check_selinux).
Proof. security_shape SecurityChecker.check_selinux. Qed.

Lemma check_ssh_config_shape :
  builds (shape "SSH Configuration") (SecurityChecker.check_ssh_config).
Proof. security_shape SecurityChecker.check_ssh_config. Qed.

Lemma check_open_ports_shape :
  builds (shape "Open Ports") (SecurityChecker.check_open_ports).
Proof. security_shape SecurityChecker.check_open_ports. Qed.

Lemma check_failed_logins_shape :
  builds (shape "Failed Login Attempts") (SecurityChecker.check_failed_logins).
Proof. security_shape SecurityChecker.check_failed_logins. Qed.

Lemma check_root_account_shape :
  builds (shape "Root Account") (SecurityChecker.check_root_account).
Proof. security_shape SecurityChecker.check_root_account. Qed.

Lemma check_sudo_shape :
  builds (shape "Sudo Configuration") (SecurityChecker.check_sudo).
Proof. security_shape SecurityChecker.check_sudo. Qed.

Lemma check_auto_updates_shape :
  builds (shape "Automatic Updates") (SecurityChecker.check_auto_updates).
Proof. security_shape SecurityChecker.check_auto_updates. Qed.

Lemma check_password_policy_shape :
  builds (shape "Password Policy") (SecurityChecker.check_password_policy).
Proof. security_shape SecurityChecker.check_password_policy. Qed.

Lemma check_sensitive_files_shape :
  builds (shape "File Permissions") (SecurityChecker.check_sensitive_files).
Proof. security_shape SecurityChecker.check_sensitive_files. Qed.

Lemma check_kernel_security_shape :
  builds (shape "Kernel Security") (SecurityChecker.check_kernel_security).
Proof. security_shape SecurityChecker.check_kernel_security. Qed.

Lemma check_antivirus_shape :
  builds (shape "Antivirus (ClamAV)") (SecurityChecker.check_antivirus).
Proof. security_shape SecurityChecker.check_antivirus. Qed.

Lemma first_running_shape (sys : System)
    (compositors : list (string * list string)) (r : CheckResult) :
  DesktopChecker.first_running sys compositors = Returned r ->
  shape "Compositor" r = true.
Proof.
  induction compositors as [| [n cmd] rest IH]; simpl; intros H.
  - shape_leaf H.
  - unfold DesktopChecker._run_command in H.
    cbv beta delta [bind try_except except or_except run_command_with] in H.
    outcome_cases H; first [shape_leaf H | exact (IH H)].
Qed.

Lemma first_active_shape (sys : System)
    (display_managers : list (string * string)) (r : CheckResult) :
  DesktopChecker.first_active sys display_managers = Returned r ->
  shape "Display Manager" r = true.
Proof.
  induction display_managers as [| [service n] rest IH]; simpl; intros H.
  - shape_leaf H.
  - unfold DesktopChecker._run_command in H.
    cbv beta delta [bind try_except except or_except run_command_with] in H.
    outcome_cases H; first [shape_leaf H | exact (IH H)].
Qed.

Section DesktopShapes.
Variable self : DesktopChecker.t.

Lemma check_desktop_environment_shape :
  builds (shape "Desktop Environment") (DesktopChecker.check_desktop_environment self).
Proof. desktop_shape DesktopChecker.check_desktop_environment. Qed.

Lemma check_display_server_shape :
  builds (shape "Display Server") (DesktopChecker.check_display_server self).
Proof. desktop_shape DesktopChecker.check_display_server. Qed.

Lemma check_compositor_shape :
  builds (shape "Compositor") (DesktopChecker.check_compositor self).
Proof.
  intros sys r H. unfold DesktopChecker.check_compositor in H.
  destruct (String.eqb (DesktopChecker.session_type self) "wayland");
    [shape_leaf H |].
  unfold DesktopChecker._run_command at 1 in H.
  cbv beta delta [bind try_except except or_except run_command_with] in H.
  destruct (subprocess_run_C sys ["xdpyinfo"] 10) as [res | e];
    cbv beta iota in H.
  - destruct (Z.eqb (returncode res) 0); cbv beta iota in H; [| shape_leaf H].
    destruct (PyStr.contains "Composite" (stdout res ++ stderr res));
      [exact (first_running_shape _ _ _ H) | shape_leaf H].
  - destruct (is_class TimeoutExpired e || is_class FileNotFoundError e);
      cbv beta iota in H; shape_leaf H.
Qed.

Lemma check_display_manager_shape :
  builds (shape "Display Manager") (DesktopChecker.check_display_manager self).
Proof. intros sys r H. exact (first_active_shape _ _ _ H). Qed.

Lemma check_resolution_shape :
  builds (shape "Screen Resolution") (DesktopChecker.check_resolution self).
Proof. desktop_shape DesktopChecker.check_resolution. Qed.

Lemma check_themes_shape :
  builds (shape "Theme & Icons") (DesktopChecker.check_themes self).
Proof. desktop_shape DesktopChecker.check_themes. Qed.

Lemma check_fonts_shape : builds (shape "Fonts") (DesktopChecker.check_fonts self).
Proof. desktop_shape DesktopChecker.check_fonts. Qed.

Lemma check_gnome_extensions_shape :
  builds (shape "GNOME Extensions") (DesktopChecker.check_gnome_extensions self).
Proof. desktop_shape DesktopChecker.check_gnome_extensions. Qed.

Lemma check_flatpak_shape :
  builds (shape "Flatpak Apps") (DesktopChecker.check_flatpak self).
Proof. desktop_shape DesktopChecker.check_flatpak. Qed.

Lemma check_portals_shape :
  builds (shape "Desktop Portals") (DesktopChecker.check_portals self).
Proof. desktop_shape DesktopChecker.check_portals. Qed.

End DesktopShapes.

Lemma health_checks_shape :
  Forall (fun c => builds (shape (fst c)) (snd c)) (HealthChecker.checks).
Proof.
  repeat apply Forall_cons; try apply Forall_nil; simpl.
  - exact check_disk_space_shape.
  - exact check_memory_shape.
  - exact check_cpu_temperature_shape.
  - exact check_swap_shape.
  - exact check_failed_units_shape.
  - exact check_system_load_shape.
  - exact check_zombie_processes_shape.
  - exact check_dnf_status_shape.
  - exact check_journal_errors_shape.
  - exact check_orphaned_packages_shape.
Qed.

Lemma driver_checks_shape :
  Forall (fun c => builds (shape (fst c)) (snd c)) (DriverChecker.checks).
Proof.
  repeat apply Forall_cons; try apply Forall_nil; simpl.
  - exact check_gpu_driver_shape.
  - exact check_wifi_driver_shape.
  - exact check_audio_driver_shape.
  - exact check_bluetooth_shape.
  - exact check_usb_shape.
  - exact check_ethernet_shape.
  - exact check_webcam_shape.
  - exact check_firmware_shape.
  - exact check_kernel_modules_shape.
  - exact check_hw_acceleration_shape.
Qed.

Lemma security_checks_shape :
  Forall (fun c => builds (shape (fst c)) (snd c)) (SecurityChecker.checks).
Proof.
  repeat apply Forall_cons; try apply Forall_nil; simpl.
  - exact check_firewall_shape.
  - exact check_selinux_shape.
  - exact check_ssh_config_shape.
  - exact check_open_ports_shape.
  - exact check_failed_logins_shape.
  - exact check_root_account_shape.
  - exact check_sudo_shape.
  - exact check_auto_updates_shape.
  - exact check_password_policy_shape.
  - exact check_sensitive_files_shape.
  - exact check_kernel_security_shape.
  - exact check_antivirus_shape.
Qed.

Lemma desktop_checks_shape (self : DesktopChecker.t) :
  Forall (fun c => builds (shape (fst c)) (snd c)) (DesktopChecker.checks self).
Proof.
  repeat apply Forall_cons; try apply Forall_nil; simpl.
  - apply check_desktop_environment_shape.
  - apply check_display_server_shape.
  - apply check_compositor_shape.
  - apply check_display_manager_shape.
  - apply check_resolution_shape.
  - apply check_themes_shape.
  - apply check_fonts_shape.
  - apply check_gnome_extensions_shape.
  - apply check_flatpak_shape.
  - apply check_portals_shape.
Qed.

(** ** Probes and missing tools *)

Ltac soft_leaf S H :=
  first [ discriminate H
        | match goal with
          | E : subprocess_run _ _ _ = Raised _ |- _ =>
              let K := fresh "K" in
              pose proof (S _ _ _ (or_introl E)) as K;
              repeat match goal with
                     | N : _ = false |- _ => rewrite N in K
                     end;
              discriminate K
          | E : subprocess_run_C _ _ _ = Raised _ |- _ =>
              let K := fresh "K" in
              pose proof (S _ _ _ (or_intror E)) as K;
              repeat match goal with
                     | N : _ = false |- _ => rewrite N in K
                     end;
              discriminate K
          end ].

Ltac soft_cases S H :=
  cbv beta delta [bind try_except except or_except run_command_with] in H;
  outcome_cases H; soft_leaf S H.

Ltac probe_returns unfold_helpers :=
  intros sys S;
  match goal with
  | |- returns_a_result sys ?p =>
      let r := fresh "r" in
      let e := fresh "e" in
      let H := fresh "H" in
      unfold returns_a_result; destruct (p sys) as [r | e] eqn:H;
      [exists r; reflexivity | exfalso; unfold_helpers H; soft_cases S H]
  end.

Ltac driver_returns f :=
  probe_returns
    ltac:(fun H => unfold f, DriverChecker.gpu_vendor, DriverChecker.driver_of,
                     DriverChecker._run_command in H).

Ltac security_returns f :=
  probe_returns ltac:(fun H => unfold f, SecurityChecker._run_command in H).

Ltac desktop_returns f :=
  probe_returns
    ltac:(fun H => unfold f, DesktopChecker.theme_entry,
                     DesktopChecker._run_command in H).

Lemma check_dnf_status_returns (sys : System) :
  commands_fail_softly sys -> returns_a_result sys HealthChecker.check_dnf_status.
Proof.
  revert sys. probe_returns ltac:(fun H => unfold HealthChecker.check_dnf_status in H).
Qed.

Lemma check_gpu_driver_returns (sys : System) :
  commands_fail_softly sys -> returns_a_result sys (DriverChecker.check_gpu_driver).
Proof. revert sys. driver_returns DriverChecker.check_gpu_driver. Qed.

Lemma check_usb_returns (sys : System) :
  commands_fail_softly sys -> returns_a_result sys (DriverChecker.check_usb).
Proof. revert sys. driver_returns DriverChecker.check_usb. Qed.

Lemma check_firmware_returns (sys : System) :
  commands_fail_softly sys -> returns_a_result sys (DriverChecker.check_firmware).
Proof. revert sys. driver_returns DriverChecker.check_firmware. Qed.

Lemma check_kernel_modules_returns (sys : System) :
  commands_fail_softly sys -> returns_a_result sys (DriverChecker.check_kernel_modules).
Proof. revert sys. driver_returns DriverChecker.check_kernel_modules. Qed.

Lemma check_hw_acceleration_returns (sys : System) :
  commands_fail_softly sys -> returns_a_result sys (DriverChecker.check_hw_acceleration).
Proof. revert sys. driver_returns DriverChecker.check_hw_acceleration. Qed.

Lemma check_firewall_returns (sys : System) :
  commands_fail_softly sys -> returns_a_result sys (SecurityChecker.check_firewall).
Proof. revert sys. security_returns SecurityChecker.check_firewall. Qed.

Lemma check_selinux_returns (sys : System) :
  commands_fail_softly sys -> returns_a_result sys (SecurityChecker.check_selinux).
Proof. revert sys. security_returns SecurityChecker.check_selinux. Qed.

Lemma check_open_ports_returns (sys : System) :
  commands_fail_softly sys -> returns_a_result sys (SecurityChecker.check_open_ports).
Proof. revert sys. security_returns SecurityChecker.check_open_ports. Qed.

Lemma check_failed_logins_returns (sys : System) :
  commands_fail_softly sys -> returns_a_result sys (SecurityChecker.check_failed_logins).
Proof. revert sys. security_returns SecurityChecker.check_failed_logins. Qed.

Lemma check_auto_updates_returns (sys : System) :
  commands_fail_softly sys -> returns_a_result sys (SecurityChecker.check_auto_updates).
Proof. revert sys. security_returns SecurityChecker.check_auto_updates. Qed.

Lemma check_antivirus_returns (sys : System) :
  commands_fail_softly sys -> returns_a_result sys (SecurityChecker.check_antivirus).
Proof. revert sys. security_returns SecurityChecker.check_antivirus. Qed.

Lemma first_running_returns (sys : System) (e : PyExc)
    (compositors : list (string * list string)) :
  commands_fail_softly sys ->
  DesktopChecker.first_running sys compositors <> Raised e.
Proof.
  intros S. induction compositors as [| [n cmd] rest IH]; simpl; intros H.
  - discriminate H.
  - unfold DesktopChecker._run_command in H.
    cbv beta delta [bind try_except except or_except run_command_with] in H.
    outcome_cases H; first [soft_leaf S H | exact (IH H)].
Qed.

Lemma first_active_returns (sys : System) (e : PyExc)
    (display_managers : list (string * string)) :
  commands_fail_softly sys ->
  DesktopChecker.first_active sys display_managers <> Raised e.
Proof.
  intros S. induction display_managers as [| [service n] rest IH]; simpl; intros H.
  - discriminate H.
  - unfold DesktopChecker._run_command in H.
    cbv beta delta [bind try_except except or_except run_command_with] in H.
    outcome_cases H; first [soft_leaf S H | exact (IH H)].
Qed.

Lemma scan_portals_returns (sys : System) (e : PyExc) (portal_packages : list string) :
  commands_fail_softly sys ->
  forall installed : list string,
    DesktopChecker.scan_portals sys portal_packages installed <> Raised e.
Proof.
  intros S. induction portal_packages as [| pkg rest IH]; simpl; intros installed H.
  - discriminate H.
  - unfold DesktopChecker._run_command in H.
    cbv beta delta [bind try_except except or_except run_command_with] in H.
    outcome_cases H; first [soft_leaf S H | exact (IH _ H)].
Qed.

Section DesktopReturns.
Variable self : DesktopChecker.t.

Lemma check_desktop_environment_returns (sys : System) :
  commands_fail_softly sys -> returns_a_result sys (DesktopChecker.check_desktop_environment self).
Proof. revert sys. desktop_returns DesktopChecker.check_desktop_environment. Qed.

Lemma check_display_server_returns (sys : System) :
  commands_fail_softly sys -> returns_a_result sys (DesktopChecker.check_display_server self).
Proof. revert sys. desktop_returns DesktopChecker.check_display_server. Qed.

Lemma check_compositor_returns (sys : System) :
  commands_fail_softly sys ->
  returns_a_result sys (DesktopChecker.check_compositor self).
Proof.
  intros S. unfold returns_a_result.
  destruct (DesktopChecker.check_compositor self sys) as [r | e] eqn:H;
    [exists r; reflexivity | exfalso].
  unfold DesktopChecker.check_compositor in H.
  destruct (String.eqb (DesktopChecker.session_type self) "wayland");
    [discriminate H |].
  unfold DesktopChecker._run_command at 1 in H.
  cbv beta delta [bind try_except except or_except run_command_with] in H.
  destruct (subprocess_run_C sys ["xdpyinfo"] 10) as [res | e0] eqn:E;
    cbv beta iota in H.
  - destruct (Z.eqb (returncode res) 0); cbv beta iota in H; [| discriminate H].
    destruct (PyStr.contains "Composite" (stdout res ++ stderr res));
      [exact (first_running_returns _ _ _ S H) | discriminate H].
  - rewrite (S _ _ _ (or_intror E)) in H. discriminate H.
Qed.

Lemma check_display_manager_returns (sys : System) :
  commands_fail_softly sys ->
  returns_a_result sys (DesktopChecker.check_display_manager self).
Proof.
  intros S. unfold returns_a_result.
  destruct (DesktopChecker.check_display_manager self sys) as [r | e] eqn:H;
    [exists r; reflexivity | exfalso].
  exact (first_active_returns _ _ _ S H).
Qed.

Lemma check_resolution_returns (sys : System) :
  commands_fail_softly sys -> returns_a_result sys (DesktopChecker.check_resolution self).
Proof. revert sys. desktop_returns DesktopChecker.check_resolution. Qed.

Lemma check_themes_returns (sys : System) :
  commands_fail_softly sys -> returns_a_result sys (DesktopChecker.check_themes self).
Proof. revert sys. desktop_returns DesktopChecker.check_themes. Qed.

Lemma check_fonts_returns (sys : System) :
  commands_fail_softly sys -> returns_a_result sys (DesktopChecker.check_fonts self).
Proof. revert sys. desktop_returns DesktopChecker.check_fonts. Qed.

Lemma check_gnome_extensions_returns (sys : System) :
  commands_fail_softly sys -> returns_a_result sys (DesktopChecker.check_gnome_extensions self).
Proof. revert sys. desktop_returns DesktopChecker.check_gnome_extensions. Qed.

Lemma check_flatpak_returns (sys : System) :
  commands_fail_softly sys -> returns_a_result sys (DesktopChecker.check_flatpak self).
Proof. revert sys. desktop_returns DesktopChecker.check_flatpak. Qed.

Lemma check_portals_returns (sys : System) :
  commands_fail_softly sys ->
  returns_a_result sys (DesktopChecker.check_portals self).
Proof.
  intros S. unfold returns_a_result.
  destruct (DesktopChecker.check_portals self sys) as [r | e] eqn:H;
    [exists r; reflexivity | exfalso].
  unfold DesktopChecker.check_portals in H.
  cbv beta delta [bind] zeta in H.
  match type of H with
  | context [DesktopChecker.scan_portals sys ?p ?i] =>
      pose proof (scan_portals_returns sys e p S i) as N;
      destruct (DesktopChecker.scan_portals sys p i) as [installed | e0] eqn:E
  end; cbv beta iota in H.
  - unfold DesktopChecker._run_command in H. soft_cases S H.
  - injection H as ->. now apply N.
Qed.
End DesktopReturns.

(** On a machine where a command can only complete, time out or be missing,
    every probe that consults nothing but commands and the environment returns
    a result: a missing tool or a timeout never makes such a probe raise. *)
Theorem command_probes_survive_missing_tools (sys : System)
    (self : DesktopChecker.t) :
  commands_fail_softly sys ->
  Forall (returns_a_result sys) (command_probes self).
Proof.
  intros S. unfold command_probes.
  repeat apply Forall_cons; try apply Forall_nil.
  - now apply check_dnf_status_returns.
  - now apply check_gpu_driver_returns.
  - now apply check_usb_returns.
  - now apply check_firmware_returns.
  - now apply check_kernel_modules_returns.
  - now apply check_hw_acceleration_returns.
  - now apply check_firewall_returns.
  - now apply check_selinux_returns.
  - now apply check_open_ports_returns.
  - now apply check_failed_logins_returns.
  - now apply check_auto_updates_returns.
  - now apply check_antivirus_returns.
  - now apply check_desktop_environment_returns.
  - now apply check_display_server_returns.
  - now apply check_compositor_returns.
  - now apply check_display_manager_returns.
  - now apply check_resolution_returns.
  - now apply check_themes_returns.
  - now apply check_fonts_returns.
  - now apply check_gnome_extensions_returns.
  - now apply check_flatpak_returns.
  - now apply check_portals_returns.
Qed.

Lemma command_probes_survive_on_bare_system :
  commands_fail_softly bare_system
  /\ Forall (returns_a_result bare_system)
       (command_probes (DesktopChecker.init bare_system)).
Proof.
  assert (S : commands_fail_softly bare_system).
  { intros cmd t e [H | H]; injection H as <-; reflexivity. }
  split; [exact S |].
  exact (command_probes_survive_missing_tools bare_system
           (DesktopChecker.init bare_system) S).
Defined.

(** ** What the shape of the results gives *)

Lemma shape_recorded (sys : System) (checks : list (string * Probe System)) :
  Forall (fun c => builds (shape (fst c)) (snd c)) checks ->
  Forall (fun c => shape (fst c) (recorded sys c) = true) checks.
Proof.
  apply Forall_impl. intros [n f] B. unfold recorded. cbn [fst snd] in *.
  destruct (f sys) as [r | e] eqn:E; [exact (B sys r E) |].
  unfold shape. cbn [name fix_available status CheckResult3 implb negb].
  rewrite String.eqb_refl. destruct (in_list n unreached_handlers); reflexivity.
Qed.

Lemma all_checks_shape (sys : System) (self : DesktopChecker.t) :
  Forall (fun c => shape (fst c) (recorded sys c) = true) (all_checks self).
Proof.
  unfold all_checks. repeat (apply Forall_app; split); apply shape_recorded.
  - exact health_checks_shape.
  - exact driver_checks_shape.
  - exact security_checks_shape.
  - exact (desktop_checks_shape self).
Qed.

Lemma shape_name (n : string) (r : CheckResult) : shape n r = true -> name r = n.
Proof.
  unfold shape. rewrite !andb_true_iff. intros [[H _] _].
  now apply String.eqb_eq.
Qed.

Lemma shape_fixable (n : string) (r : CheckResult) :
  shape n r = true -> fix_available r = true ->
  status r = FAIL \/ status r = WARN
  \/ (status r = SKIP /\ n = "Antivirus (ClamAV)").
Proof.
  unfold shape. rewrite !andb_true_iff. intros [[_ H] _] F. rewrite F in H.
  cbn [implb] in H. apply orb_true_iff in H. destruct H as [H | H].
  - destruct (status r); try discriminate H; tauto.
  - apply andb_true_iff in H. destruct H as [H1 H2].
    right. right. split; [| now apply String.eqb_eq].
    unfold status_eqb in H1.
    destruct (CheckStatus_eq_dec (status r) SKIP); [assumption | discriminate].
Qed.

Lemma shape_unreached (n : string) (r : CheckResult) :
  shape n r = true -> in_list n unreached_handlers = true -> fix_available r = false.
Proof.
  unfold shape. rewrite !andb_true_iff. intros [_ H] I. rewrite I in H.
  cbn [implb] in H. now apply negb_true_iff.
Qed.

Lemma names_recorded (sys : System) (checks : list (string * Probe System)) :
  Forall (fun c => shape (fst c) (recorded sys c) = true) checks ->
  map name (map (recorded sys) checks) = map fst checks.
Proof.
  induction 1 as [| c cs H _ IH]; [reflexivity |].
  cbn [map]. rewrite IH, (shape_name _ _ H). reflexivity.
Qed.

Lemma NoDup_by_nodup (l : list string) : nodup string_dec l = l -> NoDup l.
Proof. intros <-. apply NoDup_nodup. Qed.

Lemma named_category (checks : list (string * Probe System)) (sys : System)
    (n i : string) (c : CheckCategory) :
  Forall (fun c => builds (shape (fst c)) (snd c)) checks ->
  fst (finish_checks n i (run_checks checks sys [])) = Returned c ->
  cat_name c = n /\ map name (results c) = map fst checks.
Proof.
  intros B H. split.
  - apply finish_checks_returned in H. destruct H as [-> _]. reflexivity.
  - rewrite (proj1 (finished_category _ _ _ _ _ H)).
    apply names_recorded, shape_recorded, B.
Qed.

(** Every result of a category carries the name of the table entry that
    produced it, be it the probe's own result or the Error result recorded for
    a probe that raised; so the names within a category are those of the table,
    in table order, and pairwise distinct.  The four categories are called
    [Health Check], [Driver Check], [Security Check] and [Desktop Check]. *)
Theorem results_named_after_table (sys : System) (self : DesktopChecker.t) :
  Forall (fun c => name (recorded sys c) = fst c) (all_checks self)
  /\ (forall stale c,
        fst (HealthChecker.run_all_checks stale sys) = Returned c ->
        cat_name c = "Health Check"
        /\ map name (results c) = map fst HealthChecker.checks
        /\ NoDup (map name (results c)))
  /\ (forall stale c,
        fst (DriverChecker.run_all_checks stale sys) = Returned c ->
        cat_name c = "Driver Check"
        /\ map name (results c) = map fst DriverChecker.checks
        /\ NoDup (map name (results c)))
  /\ (forall stale c,
        fst (SecurityChecker.run_all_checks stale sys) = Returned c ->
        cat_name c = "Security Check"
        /\ map name (results c) = map fst SecurityChecker.checks
        /\ NoDup (map name (results c)))
  /\ (forall c,
        fst (DesktopChecker.run_all_checks self sys) = Returned c ->
        cat_name c = "Desktop Check"
        /\ map name (results c) = map fst (DesktopChecker.checks self)
        /\ NoDup (map name (results c))).
Proof.
  split; [| split; [| split; [| split]]].
  - pose proof (all_checks_shape sys self) as A. revert A.
    apply Forall_impl. intros c. apply shape_name.
  - intros stale c H.
    destruct (named_category _ _ _ _ _ health_checks_shape H) as [A B].
    split; [exact A |]. split; [exact B |]. rewrite B.
    apply NoDup_by_nodup. vm_compute. reflexivity.
  - intros stale c H.
    destruct (named_category _ _ _ _ _ driver_checks_shape H) as [A B].
    split; [exact A |]. split; [exact B |]. rewrite B.
    apply NoDup_by_nodup. vm_compute. reflexivity.
  - intros stale c H.
    destruct (named_category _ _ _ _ _ security_checks_shape H) as [A B].
    split; [exact A |]. split; [exact B |]. rewrite B.
    apply NoDup_by_nodup. vm_compute. reflexivity.
  - intros c H. rewrite desktop_run_fst in H.
    destruct (named_category _ _ _ _ _ (desktop_checks_shape _) H) as [A B].
    split; [exact A |]. split; [exact B |]. rewrite B.
    apply NoDup_by_nodup. vm_compute. reflexivity.
Qed.

(** A result that offers a fix is a finding: of all the results the four
    checkers record, the fixable ones have status Fail or Warn, with one
    exception, the Skip result of the antivirus probe for a machine without
    ClamAV.  No Pass result and no Error result offers a fix. *)
Theorem fixable_results_are_findings (sys : System) (self : DesktopChecker.t) :
  Forall
    (fun c =>
       fix_available (recorded sys c) = true ->
       status (recorded sys c) = FAIL \/ status (recorded sys c) = WARN
       \/ (status (recorded sys c) = SKIP /\ fst c = "Antivirus (ClamAV)"))
    (all_checks self)
  /\ exists r : CheckResult,
       SecurityChecker.check_antivirus bare_system = Returned r
       /\ status r = SKIP /\ fix_available r = true.
Proof.
  split.
  - pose proof (all_checks_shape sys self) as A. revert A.
    apply Forall_impl. intros c. apply shape_fixable.
  - eexists. split; [vm_compute; reflexivity | split; reflexivity].
Qed.

(** Three handlers that no result reaches.  The fixers have handlers under
    the names [File Permissions], [Display Manager] and [GNOME Extensions], but
    the results the checkers record under these names never offer a fix, so
    the dispatcher returns [None] for them at once: it asks nothing and runs
    nothing. *)
Theorem handlers_no_result_reaches {M : Type} (h : Host M) (w : World M)
    (sys : System) (self : DesktopChecker.t) :
  (fix_map_get (SecurityFixer.fix_map h) "File Permissions"
   = Some (SecurityFixer.fix_file_permissions h)
   /\ SecurityFixer.apply_fix h
        (recorded sys ("File Permissions", SecurityChecker.check_sensitive_files)) w
      = (Returned None, w))
  /\ (fix_map_get (DesktopFixer.fix_map h) "Display Manager"
      = Some (DesktopFixer.configure_display_manager h)
      /\ DesktopFixer.apply_fix h
           (recorded sys
              ("Display Manager", DesktopChecker.check_display_manager self)) w
         = (Returned None, w))
  /\ (fix_map_get (DesktopFixer.fix_map h) "GNOME Extensions"
      = Some (DesktopFixer.fix_gnome_extensions h)
      /\ DesktopFixer.apply_fix h
           (recorded sys
              ("GNOME Extensions", DesktopChecker.check_gnome_extensions self)) w
         = (Returned None, w)).
Proof.
  assert (R : forall n probe,
             builds (shape n) probe -> in_list n unreached_handlers = true ->
             fix_available (recorded sys (n, probe)) = false).
  { intros n probe B I.
    assert (S : Forall (fun c => shape (fst c) (recorded sys c) = true)
                  [(n, probe)])
      by (apply shape_recorded; constructor; [exact B | constructor]).
    inversion S as [| ? ? S1 _]; subst. exact (shape_unreached _ _ S1 I). }
  split; [| split]; (split; [reflexivity |]).
  - assert (E : fix_available
                   (recorded sys
                      ("File Permissions", SecurityChecker.check_sensitive_files))
                 = false)
      by exact (R _ _ check_sensitive_files_shape eq_refl).
    unfold SecurityFixer.apply_fix. rewrite E. reflexivity.
  - assert (E : fix_available
                   (recorded sys
                      ("Display Manager",
                       DesktopChecker.check_display_manager self))
                 = false)
      by exact (R _ _ (check_display_manager_shape self) eq_refl).
    unfold DesktopFixer.apply_fix. rewrite E. reflexivity.
  - assert (E : fix_available
                   (recorded sys
                      ("GNOME Extensions",
                       DesktopChecker.check_gnome_extensions self))
                 = false)
      by exact (R _ _ (check_gnome_extensions_shape self) eq_refl).
    unfold DesktopFixer.apply_fix. rewrite E. reflexivity.
Qed.

(** ** Probes that swallow every error *)

Ltac never_leaf H :=
  first [ discriminate H | injection H as <-; assumption ].

Ltac probe_never f :=
  intros sys e H; unfold f in H;
  cbv beta delta [bind try_except except or_except run_command_with] in H;
  outcome_cases H; never_leaf H.

(** Three health probes catch every [Exception]: when the call they rely on
    fails, whatever the failure, the result is a Skip; they let no
    [Exception] escape, so the aggregator never records an Error for them.
    The display-server probe only reads the environment and returns a result
    on every machine. *)
Theorem probes_that_never_fail (self : DesktopChecker.t) :
  (forall sys e,
      psutil_sensors_temperatures sys = Raised e -> is_Exception e = true ->
      HealthChecker.check_cpu_temperature sys
      = Returned (CheckResult3 "CPU Temperature" SKIP "Unable to read temperature"))
  /\ (forall sys e,
        subprocess_run sys ["journalctl"; "-p"; "err"; "-b"; "--no-pager"; "-q"] 15
        = Raised e ->
        is_Exception e = true ->
        HealthChecker.check_journal_errors sys
        = Returned (CheckResult3 "Journal Errors" SKIP "Unable to read journal"))
  /\ (forall sys e,
        subprocess_run sys ["dnf"; "repoquery"; "--extras"; "--quiet"] 60 = Raised e ->
        is_Exception e = true ->
        HealthChecker.check_orphaned_packages sys
        = Returned (CheckResult3 "Orphaned Packages" SKIP "Unable to check"))
  /\ never_fails HealthChecker.check_cpu_temperature
  /\ never_fails HealthChecker.check_journal_errors
  /\ never_fails HealthChecker.check_orphaned_packages
  /\ (forall sys, returns_a_result sys (DesktopChecker.check_display_server self)).
Proof.
  split; [| split; [| split; [| split; [| split; [| split]]]]].
  - intros sys e E X. unfold HealthChecker.check_cpu_temperature.
    rewrite E. cbn. unfold except. rewrite X. reflexivity.
  - intros sys e E X. unfold HealthChecker.check_journal_errors.
    rewrite E. cbn. unfold except. rewrite X. reflexivity.
  - intros sys e E X. unfold HealthChecker.check_orphaned_packages.
    rewrite E. cbn. unfold except. rewrite X. reflexivity.
  - probe_never HealthChecker.check_cpu_temperature.
  - probe_never HealthChecker.check_journal_errors.
  - probe_never HealthChecker.check_orphaned_packages.
  - intros sys. unfold returns_a_result, DesktopChecker.check_display_server.
    repeat match goal with
           | |- context [if ?b then _ else _] => destruct b
           end; eexists; reflexivity.
Qed.

(** ** The verdict of [check_disk_space] *)

Lemma scan_partitions_lists (sys : System) (ps : list psutil.sdiskpart) :
  forall critical warnings critical' warnings' : list string,
    HealthChecker.scan_partitions sys ps critical warnings
    = Returned (critical', warnings') ->
    critical' = (critical ++ map (disk_line sys) (critical_partitions sys ps))%list
    /\ warnings' = (warnings ++ map (disk_line sys) (warning_partitions sys ps))%list.
Proof.
  induction ps as [| p rest IH]; intros c w c' w' H.
  - injection H as <- <-. cbn. now rewrite !app_nil_r.
  - cbn [HealthChecker.scan_partitions] in H.
    change (PyStr.truthy (psutil.fstype p)
            && negb (PyStr.startswith "/snap" (psutil.mountpoint p)))
      with (looked_at p) in H.
    assert (Ec : critical_partitions sys (p :: rest)
                 = if looked_at p && usage_reaches sys 95 p
                   then p :: critical_partitions sys rest
                   else critical_partitions sys rest) by reflexivity.
    assert (Ew : warning_partitions sys (p :: rest)
                 = if looked_at p && negb (usage_reaches sys 95 p)
                      && usage_reaches sys 85 p
                   then p :: warning_partitions sys rest
                   else warning_partitions sys rest) by reflexivity.
    rewrite Ec, Ew. clear Ec Ew.
    destruct (looked_at p); cbn [andb]; [| exact (IH _ _ _ _ H)].
    assert (Eu : forall q, usage_reaches sys q p
                           = match psutil_disk_usage sys (psutil.mountpoint p) with
                             | Returned u => Qge_bool u q
                             | Raised _ => false
                             end) by reflexivity.
    assert (Ed : disk_line sys p
                 = match psutil_disk_usage sys (psutil.mountpoint p) with
                   | Returned u =>
                       psutil.mountpoint p ++ ": " ++ str_float sys u ++ "% used"
                   | Raised _ => ""
                   end) by reflexivity.
    rewrite !Eu. clear Eu.
    destruct (psutil_disk_usage sys (psutil.mountpoint p)) as [u | e].
    + destruct (Qge_bool u 95); cbn [negb andb].
      * destruct (IH _ _ _ _ H) as [A B]. split; [| exact B].
        cbn [map]. rewrite A, Ed, <- app_assoc. reflexivity.
      * destruct (Qge_bool u 85).
        -- destruct (IH _ _ _ _ H) as [A B]. split; [exact A |].
           cbn [map]. rewrite B, Ed, <- app_assoc. reflexivity.
        -- exact (IH _ _ _ _ H).
    + destruct (is_class PermissionError e); [exact (IH _ _ _ _ H) | discriminate H].
Qed.

Lemma nonempty_map {A B : Type} (f : A -> B) (xs : list A) :
  nonempty (map f xs) = nonempty xs.
Proof. destruct xs; reflexivity. Qed.

(** What [check_disk_space] says about the partitions [ps] of the machine.
    Only partitions with a file system type that are not mounted under
    [/snap] count, and those whose usage may not be read are passed over.  The
    result is Fail as soon as one of them is at least 95% full, and names how
    many are; otherwise Warn when one is at least 85% full; otherwise Pass.
    Fail and Warn offer the same clean-up, and the details list the critical
    partitions before the others. *)
Theorem disk_space_verdict (sys : System) (ps : list psutil.sdiskpart)
    (r : CheckResult) :
  psutil_disk_partitions sys = Returned ps ->
  HealthChecker.check_disk_space sys = Returned r ->
  let critical := critical_partitions sys ps in
  let warnings := warning_partitions sys ps in
  status r = (if nonempty critical then FAIL
              else if nonempty warnings then WARN else PASS)
  /\ (status r = FAIL ->
      message r = "Critical: " ++ PyStr.str_int (length critical)
                  ++ " partition(s) nearly full"
      /\ details r = PyStr.join PyStr.LF (map (disk_line sys) (critical ++ warnings)))
  /\ (status r = WARN ->
      message r = "Warning: " ++ PyStr.str_int (length warnings)
                  ++ " partition(s) above 85%"
      /\ details r = PyStr.join PyStr.LF (map (disk_line sys) warnings))
  /\ (status r <> PASS ->
      fix_available r = true /\ fix_command r = "dnf autoremove && dnf clean all")
  /\ (status r = PASS -> fix_available r = false).
Proof.
  intros P H. cbv zeta. unfold HealthChecker.check_disk_space in H.
  rewrite P in H. cbn [bind] in H.
  destruct (HealthChecker.scan_partitions sys ps [] []) as [[c w] | e] eqn:E;
    [| discriminate H].
  destruct (scan_partitions_lists _ _ _ _ _ _ E) as [-> ->].
  cbn [bind app] in H. rewrite !nonempty_map in H.
  destruct (nonempty (critical_partitions sys ps)).
  - injection H as <-. cbn. rewrite !length_map, map_app.
    repeat split; try discriminate; reflexivity.
  - destruct (nonempty (warning_partitions sys ps)).
    + injection H as <-. cbn. rewrite !length_map.
      repeat split; try discriminate; reflexivity.
    + unfold bind in H. destruct (psutil_disk_usage sys "/"); [| discriminate H].
      injection H as <-. cbn.
      split; [reflexivity |]. split; [discriminate |]. split; [discriminate |].
      split; [intros N; now elim N | reflexivity].
Qed.

Lemma disk_space_verdict_crowded :
  exists r : CheckResult,
    psutil_disk_partitions crowded_system
    = Returned
        [ {| psutil.fstype := "ext4"; psutil.mountpoint := "/" |};
          {| psutil.fstype := "ext4"; psutil.mountpoint := "/home" |};
          {| psutil.fstype := "squashfs"; psutil.mountpoint := "/snap/core/1" |};
          {| psutil.fstype := ""; psutil.mountpoint := "/proc" |} ]
    /\ HealthChecker.check_disk_space crowded_system = Returned r
    /\ status r = FAIL
    /\ message r = "Critical: 1 partition(s) nearly full".
Proof.
  eexists. split; [reflexivity |].
  assert (H : HealthChecker.check_disk_space crowded_system
              = Returned (mkCheckResult "Disk Space" FAIL
                            "Critical: 1 partition(s) nearly full"
                            ("/: 97.0% used" ++ PyStr.LF ++ "/home: 88.0% used")
                            true "dnf autoremove && dnf clean all"))
    by (vm_compute; reflexivity).
  split; [exact H |].
  destruct (disk_space_verdict crowded_system _ _ eq_refl H) as [A [B _]].
  split; [exact A | exact (proj1 (B A))].
Defined.

(** ** The verdict of [check_cpu_temperature] *)

Lemma Qge_bool_step (m t q : Q) :
  Qge_bool (if Qgt_bool t m then t else m) q = Qge_bool m q || Qge_bool t q.
Proof.
  unfold Qge_bool, Qgt_bool.
  destruct (Qle_bool t m) eqn:A; cbn [negb];
    destruct (Qle_bool q m) eqn:B; destruct (Qle_bool q t) eqn:C;
    try reflexivity; exfalso.
  - apply Qle_bool_iff in A, C.
    assert (X : Qle_bool q m = true) by (apply Qle_bool_iff; lra). congruence.
  - apply Qle_bool_iff in B.
    assert (X : ~ t <= m) by (rewrite <- Qle_bool_iff; congruence).
    assert (Y : Qle_bool q t = true) by (apply Qle_bool_iff; lra). congruence.
Qed.

Lemma max_over_reaches (q : Q) (entries : list psutil.shwtemp) :
  forall m : option Q,
    Qge_bool (HealthChecker.temp_value (HealthChecker.max_over m entries)) q
    = Qge_bool (HealthChecker.temp_value m) q
      || existsb (fun t => Qge_bool t q) (map psutil.current entries).
Proof.
  unfold HealthChecker.max_over.
  induction entries as [| entry rest IH]; intros m; cbn [fold_left map existsb].
  - now rewrite orb_false_r.
  - rewrite IH, orb_assoc. f_equal.
    rewrite <- Qge_bool_step.
    destruct (Qgt_bool (psutil.current entry) (HealthChecker.temp_value m));
      reflexivity.
Qed.

Lemma hottest_reaches (q : Q) (temps : list (string * list psutil.shwtemp)) :
  forall m : option Q,
    Qge_bool
      (HealthChecker.temp_value
         (fold_left (fun m item => HealthChecker.max_over m (snd item)) temps m)) q
    = Qge_bool (HealthChecker.temp_value m) q
      || existsb (fun t => Qge_bool t q) (readings temps).
Proof.
  induction temps as [| item rest IH]; intros m; cbn [fold_left].
  - cbn. now rewrite orb_false_r.
  - rewrite IH, max_over_reaches. unfold readings. cbn [flat_map].
    fold (readings rest). rewrite existsb_app, orb_assoc. reflexivity.
Qed.

(** What [check_cpu_temperature] says about the sensors [temps] of the
    machine, when there are some: the result is Fail when a reading of some
    sensor is at least 90, otherwise Warn when one is at least 75, otherwise
    Pass; it never offers a fix. *)
Theorem cpu_temperature_verdict (sys : System)
    (temps : list (string * list psutil.shwtemp)) :
  psutil_sensors_temperatures sys = Returned temps ->
  temps <> [] ->
  exists r : CheckResult,
    HealthChecker.check_cpu_temperature sys = Returned r
    /\ status r
       = (if existsb (fun t => Qge_bool t 90) (readings temps) then FAIL
          else if existsb (fun t => Qge_bool t 75) (readings temps) then WARN
          else PASS)
    /\ fix_available r = false.
Proof.
  intros E N. unfold HealthChecker.check_cpu_temperature. rewrite E.
  cbn [bind try_except].
  destruct temps as [| item rest]; [now elim N |]. cbn [nonempty negb].
  rewrite !hottest_reaches. cbn [HealthChecker.temp_value].
  change (Qge_bool 0 90) with false. change (Qge_bool 0 75) with false.
  cbn [orb].
  destruct (existsb (fun t => Qge_bool t 90) (readings (item :: rest))).
  - eexists. split; [reflexivity | split; reflexivity].
  - destruct (existsb (fun t => Qge_bool t 75) (readings (item :: rest)));
      eexists; (split; [reflexivity | split; reflexivity]).
Qed.

Lemma cpu_temperature_verdict_crowded :
  psutil_sensors_temperatures crowded_system
  = Returned
      [ ("coretemp", [ {| psutil.current := 61 |}; {| psutil.current := 78 |} ]);
        ("acpitz", [ {| psutil.current := 45 |} ]) ]
  /\ exists r : CheckResult,
       HealthChecker.check_cpu_temperature crowded_system = Returned r
       /\ status r = WARN.
Proof.
  split; [reflexivity |].
  destruct (cpu_temperature_verdict crowded_system _ eq_refl
              ltac:(discriminate)) as [r [A [B _]]].
  exists r. split; [exact A | exact B].
Defined.

(** ** Who asks, and who runs *)

Lemma quiet_ret {M A : Type} (a : A) : quiet (@ret M A a).
Proof. intros w. split; [reflexivity |]. exists []. cbn. now rewrite app_nil_r. Qed.

Lemma quiet_bind {M A B : Type} (m : Fix M A) (k : A -> Fix M B) :
  quiet m -> (forall a, quiet (k a)) -> quiet (bindF m k).
Proof.
  intros Hm Hk w. unfold bindF. destruct (Hm w) as [A1 [L1 C1]].
  destruct (m w) as [[a | e] w1]; cbn [fst snd] in *.
  - destruct (Hk a w1) as [A2 [L2 C2]]. split; [congruence |].
    exists (L1 ++ L2)%list. rewrite C2, C1, app_assoc. reflexivity.
  - split; [exact A1 | exists L1; exact C1].
Qed.

Lemma quiet_run {M : Type} (h : Host M) (cmd : list string) (flag : bool)
    (timeout : nat) : quiet (run_fix_command h cmd flag timeout).
Proof.
  intros w. unfold run_fix_command.
  destruct (exec h (if flag then "sudo" :: cmd else cmd) timeout (machine w))
    as [[res | e] m'].
  - split; [reflexivity | eexists; reflexivity].
  - destruct (is_class TimeoutExpired e); [| destruct (is_class FileNotFoundError e)];
      (split; [reflexivity | eexists; reflexivity]).
Qed.

Lemma quiet_path_exists {M : Type} (h : Host M) (p : string) : quiet (path_exists h p).
Proof. intros w. split; [reflexivity |]. exists []. cbn. now rewrite app_nil_r. Qed.

Ltac quiet_step :=
  first
    [ apply quiet_ret
    | apply quiet_run
    | apply quiet_path_exists
    | apply quiet_bind; [| intros ?]
    | match goal with
      | |- quiet (if ?b then _ else _) => destruct b
      | |- quiet (match ?x with _ => _ end) => destruct x
      end ].

Ltac quiet_all := repeat quiet_step.

Section Quiet.
Context {M : Type} (h : Host M).

Lemma quiet_clean_steps (steps : list (string * list string)) :
  forall cleaned failed, quiet (HealthFixer.clean_steps h steps cleaned failed).
Proof.
  induction steps as [| [desc cmd] rest IH]; intros cleaned failed;
    cbn [HealthFixer.clean_steps]; unfold HealthFixer._run_command.
  - apply quiet_ret.
  - quiet_all; apply IH.
Qed.

Lemma quiet_repair_steps (steps : list (string * list string)) :
  quiet (HealthFixer.repair_steps h steps).
Proof.
  induction steps as [| [desc cmd] rest IH];
    cbn [HealthFixer.repair_steps]; unfold HealthFixer._run_command.
  - apply quiet_ret.
  - quiet_all; apply IH.
Qed.

Lemma quiet_swap_steps (swapfile : string) (steps : list (string * list string)) :
  quiet (HealthFixer.swap_steps h swapfile steps).
Proof.
  induction steps as [| [desc cmd] rest IH];
    cbn [HealthFixer.swap_steps]; unfold HealthFixer._run_command.
  - apply quiet_ret.
  - quiet_all; apply IH.
Qed.

Lemma quiet_add_to_fstab (swapfile fstab_entry : string) :
  quiet (HealthFixer.add_to_fstab h swapfile fstab_entry).
Proof.
  intros w. unfold HealthFixer.add_to_fstab.
  destruct (append h "/etc/fstab" fstab_entry (machine w)) as [[u | e] m'].
  - split; [reflexivity |]. exists []. cbn. now rewrite app_nil_r.
  - destruct (is_class PermissionError e).
    + match goal with
      | |- context [bindF ?m ?k ?w0] =>
          assert (Q : quiet (bindF m k))
            by (unfold HealthFixer._run_command; quiet_all);
          exact (Q w0)
      end.
    + split; [reflexivity |]. exists []. cbn. now rewrite app_nil_r.
Qed.

Lemma quiet_nvidia_steps (steps : list (string * list string)) :
  quiet (DriverFixer.nvidia_steps h steps).
Proof.
  induction steps as [| [desc cmd] rest IH];
    cbn [DriverFixer.nvidia_steps]; unfold DriverFixer._run_command.
  - apply quiet_ret.
  - quiet_all; apply IH.
Qed.

Lemma quiet_bluetooth_steps (steps : list (string * list string)) :
  quiet (DriverFixer.bluetooth_steps h steps).
Proof.
  induction steps as [| [desc cmd] rest IH];
    cbn [DriverFixer.bluetooth_steps]; unfold DriverFixer._run_command.
  - apply quiet_ret.
  - quiet_all; apply IH.
Qed.

Lemma quiet_firewall_steps (steps : list (string * list string)) :
  quiet (SecurityFixer.firewall_steps h steps).
Proof.
  induction steps as [| [desc cmd] rest IH];
    cbn [SecurityFixer.firewall_steps]; unfold SecurityFixer._run_command.
  - apply quiet_ret.
  - quiet_all; apply IH.
Qed.

Lemma quiet_write_settings (ssh_config : string) (settings : list (string * string)) :
  quiet (SecurityFixer.write_settings h ssh_config settings).
Proof.
  induction settings as [| [key value] rest IH];
    cbn [SecurityFixer.write_settings]; unfold SecurityFixer._run_command.
  - apply quiet_ret.
  - quiet_all; apply IH.
Qed.

Lemma quiet_chmod_files (files : list (string * string)) :
  forall fixed, quiet (SecurityFixer.chmod_files h files fixed).
Proof.
  induction files as [| [filepath mode] rest IH]; intros fixed;
    cbn [SecurityFixer.chmod_files]; unfold SecurityFixer._run_command.
  - apply quiet_ret.
  - quiet_all; apply IH.
Qed.

Lemma quiet_flatpak_steps (steps : list (string * list string)) :
  quiet (DesktopFixer.flatpak_steps h steps).
Proof.
  induction steps as [| [desc cmd] rest IH];
    cbn [DesktopFixer.flatpak_steps]; unfold DesktopFixer._run_command.
  - apply quiet_ret.
  - cbv zeta. quiet_all; apply IH.
Qed.

Lemma quiet_disable_all (extensions : list string) :
  quiet (DesktopFixer.disable_all h extensions).
Proof.
  induction extensions as [| ext rest IH];
    cbn [DesktopFixer.disable_all]; unfold DesktopFixer._run_command.
  - apply quiet_ret.
  - quiet_all; apply IH.
Qed.

Lemma quiet_enable_all (extensions : list string) :
  forall enabled, quiet (DesktopFixer.enable_all h extensions enabled).
Proof.
  induction extensions as [| ext rest IH]; intros enabled;
    cbn [DesktopFixer.enable_all]; unfold DesktopFixer._run_command.
  - apply quiet_ret.
  - quiet_all; apply IH.
Qed.

Ltac quiet_handler :=
  repeat first
    [ quiet_step
    | apply quiet_clean_steps | apply quiet_repair_steps | apply quiet_swap_steps
    | apply quiet_add_to_fstab | apply quiet_nvidia_steps
    | apply quiet_bluetooth_steps | apply quiet_firewall_steps
    | apply quiet_write_settings | apply quiet_chmod_files
    | apply quiet_flatpak_steps | apply quiet_disable_all | apply quiet_enable_all ].

Lemma health_handlers_quiet :
  Forall (fun kv => quiet (snd kv)) (HealthFixer.fix_map h).
Proof.
  unfold HealthFixer.fix_map.
  repeat apply Forall_cons; try apply Forall_nil; cbn [snd];
    unfold HealthFixer.fix_disk_space, HealthFixer.fix_failed_units,
      HealthFixer.fix_dnf_issues, HealthFixer.fix_orphaned_packages,
      HealthFixer.create_swap, HealthFixer._run_command;
    cbv zeta; quiet_handler.
Qed.

Lemma driver_handlers_quiet :
  Forall (fun kv => quiet (snd kv)) (DriverFixer.fix_map h).
Proof.
  unfold DriverFixer.fix_map.
  repeat apply Forall_cons; try apply Forall_nil; cbn [snd];
    unfold DriverFixer.install_nvidia_driver, DriverFixer.install_wifi_firmware,
      DriverFixer.install_audio_drivers, DriverFixer.enable_bluetooth,
      DriverFixer.update_firmware, DriverFixer.install_hw_acceleration,
      DriverFixer._run_command;
    cbv zeta; quiet_handler.
Qed.

Lemma security_handlers_quiet :
  Forall (fun kv => quiet (snd kv)) (SecurityFixer.fix_map h).
Proof.
  unfold SecurityFixer.fix_map.
  repeat apply Forall_cons; try apply Forall_nil; cbn [snd];
    unfold SecurityFixer.enable_firewall, SecurityFixer.enforce_selinux,
      SecurityFixer.harden_ssh, SecurityFixer.install_fail2ban,
      SecurityFixer.enable_auto_updates, SecurityFixer.install_clamav,
      SecurityFixer.fix_file_permissions, SecurityFixer._run_command;
    cbv zeta; quiet_handler.
Qed.

Lemma desktop_handlers_quiet :
  Forall (fun kv => quiet (snd kv)) (DesktopFixer.fix_map h).
Proof.
  unfold DesktopFixer.fix_map.
  repeat apply Forall_cons; try apply Forall_nil; cbn [snd];
    unfold DesktopFixer.install_fonts, DesktopFixer.install_flatpak,
      DesktopFixer.install_portals, DesktopFixer.fix_gnome_extensions,
      DesktopFixer.configure_display_manager, DesktopFixer._run_command;
    cbv zeta; quiet_handler.
Qed.
End Quiet.

Lemma fix_map_get_In {H : Type} (fix_map : list (string * H)) (key : string) (f : H) :
  fix_map_get fix_map key = Some f -> In (key, f) fix_map.
Proof.
  unfold fix_map_get. destruct (find _ fix_map) as [[k v] |] eqn:E; [| discriminate].
  intros X. injection X as <-. apply find_some in E. destruct E as [I K].
  cbn [fst] in K. apply String.eqb_eq in K. subst k. exact I.
Qed.

Lemma generic_fix_asks {M : Type} (h : Host M)
    (run : list string -> bool -> Fix M (bool * string)) (r : CheckResult)
    (w w0 : World M) (first : bool) :
  (forall cmd flag, quiet (run cmd flag)) ->
  asked w0 = (asked w ++ (if first then [handler_prompt r] else []))%list ->
  calls w0 = calls w ->
  (exists P, In P (dispatcher_prompts r)
             /\ asked (snd (generic_fix h run r w0)) = (asked w ++ P)%list)
  /\ exists L, calls (snd (generic_fix h run r w0)) = (calls w ++ L)%list.
Proof.
  intros Q A C. unfold generic_fix.
  assert (I0 : In (if first then [handler_prompt r] else [])
                 (dispatcher_prompts r))
    by (destruct first; cbn; tauto).
  assert (I1 : In ((if first then [handler_prompt r] else []) ++ [command_prompt r])%list
                 (dispatcher_prompts r))
    by (destruct first; cbn; tauto).
  destruct (PyStr.truthy (fix_command r)).
  - fold (command_prompt r). cbv beta delta [bindF Confirm_ask ret] iota.
    destruct (answer h (length (asked w0)) (command_prompt r)).
    + match goal with
      | |- context [run ?c ?f ?w1] =>
          destruct (Q c f w1) as [A1 [L1 C1]];
          destruct (run c f w1) as [[[s o] | e] w2]
      end; cbn [fst snd asked calls] in *;
        (split;
         [ eexists; split; [exact I1 | rewrite A1, A, <- app_assoc; reflexivity]
         | exists L1; rewrite C1, C; reflexivity ]).
    + cbn [snd asked calls]. split.
      * eexists. split; [exact I1 |]. rewrite A, <- app_assoc. reflexivity.
      * exists []. rewrite C, app_nil_r. reflexivity.
  - unfold ret. cbn [snd]. split.
    + eexists. split; [exact I0 | exact A].
    + exists []. rewrite C, app_nil_r. reflexivity.
Qed.

Lemma dispatch_asks {M : Type} (h : Host M)
    (run : list string -> bool -> Fix M (bool * string))
    (fix_map : list (string * Fix M FixResult)) (r : CheckResult) (w : World M) :
  (forall cmd flag, quiet (run cmd flag)) ->
  Forall (fun kv => quiet (snd kv)) fix_map ->
  asks_as_dispatcher r (dispatch h run fix_map r) w.
Proof.
  intros Q F. unfold asks_as_dispatcher, dispatch.
  destruct (fix_map_get fix_map (name r)) as [fix_func |] eqn:G.
  - apply fix_map_get_In in G. rewrite Forall_forall in F.
    pose proof (F _ G) as Qf. cbn [snd] in Qf.
    fold (handler_prompt r). cbv beta delta [bindF Confirm_ask ret] iota.
    destruct (answer h (length (asked w)) (handler_prompt r)).
    + match goal with
      | |- context [fix_func ?w1] =>
          destruct (Qf w1) as [A1 [L1 C1]];
          destruct (fix_func w1) as [[a | e] w2]
      end; cbn [fst snd asked calls] in *;
        (split;
         [ exists [handler_prompt r]; split; [cbn; tauto | exact A1]
         | exists L1; exact C1 ]).
    + apply (generic_fix_asks h run r w _ true Q); reflexivity.
  - apply (generic_fix_asks h run r w w false Q);
      [cbn; now rewrite app_nil_r | reflexivity].
Qed.

Lemma nothing_asked {M A : Type} (r : CheckResult) (f : Fix M A) (w : World M) :
  quiet f -> asks_as_dispatcher r f w.
Proof.
  intros Q. destruct (Q w) as [E C]. split; [| exact C].
  exists []. split; [cbn; tauto | now rewrite app_nil_r].
Qed.

(** Only the dispatchers ask.  None of the handlers the four dispatchers can
    run asks the user anything: a handler only adds calls of commands.  A call
    of [apply_fix] therefore shows at most two prompts, the one for the named
    handler and then the one for the literal command, and whatever it runs
    only adds to the calls made before. *)
Theorem only_the_dispatchers_ask {M : Type} (h : Host M) (r : CheckResult)
    (w : World M) :
  Forall (fun kv => quiet (snd kv))
    (HealthFixer.fix_map h ++ DriverFixer.fix_map h
     ++ SecurityFixer.fix_map h ++ DesktopFixer.fix_map h)
  /\ asks_as_dispatcher r (HealthFixer.apply_fix h r) w
  /\ asks_as_dispatcher r (DriverFixer.apply_fix h r) w
  /\ asks_as_dispatcher r (SecurityFixer.apply_fix h r) w
  /\ asks_as_dispatcher r (DesktopFixer.apply_fix h r) w.
Proof.
  split; [| split; [| split; [| split]]].
  - repeat (apply Forall_app; split).
    + apply health_handlers_quiet.
    + apply driver_handlers_quiet.
    + apply security_handlers_quiet.
    + apply desktop_handlers_quiet.
  - unfold HealthFixer.apply_fix. destruct (fix_available r); cbn [negb].
    + apply dispatch_asks; [intros; apply quiet_run | apply health_handlers_quiet].
    + apply nothing_asked, quiet_ret.
  - unfold DriverFixer.apply_fix. destruct (fix_available r); cbn [negb];
      [| apply nothing_asked, quiet_ret].
    assert (D : asks_as_dispatcher r
                  (dispatch h
                     (fun cmd sudo => DriverFixer._run_command h cmd sudo 300)
                     (DriverFixer.fix_map h) r) w)
      by (apply dispatch_asks; [intros; apply quiet_run | apply driver_handlers_quiet]).
    pose proof (driver_handlers_quiet h) as Q. rewrite Forall_forall in Q.
    destruct (PyStr.contains "blocked" (PyStr.lower (message r))); [| exact D].
    destruct (PyStr.contains "wifi" (PyStr.lower (name r))).
    { apply nothing_asked, quiet_bind; [| intros; apply quiet_ret].
      unfold DriverFixer.unblock_wifi, DriverFixer._run_command. quiet_all. }
    destruct (PyStr.contains "bluetooth" (PyStr.lower (name r))); [| exact D].
    apply nothing_asked, quiet_bind; [| intros; apply quiet_ret].
    exact (Q ("Bluetooth", DriverFixer.enable_bluetooth h)
             ltac:(cbn; tauto)).
  - unfold SecurityFixer.apply_fix. destruct (fix_available r); cbn [negb].
    + apply dispatch_asks; [intros; apply quiet_run | apply security_handlers_quiet].
    + apply nothing_asked, quiet_ret.
  - unfold DesktopFixer.apply_fix. destruct (fix_available r); cbn [negb].
    + apply dispatch_asks; [intros; apply quiet_run | apply desktop_handlers_quiet].
    + apply nothing_asked, quiet_ret.
Qed.

(** The dispatchers of the health, security and desktop fixers, and the
    dispatcher of the driver fixer on a result whose message does not say
    [blocked], run nothing for a user who declines every prompt: the result is
    [None], no command was called and the machine is as it was. *)
Theorem declined_fixes_run_nothing {M : Type} (h : Host M) (r : CheckResult)
    (w : World M) :
  declines_all h ->
  (exists w', HealthFixer.apply_fix h r w = (Returned None, w') /\ only_asked w w')
  /\ (exists w',
         SecurityFixer.apply_fix h r w = (Returned None, w') /\ only_asked w w')
  /\ (exists w',
         DesktopFixer.apply_fix h r w = (Returned None, w') /\ only_asked w w')
  /\ (PyStr.contains "blocked" (PyStr.lower (message r)) = false ->
      exists w',
        DriverFixer.apply_fix h r w = (Returned None, w') /\ only_asked w w').
Proof.
  intros D.
  split; [exact (health_apply_fix_declined h r w D) |].
  split; [exact (security_apply_fix_declined h r w D) |].
  split; [exact (desktop_apply_fix_declined h r w D) |].
  intros B. exact (driver_apply_fix_declined h r w D B).
Qed.

Lemma declined_fixes_run_nothing_disk_full :
  declines_all (scripted_host (fun _ => true) (fun _ => false))
  /\ exists w',
       HealthFixer.apply_fix (scripted_host (fun _ => true) (fun _ => false))
         disk_full fresh
       = (Returned None, w')
       /\ only_asked fresh w'.
Proof.
  assert (D : declines_all (scripted_host (fun _ => true) (fun _ => false)))
    by (intros k p; reflexivity).
  split; [exact D |].
  exact (proj1 (declined_fixes_run_nothing
                  (scripted_host (fun _ => true) (fun _ => false))
                  disk_full fresh D)).
Defined.

(** ** Moving the selection of a menu *)

Lemma py_index_in_range {A : Type} (xs : list A) (i : Z) :
  (0 <= i < Z.of_nat (length xs))%Z ->
  exists x, py_index xs i = Returned x /\ nth_error xs (Z.to_nat i) = Some x.
Proof.
  intros R. unfold py_index.
  destruct (Z.ltb_spec i 0) as [N | _]; [lia |].
  destruct (Z.leb_spec 0 i) as [_ | N]; [| lia].
  destruct (Z.ltb_spec i (Z.of_nat (length xs))) as [_ | N]; [| lia].
  cbn [andb].
  destruct (nth_error xs (Z.to_nat i)) as [x |] eqn:E.
  - exists x. split; reflexivity.
  - apply nth_error_None in E. lia.
Qed.

Lemma py_mod_pos (a n : Z) : (0 < n)%Z -> py_mod a n = Returned (a mod n)%Z.
Proof.
  intros H. unfold py_mod. destruct (Z.eqb_spec n 0); [lia | reflexivity].
Qed.

Section Moves.
Variable items : list Menu.MenuItem.
Variable step : Z.
Let n : Z := Z.of_nat (length items).
Hypothesis n_pos : (0 < n)%Z.

Lemma walk_step (i : Z) (k : nat) :
  (((i + step) mod n + step * Z.of_nat k) mod n
   = (i + step * Z.of_nat (S k)) mod n)%Z.
Proof.
  rewrite Zplus_mod_idemp_l. f_equal. lia.
Qed.

(** The loop stops at the first enabled position on its way. *)
Lemma skip_first (k : nat) :
  forall (fuel : nat) (i : Z),
    (0 <= i < n)%Z -> (k < fuel)%nat ->
    (forall k' : nat, (k' < k)%nat ->
       enabled_at items ((i + step * Z.of_nat k') mod n)%Z = false) ->
    enabled_at items ((i + step * Z.of_nat k) mod n)%Z = true ->
    Menu.skip_disabled fuel step items i
    = Some (Returned ((i + step * Z.of_nat k) mod n)%Z).
Proof.
  induction k as [| k IH]; intros fuel i R F D E;
    (destruct fuel as [| fuel]; [lia |]); cbn [Menu.skip_disabled].
  - replace (i + step * Z.of_nat 0)%Z with i in * by lia.
    rewrite Z.mod_small in * by exact R.
    unfold enabled_at in E.
    destruct (py_index items i) as [item | e]; [| discriminate].
    rewrite E. reflexivity.
  - pose proof (D 0%nat ltac:(lia)) as D0.
    replace (i + step * Z.of_nat 0)%Z with i in D0 by lia.
    rewrite Z.mod_small in D0 by exact R.
    unfold enabled_at in D0.
    destruct (py_index_in_range items i R) as [item [P _]].
    rewrite P in *. rewrite D0.
    fold n. rewrite (py_mod_pos _ _ n_pos).
    rewrite (IH fuel ((i + step) mod n)%Z).
    + now rewrite walk_step.
    + apply Z.mod_pos_bound, n_pos.
    + lia.
    + intros k' Hk. rewrite walk_step. apply D. lia.
    + rewrite walk_step. exact E.
Qed.

(** With no enabled item the loop does not end, whatever the fuel. *)
Lemma skip_none (fuel : nat) :
  forall i : Z,
    (0 <= i < n)%Z ->
    (forall j, (0 <= j < n)%Z -> enabled_at items j = false) ->
    Menu.skip_disabled fuel step items i = None.
Proof.
  induction fuel as [| fuel IH]; intros i R D; cbn [Menu.skip_disabled];
    [reflexivity |].
  pose proof (D i R) as Di. unfold enabled_at in Di.
  destruct (py_index_in_range items i R) as [item [P _]].
  rewrite P in *. rewrite Di. fold n. rewrite (py_mod_pos _ _ n_pos).
  apply IH; [apply Z.mod_pos_bound, n_pos | exact D].
Qed.
End Moves.

Lemma first_such (P : nat -> bool) (k0 : nat) :
  P k0 = true ->
  exists k : nat,
    (k <= k0)%nat /\ P k = true /\ forall k', (k' < k)%nat -> P k' = false.
Proof.
  induction k0 as [k0 IH] using lt_wf_ind. intros H.
  destruct (forallb (fun k' => negb (P k')) (seq 0 k0)) eqn:A.
  - exists k0. split; [lia |]. split; [exact H |].
    intros k' Hk. rewrite forallb_forall in A.
    specialize (A k' ltac:(apply in_seq; lia)). now apply negb_true_iff.
  - assert (X : exists k1, (k1 < k0)%nat /\ P k1 = true).
    { apply not_true_iff_false in A.
      destruct (existsb P (seq 0 k0)) eqn:B.
      - apply existsb_exists in B. destruct B as [k1 [I T]].
        apply in_seq in I. exists k1. split; [lia | exact T].
      - exfalso. apply A. apply forallb_forall. intros k1 I.
        apply negb_true_iff. apply not_true_iff_false. intros T.
        assert (Y : existsb P (seq 0 k0) = true)
          by (apply existsb_exists; exists k1; split; assumption).
        congruence. }
    destruct X as [k1 [L T]]. destruct (IH k1 L T) as [k [K1 [K2 K3]]].
    exists k. split; [lia |]. split; assumption.
Qed.

Lemma some_enabled (items : list Menu.MenuItem) :
  existsb Menu.enabled items = true ->
  exists e : Z, (0 <= e < Z.of_nat (length items))%Z /\ enabled_at items e = true.
Proof.
  intros H. apply existsb_exists in H. destruct H as [item [I E]].
  apply In_nth_error in I. destruct I as [m N].
  assert (L : (m < length items)%nat) by (apply nth_error_Some; congruence).
  exists (Z.of_nat m). split; [lia |].
  unfold enabled_at.
  destruct (py_index_in_range items (Z.of_nat m) ltac:(lia)) as [x [P Q]].
  rewrite Nat2Z.id in Q. rewrite P. congruence.
Qed.

Lemma none_enabled (items : list Menu.MenuItem) :
  existsb Menu.enabled items = false ->
  forall j, (0 <= j < Z.of_nat (length items))%Z -> enabled_at items j = false.
Proof.
  intros H j R. unfold enabled_at.
  destruct (py_index_in_range items j R) as [x [P Q]]. rewrite P.
  destruct (Menu.enabled x) eqn:E; [| reflexivity].
  assert (X : existsb Menu.enabled items = true).
  { apply existsb_exists. exists x. split; [| exact E].
    eapply nth_error_In. exact Q. }
  congruence.
Qed.

Lemma reach (n i e step : Z) :
  (0 < n)%Z -> (0 <= e < n)%Z -> step = 1%Z \/ step = (-1)%Z ->
  ((i + step * (((e - i) * step) mod n)) mod n = e)%Z.
Proof.
  intros N R [-> | ->].
  - replace (i + 1 * (((e - i) * 1) mod n))%Z with (i + ((e - i) mod n))%Z
      by (f_equal; rewrite Z.mul_1_l; f_equal; lia).
    rewrite Zplus_mod_idemp_r. replace (i + (e - i))%Z with e by lia.
    now apply Z.mod_small.
  - replace (i + -1 * (((e - i) * -1) mod n))%Z with (i - ((i - e) mod n))%Z.
    + rewrite Zminus_mod_idemp_r. replace (i - (i - e))%Z with e by lia.
      now apply Z.mod_small.
    + replace ((e - i) * -1)%Z with (i - e)%Z by lia. lia.
Qed.

(** One move over a menu with an enabled item, in steps of 1 or -1. *)
Lemma move_lands (self : Menu.t) (step : Z) :
  step = 1%Z \/ step = (-1)%Z ->
  existsb Menu.enabled (Menu.items self) = true ->
  exists j : Z,
    Menu.move step self = Done (Menu.select_index self j)
    /\ (0 <= j < Z.of_nat (length (Menu.items self)))%Z
    /\ next_enabled (Menu.items self) step (Menu.selected_index self) j.
Proof.
  intros Hs H. destruct (some_enabled _ H) as [e [Re Ee]].
  set (n := Z.of_nat (length (Menu.items self))) in *.
  assert (n_pos : (0 < n)%Z) by lia.
  set (s := Menu.selected_index self).
  set (i0 := ((s + step) mod n)%Z).
  assert (R0 : (0 <= i0 < n)%Z) by (apply Z.mod_pos_bound, n_pos).
  (* some number of steps below [n] leads from [i0] to [e] *)
  set (k0 := Z.to_nat (((e - i0) * step) mod n)%Z).
  assert (B0 : (0 <= ((e - i0) * step) mod n < n)%Z)
    by (apply Z.mod_pos_bound, n_pos).
  assert (E0 : ((i0 + step * Z.of_nat k0) mod n = e)%Z).
  { unfold k0. rewrite Z2Nat.id by lia. now apply reach. }
  destruct (first_such
              (fun k => enabled_at (Menu.items self)
                          ((i0 + step * Z.of_nat k) mod n)%Z) k0)
    as [k [K1 [K2 K3]]]; [cbv beta; rewrite E0; exact Ee |].
  cbv beta in K2, K3.
  exists ((i0 + step * Z.of_nat k) mod n)%Z.
  assert (Kn : (k < length (Menu.items self))%nat) by (unfold k0 in K1; lia).
  split; [| split].
  - unfold Menu.move. fold n s. rewrite (py_mod_pos _ _ n_pos). fold i0.
    assert (Kf : (k < S (length (Menu.items self)))%nat) by lia.
    rewrite (skip_first (Menu.items self) step n_pos k _ i0 R0 Kf K3 K2).
    reflexivity.
  - apply Z.mod_pos_bound, n_pos.
  - exists (S k). split; [lia |].
    assert (W : forall m : nat,
               ((i0 + step * Z.of_nat m) mod n
                = (s + step * Z.of_nat (S m)) mod n)%Z)
      by (intros m; unfold i0; apply walk_step).
    fold n s. split; [apply W |]. split; [exact K2 |].
    intros k' Hk. destruct k' as [| k']; [lia |].
    rewrite <- W. apply K3. lia.
Qed.

(** A move back from where a move landed returns to an enabled start. *)
Lemma move_back (self : Menu.t) (step j : Z) :
  (0 <= Menu.selected_index self < Z.of_nat (length (Menu.items self)))%Z ->
  enabled_at (Menu.items self) (Menu.selected_index self) = true ->
  next_enabled (Menu.items self) step (Menu.selected_index self) j ->
  Menu.move (- step) (Menu.select_index self j) = Done self.
Proof.
  intros R E [k [[K1 K2] [-> [Ej D]]]].
  set (n := Z.of_nat (length (Menu.items self))) in *.
  set (s := Menu.selected_index self) in *.
  assert (n_pos : (0 < n)%Z) by lia.
  assert (W : forall m : nat,
             ((((s + step * Z.of_nat k) mod n + - step) mod n
               + - step * Z.of_nat m) mod n
              = (s + step * (Z.of_nat k - 1 - Z.of_nat m)) mod n)%Z).
  { intros m. rewrite Zplus_mod_idemp_l, <- Z.add_assoc, Zplus_mod_idemp_l.
    f_equal. lia. }
  assert (T : ((((s + step * Z.of_nat k) mod n + - step) mod n
                + - step * Z.of_nat (k - 1)) mod n = s)%Z).
  { rewrite W.
    replace (Z.of_nat k - 1 - Z.of_nat (k - 1))%Z with 0%Z by lia.
    replace (s + step * 0)%Z with s by lia.
    now apply Z.mod_small. }
  unfold Menu.move. cbn [Menu.selected_index Menu.items Menu.select_index].
  fold n. rewrite (py_mod_pos _ _ n_pos).
  assert (Kf : (k - 1 < S (length (Menu.items self)))%nat) by lia.
  rewrite (skip_first (Menu.items self) (- step) n_pos (k - 1) _ _
             ltac:(apply Z.mod_pos_bound, n_pos) Kf).
  - fold n. rewrite T. unfold s. destruct self; reflexivity.
  - intros k' Hk. fold n. rewrite W.
    replace (Z.of_nat k - 1 - Z.of_nat k')%Z with (Z.of_nat (k - 1 - k')) by lia.
    apply D. lia.
  - fold n. rewrite T. exact E.
Qed.

(** What a move does.  On a menu without items it raises (the modulus is
    0); on a menu whose items are all disabled it never returns; otherwise it
    puts the selection on the next enabled item, downwards for [move_down] and
    upwards for [move_up], going around the ends of the menu, and it leaves
    the items as they are. *)
Theorem moving_the_selection (self : Menu.t) :
  (Menu.items self = [] ->
   exists e, Menu.move_down self = Throws e /\ Menu.move_up self = Throws e)
  /\ (Menu.items self <> [] ->
      existsb Menu.enabled (Menu.items self) = false ->
      Menu.move_down self = Hangs /\ Menu.move_up self = Hangs
      /\ forall (fuel : nat) (step i : Z),
           (0 <= i < Z.of_nat (length (Menu.items self)))%Z ->
           Menu.skip_disabled fuel step (Menu.items self) i = None)
  /\ (existsb Menu.enabled (Menu.items self) = true ->
      (exists j : Z,
          Menu.move_down self = Done (Menu.select_index self j)
          /\ next_enabled (Menu.items self) 1 (Menu.selected_index self) j)
      /\ exists j : Z,
           Menu.move_up self = Done (Menu.select_index self j)
           /\ next_enabled (Menu.items self) (-1) (Menu.selected_index self) j).
Proof.
  split; [| split].
  - intros E. unfold Menu.move_down, Menu.move_up, Menu.move. rewrite E.
    eexists. split; reflexivity.
  - intros N D.
    assert (n_pos : (0 < Z.of_nat (length (Menu.items self)))%Z)
      by (destruct (Menu.items self); [now elim N | cbn; lia]).
    pose proof (none_enabled _ D) as A.
    assert (S : forall (fuel : nat) (step i : Z),
               (0 <= i < Z.of_nat (length (Menu.items self)))%Z ->
               Menu.skip_disabled fuel step (Menu.items self) i = None)
      by (intros fuel step i R; now apply skip_none).
    unfold Menu.move_down, Menu.move_up, Menu.move.
    rewrite !(py_mod_pos _ _ n_pos).
    rewrite !S by (apply Z.mod_pos_bound, n_pos).
    split; [reflexivity | split; [reflexivity | exact S]].
  - intros H. split.
    + destruct (move_lands self 1 (or_introl eq_refl) H) as [j [A [_ B]]].
      exists j. split; assumption.
    + destruct (move_lands self (-1) (or_intror eq_refl) H) as [j [A [_ B]]].
      exists j. split; assumption.
Qed.

(** On an enabled item, [move_down] and [move_up] undo each other,
    whichever items are disabled. *)
Theorem moves_undo_each_other (self : Menu.t) :
  (0 <= Menu.selected_index self < Z.of_nat (length (Menu.items self)))%Z ->
  enabled_at (Menu.items self) (Menu.selected_index self) = true ->
  and_then (Menu.move_down self) Menu.move_up = Done self
  /\ and_then (Menu.move_up self) Menu.move_down = Done self.
Proof.
  intros R E.
  assert (H : existsb Menu.enabled (Menu.items self) = true).
  { unfold enabled_at in E.
    destruct (py_index_in_range _ _ R) as [x [P Q]]. rewrite P in E.
    apply existsb_exists. exists x. split; [| exact E].
    eapply nth_error_In. exact Q. }
  split.
  - destruct (move_lands self 1 (or_introl eq_refl) H) as [j [A [_ B]]].
    unfold Menu.move_down. rewrite A. cbn [and_then].
    exact (move_back self 1 j R E B).
  - destruct (move_lands self (-1) (or_intror eq_refl) H) as [j [A [_ B]]].
    unfold Menu.move_up. rewrite A. cbn [and_then].
    exact (move_back self (-1) j R E B).
Qed.

Lemma moves_undo_each_other_gapped :
  (0 <= Menu.selected_index gapped_menu
   < Z.of_nat (length (Menu.items gapped_menu)))%Z
  /\ enabled_at (Menu.items gapped_menu) (Menu.selected_index gapped_menu) = true
  /\ Menu.move_down gapped_menu = Done (Menu.select_index gapped_menu 2)
  /\ and_then (Menu.move_down gapped_menu) Menu.move_up = Done gapped_menu.
Proof.
  assert (R : (0 <= Menu.selected_index gapped_menu
               < Z.of_nat (length (Menu.items gapped_menu)))%Z)
    by (cbn; lia).
  split; [exact R |]. split; [reflexivity |]. split; [reflexivity |].
  exact (proj1 (moves_undo_each_other gapped_menu R eq_refl)).
Defined.

(** ** Running a menu *)

Lemma move_keeps_items (step : Z) (menu menu' : Menu.t) :
  Menu.move step menu = Done menu' -> Menu.items menu' = Menu.items menu.
Proof.
  unfold Menu.move.
  destruct (py_mod _ _) as [i | e]; [| discriminate].
  destruct (Menu.skip_disabled _ _ _ _) as [[j | e] |]; try discriminate.
  intros H. injection H as <-. reflexivity.
Qed.

Lemma ended_well_later (menu menu' : Menu.t) (key : string) (rest : list string)
    (r : MenuRun) :
  Menu.items menu' = Menu.items menu ->
  ended_well menu' rest r -> ended_well menu (key :: rest) r.
Proof.
  intros E. destruct r as [choice m rest' | m | e |]; cbn; try tauto.
  - rewrite E. intros [A [B [used [_ U]]]]. split; [exact A |].
    split; [exact B |]. exists (key :: used). split; [discriminate |].
    rewrite U. reflexivity.
  - congruence.
Qed.

(** What [run_menu] answers.  Whatever keys are pressed on whatever menu, a
    choice is either ["0"], the answer to Escape, [q] and Ctrl+C, or the key
    of an item of the menu; at least one key has been read for it, and the
    keys after it are left unread.  The items of the menu never change. *)
Theorem run_menu_choice (keys : list string) :
  forall menu : Menu.t, ended_well menu keys (run_menu menu keys).
Proof.
  induction keys as [| key rest IH]; intros menu; [reflexivity |].
  cbn [run_menu].
  destruct (String.eqb key "up").
  { unfold Menu.move_up.
    destruct (Menu.move (-1) menu) as [menu' | e |] eqn:E; [| exact I | exact I].
    apply (ended_well_later menu menu'); [exact (move_keeps_items _ _ _ E) | apply IH]. }
  destruct (String.eqb key "down").
  { unfold Menu.move_down.
    destruct (Menu.move 1 menu) as [menu' | e |] eqn:E; [| exact I | exact I].
    apply (ended_well_later menu menu'); [exact (move_keeps_items _ _ _ E) | apply IH]. }
  destruct (String.eqb key "enter").
  { destruct (py_index (Menu.items menu) (Menu.selected_index menu))
      as [item | e] eqn:E; [| exact I].
    cbn. split; [| split; [reflexivity | exists [key]; split; [discriminate | reflexivity]]].
    right. exists item. split; [| reflexivity].
    unfold py_index in E.
    destruct (_ && _); [| discriminate].
    destruct (nth_error _ _) as [x |] eqn:N; [| discriminate].
    injection E as <-. eapply nth_error_In. exact N. }
  destruct (String.eqb key "escape" || String.eqb key "q" || String.eqb key "ctrl+c").
  { cbn. split; [now left |].
    split; [reflexivity | exists [key]; split; [discriminate | reflexivity]]. }
  destruct (Menu.get_key_action menu key) as [item |] eqn:G.
  - destruct (Menu.index_of_key (Menu.items menu) (Menu.key item) 0) as [i |].
    + cbn. split; [| split; [reflexivity | exists [key]; split; [discriminate | reflexivity]]].
      right. exists item. split; [| reflexivity].
      unfold Menu.get_key_action in G. apply find_some in G. tauto.
    + apply (ended_well_later menu menu); [reflexivity | apply IH].
  - apply (ended_well_later menu menu); [reflexivity | apply IH].
Qed.

(** ** The main menu *)

Lemma main_menu_move (step : Z) (menu : Menu.t) :
  step = 1%Z \/ step = (-1)%Z ->
  Menu.items menu = Menu.items create_main_menu ->
  exists j, Menu.move step menu = Done (Menu.select_index menu j)
            /\ (0 <= j < 9)%Z.
Proof.
  intros S E.
  assert (H : existsb Menu.enabled (Menu.items menu) = true)
    by (rewrite E; reflexivity).
  destruct (move_lands menu step S H) as [j [A [B _]]].
  exists j. split; [exact A |]. rewrite E in B. exact B.
Qed.

Lemma main_menu_item (i : Z) :
  (0 <= i < 9)%Z ->
  exists item, py_index (Menu.items create_main_menu) i = Returned item
               /\ In (Menu.key item) main_choices.
Proof.
  intros R.
  assert (C : (i = 0 \/ i = 1 \/ i = 2 \/ i = 3 \/ i = 4 \/ i = 5 \/ i = 6
               \/ i = 7 \/ i = 8)%Z) by lia.
  repeat (destruct C as [-> | C]; [eexists; split; [reflexivity | cbn; tauto] |]).
  subst i. eexists. split; [reflexivity | cbn; tauto].
Qed.

Lemma main_menu_keys (item : Menu.MenuItem) :
  In item (Menu.items create_main_menu) ->
  In (Menu.key item) main_choices
  /\ exists i, Menu.index_of_key (Menu.items create_main_menu) (Menu.key item) 0
               = Some i
               /\ (0 <= i < 9)%Z.
Proof.
  cbn. intros H.
  repeat (destruct H as [<- | H];
          [split; [cbn; tauto | eexists; split; [reflexivity | lia]] |]).
  contradiction.
Qed.

(** The main menu always answers.  Whatever keys are pressed, [run_menu] on
    the main menu neither raises nor hangs: as long as keys come it ends with
    one of the nine choices the main loop handles, the selection staying on
    an item of the menu. *)
Theorem main_menu_always_answers (keys : list string) :
  match run_menu create_main_menu keys with
  | Chosen choice menu rest =>
      In choice main_choices
      /\ Menu.items menu = Menu.items create_main_menu
      /\ (0 <= Menu.selected_index menu < 9)%Z
  | Waiting menu =>
      Menu.items menu = Menu.items create_main_menu
      /\ (0 <= Menu.selected_index menu < 9)%Z
  | Failed _ | Stuck => False
  end.
Proof.
  assert (G : forall menu,
             Menu.items menu = Menu.items create_main_menu ->
             (0 <= Menu.selected_index menu < 9)%Z ->
             match run_menu menu keys with
             | Chosen choice menu' rest =>
                 In choice main_choices
                 /\ Menu.items menu' = Menu.items create_main_menu
                 /\ (0 <= Menu.selected_index menu' < 9)%Z
             | Waiting menu' =>
                 Menu.items menu' = Menu.items create_main_menu
                 /\ (0 <= Menu.selected_index menu' < 9)%Z
             | Failed _ | Stuck => False
             end).
  { induction keys as [| key rest IH]; intros menu E R; [split; assumption |].
    cbn [run_menu].
    destruct (String.eqb key "up").
    { unfold Menu.move_up.
      destruct (main_menu_move (-1) menu (or_intror eq_refl) E) as [j [A B]].
      rewrite A. apply IH; [exact E | exact B]. }
    destruct (String.eqb key "down").
    { unfold Menu.move_down.
      destruct (main_menu_move 1 menu (or_introl eq_refl) E) as [j [A B]].
      rewrite A. apply IH; [exact E | exact B]. }
    destruct (String.eqb key "enter").
    { rewrite E. destruct (main_menu_item _ R) as [item [P K]]. rewrite P.
      split; [exact K | split; assumption]. }
    destruct (String.eqb key "escape" || String.eqb key "q"
              || String.eqb key "ctrl+c").
    { split; [cbn; tauto | split; assumption]. }
    destruct (Menu.get_key_action menu key) as [item |] eqn:F;
      [| apply IH; assumption].
    unfold Menu.get_key_action in F. apply find_some in F.
    destruct F as [F _]. rewrite E in F.
    destruct (main_menu_keys item F) as [K [i [X Ri]]].
    rewrite E, X. split; [exact K | split; [exact E | exact Ri]]. }
  apply G; [reflexivity | cbn; lia].
Qed.

(** ** Display and report *)

(** An Error result is displayed as a Fail: the icon and the colour of the
    terminal, and the symbol and the colour of the report, tell two results
    apart exactly when their statuses differ otherwise. *)
Theorem error_displayed_as_fail (r r' : CheckResult) :
  (get_icon r = get_icon r' <-> shown_as (status r) = shown_as (status r'))
  /\ (get_color r = get_color r' <-> shown_as (status r) = shown_as (status r'))
  /\ (ReportGenerator._status_symbol (status r)
      = ReportGenerator._status_symbol (status r')
      <-> shown_as (status r) = shown_as (status r'))
  /\ (ReportGenerator._status_color (status r)
      = ReportGenerator._status_color (status r')
      <-> shown_as (status r) = shown_as (status r')).
Proof.
  unfold get_icon, get_color.
  destruct (status r), (status r'); cbn;
    repeat split; intros H; try reflexivity; try discriminate H.
Qed.

(** *** The order of the recommendations *)

Lemma insert_reverse_high {A : Type} (key : A -> bool) (x : A) (l : list A) :
  key x = true -> ReportGenerator.insert_reverse key x l = x :: l.
Proof.
  intros K. destruct l as [| y l]; [reflexivity |].
  simpl. rewrite K. now rewrite andb_false_r.
Qed.

Lemma insert_reverse_low {A : Type} (key : A -> bool) (x : A) (hs ls : list A) :
  key x = false ->
  Forall (fun y => key y = true) hs ->
  Forall (fun y => key y = false) ls ->
  ReportGenerator.insert_reverse key x (hs ++ ls) = (hs ++ x :: ls)%list.
Proof.
  intros K H L. induction H as [| y hs Ky _ IH].
  - destruct L as [| y ls Ky _]; [reflexivity |].
    simpl. now rewrite Ky.
  - simpl. rewrite Ky, K. simpl. now rewrite IH.
Qed.

(** The stable sort on a boolean key, largest first, puts the entries whose
    key holds in front and keeps the order within each group. *)
Lemma sort_reverse_partitions {A : Type} (key : A -> bool) (xs : list A) :
  ReportGenerator.sort_reverse key xs
  = (filter key xs ++ filter (fun x => negb (key x)) xs)%list.
Proof.
  induction xs as [| x xs IH]; [reflexivity |].
  unfold ReportGenerator.sort_reverse in *. simpl fold_right. rewrite IH.
  simpl filter. destruct (key x) eqn:K; simpl negb; cbv iota.
  - now apply insert_reverse_high.
  - apply insert_reverse_low; [exact K | |];
      apply Forall_forall; intros y Hy; apply filter_In in Hy;
        destruct Hy as [_ Hy]; [exact Hy | now apply negb_true_iff].
Qed.

Lemma collect_cons (c : CheckCategory) (cs : list CheckCategory) :
  ReportGenerator.collect (c :: cs)
  = (ReportGenerator.collect [c] ++ ReportGenerator.collect cs)%list.
Proof. unfold ReportGenerator.collect. simpl. now rewrite app_nil_r. Qed.

Lemma findings_cons (s : CheckStatus) (c : CheckCategory) (cs : list CheckCategory) :
  findings s (c :: cs) = (findings s [c] ++ findings s cs)%list.
Proof. unfold findings. simpl. now rewrite app_nil_r. Qed.

Lemma severity_high (c : CheckCategory) (r : CheckResult) :
  String.eqb (ReportGenerator.rec_severity (ReportGenerator.recommendation_of c r))
    "High"
  = status_eqb (status r) FAIL.
Proof.
  unfold ReportGenerator.recommendation_of. cbn [ReportGenerator.rec_severity].
  destruct (status_eqb (status r) FAIL); reflexivity.
Qed.

Lemma collect_high (cs : list CheckCategory) :
  filter (fun x => String.eqb (ReportGenerator.rec_severity x) "High")
    (ReportGenerator.collect cs)
  = findings FAIL cs.
Proof.
  induction cs as [| c cs IH]; [reflexivity |].
  rewrite collect_cons, findings_cons, filter_app, IH. f_equal.
  unfold ReportGenerator.collect, findings. simpl. rewrite !app_nil_r.
  induction (results c) as [| r rs IHr]; [reflexivity |].
  simpl. rewrite filter_app, IHr.
  assert (E : filter
                (fun x => String.eqb (ReportGenerator.rec_severity x) "High")
                (if status_eqb (status r) FAIL || status_eqb (status r) WARN
                 then [ReportGenerator.recommendation_of c r] else [])
              = if status_eqb (status r) FAIL
                then [ReportGenerator.recommendation_of c r] else []).
  { destruct (status_eqb (status r) FAIL || status_eqb (status r) WARN) eqn:C;
      cbn [filter]; [rewrite severity_high; reflexivity |].
    apply orb_false_iff in C. destruct C as [-> _]. reflexivity. }
  rewrite E. destruct (status_eqb (status r) FAIL); reflexivity.
Qed.

Lemma collect_medium (cs : list CheckCategory) :
  filter (fun x => negb (String.eqb (ReportGenerator.rec_severity x) "High"))
    (ReportGenerator.collect cs)
  = findings WARN cs.
Proof.
  induction cs as [| c cs IH]; [reflexivity |].
  rewrite collect_cons, findings_cons, filter_app, IH. f_equal.
  unfold ReportGenerator.collect, findings. simpl. rewrite !app_nil_r.
  induction (results c) as [| r rs IHr]; [reflexivity |].
  simpl. rewrite filter_app, IHr.
  assert (E : filter
                (fun x => negb (String.eqb (ReportGenerator.rec_severity x) "High"))
                (if status_eqb (status r) FAIL || status_eqb (status r) WARN
                 then [ReportGenerator.recommendation_of c r] else [])
              = if status_eqb (status r) WARN
                then [ReportGenerator.recommendation_of c r] else []).
  { destruct (status_eqb (status r) FAIL || status_eqb (status r) WARN) eqn:C;
      cbn [filter].
    - rewrite severity_high. revert C. destruct (status r); intros C;
        try reflexivity; discriminate C.
    - apply orb_false_iff in C. destruct C as [_ ->]. reflexivity. }
  rewrite E. destruct (status_eqb (status r) WARN); reflexivity.
Qed.

Lemma findings_length (s : CheckStatus) (cs : list CheckCategory) :
  length (findings s cs)
  = list_sum (map (fun c => count_status s (results c)) cs).
Proof.
  induction cs as [| c cs IH]; [reflexivity |].
  rewrite findings_cons, length_app, IH. simpl list_sum. f_equal.
  unfold findings. simpl. rewrite app_nil_r, length_map.
  unfold count_status.
  induction (filter (fun r => status_eqb (status r) s) (results c))
    as [| x xs IHx]; [reflexivity | simpl; now rewrite IHx].
Qed.

Lemma numbered {A : Type} (xs : list A) :
  map snd (combine (seq 1 (length xs)) xs) = xs
  /\ map fst (combine (seq 1 (length xs)) xs) = seq 1 (length xs).
Proof.
  generalize 1%nat. induction xs as [| x xs IH]; intros n; [split; reflexivity |].
  simpl. destruct (IH (S n)) as [E1 E2]. now rewrite E1, E2.
Qed.

Lemma list_sum_zero {A : Type} (f : A -> nat) (xs : list A) :
  list_sum (map f xs) = 0%nat <-> Forall (fun x => f x = 0%nat) xs.
Proof.
  induction xs as [| x xs IH]; [split; [constructor | reflexivity] |].
  simpl. rewrite Forall_cons_iff, <- IH. lia.
Qed.

Lemma overall_pass_iff (c : CheckCategory) :
  overall_status c = PASS <-> failed c = 0%nat /\ warnings c = 0%nat.
Proof.
  unfold overall_status.
  destruct (failed c), (warnings c); simpl; split;
    try (intros H; discriminate H); try (intros [H1 H2]; discriminate);
    try (intros _; split; reflexivity); intros _; reflexivity.
Qed.

(** The recommendations of the report are the Fail results of all
    categories in the order of the run, followed by the Warn results in the
    order of the run, numbered from 1; results of the other statuses give
    none.  So the report says that all checks passed exactly when no result
    is a Fail or a Warn, whatever the number of Error results. *)
Theorem recommendations_failures_first (categories : list CheckCategory) :
  map snd (ReportGenerator.recommendations categories)
  = (findings FAIL categories ++ findings WARN categories)%list
  /\ map fst (ReportGenerator.recommendations categories)
     = seq 1 (list_sum (map failed categories)
              + list_sum (map warnings categories))
  /\ (ReportGenerator.recommendations categories = []
      <-> Forall (fun c => overall_status c = PASS) categories).
Proof.
  unfold ReportGenerator.recommendations.
  rewrite sort_reverse_partitions, collect_high, collect_medium.
  destruct (numbered (findings FAIL categories ++ findings WARN categories))
    as [E1 E2].
  assert (L : length (findings FAIL categories ++ findings WARN categories)
              = (list_sum (map failed categories)
                 + list_sum (map warnings categories))%nat).
  { rewrite length_app, !findings_length. reflexivity. }
  split; [exact E1 |].
  split; [rewrite E2, L; reflexivity |].
  assert (P : Forall (fun c => overall_status c = PASS) categories
              <-> length (findings FAIL categories ++ findings WARN categories)
                  = 0%nat).
  { rewrite L. rewrite Nat.eq_add_0, !list_sum_zero, !Forall_forall.
    split.
    - intros H. split; intros c Hc; apply (overall_pass_iff c); auto.
    - intros [F W] c Hc. apply overall_pass_iff. auto. }
  rewrite P. split.
  - intros E. rewrite <- E1 at 1. rewrite E. reflexivity.
  - intros Z. apply length_zero_iff_nil in Z. now rewrite Z.
Qed.

(** *** The pie of a category *)

Lemma skipped_count (c : CheckCategory) :
  (total c - passed c - failed c - warnings c
   = count_status SKIP (results c) + count_status ERROR (results c))%nat.
Proof.
  unfold total, passed, failed, warnings.
  rewrite (length_by_status (results c)). lia.
Qed.

(** The pie of a category has a wedge for each of Passed, Failed, Warnings
    and Skipped that is not empty, in this order; the wedge Skipped counts
    the Skip and the Error results together, so the wedges add up to the
    number of results.  Only a category without results gives the single
    wedge [No Data]. *)
Theorem pie_of_a_category (c : CheckCategory) :
  (results c <> [] ->
   ChartGenerator.create_category_pie c
   = filter (fun w => (0 <? wedge_size w)%nat)
       [ (passed c, "Passed", ChartGenerator.COLORS_pass);
         (failed c, "Failed", ChartGenerator.COLORS_fail);
         (warnings c, "Warnings", ChartGenerator.COLORS_warn);
         ((count_status SKIP (results c) + count_status ERROR (results c))%nat,
          "Skipped", ChartGenerator.COLORS_skip) ]
   /\ list_sum (map wedge_size (ChartGenerator.create_category_pie c)) = total c)
  /\ (results c = [] ->
      ChartGenerator.create_category_pie c
      = [(1%nat, "No Data", ChartGenerator.COLORS_skip)])
  /\ Forall (fun w => (0 < wedge_size w)%nat)
       (ChartGenerator.create_category_pie c).
Proof.
  pose proof (skipped_count c) as K.
  assert (T : total c
              = (passed c + failed c + warnings c
                 + (count_status SKIP (results c)
                    + count_status ERROR (results c)))%nat).
  { unfold total, passed, failed, warnings.
    rewrite (length_by_status (results c)) at 1. lia. }
  assert (Z : results c = [] <-> total c = 0%nat)
    by (unfold total; symmetry; apply length_zero_iff_nil).
  unfold ChartGenerator.create_category_pie. cbv zeta. rewrite K.
  rewrite Z. clear Z K. revert T.
  generalize (count_status SKIP (results c) + count_status ERROR (results c))%nat.
  generalize (total c) (passed c) (failed c) (warnings c).
  intros t p f w k T.
  split; [| split].
  - intros N.
    destruct p, f, w, k; cbn; try (split; [reflexivity | lia]).
    exfalso. lia.
  - intros E.
    assert (Z : p = 0%nat /\ f = 0%nat /\ w = 0%nat /\ k = 0%nat) by lia.
    destruct Z as [-> [-> [-> ->]]]. reflexivity.
  - destruct p, f, w, k; cbn;
      repeat (apply Forall_cons; [unfold wedge_size; cbn; lia |]);
      apply Forall_nil.
Qed.

(** ** The application: fixing in bulk *)

Lemma fixable_members (self : FedChecker.Store) (n : string) (r : CheckResult) :
  In (n, r) (FedChecker.fixable self)
  <-> exists c, In c (FedChecker.dict_values self)
                /\ n = cat_name c /\ In r (results c)
                /\ fix_available r = true
                /\ (status r = FAIL \/ status r = WARN).
Proof.
  unfold FedChecker.fixable. rewrite in_flat_map. split.
  - intros [c [Hc H]]. apply in_flat_map in H. destruct H as [x [Hx H]].
    destruct (fix_available x) eqn:F; simpl in H;
      [| contradiction].
    destruct (status x) eqn:S; simpl in H; try contradiction;
      destruct H as [H | []]; injection H as <- <-;
        exists c; repeat split; auto.
  - intros [c [Hc [-> [Hr [F S]]]]]. exists c. split; [exact Hc |].
    apply in_flat_map. exists r. split; [exact Hr |].
    rewrite F. destruct S as [-> | ->]; simpl; auto.
Qed.

Lemma known_fixer {M : Type} (h : Host M) (n : string) :
  known_category n = true ->
  exists f, fix_map_get (FedChecker.fixer_map h) n = Some f
            /\ In f [HealthFixer.apply_fix h; DriverFixer.apply_fix h;
                     SecurityFixer.apply_fix h; DesktopFixer.apply_fix h].
Proof.
  unfold known_category, category_names, fix_map_get, FedChecker.fixer_map.
  cbn [existsb find fst snd].
  rewrite (String.eqb_sym n "Health Check"), (String.eqb_sym n "Driver Check"),
    (String.eqb_sym n "Security Check"), (String.eqb_sym n "Desktop Check").
  destruct (String.eqb "Health Check" n);
    [intros _; eexists; split; [reflexivity | cbn; tauto] |].
  destruct (String.eqb "Driver Check" n);
    [intros _; eexists; split; [reflexivity | cbn; tauto] |].
  destruct (String.eqb "Security Check" n);
    [intros _; eexists; split; [reflexivity | cbn; tauto] |].
  destruct (String.eqb "Desktop Check" n);
    [intros _; eexists; split; [reflexivity | cbn; tauto] |].
  intros H. discriminate H.
Qed.

Lemma unknown_fixer {M : Type} (h : Host M) (n : string) :
  known_category n = false -> fix_map_get (FedChecker.fixer_map h) n = None.
Proof.
  unfold known_category, category_names, fix_map_get, FedChecker.fixer_map.
  cbn [existsb find fst snd].
  rewrite (String.eqb_sym n "Health Check"), (String.eqb_sym n "Driver Check"),
    (String.eqb_sym n "Security Check"), (String.eqb_sym n "Desktop Check").
  destruct (String.eqb "Health Check" n); [intros H; discriminate H |].
  destruct (String.eqb "Driver Check" n); [intros H; discriminate H |].
  destruct (String.eqb "Security Check" n); [intros H; discriminate H |].
  destruct (String.eqb "Desktop Check" n); [intros H; discriminate H |].
  reflexivity.
Qed.

(** The loop counts each issue of a known category once. *)
Lemma fix_each_counts {M : Type} (h : Host M)
    (issues : list (string * CheckResult)) :
  forall (fixed failed n m : nat) (w w' : World M),
    FedChecker.fix_each h issues fixed failed w = (Returned (n, m), w') ->
    (n + m
     = fixed + failed
       + length (filter (fun ir => known_category (fst ir)) issues))%nat.
Proof.
  induction issues as [| [c r] issues IH]; intros fixed failed n m w w' H.
  - cbn in H. injection H as <- <- _. cbn. lia.
  - cbn [FedChecker.fix_each] in H. cbn [filter fst].
    destruct (known_category c) eqn:K.
    + destruct (known_fixer h c K) as [f [E _]]. rewrite E in H.
      unfold bindF in H. destruct (f r w) as [[fr | e] w1]; [| discriminate H].
      destruct (match fr with Some x => success x | None => false end);
        apply IH in H; cbn [length]; lia.
    + rewrite (unknown_fixer h c K) in H. apply IH in H. exact H.
Qed.

Lemma well_keyed_known (self : FedChecker.Store) :
  well_keyed self ->
  Forall (fun ir => known_category (fst ir) = true) (FedChecker.fixable self).
Proof.
  intros [_ W]. apply Forall_forall. intros [n r] H.
  apply fixable_members in H. destruct H as [c [Hc [-> _]]].
  unfold FedChecker.dict_values in Hc. apply in_map_iff in Hc.
  destruct Hc as [[k v] [<- Hkv]]. rewrite Forall_forall in W.
  destruct (W _ Hkv) as [E I]. cbn [fst snd] in *. rewrite <- E.
  unfold known_category. apply existsb_exists. exists k.
  split; [exact I | apply String.eqb_refl].
Qed.

Lemma filter_all {A : Type} (p : A -> bool) (xs : list A) :
  Forall (fun x => p x = true) xs -> filter p xs = xs.
Proof.
  induction 1 as [| x xs Px _ IH]; [reflexivity |].
  simpl. now rewrite Px, IH.
Qed.

Lemma run_auto_fix_unfold {M : Type} (h : Host M) (self : FedChecker.Store)
    (w : World M) :
  FedChecker._run_auto_fix h self w
  = if negb (nonempty self) then (Returned FedChecker.NoChecksYet, self, w)
    else if negb (nonempty (FedChecker.fixable self))
    then (Returned FedChecker.NothingToFix, self, w)
    else
      let w1 := mkWorld (machine w) (calls w)
                  (asked w ++ [FedChecker.attempt_prompt]) in
      if negb (answer h (length (asked w)) FedChecker.attempt_prompt)
      then (Returned (FedChecker.NotAttempted
                        (FedChecker.issue_rows (FedChecker.fixable self))),
            self, w1)
      else
        match FedChecker.fix_each h (FedChecker.fixable self) 0 0 w1 with
        | (Returned counts, w2) =>
            (Returned (FedChecker.Attempted
                         (FedChecker.issue_rows (FedChecker.fixable self))
                         (fst counts) (snd counts)),
             self, w2)
        | (Raised e, w2) => (Raised e, self, w2)
        end.
Proof.
  unfold FedChecker._run_auto_fix, FedChecker.bindA, FedChecker.check_results,
    FedChecker.pure, FedChecker.lift, Confirm_ask.
  destruct (negb (nonempty self)); [reflexivity |].
  destruct (negb (nonempty (FedChecker.fixable self))); [reflexivity |].
  cbv zeta.
  destruct (negb (answer h (length (asked w)) FedChecker.attempt_prompt));
    [reflexivity |].
  destruct (FedChecker.fix_each h (FedChecker.fixable self) 0 0 _)
    as [[counts | e] w2]; reflexivity.
Qed.

Lemma nonempty_false {A : Type} (xs : list A) : nonempty xs = false <-> xs = [].
Proof. destruct xs; split; intros H; try reflexivity; discriminate H. Qed.

(** Fixing in bulk needs an issue and the consent of the user.  The issues
    offered are the results in the store that are fixable and are a Fail or
    a Warn.  When there is none, nothing is asked and nothing is run; when
    the user declines the question, it is the only prompt shown and nothing
    is run.  In no case are the stored results changed, so an issue that was
    fixed is offered again until its check is run again. *)
Theorem auto_fix_needs_issues_and_consent {M : Type} (h : Host M)
    (self : FedChecker.Store) (w : World M) :
  (forall n r,
      In (n, r) (FedChecker.fixable self)
      <-> exists c, In c (FedChecker.dict_values self)
                    /\ n = cat_name c /\ In r (results c)
                    /\ fix_available r = true
                    /\ (status r = FAIL \/ status r = WARN))
  /\ (FedChecker.fixable self = [] ->
      FedChecker._run_auto_fix h self w
      = (Returned (if nonempty self then FedChecker.NothingToFix
                   else FedChecker.NoChecksYet), self, w))
  /\ (FedChecker.fixable self <> [] ->
      answer h (length (asked w)) FedChecker.attempt_prompt = false ->
      FedChecker._run_auto_fix h self w
      = (Returned (FedChecker.NotAttempted
                     (FedChecker.issue_rows (FedChecker.fixable self))),
         self,
         mkWorld (machine w) (calls w)
           (asked w ++ [FedChecker.attempt_prompt])))
  /\ snd (fst (FedChecker._run_auto_fix h self w)) = self.
Proof.
  split; [intros n r; apply fixable_members |].
  rewrite run_auto_fix_unfold.
  split; [| split].
  - intros E. rewrite E. destruct self; reflexivity.
  - intros N D.
    assert (S : self <> []) by (intros ->; apply N; reflexivity).
    destruct self as [| kv self]; [now elim S |].
    destruct (FedChecker.fixable (kv :: self)) eqn:F; [now elim N |].
    cbn [nonempty negb]. cbv zeta. rewrite D. reflexivity.
  - destruct (negb (nonempty self)); [reflexivity |].
    destruct (negb (nonempty (FedChecker.fixable self))); [reflexivity |].
    cbv zeta.
    destruct (negb (answer h (length (asked w)) FedChecker.attempt_prompt));
      [reflexivity |].
    destruct (FedChecker.fix_each h (FedChecker.fixable self) 0 0 _)
      as [[counts | e] w2]; reflexivity.
Qed.

(** When the attempt is made and comes to its end, each issue of one of the
    four categories is counted once, as fixed or as failed: in a store
    filled by the application the two counts add up to the number of issues
    offered. *)
Theorem auto_fix_counts_every_issue {M : Type} (h : Host M)
    (self self' : FedChecker.Store) (w w' : World M)
    (rows : list (string * string * string * string)) (fixed failed : nat) :
  FedChecker._run_auto_fix h self w
  = (Returned (FedChecker.Attempted rows fixed failed), self', w') ->
  rows = FedChecker.issue_rows (FedChecker.fixable self)
  /\ length rows = length (FedChecker.fixable self)
  /\ (fixed + failed
      = length (filter (fun ir => known_category (fst ir))
                  (FedChecker.fixable self)))%nat
  /\ (well_keyed self ->
      (fixed + failed = length (FedChecker.fixable self))%nat).
Proof.
  rewrite run_auto_fix_unfold. intros H.
  destruct (negb (nonempty self)); [discriminate H |].
  destruct (negb (nonempty (FedChecker.fixable self))); [discriminate H |].
  cbv zeta in H.
  destruct (negb (answer h (length (asked w)) FedChecker.attempt_prompt));
    [discriminate H |].
  destruct (FedChecker.fix_each h (FedChecker.fixable self) 0 0 _)
    as [[[n m] | e] w2] eqn:E; [| discriminate H].
  injection H as <- <- <- _ _. cbn [fst snd].
  apply fix_each_counts in E.
  split; [reflexivity |].
  split.
  { unfold FedChecker.issue_rows. rewrite length_map, length_combine, length_seq.
    apply Nat.min_id. }
  split; [lia |].
  intros W. rewrite (filter_all _ _ (well_keyed_known self W)) in E. lia.
Qed.

Lemma auto_fix_counts_disk_full :
  exists w',
    FedChecker._run_auto_fix (scripted_host (fun _ => true) (fun _ => true))
      disk_full_store fresh
    = (Returned
         (FedChecker.Attempted
            [("1", "Health", "Disk Space", StatusIcon.FAIL)] 1 0),
       disk_full_store, w')
    /\ (1 + 0 = length (FedChecker.fixable disk_full_store))%nat.
Proof.
  eexists. split; [vm_compute; reflexivity |].
  refine (proj1 (proj2 (proj2
    (auto_fix_counts_every_issue (scripted_host (fun _ => true) (fun _ => true))
       disk_full_store disk_full_store fresh _ _ 1 0 _))) ).
  vm_compute. reflexivity.
Defined.

(** *** Consent in bulk is not consent to a fix *)

Lemma generic_fix_declined_here {M : Type} (h : Host M)
    (run : list string -> bool -> Fix M (bool * string)) (r : CheckResult)
    (w : World M) :
  (forall k, answer h k (command_prompt r) = false) ->
  exists w', generic_fix h run r w = (Returned None, w') /\ only_asked w w'.
Proof.
  intros D. unfold generic_fix.
  destruct (PyStr.truthy (fix_command r)).
  - unfold bindF, Confirm_ask.
    change ("Run fix command for [bold]" ++ name r ++ "[/]?" ++ PyStr.LF
            ++ "[dim]" ++ fix_command r ++ "[/]")
      with (command_prompt r).
    rewrite D. unfold ret.
    eexists. split; [reflexivity | split; reflexivity].
  - exists w. split; [reflexivity | split; reflexivity].
Qed.

Lemma dispatch_declined_here {M : Type} (h : Host M)
    (run : list string -> bool -> Fix M (bool * string))
    (fix_map : list (string * Fix M FixResult)) (r : CheckResult) (w : World M) :
  (forall k, answer h k (handler_prompt r) = false) ->
  (forall k, answer h k (command_prompt r) = false) ->
  exists w', dispatch h run fix_map r w = (Returned None, w') /\ only_asked w w'.
Proof.
  intros D1 D2. unfold dispatch.
  destruct (fix_map_get fix_map (name r)) as [fix_func |].
  - unfold bindF at 1. unfold Confirm_ask at 1.
    change ("Apply fix for [bold]" ++ name r ++ "[/]?") with (handler_prompt r).
    rewrite D1.
    destruct (generic_fix_declined_here h run r
                (mkWorld (machine w) (calls w) (asked w ++ [handler_prompt r])) D2)
      as [w' [E [A B]]].
    exists w'. split; [exact E | split; [exact A | exact B]].
  - exact (generic_fix_declined_here h run r w D2).
Qed.

(** A fixer of the application, given a result whose two prompts the user
    declines, runs nothing; for the driver fixer the message must not
    mention a blocked device. *)
Lemma fixer_declined {M : Type} (h : Host M)
    (f : CheckResult -> Fix M (option FixResult)) (r : CheckResult) (w : World M) :
  In f [HealthFixer.apply_fix h; DriverFixer.apply_fix h;
        SecurityFixer.apply_fix h; DesktopFixer.apply_fix h] ->
  declines_fixes h ->
  says_blocked r = false ->
  exists w', f r w = (Returned None, w') /\ only_asked w w'.
Proof.
  intros I D B.
  assert (D1 : forall k, answer h k (handler_prompt r) = false)
    by (intros k; apply D).
  assert (D2 : forall k, answer h k (command_prompt r) = false)
    by (intros k; apply D).
  assert (N : exists w', @ret M _ (@None FixResult) w = (Returned None, w')
                         /\ only_asked w w')
    by (exists w; split; [reflexivity | split; reflexivity]).
  destruct I as [<- | [<- | [<- | [<- | []]]]].
  - unfold HealthFixer.apply_fix. destruct (fix_available r); cbn [negb];
      [apply dispatch_declined_here; assumption | exact N].
  - unfold DriverFixer.apply_fix. unfold says_blocked in B. rewrite B.
    destruct (fix_available r); cbn [negb];
      [apply dispatch_declined_here; assumption | exact N].
  - unfold SecurityFixer.apply_fix. destruct (fix_available r); cbn [negb];
      [apply dispatch_declined_here; assumption | exact N].
  - unfold DesktopFixer.apply_fix. destruct (fix_available r); cbn [negb];
      [apply dispatch_declined_here; assumption | exact N].
Qed.

Lemma fix_each_declined {M : Type} (h : Host M)
    (issues : list (string * CheckResult)) :
  declines_fixes h ->
  Forall (fun ir => known_category (fst ir) = true) issues ->
  Forall (fun ir => says_blocked (snd ir) = false) issues ->
  forall (fixed failed : nat) (w : World M),
    exists w',
      FedChecker.fix_each h issues fixed failed w
      = (Returned (fixed, (failed + length issues)%nat), w')
      /\ only_asked w w'.
Proof.
  intros D K B. induction issues as [| [c r] issues IH]; intros fixed failed w.
  - exists w. cbn. rewrite Nat.add_0_r. split; [reflexivity | split; reflexivity].
  - inversion K as [| ? ? Kc Ks]; subst. inversion B as [| ? ? Br Bs]; subst.
    cbn [fst snd] in Kc, Br.
    destruct (known_fixer h c Kc) as [f [E I]].
    destruct (fixer_declined h f r w I D Br) as [w1 [F [A1 A2]]].
    destruct (IH Ks Bs fixed (failed + 1)%nat w1) as [w2 [G [A3 A4]]].
    exists w2. cbn [FedChecker.fix_each]. rewrite E. unfold bindF. rewrite F.
    rewrite G. cbn [length].
    replace (failed + 1 + length issues)%nat with (failed + S (length issues))%nat
      by lia.
    split; [reflexivity |].
    split; [now rewrite A3 | now rewrite A4].
Qed.

(** Confirming the question of [_run_auto_fix] confirms no fix: each fixer
    asks again for its result.  For a user who confirms that question and
    declines the prompts of the fixers, no command is run, the machine is
    left as it was, and every issue is reported as failed, as long as no
    message mentions a blocked device. *)
Theorem bulk_consent_is_not_enough {M : Type} (h : Host M)
    (self : FedChecker.Store) (w : World M) :
  well_keyed self ->
  FedChecker.fixable self <> [] ->
  Forall (fun ir => says_blocked (snd ir) = false) (FedChecker.fixable self) ->
  answer h (length (asked w)) FedChecker.attempt_prompt = true ->
  declines_fixes h ->
  exists w',
    FedChecker._run_auto_fix h self w
    = (Returned (FedChecker.Attempted
                   (FedChecker.issue_rows (FedChecker.fixable self))
                   0 (length (FedChecker.fixable self))),
       self, w')
    /\ only_asked w w'.
Proof.
  intros W N B Y D. rewrite run_auto_fix_unfold.
  assert (S : self <> []) by (intros ->; apply N; reflexivity).
  destruct self as [| kv self]; [now elim S |].
  destruct (FedChecker.fixable (kv :: self)) as [| i rest] eqn:F; [now elim N |].
  cbn [nonempty negb]. cbv zeta. rewrite Y. cbn [negb].
  pose proof (well_keyed_known _ W) as K. rewrite F in K.
  destruct (fix_each_declined h (i :: rest) D K B 0%nat 0%nat
              (mkWorld (machine w) (calls w)
                 (asked w ++ [FedChecker.attempt_prompt])))
    as [w' [E [A1 A2]]].
  rewrite E. exists w'. split; [reflexivity |].
  split; [exact A1 | exact A2].
Qed.

Lemma bulk_consent_is_not_enough_disk_full :
  exists w',
    FedChecker._run_auto_fix consents_in_bulk disk_full_store fresh
    = (Returned (FedChecker.Attempted
                   [("1", "Health", "Disk Space", StatusIcon.FAIL)] 0 1),
       disk_full_store, w')
    /\ only_asked fresh w'.
Proof.
  refine (bulk_consent_is_not_enough consents_in_bulk disk_full_store fresh
            _ _ _ _ _).
  - split.
    + repeat constructor. intros [].
    + repeat constructor.
  - discriminate.
  - repeat constructor.
  - reflexivity.
  - intros k r. split; reflexivity.
Defined.

(** ** The application: the store of categories *)

Lemma dict_get_set_same (d : FedChecker.Store) (k : string) (v : CheckCategory) :
  FedChecker.dict_get (FedChecker.dict_set d k v) k = Some v.
Proof.
  unfold FedChecker.dict_get, fix_map_get.
  induction d as [| [k0 v0] d IH]; simpl.
  - now rewrite String.eqb_refl.
  - destruct (String.eqb k0 k) eqn:E; simpl; rewrite E; [reflexivity | exact IH].
Qed.

Lemma dict_get_set_other (d : FedChecker.Store) (k k' : string) (v : CheckCategory) :
  k' <> k ->
  FedChecker.dict_get (FedChecker.dict_set d k v) k' = FedChecker.dict_get d k'.
Proof.
  intros N. unfold FedChecker.dict_get, fix_map_get.
  induction d as [| [k0 v0] d IH]; simpl.
  - destruct (String.eqb k k') eqn:E; [| reflexivity].
    apply String.eqb_eq in E. now elim N.
  - destruct (String.eqb k0 k) eqn:E; simpl.
    + apply String.eqb_eq in E. subst k0.
      destruct (String.eqb k k') eqn:E'; [| reflexivity].
      apply String.eqb_eq in E'. now elim N.
    + destruct (String.eqb k0 k'); [reflexivity | exact IH].
Qed.

Lemma dict_set_members (d : FedChecker.Store) (k : string) (v : CheckCategory)
    (kv : string * CheckCategory) :
  In kv (FedChecker.dict_set d k v) -> kv = (k, v) \/ In kv d.
Proof.
  induction d as [| [k0 v0] d IH]; simpl.
  - intros [<- | []]. now left.
  - destruct (String.eqb k0 k) eqn:E; simpl.
    + apply String.eqb_eq in E. subst k0. intros [<- | H]; auto.
    + intros [<- | H]; [auto |]. destruct (IH H); auto.
Qed.

Lemma dict_set_keys (d : FedChecker.Store) (k : string) (v : CheckCategory) :
  FedChecker.dict_keys (FedChecker.dict_set d k v)
  = if existsb (String.eqb k) (FedChecker.dict_keys d)
    then FedChecker.dict_keys d
    else (FedChecker.dict_keys d ++ [k])%list.
Proof.
  unfold FedChecker.dict_keys.
  induction d as [| [k0 v0] d IH]; simpl; [reflexivity |].
  rewrite (String.eqb_sym k k0).
  destruct (String.eqb k0 k) eqn:E; simpl.
  - apply String.eqb_eq in E. now subst k0.
  - rewrite IH. destruct (existsb (String.eqb k) (map fst d)); reflexivity.
Qed.

Lemma dict_get_key (d : FedChecker.Store) (k : string) (v : CheckCategory) :
  FedChecker.dict_get d k = Some v -> In k (FedChecker.dict_keys d).
Proof.
  unfold FedChecker.dict_get, fix_map_get, FedChecker.dict_keys.
  induction d as [| [k0 v0] d IH]; simpl; [intros H; discriminate H |].
  destruct (String.eqb k0 k) eqn:E.
  - apply String.eqb_eq in E. auto.
  - intros H. right. exact (IH H).
Qed.

Lemma well_keyed_set (d : FedChecker.Store) (k : string) (v : CheckCategory) :
  well_keyed d -> k = cat_name v -> In k category_names ->
  well_keyed (FedChecker.dict_set d k v).
Proof.
  intros [N F] E I. split.
  - rewrite dict_set_keys.
    destruct (existsb (String.eqb k) (FedChecker.dict_keys d)) eqn:X;
      [exact N |].
    apply NoDup_app; [exact N | repeat constructor; intros [] |].
    intros x Hx [Ex | []]. subst x.
    assert (Y : existsb (String.eqb k) (FedChecker.dict_keys d) = true).
    { apply existsb_exists. exists k. split; [exact Hx | apply String.eqb_refl]. }
    rewrite Y in X. discriminate X.
  - apply Forall_forall. intros kv H. apply dict_set_members in H.
    destruct H as [-> | H]; [split; assumption |].
    rewrite Forall_forall in F. exact (F kv H).
Qed.

Lemma well_keyed_length (d : FedChecker.Store) :
  well_keyed d -> (length d <= 4)%nat.
Proof.
  intros [N F].
  assert (L : (length (FedChecker.dict_keys d) <= length category_names)%nat).
  { apply NoDup_incl_length; [exact N |].
    intros k Hk. unfold FedChecker.dict_keys in Hk. apply in_map_iff in Hk.
    destruct Hk as [kv [<- Hkv]]. rewrite Forall_forall in F.
    exact (proj2 (F kv Hkv)). }
  unfold FedChecker.dict_keys in L. rewrite length_map in L. exact L.
Qed.

Lemma run_named_name (sys : System) (n : string) (o : Outcome CheckCategory)
    (c : CheckCategory) :
  In (n, o) (run_named sys) -> o = Returned c ->
  n = cat_name c /\ In n category_names.
Proof.
  intros I E. subst o.
  destruct I as [I | [I | [I | [I | []]]]]; injection I as <- I.
  - apply finish_checks_returned in I. destruct I as [-> _].
    split; [reflexivity | cbn; tauto].
  - apply finish_checks_returned in I. destruct I as [-> _].
    split; [reflexivity | cbn; tauto].
  - apply finish_checks_returned in I. destruct I as [-> _].
    split; [reflexivity | cbn; tauto].
  - rewrite desktop_run_fst in I.
    apply finish_checks_returned in I. destruct I as [-> _].
    split; [reflexivity | cbn; tauto].
Qed.

Lemma check_action_runs {M : Type}
    (console_print : FedChecker.Renderable -> Outcome unit) (sys : System) (n : string)
    (act : FedChecker.App M unit) :
  In (n, act) (check_actions console_print sys) ->
  exists o, In (n, o) (run_named sys)
            /\ act = FedChecker.bindA (FedChecker.checked o)
                       (FedChecker._display_category_results console_print).
Proof.
  intros [I | [I | [I | [I | []]]]]; injection I as <- <-;
    eexists; (split; [| reflexivity]); cbn; tauto.
Qed.

(** A check action of the menu stores the category its checker returns
    under the name of the category, in place of the one stored before under
    that name, and leaves the other entries as they are: the store holds at
    most the four categories, each as its last run gave it.  It then prints
    the table, one row per result, and the summary; when a print raises, the
    exception leaves the action with the category stored.  The action
    changes nothing outside the store, and when the checker raises, the
    store is as it was. *)
Theorem checks_fill_the_store {M : Type}
    (console_print : FedChecker.Renderable -> Outcome unit) (sys : System) (n : string)
    (act : FedChecker.App M unit) (self : FedChecker.Store) (w : World M) :
  In (n, act) (check_actions console_print sys) ->
  well_keyed self ->
  exists o,
    In (n, o) (run_named sys)
    /\ match o with
       | Returned c =>
           exists self',
             act self w
             = (match console_print (FedChecker.results_table c) with
                | Returned _ => console_print (FedChecker.summary_panel c)
                | Raised e => Raised e
                end, self', w)
             /\ well_keyed self'
             /\ (length self' <= 4)%nat
             /\ FedChecker.dict_get self' n = Some c
             /\ (forall k, k <> n ->
                   FedChecker.dict_get self' k = FedChecker.dict_get self k)
             /\ length (table_rows (FedChecker.results_table c)) = total c
       | Raised e => act self w = (Raised e, self, w)
       end.
Proof.
  intros I W. destruct (check_action_runs console_print sys n act I) as [o [Io ->]].
  exists o. split; [exact Io |].
  destruct o as [c | e]; [| reflexivity].
  destruct (run_named_name sys n _ c Io eq_refl) as [E K].
  assert (W' : well_keyed (FedChecker.dict_set self (cat_name c) c))
    by (apply well_keyed_set; [exact W | reflexivity | now rewrite <- E]).
  exists (FedChecker.dict_set self (cat_name c) c).
  split.
  { unfold FedChecker.bindA, FedChecker.checked, FedChecker._display_category_results,
      FedChecker.store.
    destruct (console_print (FedChecker.results_table c)) as [[] | e1]; reflexivity. }
  split; [exact W' |].
  split; [exact (well_keyed_length _ W') |].
  rewrite E.
  split; [apply dict_get_set_same |].
  split; [intros k N; now apply dict_get_set_other |].
  cbn [table_rows FedChecker.results_table]. apply length_map.
Qed.

Lemma checks_fill_the_store_first_run :
  exists o,
    In ("Driver Check", o) (run_named blocked_wifi_system)
    /\ match o with
       | Returned c =>
           exists self',
             FedChecker._run_driver_check (rejecting_console markup_error)
               blocked_wifi_system FedChecker.init fresh
             = (match rejecting_console markup_error (FedChecker.results_table c) with
                | Returned _ =>
                    rejecting_console markup_error (FedChecker.summary_panel c)
                | Raised e => Raised e
                end, self', fresh)
             /\ well_keyed self'
             /\ (length self' <= 4)%nat
             /\ FedChecker.dict_get self' "Driver Check" = Some c
             /\ (forall k, k <> "Driver Check" ->
                   FedChecker.dict_get self' k
                   = FedChecker.dict_get FedChecker.init k)
             /\ length (table_rows (FedChecker.results_table c)) = total c
       | Raised e =>
           FedChecker._run_driver_check (rejecting_console markup_error)
             blocked_wifi_system FedChecker.init fresh
           = (Raised e, FedChecker.init, fresh)
       end.
Proof.
  apply (checks_fill_the_store (rejecting_console markup_error)
           blocked_wifi_system "Driver Check"
           (FedChecker._run_driver_check (rejecting_console markup_error)
              blocked_wifi_system)
           FedChecker.init fresh).
  - cbn. tauto.
  - split; constructor.
Defined.

(** A run of the driver check whose table Rich cannot print: the exception
    leaves the action, and the category is in the store. *)
Example driver_check_print_raises :
  fst (fst (FedChecker._run_driver_check (rejecting_console markup_error)
              blocked_wifi_system FedChecker.init fresh))
  = Raised markup_error
  /\ FedChecker.dict_keys
       (snd (fst (FedChecker._run_driver_check (rejecting_console markup_error)
                    blocked_wifi_system FedChecker.init fresh)))
     = ["Driver Check"]
  /\ fst (fst (FedChecker._run_driver_check quiet_console
                 blocked_wifi_system FedChecker.init fresh))
     = Returned tt.
Proof. vm_compute. repeat split. Qed.

(** ** The application: the report *)

Section Report.
Context {M : Type} (h : Host M).
Variable sys : System.
Variable generate : list CheckCategory -> M -> Outcome string * M.
Variable xdg_open : string -> M -> M.

Lemma run_all_for_report_returned (self self' : FedChecker.Store)
    (w w' : World M) :
  @FedChecker.run_all_for_report M sys self w = (Returned tt, self', w') ->
  w' = w
  /\ exists c1 c2 c3 c4,
       run_named sys
       = [ ("Health Check", Returned c1); ("Driver Check", Returned c2);
           ("Security Check", Returned c3); ("Desktop Check", Returned c4) ]
       /\ self'
          = FedChecker.dict_set
              (FedChecker.dict_set
                 (FedChecker.dict_set
                    (FedChecker.dict_set self "Health Check" c1)
                    "Driver Check" c2)
                 "Security Check" c3)
              "Desktop Check" c4.
Proof.
  unfold FedChecker.run_all_for_report, run_named, FedChecker.bindA,
    FedChecker.checked, FedChecker.store.
  destruct (fst (HealthChecker.run_all_checks HealthChecker.init sys))
    as [c1 | e]; [| intros H; discriminate H].
  destruct (fst (DriverChecker.run_all_checks DriverChecker.init sys))
    as [c2 | e]; [| intros H; discriminate H].
  destruct (fst (SecurityChecker.run_all_checks SecurityChecker.init sys))
    as [c3 | e]; [| intros H; discriminate H].
  destruct (fst (DesktopChecker.run_all_checks (DesktopChecker.init sys) sys))
    as [c4 | e]; [| intros H; discriminate H].
  intros H. injection H as <- <-.
  split; [reflexivity |]. exists c1, c2, c3, c4. split; reflexivity.
Qed.

Lemma run_all_for_report_unit (self : FedChecker.Store) (w : World M) :
  forall u self' w',
    @FedChecker.run_all_for_report M sys self w = (Returned u, self', w') ->
    u = tt.
Proof. intros [] ? ? _. reflexivity. Qed.

Lemma report_tail_returned (self self' : FedChecker.Store) (w w' : World M)
    (res : FedChecker.Reported) :
  report_tail h generate xdg_open self w = (Returned res, self', w') ->
  self' = self
  /\ calls w' = calls w
  /\ match res with
     | FedChecker.NoData => self = [] /\ w' = w
     | FedChecker.Generated categories output_path =>
         categories = FedChecker.dict_values self
         /\ categories <> []
         /\ fst (generate categories (machine w)) = Returned output_path
         /\ asked w' = (asked w ++ ["Open the report now?"])%list
     end.
Proof.
  unfold report_tail, FedChecker.bindA, FedChecker.check_results,
    FedChecker.pure, FedChecker.generator_generate, FedChecker.lift,
    FedChecker.open_report, Confirm_ask.
  cbv zeta.
  destruct self as [| kv self].
  - cbn. intros H. injection H as <- <- <-. repeat split; reflexivity.
  - cbn [FedChecker.dict_values map nonempty negb].
    destruct (generate (snd kv :: map snd self) (machine w)) as [[p | e] m']
      eqn:G; [| intros H; discriminate H].
    cbn [machine calls asked].
    destruct (answer h (length (asked w)) "Open the report now?");
      intros H; injection H as <- <- <-; cbn;
        (split; [reflexivity |]); (split; [reflexivity |]);
        (split; [reflexivity |]); (split; [discriminate |]);
        (split; [| reflexivity]);
        change (snd kv :: map snd self) with (map snd (kv :: self)) in G;
        cbn [map] in G; rewrite G; reflexivity.
Qed.

Lemma generate_report_unfold (self : FedChecker.Store) (w : World M) :
  FedChecker._generate_report h sys generate xdg_open self w
  = if (length self <? 4)%nat then
      let w1 := mkWorld (machine w) (calls w)
                  (asked w ++ ["Run all checks to generate complete report?"]) in
      if answer h (length (asked w)) "Run all checks to generate complete report?"
      then
        match @FedChecker.run_all_for_report M sys self w1 with
        | (Returned _, self1, w2) => report_tail h generate xdg_open self1 w2
        | (Raised e, self1, w2) => (Raised e, self1, w2)
        end
      else report_tail h generate xdg_open self w1
    else report_tail h generate xdg_open self w.
Proof.
  unfold FedChecker._generate_report.
  change (FedChecker.bindA FedChecker.check_results _ self w)
    with ((fun s : FedChecker.Store =>
             FedChecker.bindA
               (if negb (nonempty s) || (length s <? 4)%nat
                then FedChecker.bindA
                       (FedChecker.lift
                          (Confirm_ask h
                             "Run all checks to generate complete report?"))
                       (fun yes =>
                          if yes then FedChecker.run_all_for_report sys
                          else FedChecker.pure tt)
                else FedChecker.pure tt)
               (fun _ => report_tail h generate xdg_open)) self self w).
  cbv beta.
  assert (E : negb (nonempty self) || (length self <? 4)%nat
              = (length self <? 4)%nat).
  { destruct self as [| kv self]; [reflexivity |]. reflexivity. }
  rewrite E. destruct (length self <? 4)%nat; [| reflexivity].
  unfold FedChecker.bindA at 1 2. unfold FedChecker.lift, Confirm_ask.
  cbv zeta.
  destruct (answer h (length (asked w))
              "Run all checks to generate complete report?"); reflexivity.
Qed.

Lemma four_keys (self : FedChecker.Store) (c1 c2 c3 c4 : CheckCategory) :
  well_keyed self ->
  "Health Check" = cat_name c1 -> "Driver Check" = cat_name c2 ->
  "Security Check" = cat_name c3 -> "Desktop Check" = cat_name c4 ->
  let self' :=
    FedChecker.dict_set
      (FedChecker.dict_set
         (FedChecker.dict_set
            (FedChecker.dict_set self "Health Check" c1)
            "Driver Check" c2)
         "Security Check" c3)
      "Desktop Check" c4 in
  well_keyed self'
  /\ length self' = 4%nat
  /\ FedChecker.dict_get self' "Health Check" = Some c1
  /\ FedChecker.dict_get self' "Driver Check" = Some c2
  /\ FedChecker.dict_get self' "Security Check" = Some c3
  /\ FedChecker.dict_get self' "Desktop Check" = Some c4.
Proof.
  intros W E1 E2 E3 E4 self'.
  assert (W' : well_keyed self').
  { unfold self'. repeat apply well_keyed_set; try assumption; cbn; tauto. }
  assert (G1 : FedChecker.dict_get self' "Health Check" = Some c1).
  { unfold self'. rewrite !dict_get_set_other by discriminate.
    apply dict_get_set_same. }
  assert (G2 : FedChecker.dict_get self' "Driver Check" = Some c2).
  { unfold self'. rewrite !dict_get_set_other by discriminate.
    apply dict_get_set_same. }
  assert (G3 : FedChecker.dict_get self' "Security Check" = Some c3).
  { unfold self'. rewrite !dict_get_set_other by discriminate.
    apply dict_get_set_same. }
  assert (G4 : FedChecker.dict_get self' "Desktop Check" = Some c4).
  { unfold self'. apply dict_get_set_same. }
  repeat split; try assumption; try apply W'.
  apply Nat.le_antisymm; [exact (well_keyed_length _ W') |].
  assert (L : (length category_names <= length (FedChecker.dict_keys self'))%nat).
  { apply NoDup_incl_length.
    - repeat constructor; cbn; intuition discriminate.
    - intros k [<- | [<- | [<- | [<- | []]]]].
      + exact (dict_get_key _ _ _ G1).
      + exact (dict_get_key _ _ _ G2).
      + exact (dict_get_key _ _ _ G3).
      + exact (dict_get_key _ _ _ G4). }
  unfold FedChecker.dict_keys in L. rewrite length_map in L. exact L.
Qed.

(** The report is made from the store.  With fewer than four categories
    stored the user is asked whether to run all checks; on a yes the four
    checkers are run anew and the report covers exactly the four
    categories, each as this run gave it.  Otherwise the store is left as
    it is.  The generator is handed the categories of the store in the
    order of their first run, and never an empty list: an empty store ends
    in [No check data available] without a call of the generator. *)
Theorem report_of_the_store (self self' : FedChecker.Store) (w w' : World M)
    (res : FedChecker.Reported) :
  well_keyed self ->
  FedChecker._generate_report h sys generate xdg_open self w
  = (Returned res, self', w') ->
  well_keyed self'
  /\ calls w' = calls w
  /\ (if reruns h self w
      then length self' = 4%nat
           /\ Forall (fun no => exists c, snd no = Returned c
                                /\ FedChecker.dict_get self' (fst no) = Some c)
                (run_named sys)
      else self' = self)
  /\ match res with
     | FedChecker.NoData => self' = [] /\ machine w' = machine w
     | FedChecker.Generated categories output_path =>
         categories = FedChecker.dict_values self'
         /\ categories <> []
         /\ fst (generate categories (machine w)) = Returned output_path
     end.
Proof.
  intros W. rewrite generate_report_unfold. unfold reruns.
  destruct (length self <? 4)%nat; cbv zeta.
  - destruct (answer h (length (asked w))
                "Run all checks to generate complete report?"); cbn [andb].
    + destruct (FedChecker.run_all_for_report sys self _)
        as [[[u | e] self1] w2] eqn:R; [| intros H; discriminate H].
      pose proof (run_all_for_report_unit _ _ _ _ _ R) as ->.
      apply run_all_for_report_returned in R.
      destruct R as [-> [c1 [c2 [c3 [c4 [N ->]]]]]].
      assert (E1 : "Health Check" = cat_name c1)
        by (apply (run_named_name sys _ (Returned c1) c1);
            [rewrite N; cbn; tauto | reflexivity]).
      assert (E2 : "Driver Check" = cat_name c2)
        by (apply (run_named_name sys _ (Returned c2) c2);
            [rewrite N; cbn; tauto | reflexivity]).
      assert (E3 : "Security Check" = cat_name c3)
        by (apply (run_named_name sys _ (Returned c3) c3);
            [rewrite N; cbn; tauto | reflexivity]).
      assert (E4 : "Desktop Check" = cat_name c4)
        by (apply (run_named_name sys _ (Returned c4) c4);
            [rewrite N; cbn; tauto | reflexivity]).
      destruct (four_keys self c1 c2 c3 c4 W E1 E2 E3 E4)
        as [W' [L [G1 [G2 [G3 G4]]]]].
      intros H. apply report_tail_returned in H.
      destruct H as [-> [C T]].
      split; [exact W' |]. split; [exact C |].
      split.
      { split; [exact L |]. rewrite N.
        repeat constructor; eexists; (split; [reflexivity | assumption]). }
      destruct res as [| cats p].
      * destruct T as [T _]. rewrite T in L. discriminate L.
      * destruct T as [T1 [T2 [T3 _]]]. repeat split; assumption.
    + intros H. apply report_tail_returned in H. destruct H as [-> [C T]].
      split; [exact W |]. split; [exact C |]. split; [reflexivity |].
      destruct res as [| cats p].
      * destruct T as [T ->]. split; [exact T | reflexivity].
      * destruct T as [T1 [T2 [T3 _]]]. repeat split; assumption.
  - cbn [andb]. intros H. apply report_tail_returned in H.
    destruct H as [-> [C T]].
    split; [exact W |]. split; [exact C |]. split; [reflexivity |].
    destruct res as [| cats p].
    + destruct T as [T ->]. split; [exact T | reflexivity].
    + destruct T as [T1 [T2 [T3 _]]]. repeat split; assumption.
Qed.
End Report.

Lemma report_of_the_store_first_report :
  exists categories self' w',
    FedChecker._generate_report (scripted_host (fun _ => true) (fun _ => true))
      blocked_wifi_system (writes_to "report.pdf") opens_nothing
      FedChecker.init fresh
    = (Returned (FedChecker.Generated categories "report.pdf"), self', w')
    /\ length self' = 4%nat
    /\ categories = FedChecker.dict_values self'
    /\ categories <> [].
Proof.
  assert (E : exists c s w,
             FedChecker._generate_report
               (scripted_host (fun _ => true) (fun _ => true))
               blocked_wifi_system (writes_to "report.pdf") opens_nothing
               FedChecker.init fresh
             = (Returned (FedChecker.Generated c "report.pdf"), s, w))
    by (vm_compute; do 3 eexists; reflexivity).
  destruct E as [c [s [w E]]]. exists c, s, w.
  split; [exact E |].
  assert (W : well_keyed FedChecker.init) by (split; constructor).
  destruct (report_of_the_store (scripted_host (fun _ => true) (fun _ => true))
              blocked_wifi_system (writes_to "report.pdf") opens_nothing
              FedChecker.init s fresh w (FedChecker.Generated c "report.pdf")
              W E)
    as [_ [_ [R [T1 [T2 _]]]]].
  change (reruns (scripted_host (fun _ => true) (fun _ => true))
            FedChecker.init fresh) with true in R.
  split; [exact (proj1 R) |]. split; [exact T1 | exact T2].
Defined.
